(* ===== verification/_CoqProject ===== *)
-Q . S2P
Prelude.v
PyStr.v
PyStrFacts.v
PyUnicode.v
PyRegex.v
PyDict.v
Phases.v
BoardClock.v
BoardRecord.v
BoardParse.v
BoardClaims.v
BoardClosure.v
BoardGraph.v
BoardBlockers.v
Sha256.v
JournalFs.v
SafeId.v
JournalRecord.v
Journal.v
JournalApply.v
JournalFacts.v
JournalPlan.v
JournalRecovery.v
JournalCrash.v
JournalSafety.v
JournalRequest.v
Codec.v
Oracle.v
LogLine.v
LogHistory.v
LogVerdict.v
LogEvidence.v
LogLedger.v
LogLedgerFacts.v
LogCut.v
LogDigest.v
LogSamples.v
Attempt.v
AttemptFacts.v
LogRegression.v
Ownership.v
Iteration.v
StateDoc.v
StateDocFacts.v
StatePatch.v
StateWait.v
StateRemove.v
StateContract.v
StateIntent.v
AuditInbox.v
Router.v
RouterFacts.v
Gates.v
GateFacts.v
Assessment.v
Watchdog.v
Progress.v
Supervisor.v
Requires.v
IterationVerdict.v
Automation.v
Floor.v
FastCheck.v
FastCheckFacts.v
BoardEdit.v
BoardCompact.v
Transition.v
TransitionFacts.v
Checkpoint.v
CheckpointFacts.v
Claim.v
ClaimFacts.v
