(* ===== verification/Prelude.v ===== *)
(** * SAIPEN: a verification development of the protocol engine

    SAIPEN keeps the state of a software project in plain files: a board of
    tickets ([BOARD.md]), a phase and next action ([STATE.md]), an event log,
    and a journal of every mutation. The engine under [src/tools/saipen_engine/]
    reads and writes these files for several agents that share one directory.
    This library models its decision core and proves what makes it correct.

    ** The parts of the program

    - [phases.py] holds the phase automaton of [src/saipen/REGISTRY.json]: which
      phase may follow which, the shortest forward route, the one canonical
      next action of a phase.
    - [board.py] parses the board, checks it, classifies claims and blockers,
      and picks the next ticket an agent may work on. The commands call
      [parse_board], the checkers ([board_graph_errors],
      [board_semantic_errors], [closure_metadata_errors]) on what it returns,
      then [pick_next_work]; they write back through the field mutators.
    - [journal.py] makes a mutation of several files atomic. A command hands
      it a request (the targets with their new content), which
      [validate_mutation_request] checks; [run_mutation] writes a PREPARED
      record with the hashes of each target before and after, stages the
      contents, applies them in order, recording progress, and settles the
      record. After a crash [_recover_locked] rolls the operation forward or
      aborts it, from what the record and the live files say. It relies on
      [safeid.py] for identifiers that are safe as path components and on
      [paths.py] for the replacement of one file.
    - [log.py] keeps the history of the project: events appended one by one to
      the active segment [LOG.md], older segments sealed beside it. The commands
      render an event ([build_event], [prepare_bounded_event]) for the journal to
      write, read the history back as a snapshot, and judge tickets by the
      events of their current cycle. [codec.py] reads the bytes, [oracle.py]
      judges a red and a green run as one pair.
    - [attempt.py] folds the attempt events of the log into the records of the
      attempts on each ticket; [ownership.py] classifies who sits on the active
      ticket from the state and the board; [iteration.py] decides what a
      continuation turn does next.
    - [state.py] reads, checks and patches [STATE.md]: the frontmatter, the WAIT
      grammar of [next_action], the contract of all fields, the transition of
      the execution intent. [goal_authority.py] says which grants of continuation
      are well shaped and when a goal's budget is spent.
    - [router.py] answers what the project does next, by one ordered list of
      rules over the state, the board, the audit inbox and the source queue;
      then six gates read what only the file system knows and may withhold the
      answer. Three surfaces read the gated answer: the assessment of
      [continuation_assessment.py], the automation block of [automation.py] with
      the closure gate, and the verdict after a turn of [iteration_verdict.py],
      which also charges the executor for what the step requires.
    - [watchdog.py] keeps the lease of the one worker that may mutate,
      [supervisor.py] decides on the assessment, the lease and the tracker of
      [cold_recovery.py] whether a worker runs, waits or replaces another, and
      [worker.py] takes the authority that decision names.
    - [operations.py] turns a command into the texts it would write: it reads the
      three documents and the history, asks who holds the active ticket, checks
      what the command is entitled to, drafts the lines of the log, the fields of
      the state and the records of the board, and hands them to the write gate of
      [fast_check.py] ([validate_texts], over the independent scan of
      [floor.py]). Only a plan the gate is silent on becomes a request to the
      journal. [reconcile.py] says which blocker of the state is a live gate.
    - Around them: the operating-system lock, the command line, conformance and
      doctor reports. These are not modelled (see the end).

    ** The files of the library

    Foundations.
    - [Prelude]: the result type of fallible code, notation, hint databases and
      tactics, lemmas on lists and options all components use.
    - [PyStr], [PyStrFacts], [PyUnicode]: Python's [str] as code points, its
      methods, and the Unicode 14.0 tables they consult.
    - [PyRegex]: the fragment of [re] the engine uses, as a backtracking
      matcher that lists the outcomes of a pattern in the order [re] tries them.
    - [PyDict]: dictionaries in insertion order.
    - [Sha256]: the digest, executable.

    Phase automaton: [Phases], for [phases.py].

    Board, for [board.py].
    - [BoardClock]: [strict_iso_utc], [iso_utc_sort_key].
    - [BoardRecord]: the record boundary, the escaping of payload text,
      [set_ticket_field], [append_ticket_field] and their like.
    - [BoardParse]: [parse_board] and the ticket record.
    - [BoardClaims]: [claim_status], deferral, [ticket_is_workable],
      [pick_next_work].
    - [BoardClosure]: the checks of one ticket's lifecycle and closure fields.
    - [BoardGraph]: [board_graph_errors]; the search for [needs:] cycles is a
      machine [dfs_step] on an explicit stack, as in the code.
    - [BoardBlockers]: [_root_blockers], [classify_idle_work].

    Journal, for [journal.py], [safeid.py] and the file writer of [paths.py].
    - [JournalFs]: owned paths, the files of the project as a finite map, the
      operations on one file, the hashes of files, trees and listings.
    - [SafeId]: [validate_safe_id], [validate_op_id], [op_id_provenance].
    - [JournalRecord]: [decode_operation_record] with the progress sidecar, and
      the records the journal writes.
    - [Journal]: [Journal.mark], [reconcile_progress], [fold_progress],
      classification, deferral, [_recover_locked].
    - [JournalApply]: [run_mutation] from the validated request on.
    - [JournalRequest]: [validate_mutation_request].
    - [JournalFacts], [JournalPlan], [JournalRecovery]: the lemmas; what a
      change of one file does to the others, how far a plan got, and that replay
      and commit bring it to its end.
    - [JournalCrash], [JournalSafety]: the theorems on crashes and recovery.

    Event log, for [log.py] with [codec.py], [oracle.py] and the detail files of
    [log_compaction.py].
    - [Codec]: the decoder of canonical bytes. [Oracle]: the records of a
      regression and the verdict on them.
    - [LogLine]: the grammar of an event line, its renderer, the redaction of
      credentials, the writer with its byte cap.
    - [LogHistory]: the segments in order and the bytes of each.
    - [LogVerdict]: the texts that pass, fail or say nothing.
    - [LogEvidence]: the scans of a ticket's current cycle, one ticket at a time
      and for many in one pass, and those of the legacy generation.
    - [LogLedger]: the snapshot, the bounded summary, the contract of the ledger,
      the cut of a foreign tail. [LogLedgerFacts], [LogCut], [LogDigest] hold
      what is proved of them and [LogSamples] concrete ledgers.
    - [LogRegression]: the pair of runs a regression ticket owes.

    Attempts, seats and turns.
    - [Attempt] with [AttemptFacts]: the attempt events, their fold, contract,
      lineage and admission.
    - [Ownership]: [classify_active_ownership], the refusals that follow from it.
    - [Iteration]: the focus, the selection of a candidate, the decision of a turn.

    State document, for [state.py] and [goal_authority.py].
    - [StateDoc]: the frontmatter, coercion and rendering of scalars,
      [patch_state], [remove_state_fields]. [StateDocFacts], [StatePatch],
      [StateRemove] hold what is proved of them.
    - [StateWait]: the WAIT grammar, brakes, the pause of a goal's safety valve.
    - [StateContract]: [state_contract_errors] and [parse_state].
    - [StateIntent]: [transition_execution_intent].

    Routing, for [router.py], [audit_route.py], [audit_inbox.py],
    [continuation_assessment.py] and [automation.py].
    - [AuditInbox]: the projection of the inbox over classified layers, who owns
      continuation, and the detector of ignored audits.
    - [Router]: [route_next], a function for each rule, over the parsed
      documents ([parse_state_or_error], [parse_board]); [RouterFacts] holds what
      is proved of it and sample projects.
    - [Gates]: the six gates and their chain; what they read is the record
      [world]; [route_next_result], which asks for the document of a phase before
      the chain. [GateFacts]: what they withhold.
    - [Assessment]: [assess_continuation] and its classification.
    - [Automation]: the disposition of an answer, [closure_gate],
      [automation_block].

    Workers, for [watchdog.py], [supervisor.py], [worker.py], [cold_recovery.py]
    and [iteration_verdict.py].
    - [Watchdog]: the lease and its operations as functions on the content of the
      lease file, [step] the relation they make, [current_carrier] and
      [can_continue_claim].
    - [Progress]: the fingerprint of an observation, the tracker of progress.
    - [Supervisor]: [observe], [decide], [take_authority].
    - [Requires]: what a phase and a ticket require, what advertised tools grant.
    - [IterationVerdict]: [project_iteration_verdict].

    Operations, for [operations.py], [fast_check.py], [floor.py],
    [board_compaction.py] and parts of [reconcile.py], [retirement.py] and
    [goal_authority.py].
    - [Floor]: the scan of the raw texts without a parser.
    - [FastCheck]: the analysis of a log, [validate_texts], the read gate
      [validate_checkpoint_surface]; [FastCheckFacts]: a declarative reading of
      both.
    - [BoardEdit]: the edits of the board text and [next_ticket_id].
    - [BoardCompact]: the bounded line of a record over the live cap, the detail
      files that keep the complete one, the mutation of a board between two
      compactions ([_project_board_mutation]).
    - [Transition]: refusals, the seat of the active ticket, event lines, the
      goal budget, the blocker, [_plan_transition] and [transition_phase];
      [TransitionFacts]: what a plan proves.
    - [Checkpoint]: [_plan_checkpoint], [_state_only_plan] with the targets and
      preconditions its caller adds, the persisted stop and route, [defect_delta];
      [CheckpointFacts]: what they prove.
    - [Claim]: [_plan_claim], how a ticket in progress is adopted, taken over or
      refreshed and how a queued one is claimed; [ClaimFacts]: when a claim is
      planned, whose seat it may take and what it writes.

    ** What the theorems show

    - Crash safety ([JournalCrash.crash_recovery]), for plans that write and delete
      files on independent targets (no directory deletions, no releases) and whose
      dependencies and verifiers accept: from whatever durable state a crash of
      [execute] leaves, recovery ends with all the planned files or with none of
      them, but for one state, named in the theorem, between the two writes of
      [Journal.mark] that settle the record: there recovery refuses for good,
      with every target carried out ([JournalCrash.settlement_window] exhibits
      it). Recovery itself can be interrupted and started again, with the same
      one exception ([JournalCrash.recovery_restartable]).
    - Recovery of any journal, whatever its plan: it writes only the targets of
      the record, refuses a file in neither of its known states before it changes
      any file of the project, and what it reports as committed is on disk
      ([JournalSafety]). Recovery is not total: the two other theorems of that
      file show inputs on which it refuses or raises where the apply loop
      does not.
    - The gate and the decoder: an accepted request has distinct, owned,
      well-typed targets ([JournalRequest.validated_request_ok]); a decoded
      record is closed under the same conditions, a sidecar cannot settle an
      operation, and a written record is read back ([JournalRecord]). Two
      theorems of [JournalRequest] show what the gate lets through.
    - Board: parsing loses no record and yields well-formed tickets; a board the
      checkers find clean has acyclic, closed dependency, supersession and
      reservation graphs, and the cycle search terminates, is sound and is
      complete; [pick_next_work] is characterised by its precedence, the reserved
      child first, before the user's own tickets; written
      fields and descriptions are read back; the claim and deferral classifiers
      are exact; time stamps order as the instants they denote.
    - Phases: no route reaches SHIP but through VERIFY and REVIEW, the forward
      route is a legal path that ends in DONE, and the next action accepted for
      a phase is canonical.

    - Event log: the writer's line is within the byte cap and reads back as the
      next event with the tags it was given, if no tag holds a closing bracket,
      and with the redacted message or a reference to it; appending the next event keeps the contract of the
      ledger; the bounded summary agrees with the snapshot; a cut removes foreign
      lines only and its snapshot is what a reader sees afterwards; the bytes
      hashed determine the history unless a segment starts with a digit.
    - Evidence: a ticket is proven only by the newest decisive event of its own
      current cycle, the pass over many tickets gives each its own verdict, and
      a regression pair is a red and a later green run of one attempt.
    - Attempts and seats: whatever the history holds, the records of the fold are
      well formed; a silent contract means what it says; a new identifier is
      fresh; a broken seat is never carried forward.
    - State: a patch sets exactly the owned fields of a document in the shape the
      program writes, and [StatePatch] exhibits the shapes on which it does not;
      the contract is silent exactly on the fields a declarative specification
      calls valid, which in two clauses is looser than the schema the code names
      ([StateContract.schema_enums_are_not_mirrored]); the transition of the intent swaps one family for another; a
      proven pause stops every continuation.
    - Routing: what the router sends an agent to do, the seat, the claims and the
      board permit; a braked project is given no ticket; an idle answer with no
      ticket active means that nothing is workable; the inbox owns continuation exactly by its listed
      conditions. The gates only withhold, and withhold exactly when the project
      does not prove what they ask for ([GateFacts.delivered_exact]).
    - The surfaces: the assessment is actionable exactly for the answers that
      leave work; the closure gate is complete exactly by the conditions it
      evaluates, which are fewer than its comments list ([Automation]); the
      assessment and the automation block agree on who acts next but for two
      short lists of answers ([Automation.surfaces_agree]); a goal is reported
      complete only when nothing is left, and a turn is kicked exactly when work
      is left, nobody is owed an answer and the executor fits ([IterationVerdict]).
    - Workers: a fenced generation never mutates again, a lease is replaced only
      when it is dead, a worker that takes authority holds the lease it is told
      of; all this over any run of the lease operations, each of which reads and
      writes the file as one step. [Watchdog.late_beat_revives] shows what the
      heartbeat, which takes no lock, can do between two such steps. A loop is
      caught at its threshold; a parsed requirement reads back.

    - Operations: a transition is planned exactly when the seat is entitled to the
      edge, no live blocker holds the project and the texts pass the gate, and then
      writes what it owns and nothing else; a live gate is never cleared by a
      move, a wait of the operator survives it unless the goal budget trips or the
      router names the action of DONE, and the counters of a goal move by one at their edges and stop
      at the cap ([TransitionFacts]). A checkpoint moves only its own fields, an
      operation on the state alone keeps the seat, the persisted stop of the loop
      is true ([CheckpointFacts]). A claim takes no live seat but that of a fenced
      predecessor in the same run, and takes it whole ([ClaimFacts]). A new ticket number is fresh ([BoardEdit]).
    - Compaction: the complete line of a record that is shortened goes into a file
      the short line cites, and no other line changes; the needs and receipts stay
      complete, and no cut falls inside an authority token ([BoardCompact], which
      also exhibits a path that is cut).
    - The gates: the write gate is silent exactly on coherent documents, and what
      it let through the read gate accepts ([FastCheckFacts]).

    ** How the code is rendered

    - A function that raises returns [res E A]; [E] names the [raise], and the
      text of the message is left out when it is only for the reader.
    - The journal is a trace monad [Journal.M]: a computation reads a world,
      makes durable writes, each of which extends the trace, and returns or
      raises. A crash is a prefix of the trace. A write of one file is atomic,
      as [os.replace] is; the temporary files it may leave are not modelled.
      Staging, renaming and unlinking files of the journal itself succeed.
    - The file system has no symbolic links and no access rights. Its keys are
      resolved paths; [owned_target_path] normalises and refuses as the code. Where
      the code acts on [root / path] and checks the resolved path, the model acts
      on the resolved one; the parents of a file are made in one step.
    - The details of records that are already on disk, their integrity and the
      lineage behind them, are the argument [BoardCompact.detail_store]. The float
      product that sets the target of a part is taken at its floor.
    - JSON is modelled from the parsed document; the writer gives every key of
      the record and keeps no unknown key.
    - What recovery calls outside this model is the class [Journal.Host]: the
      verifiers and digests of other modules, lineage and the identity of the
      lock. Theorems hold for every host; [JournalCrash.sample_host] is one.
    - The wall clock is an argument, in microseconds.
    - No theorem assumes that digests do not collide: agreement is stated on
      the hash the record holds, or on content where the proof gives it.
    - What the routing surfaces read elsewhere is an argument: the projections of
      the inbox, the queue and the future gate; the verdict of reconciliation,
      the proof of a grant, the conformance decision and the readiness of a
      ticket ([Gates.world], where [None] stands for a reading that raised); the
      convergence verdict and the status of the transport. Texts that are only
      for a reader ([detail], [diagnostic]) are left out.
    - A planner is a function of the documents, the history and the stamps of the
      clock, which the code reads at several places (the record
      [Transition.clock]). It returns the texts to write, or where it stops: a
      refusal with its code, or what a callee raises ([Transition.stop]). What
      it asks of intake, of the evidence of a core unit, of executed regressions,
      of the acceptance contract and of the proof of a grant is the record
      [Transition.verdicts]; the store of debt snapshots is
      [Transition.debt_store]; the sentence of a defect, by which a repair is
      compared, is the argument [render] of [Checkpoint._state_only_plan]. The
      reader of the documents is modelled from the decoded texts on, as
      [read_state]: the other refusals of [_read] (files that cannot be decoded, a
      dead home, a parked DONE without evidence, a ledger that breaks its
      contract, a state that no operation wrote, an unproven grant) leave no
      plan, and the theorems are about documents that passed them.
    - The lease file is its parsed document or nothing: [None] stands for a
      missing file and for one that [_load] cannot read.
    - Fuel. [blocks] of SHA-256 runs on the length of the message, of which each
      step consumes a block; [strip_dot_slash] on the length of the path; the
      walk of a directory tree on one more than the longest path of the file
      map; [lineage_walk] on one more than the number of attempts; [chase] and
      the search of [BoardGraph] on the number of tickets or edges.
      [BoardGraph.needs_search_terminates], [BoardBlockers.root_blockers_exact]
      and [BoardGraph.supersession_chains_exact] prove the board's bounds enough.

    ** Not modelled yet, in the order planned

    - Journal: append intents, the idempotent retry of [run_mutation],
      [scan_pending] and [recovery_preflight] over several operations, the
      resolution of conflicts, the settled projection.
    - Board: [duplicate_records], the checks of detached ids, report rendering.
    - Log: the compaction of segments, the identity audit.
    - Compaction: reading a detail back, the lineage of details.
    - State: the reads of the running install and of a persisted home; the
      protocol major, the voice marker and the schema version are arguments.
    - Attempts and turns: the focus record on disk, handoffs, liveness.
    - Routing: the projections of the source queue and of a pending append, the
      proof of a grant ([goal_authority.prove]), closure readiness, convergence.
    - Workers: the classification of provider failures, the slices a worker
      serves.
    - Operations: the planners of attempts, handback, closing and moving
      tickets, supersession, retirement, user requests, goal and convergence
      intents, sealing and releases; the damage classes a repair may observe; the
      construction of the journal request from the planned texts.
    - Left out for good: processes and locks of the operating system
      ([lock.py], the mutex of [watchdog.py]), the command line, installers and
      reports. *)

From stdpp Require Export prelude gmap strings list.

(** ** The error type *)

(** Python code that raises is modelled by a sum: [Ok a] is the returned value
    and [Err e] the raised exception, with [e] saying which [raise] it was. *)
Inductive res (E A : Type) : Type :=
  | Ok (a : A)
  | Err (e : E).
Global Arguments Ok {E A} a.
Global Arguments Err {E A} e.

Global Instance res_ret {E} : MRet (res E) := λ A a, Ok a.
Global Instance res_bind {E} : MBind (res E) := λ A B f m,
  match m with Ok a => f a | Err e => Err e end.

Definition is_ok {E A} (r : res E A) : bool :=
  match r with Ok _ => true | Err _ => false end.

Lemma res_bind_Ok {E A B} (m : res E A) (f : A → res E B) b :
  (m ≫= f) = Ok b ↔ ∃ a, m = Ok a ∧ f a = Ok b.
Proof. destruct m; simpl; naive_solver. Qed.

(** ** Automation *)

Create HintDb saipen discriminated.
#[export] Hint Constants Transparent : saipen.

(** Split boolean conditions of the model into propositions. *)
Ltac bool_tac :=
  repeat match goal with
  | H : (_ && _) = true |- _ => apply andb_true_iff in H; destruct H
  | H : (_ || _) = false |- _ => apply orb_false_iff in H; destruct H
  | H : negb _ = true |- _ => apply negb_true_iff in H
  | H : negb _ = false |- _ => apply negb_false_iff in H
  | H : bool_decide _ = true |- _ => apply bool_decide_eq_true in H
  | H : bool_decide _ = false |- _ => apply bool_decide_eq_false in H
  end.

(** Boolean comparisons of the hypotheses into propositions. *)
Ltac N_bounds :=
  repeat match goal with
  | H : (_ <=? _)%N = true |- _ => apply N.leb_le in H
  | H : (_ <? _)%N = true |- _ => apply N.ltb_lt in H
  | H : (_ =? _)%N = true |- _ => apply N.eqb_eq in H
  end.

(** Case on the scrutinee of a [match] or [if] in the goal. *)
Ltac case_goal :=
  match goal with
  | |- context [match ?x with _ => _ end] =>
      lazymatch x with
      | context [match _ with _ => _ end] => fail
      | _ => destruct x eqn:?
      end
  end.

(** Case on the scrutinee of a [match] or [if] in a hypothesis. *)
Ltac case_hyp H :=
  match type of H with
  | context [match ?x with _ => _ end] =>
      lazymatch x with
      | context [match _ with _ => _ end] => fail
      | _ => destruct x eqn:?
      end
  end.

(** ** Lists *)

(** The suffixes of a list, longest first. *)
Fixpoint tails {A} (l : list A) : list (list A) :=
  match l with
  | [] => [[]]
  | _ :: l' => l :: tails l'
  end.

Fixpoint find_first {A} (P : A → bool) (l : list A) : option A :=
  match l with
  | [] => None
  | x :: l' => if P x then Some x else find_first P l'
  end.

Lemma find_first_Some {A} (P : A → bool) l x :
  find_first P l = Some x → x ∈ l ∧ P x = true.
Proof.
  induction l as [|y l IH]; simpl; [done|].
  destruct (P y) eqn:HP; intros; simplify_eq; [by split; [left|]|].
  destruct IH; [done|]. by split; [right|].
Qed.

Lemma elem_of_filter_true {A} (P : A → bool) (l : list A) x :
  x ∈ base.filter (λ y, P y = true) l ↔ P x = true ∧ x ∈ l.
Proof. by rewrite list_elem_of_filter. Qed.

Lemma find_first_None {A} (P : A → bool) l :
  find_first P l = None ↔ ∀ x, x ∈ l → P x = false.
Proof.
  induction l as [|y l IH]; simpl; [split; [intros _ ? ?%elem_of_nil|]; done|].
  destruct (P y) eqn:HP; split; try done.
  - intros H. specialize (H y). rewrite HP in H. discriminate H. left.
  - rewrite IH. intros H x [->|?]%elem_of_cons; auto.
  - rewrite IH. intros H x ?. apply H. by right.
Qed.

Lemma find_first_split {A} (P : A → bool) l x :
  find_first P l = Some x →
  ∃ l1 l2, l = l1 ++ x :: l2 ∧ P x = true ∧ Forall (λ y, P y = false) l1.
Proof.
  induction l as [|y l IH]; simpl; [done|]. destruct (P y) eqn:HP; intros; simplify_eq.
  - by exists [], l.
  - destruct IH as (l1 & l2 & -> & ? & ?); [done|]. exists (y :: l1), l2.
    split_and!; [done..|by constructor].
Qed.

(** No element of a concatenation that is empty contributes to it. *)
Lemma bind_nil {A B} (f : A → list B) l x : l ≫= f = [] → x ∈ l → f x = [].
Proof.
  intros E [l1 [l2 ->]]%list_elem_of_split. rewrite bind_app, bind_cons in E.
  apply app_nil in E as [_ E]. by apply app_nil in E as [E _].
Qed.

(** [list(dict.fromkeys(l))]: the first occurrence of each element, in order. *)
Fixpoint nub {A} `{EqDecision A} (seen : list A) (l : list A) : list A :=
  match l with
  | [] => []
  | x :: l' => if bool_decide (x ∈ seen) then nub seen l' else x :: nub (x :: seen) l'
  end.

Definition fromkeys {A} `{EqDecision A} (l : list A) : list A := nub [] l.

Lemma elem_of_nub {A} `{EqDecision A} (l seen : list A) x :
  x ∈ nub seen l ↔ x ∈ l ∧ x ∉ seen.
Proof.
  revert seen. induction l as [|y l IH]; intros seen; simpl; [set_solver|].
  case_bool_decide; [rewrite IH; set_solver|].
  rewrite elem_of_cons, IH. destruct (decide (x = y)); set_solver.
Qed.

Lemma NoDup_nub {A} `{EqDecision A} (l seen : list A) : NoDup (nub seen l).
Proof.
  revert seen. induction l as [|y l IH]; intros seen; simpl; [constructor|].
  case_bool_decide; [auto|]. constructor; [|auto]. rewrite elem_of_nub. set_solver.
Qed.
