(* ===== verification/PyStr.v ===== *)
(** * Python strings

    A Python [str] is a sequence of Unicode code points, so a string of the
    model is a [list N]. This file models the [str] methods the engine uses.
    The character tables are those of Unicode 14.0, the version of Python 3.11,
    which is the oldest interpreter the engine supports. *)

From S2P Require Import Prelude.
From Stdlib Require Import Ascii.

Definition pystr := list N.

(** Source literals are written as Rocq strings and coerced to code points. *)
Fixpoint py (s : string) : pystr :=
  match s with
  | EmptyString => []
  | String a s' => N_of_ascii a :: py s'
  end.
Coercion py : string >-> pystr.
Global Arguments py : simpl never.
Definition strs (l : list string) : list pystr := py <$> l.

Declare Scope py_scope.
Delimit Scope py_scope with py.
Global Open Scope string_scope.
Global Open Scope nat_scope.
Global Open Scope list_scope.

(** [s + t] *)
Definition cat (s t : pystr) : pystr := s ++ t.
Global Arguments cat : simpl never.
Infix "+s" := cat (at level 60, right associativity) : py_scope.
Definition eqs (s t : pystr) : bool := bool_decide (s = t).
Infix "=s" := eqs (at level 70) : py_scope.
Global Open Scope py_scope.

Definition mem (s : pystr) (l : list pystr) : bool := bool_decide (s ∈ l).
Definition nonempty (s : pystr) : bool := match s with [] => false | _ => true end.

(** ** Character classes *)

(** [str.isspace], which is also the class [\s] of [re]. *)
Definition is_space (c : N) : bool :=
  bool_decide (c ∈ [9; 10; 11; 12; 13; 28; 29; 30; 31; 32; 133; 160; 5760;
    8192; 8193; 8194; 8195; 8196; 8197; 8198; 8199; 8200; 8201; 8202;
    8232; 8233; 8239; 8287; 12288]%N).

(** The code points at which [str.splitlines] breaks. *)
Definition is_linebreak (c : N) : bool :=
  bool_decide (c ∈ [10; 11; 12; 13; 28; 29; 30; 133; 8232; 8233]%N).

(** The zero digits of the general category Nd: each starts a run of ten. *)
Definition nd_zeros : list N :=
  [48; 1632; 1776; 1984; 2406; 2534; 2662; 2790; 2918; 3046; 3174; 3302; 3430;
   3558; 3664; 3792; 3872; 4160; 4240; 6112; 6160; 6470; 6608; 6784; 6800; 6992;
   7088; 7232; 7248; 42528; 43216; 43264; 43472; 43504; 43600; 44016; 65296;
   66720; 68912; 69734; 69872; 69942; 70096; 70384; 70736; 70864; 71248; 71360;
   71472; 71904; 72016; 72784; 73040; 73120; 92768; 92864; 93008; 120782; 120792;
   120802; 120812; 120822; 123200; 123632; 125264; 130032]%N.

(** The decimal value of a character of class [\d]. *)
Definition digit_val (c : N) : option N :=
  (λ z, (c - z)%N) <$> find_first (λ z, (z <=? c) && (c <? z + 10))%N nd_zeros.

Definition is_digit (c : N) : bool :=
  match digit_val c with Some _ => true | None => false end.

Definition in_range (lo hi c : N) : bool := ((lo <=? c) && (c <=? hi))%N.
Definition is_ascii_digit : N → bool := in_range 48 57.
Definition is_AZ : N → bool := in_range 65 90.
Definition is_az : N → bool := in_range 97 122.
Definition is_hex (c : N) : bool := is_ascii_digit c || in_range 97 102 c.

(** ** Case mapping

    [str.lower] and [str.upper] map a character to a string. The model maps
    ASCII letters and every character outside ASCII whose mapping holds an
    ASCII character; the remaining characters are left unchanged. They map
    outside ASCII in Python too, so a comparison of the result with an ASCII
    word, which is all the engine does with it, has the same outcome. *)
Definition lower_char (c : N) : pystr :=
  if is_AZ c then [(c + 32)%N]
  else if (c =? 304)%N then [105; 775]%N
  else if (c =? 8490)%N then [107]%N
  else [c].

Definition upper_table : list (N * pystr) :=
  [(223, [83; 83]); (305, [73]); (329, [700; 78]); (383, [83]); (496, [74; 780]);
   (7830, [72; 817]); (7831, [84; 776]); (7832, [87; 778]); (7833, [89; 778]);
   (7834, [65; 702]); (64256, [70; 70]); (64257, [70; 73]); (64258, [70; 76]);
   (64259, [70; 70; 73]); (64260, [70; 70; 76]); (64261, [83; 84]); (64262, [83; 84])]%N.

Definition upper_char (c : N) : pystr :=
  if is_az c then [(c - 32)%N]
  else match find_first (λ e, (e.1 =? c)%N) upper_table with
       | Some e => e.2
       | None => [c]
       end.

Definition lower (s : pystr) : pystr := s ≫= lower_char.
Definition upper (s : pystr) : pystr := s ≫= upper_char.

(** ** Trimming *)

Fixpoint drop_while (P : N → bool) (s : pystr) : pystr :=
  match s with
  | [] => []
  | c :: s' => if P c then drop_while P s' else s
  end.

Fixpoint take_while (P : N → bool) (s : pystr) : pystr :=
  match s with
  | [] => []
  | c :: s' => if P c then c :: take_while P s' else []
  end.

Definition lstrip (s : pystr) : pystr := drop_while is_space s.
Definition rstrip (s : pystr) : pystr := reverse (drop_while is_space (reverse s)).
Definition strip (s : pystr) : pystr := rstrip (lstrip s).

(** ** Searching *)

Fixpoint startswith (p s : pystr) : bool :=
  match p, s with
  | [], _ => true
  | _ :: _, [] => false
  | a :: p', b :: s' => (a =? b)%N && startswith p' s'
  end.

(** [sub in s]. *)
Fixpoint contains (sub s : pystr) : bool :=
  startswith sub s || match s with [] => false | _ :: s' => contains sub s' end.

(** [s.replace(old, new)] for a nonempty [old]: [skip] counts the characters of
    an occurrence that are still to be passed over. *)
Fixpoint replace_go (old new : pystr) (skip : nat) (s : pystr) : pystr :=
  match s with
  | [] => []
  | c :: s' =>
      match skip with
      | S k => replace_go old new k s'
      | O => if startswith old s
             then new ++ replace_go old new (length old - 1) s'
             else c :: replace_go old new 0 s'
      end
  end.
Definition replace (old new s : pystr) : pystr := replace_go old new 0 s.

(** [s.split(sep)] for a nonempty [sep]; [acc] is the current piece, reversed. *)
Fixpoint split_go (sep : pystr) (skip : nat) (acc : pystr) (s : pystr) : list pystr :=
  match s with
  | [] => [reverse acc]
  | c :: s' =>
      match skip with
      | S k => split_go sep k acc s'
      | O => if startswith sep s
             then reverse acc :: split_go sep (length sep - 1) [] s'
             else split_go sep 0 (c :: acc) s'
      end
  end.
Definition split (sep s : pystr) : list pystr := split_go sep 0 [] s.

(** [s.partition(sep)]: what precedes the first [sep] and, when there is one,
    what follows it. [s.split(sep, 1)[0]] is its first component. *)
Fixpoint partition_go (sep acc s : pystr) : pystr * option pystr :=
  if startswith sep s then (reverse acc, Some (drop (length sep) s))
  else match s with
       | [] => (reverse acc, None)
       | c :: s' => partition_go sep (c :: acc) s'
       end.
Definition partition (sep s : pystr) : pystr * option pystr := partition_go sep [] s.
Definition split1_head (sep s : pystr) : pystr := (partition sep s).1.

(** [s.split()]: the maximal runs of characters that are not whitespace. *)
Fixpoint words_go (acc : pystr) (s : pystr) : list pystr :=
  match s with
  | [] => match acc with [] => [] | _ => [reverse acc] end
  | c :: s' =>
      if is_space c
      then match acc with [] => words_go [] s' | _ => reverse acc :: words_go [] s' end
      else words_go (c :: acc) s'
  end.
Definition words (s : pystr) : list pystr := words_go [] s.

(** [s.splitlines()]: a carriage return followed by a line feed is one break,
    and a final break does not open another line. *)
Fixpoint splitlines_go (acc : pystr) (s : pystr) : list pystr :=
  match s with
  | [] => match acc with [] => [] | _ => [reverse acc] end
  | c :: s' =>
      if (c =? 13)%N
      then match s' with
           | d :: s'' => if (d =? 10)%N then reverse acc :: splitlines_go [] s''
                         else reverse acc :: splitlines_go [] s'
           | [] => reverse acc :: splitlines_go [] s'
           end
      else if is_linebreak c then reverse acc :: splitlines_go [] s'
      else splitlines_go (c :: acc) s'
  end.
Definition splitlines (s : pystr) : list pystr := splitlines_go [] s.

(** [sep.join(l)]. *)
Fixpoint join (sep : pystr) (l : list pystr) : pystr :=
  match l with
  | [] => []
  | [s] => s
  | s :: l' => s ++ sep ++ join sep l'
  end.

(** ** Numbers *)

(** [int(s)] on a string of decimal digits. *)
Definition int_of (s : pystr) : N :=
  foldl (λ n c, 10 * n + default 0 (digit_val c))%N 0%N s.

(** [str(n)] for a nonnegative [n]. *)
Fixpoint dec_go (fuel : nat) (n : N) (acc : pystr) : pystr :=
  match fuel with
  | O => acc
  | S k => let acc' := (48 + n mod 10)%N :: acc in
           if (n <? 10)%N then acc' else dec_go k (n / 10)%N acc'
  end.
Definition str_of (n : N) : pystr := dec_go (S (N.to_nat (N.log2 n))) n [].

(** ** Character classes are disjoint *)

Lemma is_space_elem (P : N → bool) c :
  forallb (λ c, negb (P c))
    [9; 10; 11; 12; 13; 28; 29; 30; 31; 32; 133; 160; 5760;
     8192; 8193; 8194; 8195; 8196; 8197; 8198; 8199; 8200; 8201; 8202;
     8232; 8233; 8239; 8287; 12288]%N = true →
  is_space c = true → P c = false.
Proof.
  rewrite forallb_forall. intros H Hc%bool_decide_eq_true%list_elem_of_In.
  apply negb_true_iff. by apply H.
Qed.

Lemma digit_not_space c : is_digit c = true → is_space c = false.
Proof.
  intros Hd. destruct (is_space c) eqn:Hs; [|done].
  by rewrite (is_space_elem is_digit c) in Hd.
Qed.

Lemma eqs_true s t : (s =s t) = true ↔ s = t.
Proof. unfold eqs. by rewrite bool_decide_eq_true. Qed.

Lemma eqs_refl s : (s =s s) = true.
Proof. by apply eqs_true. Qed.

Lemma mem_true s l : mem s l = true ↔ s ∈ l.
Proof. unfold mem. by rewrite bool_decide_eq_true. Qed.

Lemma nonempty_true s : nonempty s = true ↔ s ≠ [].
Proof. by destruct s. Qed.

Lemma nonempty_false s : nonempty s = false ↔ s = [].
Proof. by destruct s. Qed.

(** ** Trimming *)

Lemma drop_while_id P s : (∀ c s', s = c :: s' → P c = false) → drop_while P s = s.
Proof. intros H. destruct s as [|c s]; [done|]. simpl. by rewrite (H c s). Qed.

Lemma drop_while_spec P s :
  ∃ p, s = p ++ drop_while P s ∧ Forall (λ c, P c = true) p
       ∧ (∀ c s', drop_while P s = c :: s' → P c = false).
Proof.
  induction s as [|c s (p & Hs & Hp & Hd)]; simpl; [by exists []|].
  destruct (P c) eqn:HP.
  - exists (c :: p). split_and!; [by rewrite Hs at 1|by constructor|done].
  - exists []. split_and!; [done..|]. intros; by simplify_eq.
Qed.

(** A string that neither starts nor ends with whitespace is its own [strip]. *)
Definition trimmed (s : pystr) : Prop :=
  (∀ c, head s = Some c → is_space c = false) ∧ (∀ c, last s = Some c → is_space c = false).

Lemma strip_trimmed s : trimmed s → strip s = s.
Proof.
  intros [Hh Hl]. unfold strip, rstrip, lstrip.
  rewrite (drop_while_id _ s); [|intros c s' ->; by apply Hh].
  rewrite drop_while_id; [by rewrite reverse_involutive|].
  intros c s' Hs. apply Hl. rewrite <-(reverse_involutive s), Hs. by rewrite reverse_cons, last_snoc.
Qed.

Lemma trimmed_strip s : trimmed (strip s).
Proof.
  unfold strip, rstrip. set (t := lstrip s).
  destruct (drop_while_spec is_space (reverse t)) as (p & Ht & _ & Hd). split.
  - intros c Hc. destruct (drop_while_spec is_space s) as (_ & _ & _ & Hs).
    assert (t = reverse (drop_while is_space (reverse t)) ++ reverse p) as Hrev.
    { by rewrite <-(reverse_involutive t) at 1; rewrite Ht at 1; rewrite reverse_app. }
    destruct (reverse (drop_while is_space (reverse t))) as [|d l]; [done|].
    simplify_eq/=. by apply (Hs c (l ++ reverse p)).
  - intros c Hc. destruct (drop_while is_space (reverse t)) as [|d l] eqn:E; [done|].
    rewrite reverse_cons, last_snoc in Hc. simplify_eq. by apply (Hd c l).
Qed.

Lemma strip_idemp s : strip (strip s) = strip s.
Proof. apply strip_trimmed, trimmed_strip. Qed.

#[export] Hint Resolve strip_trimmed trimmed_strip digit_not_space : saipen.
