(* ===== verification/PyStrFacts.v ===== *)
(** * Facts about the string methods

    [replace], [split], [join] and [splitlines] as the board's record writers
    and parsers use them. *)

From S2P Require Import Prelude PyStr.

(** ** Prefixes *)

Lemma startswith_spec p s : startswith p s = true ↔ ∃ s', s = p ++ s'.
Proof.
  revert s. induction p as [|a p IH]; intros s; simpl; [naive_solver|].
  destruct s as [|b s]; [naive_solver|].
  rewrite andb_true_iff, N.eqb_eq, IH. naive_solver.
Qed.

Lemma startswith_app p s : startswith p (p ++ s) = true.
Proof. apply startswith_spec. eauto. Qed.

Lemma startswith_head a p s : head s ≠ Some a → startswith (a :: p) s = false.
Proof. intros H. destruct s as [|b s]; [done|]. simpl. destruct (N.eqb_spec a b); [by subst|done]. Qed.

Lemma contains_spec sub s : contains sub s = true ↔ ∃ l r, s = l ++ sub ++ r.
Proof.
  induction s as [|c s IH]; simpl.
  - rewrite orb_false_r, startswith_spec. split; [intros [s' Hs]; by exists [], s'|].
    intros (l & r & Hs). symmetry in Hs. apply app_nil in Hs as [-> Hs]. eauto.
  - rewrite orb_true_iff, startswith_spec, IH. split.
    + intros [[s' Hs]|(l & r & ->)]; [by exists [], s'|by exists (c :: l), r].
    + intros ([|d l] & r & Hs); [eauto|]. simplify_eq/=. eauto.
Qed.

(** ** Replacement *)

Lemma replace_go_drop old new k s : replace_go old new k s = replace_go old new 0 (drop k s).
Proof.
  revert k. induction s as [|c s IH]; intros k; [by destruct k|].
  destruct k as [|k]; [done|]. apply IH.
Qed.

Lemma replace_hit old new s : old ≠ [] → replace old new (old ++ s) = new ++ replace old new s.
Proof.
  intros Ho. destruct old as [|a old]; [done|]. unfold replace. simpl.
  rewrite N.eqb_refl, startswith_app. simpl. rewrite Nat.sub_0_r, replace_go_drop, drop_app_length. done.
Qed.

Lemma replace_miss old new c s :
  startswith old (c :: s) = false → replace old new (c :: s) = c :: replace old new s.
Proof. unfold replace. intros H. cbn [replace_go]. by rewrite H. Qed.

Lemma replace_go_skip old new p s :
  Forall (λ c, head old ≠ Some c) p → old ≠ [] →
  replace_go old new 0 (p ++ s) = p ++ replace_go old new 0 s.
Proof.
  intros Hp Hold. induction Hp as [|c p Hc Hp IH]; [done|]. simpl.
  assert (startswith old (c :: p ++ s) = false) as ->.
  { destruct old as [|d old]; [done|]. simpl. destruct (d =? c)%N eqn:E; [|done].
    apply N.eqb_eq in E. by subst. }
  by rewrite IH.
Qed.

(** Replacing one character. *)
Lemma replace_char c new s : replace [c] new s = s ≫= λ x, if (x =? c)%N then new else [x].
Proof.
  induction s as [|x s IH]; [done|]. rewrite bind_cons, <-IH.
  destruct (N.eqb_spec x c) as [->|Hne].
  - by apply (replace_hit [c] new s).
  - rewrite replace_miss; [done|]. apply startswith_head. simpl. congruence.
Qed.

Lemma replace_char_app c new s t : replace [c] new (s ++ t) = replace [c] new s ++ replace [c] new t.
Proof. by rewrite !replace_char, bind_app. Qed.

Lemma replace_char_id c new s : c ∉ s → replace [c] new s = s.
Proof.
  rewrite replace_char. induction s as [|x s IH]; [done|]. rewrite bind_cons, not_elem_of_cons.
  intros [Hne Hs]. rewrite IH by done. by destruct (N.eqb_spec x c).
Qed.

(** Replacing a text by a fresh character and back changes nothing. *)
Lemma replace_back old c s : old ≠ [] → c ∉ s → replace [c] old (replace old [c] s) = s.
Proof.
  intros Ho. revert s. assert (H : ∀ n s, length s ≤ n → c ∉ s → replace [c] old (replace old [c] s) = s).
  2:{ intros s. by apply (H (length s)). }
  induction n as [|n IH]; intros s Hn Hc; [by destruct s; [|simpl in Hn; lia]|].
  destruct (startswith old s) eqn:E.
  - apply startswith_spec in E as [s' ->]. rewrite not_elem_of_app in Hc.
    rewrite replace_hit, (replace_char_app c old [c]), IH; [|destruct old; [done|]; rewrite length_app in Hn; simpl in Hn; lia|naive_solver|done].
    f_equal. rewrite replace_char. simpl. rewrite N.eqb_refl. by rewrite app_nil_r.
  - destruct s as [|x s]; [done|]. rewrite not_elem_of_cons in Hc. rewrite replace_miss by done.
    change (x :: replace old [c] s) with ([x] ++ replace old [c] s).
    rewrite replace_char_app, IH; [|simpl in Hn; lia|naive_solver].
    rewrite replace_char_id; [done|]. rewrite list_elem_of_singleton. naive_solver.
Qed.

(** ** Splitting and joining *)

Lemma split_go_drop sep k acc s : split_go sep k acc s = split_go sep 0 acc (drop k s).
Proof.
  revert k. induction s as [|c s IH]; intros k; [by destruct k|].
  destruct k as [|k]; [done|]. apply IH.
Qed.

Lemma split_go_hit sep acc s :
  sep ≠ [] → split_go sep 0 acc (sep ++ s) = reverse acc :: split_go sep 0 [] s.
Proof.
  intros Hs. destruct sep as [|a sep]; [done|]. simpl.
  rewrite N.eqb_refl, startswith_app. simpl. by rewrite Nat.sub_0_r, split_go_drop, drop_app_length.
Qed.

Lemma split_go_miss sep acc c s :
  startswith sep (c :: s) = false → split_go sep 0 acc (c :: s) = split_go sep 0 (c :: acc) s.
Proof. intros H. cbn [split_go]. by rewrite H. Qed.

Lemma split_go_nonempty sep k acc s : split_go sep k acc s ≠ [].
Proof.
  revert k acc. induction s as [|c s IH]; intros [|k] acc; simpl; try done.
  by case_match.
Qed.

Lemma join_cons sep s l : l ≠ [] → join sep (s :: l) = s ++ sep ++ join sep l.
Proof. by destruct l. Qed.

Lemma join_split_go sep acc s : sep ≠ [] → join sep (split_go sep 0 acc s) = reverse acc ++ s.
Proof.
  intros Hsep. revert acc. assert (H : ∀ n s acc, length s ≤ n → join sep (split_go sep 0 acc s) = reverse acc ++ s).
  2:{ intros. by apply (H (length s)). }
  clear s. induction n as [|n IH]; intros s acc Hn.
  - destruct s; [by rewrite app_nil_r|simpl in Hn; lia].
  - destruct (startswith sep s) eqn:E.
    + apply startswith_spec in E as [s' ->].
      rewrite split_go_hit, join_cons, IH; [done| |apply split_go_nonempty|done].
      destruct sep; [done|]. rewrite length_app in Hn. simpl in Hn. lia.
    + destruct s as [|c s]; [by simpl; rewrite app_nil_r|]. rewrite split_go_miss by done.
      rewrite IH by (simpl in Hn; lia). by rewrite reverse_cons, <-(assoc_L (++)).
Qed.

Lemma join_split sep s : sep ≠ [] → join sep (split sep s) = s.
Proof. apply join_split_go. Qed.

Lemma join_app sep l1 l2 : l1 ≠ [] → l2 ≠ [] → join sep (l1 ++ l2) = join sep l1 ++ sep ++ join sep l2.
Proof.
  intros H1 H2. induction l1 as [|s l1 IH]; [done|]. destruct l1 as [|s' l1].
  - change ([s] ++ l2) with (s :: l2). by rewrite join_cons.
  - change ((s :: s' :: l1) ++ l2) with (s :: ((s' :: l1) ++ l2)).
    rewrite !join_cons by done. rewrite IH by done. by rewrite !(assoc_L (++)).
Qed.

Lemma startswith_prefix p s t : length p ≤ length s → startswith p (s ++ t) = startswith p s.
Proof.
  revert s. induction p as [|a p IH]; intros [|b s] Hl; simpl in *; try done; [lia|].
  rewrite IH by lia. done.
Qed.

(** What the pieces after the first ones look like does not change the first ones. *)
Lemma split_go_prefix sep acc s l1 old l2 :
  sep ≠ [] → l1 ≠ [] → split_go sep 0 acc s = l1 ++ old :: l2 →
  ∃ p, s = p ++ sep ++ join sep (old :: l2)
       ∧ ∀ rest, split_go sep 0 acc (p ++ sep ++ rest) = l1 ++ split sep rest.
Proof.
  intros Hsep. assert (H : ∀ n s acc l1, length s ≤ n → l1 ≠ [] → split_go sep 0 acc s = l1 ++ old :: l2 →
    ∃ p, s = p ++ sep ++ join sep (old :: l2)
       ∧ ∀ rest, split_go sep 0 acc (p ++ sep ++ rest) = l1 ++ split sep rest); [|by apply (H (length s))].
  clear s acc l1. induction n as [|n IH]; intros s acc l1 Hn Hne Hs.
  - destruct s; [|simpl in Hn; lia]. simpl in Hs. destruct l1 as [|x [|??]]; simplify_eq/=.
  - destruct (startswith sep s) eqn:E.
    + apply startswith_spec in E as [s' ->]. rewrite split_go_hit in Hs by done.
      destruct l1 as [|x l1]; [done|]. simpl in Hs. injection Hs as <- Hs.
      destruct l1 as [|y l1].
      * exists []. split; [|intros rest; simpl; by rewrite split_go_hit].
        rewrite app_nil_l. f_equal. change (split sep s' = old :: l2) in Hs. by rewrite <-Hs, join_split.
      * destruct (IH s' [] (y :: l1)) as (p & Hp & Hrest); [|done|done|].
        { destruct sep; [done|]. rewrite length_app in Hn. simpl in Hn. lia. }
        exists (sep ++ p). rewrite Hp at 1. rewrite <-(assoc_L (++)). split; [done|]. intros rest.
        rewrite <-(assoc_L (++)), split_go_hit, Hrest by done. done.
    + destruct s as [|c s]; [by simpl in Hs; destruct l1 as [|x [|??]]; simplify_eq/=|].
      rewrite split_go_miss in Hs by done.
      destruct (IH s (c :: acc) l1) as (p & Hp & Hrest); [simpl in Hn; lia|done..|].
      exists (c :: p). split; [by rewrite Hp|]. intros rest. change ((c :: p) ++ sep ++ rest) with (c :: (p ++ sep ++ rest)).
      rewrite split_go_miss; [by apply Hrest|].
      rewrite Hp in E. rewrite !(assoc_L (++)) in E. rewrite !(assoc_L (++)).
      rewrite app_comm_cons, startswith_prefix in E by (simpl; rewrite length_app; lia).
      by rewrite app_comm_cons, startswith_prefix by (simpl; rewrite length_app; lia).
Qed.

Lemma split_tail sep s l1 l2 :
  sep ≠ [] → l1 ≠ [] → l2 ≠ [] → split sep s = l1 ++ l2 → split sep (join sep l2) = l2.
Proof.
  intros Hsep H1 H2 Hs. destruct l2 as [|x l2]; [done|].
  destruct (split_go_prefix sep [] s l1 x l2) as (p & Hp & Hrest); [done..|].
  unfold split in Hs at 1. rewrite Hp, Hrest in Hs. by apply app_inv_head in Hs.
Qed.

(** A text without the separator's first character is one piece. *)
Lemma split_one sep a s : head sep = Some a → a ∉ s → split sep s = [s].
Proof.
  intros Ha. unfold split. destruct sep as [|a' sep]; [done|]. simplify_eq/=.
  assert (H : ∀ acc, a ∉ s → split_go (a :: sep) 0 acc s = [reverse acc ++ s]).
  { induction s as [|c s IH]; intros acc Hs; [by simpl; rewrite app_nil_r|].
    rewrite not_elem_of_cons in Hs. rewrite split_go_miss, IH; [|naive_solver|].
    - by rewrite reverse_cons, <-(assoc_L (++)).
    - apply startswith_head. simpl. naive_solver. }
  intros Hs. by rewrite H.
Qed.

(** ** Lines *)

Lemma splitlines_go_clean acc s :
  Forall (λ c, is_linebreak c = false) s → acc ++ s ≠ [] →
  splitlines_go acc s = [reverse acc ++ s].
Proof.
  intros Hs. revert acc. induction Hs as [|c s Hc Hs IH]; intros acc Hne.
  - simpl. rewrite app_nil_r in *. by destruct acc.
  - cbn [splitlines_go]. destruct (N.eqb_spec c 13) as [->|_]; [by vm_compute in Hc|].
    rewrite Hc, IH by (by destruct acc). by rewrite reverse_cons, <-(assoc_L (++)).
Qed.

(** No line holds a line break. *)
Lemma splitlines_go_lines acc s l :
  Forall (λ c, is_linebreak c = false) acc → l ∈ splitlines_go acc s →
  Forall (λ c, is_linebreak c = false) l.
Proof.
  assert (H : ∀ n s acc, length s ≤ n → Forall (λ c, is_linebreak c = false) acc → l ∈ splitlines_go acc s →
    Forall (λ c, is_linebreak c = false) l); [|by apply (H (length s))].
  clear s acc. induction n as [|n IH]; intros s acc Hn Hacc Hl.
  - destruct s; [|simpl in Hn; lia]. destruct acc as [|a acc]; [by apply elem_of_nil in Hl|].
    apply list_elem_of_singleton in Hl as ->. by apply Forall_reverse.
  - destruct s as [|c s]; [apply (IH [] acc); simpl; auto with lia|]. cbn [splitlines_go] in Hl. simpl in Hn.
    assert (Hrev : ∀ tl, l ∈ reverse acc :: tl → (l ∈ tl → Forall (λ c, is_linebreak c = false) l) →
      Forall (λ c, is_linebreak c = false) l).
    { intros tl [->|]%elem_of_cons; [|auto]. intros _. by apply Forall_reverse. }
    destruct (c =? 13)%N eqn:Ec.
    + destruct s as [|d s].
      * apply (Hrev _ Hl). intros Hl'. by apply elem_of_nil in Hl'.
      * simpl in Hn. case_match; apply (Hrev _ Hl); intros Hl'; (eapply IH; [|constructor|exact Hl']); simpl; lia.
    + destruct (is_linebreak c) eqn:Eb.
      * apply (Hrev _ Hl). intros Hl'. eapply IH; [|constructor|exact Hl']. lia.
      * eapply IH; [|by constructor|exact Hl]. lia.
Qed.

Lemma splitlines_lines s l : l ∈ splitlines s → Forall (λ c, is_linebreak c = false) l.
Proof. by apply splitlines_go_lines. Qed.

(** ** Decimal numerals *)

Lemma dec_go_value fuel n acc :
  (n < 2 ^ N.of_nat fuel)%N → (fuel ≠ 0)%nat →
  foldl (λ n c, 10 * n + default 0 (digit_val c))%N 0%N (dec_go fuel n acc) =
  foldl (λ n c, 10 * n + default 0 (digit_val c))%N n acc.
Proof.
  revert n acc. induction fuel as [|fuel IH]; intros n acc Hn Hf; [done|]. cbn [dec_go]. cbv zeta.
  assert (default 0 (digit_val (48 + n mod 10)) = n mod 10)%N as Hd.
  { assert (n mod 10 < 10)%N as Hm by (by apply N.mod_lt). revert Hm. generalize (n mod 10)%N. intros m Hm.
    assert (m = 0 ∨ m = 1 ∨ m = 2 ∨ m = 3 ∨ m = 4 ∨ m = 5 ∨ m = 6 ∨ m = 7 ∨ m = 8 ∨ m = 9)%N as Hc by lia.
    by repeat destruct Hc as [->|Hc]; [vm_compute..|subst; vm_compute]. }
  assert (10 * (n / 10) + n mod 10 = n)%N as Hdm by (symmetry; by apply N.div_mod).
  destruct (N.ltb_spec n 10) as [Hlt|Hge].
  - cbn [foldl]. rewrite Hd, N.mod_small by done. f_equal.
  - rewrite IH.
    + cbn [foldl]. rewrite Hd. f_equal. exact Hdm.
    + rewrite Nat2N.inj_succ, N.pow_succ_r' in Hn. apply N.Div0.div_lt_upper_bound. lia.
    + intros ->. simpl in Hn. lia.
Qed.

Lemma int_of_str_of n : int_of (str_of n) = n.
Proof.
  unfold int_of, str_of. rewrite dec_go_value; [done| |done].
  rewrite Nat2N.inj_succ, N2Nat.id. destruct (N.eq_dec n 0%N) as [->|Hn]; [done|].
  apply N.log2_spec. lia.
Qed.

Lemma dec_go_digits fuel n acc :
  Forall (λ c, is_ascii_digit c = true) acc → Forall (λ c, is_ascii_digit c = true) (dec_go fuel n acc).
Proof.
  revert n acc. induction fuel as [|fuel IH]; intros n acc Ha; [done|]. cbn [dec_go]. cbv zeta.
  assert (is_ascii_digit (48 + n mod 10) = true) as Hd.
  { assert (n mod 10 < 10)%N as Hm by (by apply N.mod_lt).
    revert Hm. generalize (n mod 10)%N. intros m Hm.
    unfold is_ascii_digit, in_range. apply andb_true_iff. split; apply N.leb_le; lia. }
  destruct (n <? 10)%N; [by constructor|]. apply IH. by constructor.
Qed.

Lemma str_of_digits n : Forall (λ c, is_ascii_digit c = true) (str_of n).
Proof. by apply dec_go_digits. Qed.

(** Two strings that agree up to and including their first separator. *)
Lemma ascii_digit_is_digit c : is_ascii_digit c = true → is_digit c = true.
Proof.
  unfold is_ascii_digit, in_range. intros H. bool_tac. N_bounds.
  assert (c = 48 ∨ c = 49 ∨ c = 50 ∨ c = 51 ∨ c = 52 ∨ c = 53 ∨ c = 54 ∨ c = 55 ∨ c = 56 ∨ c = 57)%N
    as Hc by lia.
  by repeat (destruct Hc as [->|Hc]; [reflexivity|]); subst.
Qed.
Lemma digits_of n : Forall (λ c, is_digit c = true) (str_of n).
Proof. eapply Forall_impl; [apply str_of_digits|]. apply ascii_digit_is_digit. Qed.
Lemma str_of_nonempty n : str_of n ≠ [].
Proof.
  intros E. assert (int_of (str_of n) = int_of []) as E2 by (by rewrite E).
  rewrite int_of_str_of in E2. subst. discriminate E.
Qed.
Lemma ascii_digit_not_space c : is_ascii_digit c = true → is_space c = false.
Proof. intros Hc. by apply digit_not_space, ascii_digit_is_digit. Qed.

Lemma app_sep_inj (c : N) a b x y : c ∉ a → c ∉ b → a ++ c :: x = b ++ c :: y → a = b ∧ x = y.
Proof.
  revert b. induction a as [|d a IH]; intros [|e b] Ha Hb E; cbn [app] in E.
  { by injection E. } { injection E as <- _. set_solver. } { injection E as -> _. set_solver. }
  injection E as <- E.
  apply not_elem_of_cons in Ha as [_ Ha]. apply not_elem_of_cons in Hb as [_ Hb].
  by destruct (IH b Ha Hb E) as [-> ->].
Qed.

(** ** Stripping *)

Lemma rstrip_head c s : is_space c = false → head (rstrip (c :: s)) = Some c.
Proof.
  intros Hc. unfold rstrip. rewrite reverse_cons.
  destruct (drop_while_spec is_space (reverse s ++ [c])) as (p & E & Hp & _).
  destruct (drop_while is_space (reverse s ++ [c])) as [|x l] eqn:Ed using rev_ind.
  - rewrite app_nil_r in E. rewrite <-E in Hp. apply Forall_app in Hp as [_ Hp]. apply Forall_cons in Hp as [Hp _]. congruence.
  - rewrite (assoc_L (++)) in E. apply app_inj_tail in E as [_ ->]. by rewrite reverse_app.
Qed.

(** ** Lines of a text that grows *)

Definition line_clean (l : pystr) : Prop := Forall (λ c, is_linebreak c = false) l.
Definition ends_line (t : pystr) : Prop := t = [] ∨ ∃ t', t = t' ++ [10%N].

Lemma splitlines_go_break acc s t :
  splitlines_go acc (s ++ 10%N :: t) = splitlines_go acc (s ++ [10%N]) ++ splitlines t.
Proof.
  assert (H : ∀ n s acc, length s ≤ n →
    splitlines_go acc (s ++ 10%N :: t) = splitlines_go acc (s ++ [10%N]) ++ splitlines t); [|by apply (H (length s))].
  clear s acc. induction n as [|n IH]; intros s acc Hn; (destruct s as [|c s]; [done|]); simpl in Hn; [lia|].
  cbn [app splitlines_go]. destruct (c =? 13)%N.
  - destruct s as [|d s]; [done|]. cbn [app]. simpl in Hn.
    destruct (d =? 10)%N; simpl; f_equal; [apply IH; lia|].
    apply (IH (d :: s) []). simpl. lia.
  - destruct (is_linebreak c); simpl; [f_equal|]; apply IH; lia.
Qed.

Lemma splitlines_go_line acc l t :
  line_clean l → splitlines_go acc (l ++ 10%N :: t) = (reverse acc ++ l) :: splitlines t.
Proof.
  intros Hl. revert acc. induction Hl as [|c l Hc Hl IH]; intros acc; [simpl; by rewrite app_nil_r|].
  cbn [app splitlines_go]. destruct (N.eqb_spec c 13) as [->|_]; [by vm_compute in Hc|].
  rewrite Hc, IH. by rewrite reverse_cons, <-(assoc_L (++)).
Qed.

Lemma splitlines_append t l :
  ends_line t → line_clean l → splitlines (t ++ l ++ [10%N]) = splitlines t ++ [l].
Proof.
  intros [->|[t' ->]] Hl; unfold splitlines; [cbn [app]; by rewrite splitlines_go_line|].
  rewrite <-(assoc_L (++)). cbn [app]. rewrite splitlines_go_break. f_equal.
  unfold splitlines. by rewrite splitlines_go_line.
Qed.

Lemma splitlines_join ls :
  ls ≠ [] → Forall line_clean ls → splitlines (join [10%N] ls ++ [10%N]) = ls.
Proof.
  intros Hne. induction ls as [|l ls IH]; [done|]. intros [Hl Hls]%Forall_cons.
  destruct ls as [|l' ls].
  - simpl. unfold splitlines. by rewrite splitlines_go_line.
  - rewrite join_cons, <-!(assoc_L (++)) by done. cbn [app]. unfold splitlines.
    rewrite splitlines_go_line by done. by rewrite IH.
Qed.

Lemma splitlines_join_app ls tl :
  Forall line_clean ls → tl ≠ [] → splitlines (join [10%N] (ls ++ tl)) = ls ++ splitlines (join [10%N] tl).
Proof.
  intros Hls Ht. induction Hls as [|l ls Hl Hls IH]; [done|].
  cbn [app]. rewrite join_cons by (by destruct ls, tl). cbn [app]. unfold splitlines.
  rewrite splitlines_go_line by done. simpl. f_equal. exact IH.
Qed.

Lemma splitlines_join_head l ls :
  line_clean l → l ≠ [] → ∃ more, splitlines (join [10%N] (l :: ls)) = l :: more.
Proof.
  intros Hl Hne. destruct ls as [|k ls].
  - exists []. simpl. unfold splitlines. by rewrite splitlines_go_clean.
  - rewrite join_cons by done. cbn [app]. unfold splitlines. rewrite splitlines_go_line by done. by eexists.
Qed.

(** The pieces of a split at a character do not hold it. *)
Lemma split_go_pieces c k acc s x : c ∉ acc → x ∈ split_go [c] k acc s → c ∉ x.
Proof.
  revert k acc. induction s as [|d s IH]; intros k acc Hacc Hx.
  - destruct k; simpl in Hx; apply list_elem_of_singleton in Hx as ->; by rewrite elem_of_reverse.
  - destruct k as [|k]; [|by apply (IH k acc)]. simpl in Hx. destruct (N.eqb_spec c d) as [->|Hne]; simpl in Hx.
    + apply elem_of_cons in Hx as [->|Hx]; [by rewrite elem_of_reverse|]. apply (IH 0 []); [apply not_elem_of_nil|done].
    + apply (IH 0 (d :: acc)); [|done]. apply not_elem_of_cons. done.
Qed.

(** A text whose only line break is the line feed. *)
Definition lf_only (s : pystr) : Prop := Forall (λ c, is_linebreak c = true → c = 10%N) s.

Lemma split_lf_clean s : lf_only s → Forall line_clean (split [10%N] s).
Proof.
  intros H. apply Forall_forall. intros x Hx.
  assert (10%N ∉ x) as Hn by (eapply split_go_pieces; [apply not_elem_of_nil|exact Hx]).
  assert (∀ c, c ∈ x → c ∈ s) as Hs.
  { intros c Hc. rewrite <-(join_split [10%N] s) by done. clear -Hx Hc.
    induction (split [10%N] s) as [|y l IH]; [by apply elem_of_nil in Hx|].
    destruct l as [|z l]; [apply list_elem_of_singleton in Hx as <-; done|]. rewrite join_cons by done.
    apply elem_of_cons in Hx as [<-|Hx]; [set_solver|]. specialize (IH Hx). set_solver. }
  apply Forall_forall. intros c Hc. destruct (is_linebreak c) eqn:E; [|done].
  unfold lf_only in H. rewrite Forall_forall in H. specialize (H c (Hs c Hc) E). by subst c.
Qed.
