(* ===== verification/PyRegex.v ===== *)
(** * The fragment of Python's [re] the engine uses

    A pattern is matched by backtracking: [outcomes r c b s] lists, in the
    order in which [re] would try them, what remains of the subject [s] after
    each way the pattern [r] can match at its start, with the groups captured
    on that way; [b] is the character before the position, which [\b], a
    multi-line [^] and a negative lookbehind of one character look at. The groups
    of a lookahead are dropped: no pattern of the engine has any. [match],
    [fullmatch], [search] and [findall] take the first outcome, as [re] does. *)

From S2P Require Import Prelude PyStr PyUnicode.

Inductive re : Type :=
  | Eps
  | Chr (P : N → bool)
  | Star (P : N → bool)
  | LazyStar (P : N → bool)
  | Seq (r1 r2 : re)
  | Alt (r1 r2 : re)
  | Opt (r : re)
  | Grp (n : nat) (r : re)
  | Eol
  | Eos
  | Bol
  | Wordb
  | NotBehind (P : N → bool)
  | Ahead (neg : bool) (r : re).

Definition lit (s : pystr) : re := foldr (λ c r, Seq (Chr (N.eqb c)) r) Eps s.
Definition plus (P : N → bool) : re := Seq (Chr P) (Star P).
Fixpoint rep (n : nat) (P : N → bool) : re :=
  match n with O => Eps | S k => Seq (Chr P) (rep k P) end.
(** [P{lo,lo+extra}] *)
Fixpoint rep_upto (extra : nat) (P : N → bool) : re :=
  match extra with O => Eps | S k => Opt (Seq (Chr P) (rep_upto k P)) end.
Definition reps (lo extra : nat) (P : N → bool) : re := Seq (rep lo P) (rep_upto extra P).
Definition alts (l : list pystr) : re :=
  match l with
  | [] => Chr (λ _, false)
  | s :: l' => foldl (λ r t, Alt r (lit t)) (lit s) l'
  end.
(** [.] without [re.DOTALL]. *)
Definition not_nl (c : N) : bool := negb (c =? 10)%N.
Definition any_char (c : N) : bool := true.
(** A literal under [re.IGNORECASE], written in lower case. *)
Definition lit_ci (s : pystr) : re := foldr (λ c r, Seq (Chr (ci_char c)) r) Eps s.
Fixpoint seqs (l : list re) : re :=
  match l with [] => Eps | [r] => r | r :: l' => Seq r (seqs l') end.

Definition caps := list (nat * pystr).
Definition group (n : nat) (c : caps) : option pystr :=
  snd <$> find_first (λ e, Nat.eqb e.1 n) c.

Definition outcome : Type := caps * option N * pystr.

Fixpoint star_outcomes (P : N → bool) (c : caps) (b : option N) (s : pystr) : list outcome :=
  match s with
  | [] => [(c, b, s)]
  | d :: s' => if P d then star_outcomes P c (Some d) s' ++ [(c, b, s)] else [(c, b, s)]
  end.

Definition is_wordb (b : option N) (s : pystr) : bool :=
  xorb (match b with Some d => is_word d | None => false end)
       (match s with d :: _ => is_word d | [] => false end).

Fixpoint outcomes (r : re) (c : caps) (b : option N) (s : pystr) : list outcome :=
  match r with
  | Eps => [(c, b, s)]
  | Chr P => match s with
             | d :: s' => if P d then [(c, Some d, s')] else []
             | [] => []
             end
  | Star P => star_outcomes P c b s
  | LazyStar P => reverse (star_outcomes P c b s)
  | Seq r1 r2 => outcomes r1 c b s ≫= λ o, outcomes r2 o.1.1 o.1.2 o.2
  | Alt r1 r2 => outcomes r1 c b s ++ outcomes r2 c b s
  | Opt r1 => outcomes r1 c b s ++ [(c, b, s)]
  | Grp n r1 => (λ o, ((n, take (length s - length o.2) s) :: o.1.1, o.1.2, o.2))
                  <$> outcomes r1 c b s
  | Eol => match s with
           | [] => [(c, b, s)]
           | [d] => if (d =? 10)%N then [(c, b, s)] else []
           | _ => []
           end
  | Eos => match s with [] => [(c, b, s)] | _ => [] end
  | Bol => match b with
           | None => [(c, b, s)]
           | Some d => if (d =? 10)%N then [(c, b, s)] else []
           end
  | Wordb => if is_wordb b s then [(c, b, s)] else []
  | NotBehind P => match b with
                   | Some d => if P d then [] else [(c, b, s)]
                   | None => [(c, b, s)]
                   end
  | Ahead neg r1 => match outcomes r1 c b s with
                    | [] => if neg then [(c, b, s)] else []
                    | _ => if neg then [] else [(c, b, s)]
                    end
  end.

(** [re.match]: the groups of the first outcome and what it leaves. *)
Definition match_at (r : re) (b : option N) (s : pystr) : option (caps * pystr) :=
  (λ o, (o.1.1, o.2)) <$> head (outcomes r [] b s).
Definition re_match (r : re) (s : pystr) : option caps := fst <$> match_at r None s.
Definition re_fullmatch (r : re) (s : pystr) : option caps := re_match (Seq r Eos) s.
Definition is_match (r : re) (s : pystr) : bool := bool_decide (is_Some (re_match r s)).
Definition is_full (r : re) (s : pystr) : bool := bool_decide (is_Some (re_fullmatch r s)).

(** [re.search]: the first position at which the pattern matches. *)
Fixpoint search_go (r : re) (b : option N) (s : pystr) : option caps :=
  match match_at r b s with
  | Some (c, _) => Some c
  | None => match s with
            | [] => None
            | d :: s' => search_go r (Some d) s'
            end
  end.
Definition re_search (r : re) (s : pystr) : option caps := search_go r None s.
Definition is_found (r : re) (s : pystr) : bool := bool_decide (is_Some (re_search r s)).

(** [re.findall]/[re.finditer] for a pattern that matches no empty string: the
    non-overlapping matches from left to right, each with its text. *)
Fixpoint finditer_go (r : re) (skip : nat) (b : option N) (s : pystr) : list (pystr * caps) :=
  match s with
  | [] => []
  | d :: s' =>
      match skip with
      | S k => finditer_go r k (Some d) s'
      | O => match match_at r b s with
             | Some (c, rest) =>
                 let n := length s - length rest in
                 (take n s, c) :: finditer_go r (n - 1) (Some d) s'
             | None => finditer_go r 0 (Some d) s'
             end
      end
  end.
Definition re_finditer (r : re) (s : pystr) : list (pystr * caps) := finditer_go r 0 None s.
Definition re_findall (r : re) (s : pystr) : list pystr := fst <$> re_finditer r s.

(** [re.sub] for such a pattern; [new] makes the replacement of a match from its
    groups. *)
Fixpoint sub_go (r : re) (new : caps → pystr) (skip : nat) (b : option N) (s : pystr) : pystr :=
  match s with
  | [] => []
  | d :: s' =>
      match skip with
      | S k => sub_go r new k (Some d) s'
      | O => match match_at r b s with
             | Some (c, rest) => new c ++ sub_go r new (length s - length rest - 1) (Some d) s'
             | None => d :: sub_go r new 0 (Some d) s'
             end
      end
  end.
Definition re_sub_with (r : re) (new : caps → pystr) (s : pystr) : pystr := sub_go r new 0 None s.
Definition re_sub (r : re) (new s : pystr) : pystr := re_sub_with r (λ _, new) s.

(** [(?:r)*] on a subject of at most [n] characters, when [r] matches no empty
    string. *)
Fixpoint many (n : nat) (r : re) : re :=
  match n with O => Eps | S k => Opt (Seq r (many k r)) end.

(** ** The identifier patterns shared by the components *)

Definition ident_re (prefix : pystr) : re := Seq (lit prefix) (plus is_digit).
Definition ticket_id_re : re := ident_re "T-".
Definition event_id_re : re := ident_re "E-".

(** ** The language of a pattern *)

(** The texts a pattern consumes, its assertions being taken as true. *)
Fixpoint lang (r : re) (p : pystr) : Prop :=
  match r with
  | Eps | Eol | Eos | Bol | Wordb | NotBehind _ | Ahead _ _ => p = []
  | Chr P => ∃ d, p = [d] ∧ P d = true
  | Star P | LazyStar P => Forall (λ d, P d = true) p
  | Seq r1 r2 => ∃ p1 p2, p = p1 ++ p2 ∧ lang r1 p1 ∧ lang r2 p2
  | Alt r1 r2 => lang r1 p ∨ lang r2 p
  | Opt r1 => lang r1 p ∨ p = []
  | Grp _ r1 => lang r1 p
  end.

(** The texts a pattern may capture as group [n]. *)
Fixpoint captures (r : re) (n : nat) (p : pystr) : Prop :=
  match r with
  | Seq r1 r2 | Alt r1 r2 => captures r1 n p ∨ captures r2 n p
  | Opt r1 => captures r1 n p
  | Grp m r1 => (n = m ∧ lang r1 p) ∨ captures r1 n p
  | _ => False
  end.

(** A pattern without assertions. *)
Fixpoint pure (r : re) : bool :=
  match r with
  | Eol | Eos | Bol | Wordb | NotBehind _ | Ahead _ _ => false
  | Seq r1 r2 | Alt r1 r2 => pure r1 && pure r2
  | Opt r1 | Grp _ r1 => pure r1
  | _ => true
  end.

Lemma star_outcomes_lang P c b s o :
  o ∈ star_outcomes P c b s →
  o.1.1 = c ∧ ∃ p, s = p ++ o.2 ∧ Forall (λ d, P d = true) p.
Proof.
  revert b. induction s as [|d s IH]; intros b; simpl.
  - intros ->%list_elem_of_singleton. split; [done|]. by exists [].
  - destruct (P d) eqn:HP.
    + intros [(Hc & p & -> & Hp)%IH|Ho]%elem_of_app.
      * split; [done|]. exists (d :: p). by split; [|constructor].
      * apply list_elem_of_singleton in Ho as ->. split; [done|]. by exists [].
    + intros ->%list_elem_of_singleton. split; [done|]. by exists [].
Qed.

Lemma star_outcomes_complete P c b p s :
  Forall (λ d, P d = true) p → ∃ b', (c, b', s) ∈ star_outcomes P c b (p ++ s).
Proof.
  revert b. induction p as [|d p IH]; intros b Hp.
  - exists b. destruct s as [|e s]; simpl; [left|]. destruct (P e); set_solver.
  - inversion_clear Hp as [|?? Hd Hp']. simpl. rewrite Hd.
    destruct (IH (Some d) Hp') as [b' ?]. exists b'. set_solver.
Qed.

(** Whatever the backtracking finds belongs to the language of the pattern, and
    what it captures to the language of the group. *)
Lemma outcomes_lang r c b s o :
  o ∈ outcomes r c b s → ∃ p, s = p ++ o.2 ∧ lang r p.
Proof.
  revert c b s o. induction r as [|P|P|P|r1 IH1 r2 IH2|r1 IH1 r2 IH2|r IH|n r IH| | | | |P|neg r _];
    intros c b s o; simpl.
  - intros ->%list_elem_of_singleton. by exists [].
  - destruct s as [|d s]; [by intros ?%elem_of_nil|]. destruct (P d) eqn:HP; [|by intros ?%elem_of_nil].
    intros ->%list_elem_of_singleton. exists [d]. eauto.
  - intros [_ ?]%star_outcomes_lang. done.
  - rewrite elem_of_reverse. intros [_ ?]%star_outcomes_lang. done.
  - rewrite list_elem_of_bind. intros ([[c1 b1] s1] & Ho & (p1 & -> & Hp1)%IH1). simpl in *.
    apply IH2 in Ho as (p2 & -> & Hp2). exists (p1 ++ p2). rewrite (assoc_L (++)). eauto 6.
  - intros [(p & -> & Hp)%IH1|(p & -> & Hp)%IH2]%elem_of_app; eauto.
  - intros [(p & -> & Hp)%IH| ->%list_elem_of_singleton]%elem_of_app; [eauto|].
    exists []. eauto.
  - intros (o1 & -> & (p & -> & Hp)%IH)%list_elem_of_fmap. eauto.
  - destruct s as [|d [|e s]]; [| |by intros ?%elem_of_nil].
    + intros ->%list_elem_of_singleton. by exists [].
    + destruct (d =? 10)%N; [|by intros ?%elem_of_nil].
      intros ->%list_elem_of_singleton. by exists [].
  - destruct s; [|by intros ?%elem_of_nil]. intros ->%list_elem_of_singleton. by exists [].
  - destruct b as [d|]; [destruct (d =? 10)%N|];
      try (by intros ?%elem_of_nil); intros ->%list_elem_of_singleton; by exists [].
  - destruct (is_wordb b s); [|by intros ?%elem_of_nil].
    intros ->%list_elem_of_singleton. by exists [].
  - destruct b as [d|]; [destruct (P d)|];
      try (by intros ?%elem_of_nil); intros ->%list_elem_of_singleton; by exists [].
  - destruct (outcomes r c b s), neg; try (by intros ?%elem_of_nil);
      intros ->%list_elem_of_singleton; by exists [].
Qed.

Lemma take_consumed (p s : pystr) : take (length (p ++ s) - length s) (p ++ s) = p.
Proof. rewrite length_app, Nat.add_sub. apply take_app_length. Qed.

Lemma outcomes_captures r c b s o n p :
  o ∈ outcomes r c b s → (n, p) ∈ o.1.1 → (n, p) ∈ c ∨ captures r n p.
Proof.
  revert c b s o. induction r as [|P|P|P|r1 IH1 r2 IH2|r1 IH1 r2 IH2|r IH|m r IH| | | | |P|neg r _];
    intros c b s o Ho Hin; simpl in *.
  - apply list_elem_of_singleton in Ho as ->. auto.
  - destruct s as [|d s]; [by apply elem_of_nil in Ho|].
    destruct (P d); [|by apply elem_of_nil in Ho]. apply list_elem_of_singleton in Ho as ->. auto.
  - apply star_outcomes_lang in Ho as [<- _]. auto.
  - rewrite elem_of_reverse in Ho. apply star_outcomes_lang in Ho as [<- _]. auto.
  - apply list_elem_of_bind in Ho as (o1 & Ho & H1).
    destruct (IH2 _ _ _ _ Ho Hin) as [Hin1|?]; [|auto]. destruct (IH1 _ _ _ _ H1 Hin1); auto.
  - apply elem_of_app in Ho as [Ho|Ho]; [destruct (IH1 _ _ _ _ Ho Hin)|destruct (IH2 _ _ _ _ Ho Hin)]; auto.
  - apply elem_of_app in Ho as [Ho| ->%list_elem_of_singleton]; [|auto]. eauto.
  - apply list_elem_of_fmap in Ho as (o1 & -> & H1). simpl in Hin.
    apply elem_of_cons in Hin as [Heq|Hin]; [|destruct (IH _ _ _ _ H1 Hin); auto].
    destruct (outcomes_lang _ _ _ _ _ H1) as (q & -> & Hq).
    simplify_eq. rewrite take_consumed. auto.
  - destruct s as [|d [|e s]]; [| |by apply elem_of_nil in Ho].
    + apply list_elem_of_singleton in Ho as ->. auto.
    + destruct (d =? 10)%N; [|by apply elem_of_nil in Ho]. apply list_elem_of_singleton in Ho as ->. auto.
  - destruct s; [|by apply elem_of_nil in Ho]. apply list_elem_of_singleton in Ho as ->. auto.
  - destruct b as [d|]; [destruct (d =? 10)%N|];
      try (by apply elem_of_nil in Ho); apply list_elem_of_singleton in Ho as ->; auto.
  - destruct (is_wordb b s); [|by apply elem_of_nil in Ho].
    apply list_elem_of_singleton in Ho as ->. auto.
  - destruct b as [d|]; [destruct (P d)|];
      try (by apply elem_of_nil in Ho); apply list_elem_of_singleton in Ho as ->; auto.
  - destruct (outcomes r c b s), neg; try (by apply elem_of_nil in Ho);
      apply list_elem_of_singleton in Ho as ->; auto.
Qed.

Lemma outcomes_complete r c b p s :
  pure r = true → lang r p → ∃ c' b', (c', b', s) ∈ outcomes r c b (p ++ s).
Proof.
  revert c b p s. induction r as [|P|P|P|r1 IH1 r2 IH2|r1 IH1 r2 IH2|r IH|m r IH| | | | |P|neg r _];
    intros c b p s Hpure Hl; simpl in *; bool_tac; try done.
  - subst. exists c, b. by left.
  - destruct Hl as (d & -> & Hd). simpl. rewrite Hd. eexists _, _. by left.
  - destruct (star_outcomes_complete P c b p s Hl) as [b' ?]. eauto.
  - destruct (star_outcomes_complete P c b p s Hl) as [b' ?]. exists c, b'. by apply elem_of_reverse.
  - destruct Hl as (p1 & p2 & -> & H1 & H2). rewrite <-(assoc_L (++)).
    destruct (IH1 c b p1 (p2 ++ s)) as (c1 & b1 & ?); [done..|].
    destruct (IH2 c1 b1 p2 s) as (c2 & b2 & ?); [done..|].
    exists c2, b2. apply list_elem_of_bind. by eexists (c1, b1, p2 ++ s).
  - destruct Hl as [Hl|Hl]; [destruct (IH1 c b p s) as (?&?&?)|destruct (IH2 c b p s) as (?&?&?)];
      try done; eexists _, _; apply elem_of_app; eauto.
  - destruct Hl as [Hl| ->]; [destruct (IH c b p s) as (?&?&?)|]; try done;
      eexists _, _; apply elem_of_app; [by left|right; by left].
  - destruct (IH c b p s) as (c' & b' & ?); [done..|].
    eexists _, _. apply list_elem_of_fmap. by exists (c', b', s).
Qed.

Lemma head_elem {A} (l : list A) x : head l = Some x → x ∈ l.
Proof. destruct l; intros; simplify_eq/=. by left. Qed.

Lemma head_is_Some {A} (l : list A) x : x ∈ l → is_Some (head l).
Proof. destruct l; [by intros ?%elem_of_nil|]. by eexists. Qed.

(** [fullmatch] with an assertion-free pattern decides its language. *)
Lemma is_full_spec r s : pure r = true → is_full r s = true ↔ lang r s.
Proof.
  intros Hr. unfold is_full, re_fullmatch, re_match, match_at.
  rewrite bool_decide_eq_true, !fmap_is_Some. split.
  - intros [o Ho%head_elem]. simpl in Ho. apply list_elem_of_bind in Ho as (o1 & Ho & H1).
    apply outcomes_lang in H1 as (p & -> & Hp). simpl in Ho. destruct o1 as [[? ?] [|??]]; simpl in *; [by rewrite app_nil_r|by apply elem_of_nil in Ho].
  - intros Hl. destruct (outcomes_complete r [] None s [] Hr Hl) as (c & b & H).
    rewrite app_nil_r in H. apply (head_is_Some _ (c, b, [])). simpl.
    apply list_elem_of_bind. exists (c, b, []). by split; [left|].
Qed.

Lemma re_match_group r s m n p :
  re_match r s = Some m → group n m = Some p → captures r n p.
Proof.
  unfold re_match, match_at, group. rewrite !fmap_Some.
  intros (? & (o & Ho & ->)%fmap_Some & ->) (e & [He Hn]%find_first_Some & ->).
  apply head_elem in Ho. simpl in He. apply Nat.eqb_eq in Hn. destruct e as [k q]; simpl in *; subst.
  destruct (outcomes_captures _ _ _ _ _ _ _ Ho He) as [?%elem_of_nil|]; done.
Qed.

Lemma lang_lit s p : lang (lit s) p ↔ p = s.
Proof.
  revert p. induction s as [|c s IH]; intros p; simpl; [done|]. split.
  - intros (? & p2 & -> & (d & -> & ->%N.eqb_eq) & ->%IH). done.
  - intros ->. exists [c], s. rewrite IH. split_and!; [done| |done]. exists c. by rewrite N.eqb_refl.
Qed.

Lemma lang_plus P p : lang (plus P) p ↔ p ≠ [] ∧ Forall (λ d, P d = true) p.
Proof.
  simpl. split.
  - intros (? & p2 & -> & (d & -> & Hd) & Hp). split; [done|]. by constructor.
  - intros [Hne Hp]. destruct p as [|d p]; [done|]. inversion_clear Hp.
    exists [d], p. split_and!; eauto.
Qed.

Lemma pure_lit s : pure (lit s) = true.
Proof. induction s; simpl; auto. Qed.

(** An identifier is its prefix followed by at least one digit. *)
Lemma is_full_ident (prefix s : pystr) :
  is_full (ident_re prefix) s = true ↔
  ∃ ds, s = prefix ++ ds ∧ ds ≠ [] ∧ Forall (λ d, is_digit d = true) ds.
Proof.
  rewrite is_full_spec by (simpl; by rewrite pure_lit).
  change (lang (ident_re prefix) s) with
    (∃ p1 p2, s = p1 ++ p2 ∧ lang (lit prefix) p1 ∧ lang (plus is_digit) p2).
  setoid_rewrite lang_lit. setoid_rewrite lang_plus. naive_solver.
Qed.

(** ** First outcomes *)

Definition first (r : re) (c : caps) (b : option N) (s : pystr) (o : outcome) : Prop :=
  head (outcomes r c b s) = Some o.
Definition lastb (b : option N) (p : pystr) : option N := from_option Some b (last p).

Lemma first_Seq r1 r2 c b s c1 b1 s1 o :
  first r1 c b s (c1, b1, s1) → first r2 c1 b1 s1 o → first (Seq r1 r2) c b s o.
Proof.
  unfold first. simpl. intros H1 H2. destruct (outcomes r1 c b s) as [|x l]; [done|].
  simplify_eq/=. by destruct (outcomes r2 c1 b1 s1).
Qed.

Lemma lastb_cons b d p : lastb b (d :: p) = lastb (Some d) p.
Proof. unfold lastb. rewrite last_cons. by destruct (last p). Qed.

Lemma first_lit p c b s : first (lit p) c b (p ++ s) (c, lastb b p, s).
Proof.
  revert b. induction p as [|d p IH]; intros b; [done|]. rewrite lastb_cons.
  eapply first_Seq; [|apply IH]. unfold first. simpl. by rewrite N.eqb_refl.
Qed.

Definition head_fails (P : N → bool) (s : pystr) : Prop :=
  match s with [] => True | d :: _ => P d = false end.

Lemma first_Star P c b p s :
  Forall (λ d, P d = true) p → head_fails P s →
  first (Star P) c b (p ++ s) (c, lastb b p, s).
Proof.
  unfold first. intros Hp Hs. revert b. induction Hp as [|d p Hd Hp IH]; intros b.
  - destruct s as [|d s]; [done|]. simpl in *. by rewrite Hs.
  - rewrite lastb_cons. simpl in *. rewrite Hd. specialize (IH (Some d)).
    by destruct (star_outcomes P c (Some d) (p ++ s)).
Qed.

Lemma first_plus P c b p s :
  p ≠ [] → Forall (λ d, P d = true) p → head_fails P s →
  first (plus P) c b (p ++ s) (c, lastb b p, s).
Proof.
  intros Hne Hp Hs. destruct p as [|d p]; [done|]. inversion_clear Hp as [|?? Hd Hp'].
  rewrite lastb_cons. eapply first_Seq; [|by apply first_Star].
  unfold first. simpl. by rewrite Hd.
Qed.

Lemma first_Grp n r c b p s c' b' :
  first r c b (p ++ s) (c', b', s) → first (Grp n r) c b (p ++ s) ((n, p) :: c', b', s).
Proof.
  unfold first. simpl. intros H. destruct (outcomes r c b (p ++ s)); [done|].
  simplify_eq/=. by rewrite take_consumed.
Qed.

Lemma first_Opt r c b s o : first r c b s o → first (Opt r) c b s o.
Proof. unfold first. simpl. by destruct (outcomes r c b s). Qed.

Lemma first_Opt_none r c b s : outcomes r c b s = [] → first (Opt r) c b s (c, b, s).
Proof. unfold first. simpl. by intros ->. Qed.

Lemma first_Eol c b : first Eol c b [] (c, b, []).
Proof. done. Qed.

Lemma first_match r s c b s' : first r [] None s (c, b, s') → re_match r s = Some c.
Proof. unfold first, re_match, match_at. by intros ->. Qed.

#[export] Hint Resolve first_lit first_Eol : saipen.

(** ** Reachable remainders *)

(** The pattern can leave [s'] of [s], whatever was captured before. *)
Definition can (r : re) (s s' : pystr) : Prop :=
  ∀ c b, ∃ c' b', (c', b', s') ∈ outcomes r c b s.

Lemma can_Seq r1 r2 s s1 s2 : can r1 s s1 → can r2 s1 s2 → can (Seq r1 r2) s s2.
Proof.
  intros H1 H2 c b. destruct (H1 c b) as (c1 & b1 & ?), (H2 c1 b1) as (c2 & b2 & ?).
  exists c2, b2. simpl. apply list_elem_of_bind. by exists (c1, b1, s1).
Qed.

Lemma can_pure r p s : pure r = true → lang r p → can r (p ++ s) s.
Proof. intros Hr Hl c b. by apply outcomes_complete. Qed.

Lemma can_lit p s : can (lit p) (p ++ s) s.
Proof. apply can_pure; [apply pure_lit|by apply lang_lit]. Qed.

Lemma can_Eol : can Eol [] [].
Proof. intros c b. exists c, b. by left. Qed.

Lemma can_Alt_l r1 r2 s s' : can r1 s s' → can (Alt r1 r2) s s'.
Proof. intros H c b. destruct (H c b) as (c1 & b1 & ?). exists c1, b1. apply elem_of_app. by left. Qed.

Lemma can_match r s s' : can r s s' → is_match r s = true.
Proof.
  intros H. destruct (H [] None) as (c & b & Ho). unfold is_match, re_match, match_at.
  rewrite bool_decide_eq_true, !fmap_is_Some. by eapply head_is_Some.
Qed.

Lemma lang_rep n P p : lang (rep n P) p ↔ length p = n ∧ Forall (λ d, P d = true) p.
Proof.
  revert p. induction n as [|n IH]; intros p; simpl.
  - split; [by intros ->|]. by intros [->%nil_length_inv _].
  - split.
    + intros (? & p2 & -> & (d & -> & Hd) & [Hl Hp]%IH). simpl. split; [by rewrite Hl|by constructor].
    + intros [Hl Hp]. destruct p as [|d p]; [done|]. inversion_clear Hp.
      exists [d], p. split_and!; [done|by exists d|]. apply IH. split; [by injection Hl|done].
Qed.

Lemma pure_rep n P : pure (rep n P) = true.
Proof. induction n; simpl; auto. Qed.

Lemma can_rep n P p s :
  length p = n → Forall (λ d, P d = true) p → can (rep n P) (p ++ s) s.
Proof. intros. apply can_pure; [apply pure_rep|by apply lang_rep]. Qed.

(** ** Matched texts *)

Lemma match_at_lang r b s c rest :
  match_at r b s = Some (c, rest) → ∃ p, s = p ++ rest ∧ lang r p.
Proof.
  unfold match_at. intros ([[c' b'] rest'] & Ho%head_elem & [= -> ->])%fmap_Some.
  by apply outcomes_lang in Ho.
Qed.

Lemma finditer_lang r k b s m : m ∈ finditer_go r k b s → lang r m.1.
Proof.
  revert k b. induction s as [|d s IH]; intros k b; [by intros ?%elem_of_nil|].
  cbn [finditer_go]. destruct k; [|apply IH]. destruct (match_at r b (d :: s)) as [[c rest]|] eqn:E; [|apply IH].
  intros [->|H]%elem_of_cons; [|by eapply IH]. apply match_at_lang in E as (p & -> & Hp).
  cbn [fst]. by rewrite take_consumed.
Qed.

Lemma findall_lang r s p : p ∈ re_findall r s → lang r p.
Proof. intros (m & -> & Hm)%list_elem_of_fmap. by eapply finditer_lang. Qed.

Lemma findall_full r s p : pure r = true → p ∈ re_findall r s → is_full r p = true.
Proof. intros Hr Hp%findall_lang. by apply is_full_spec. Qed.

(** ** Groups that always take part *)

Fixpoint binds (r : re) (n : nat) : bool :=
  match r with
  | Seq r1 r2 => binds r1 n || binds r2 n
  | Alt r1 r2 => binds r1 n && binds r2 n
  | Grp m r1 => Nat.eqb m n || binds r1 n
  | _ => false
  end.

Lemma group_cons n m p c : group n ((m, p) :: c) = if Nat.eqb m n then Some p else group n c.
Proof. unfold group. simpl. by destruct (Nat.eqb m n). Qed.

Lemma outcomes_group_mono r c b s o n :
  o ∈ outcomes r c b s → is_Some (group n c) → is_Some (group n o.1.1).
Proof.
  revert c b s o. induction r as [|P|P|P|r1 IH1 r2 IH2|r1 IH1 r2 IH2|r IH|m r IH| | | | |P|neg r _];
    intros c b s o Ho Hc; simpl in *.
  5: { apply list_elem_of_bind in Ho as (o1 & Ho & H1). eauto. }
  5: { apply elem_of_app in Ho as [Ho|Ho]; eauto. }
  5: { apply elem_of_app in Ho as [Ho| ->%list_elem_of_singleton]; eauto. }
  5: { apply list_elem_of_fmap in Ho as (o1 & -> & H1). cbn [fst]. rewrite group_cons.
       case_match; eauto. }
  2: { destruct s as [|d s]; [by apply elem_of_nil in Ho|].
       destruct (P d); [apply list_elem_of_singleton in Ho as ->; done|by apply elem_of_nil in Ho]. }
  2: { apply star_outcomes_lang in Ho as [E _]. destruct o as [[c' b'] s']. by simplify_eq/=. }
  2: { rewrite elem_of_reverse in Ho. apply star_outcomes_lang in Ho as [E _].
       destruct o as [[c' b'] s']. by simplify_eq/=. }
  all: repeat case_match; (by apply elem_of_nil in Ho) || (apply list_elem_of_singleton in Ho as ->; done).
Qed.

Lemma outcomes_binds r c b s o n :
  binds r n = true → o ∈ outcomes r c b s → is_Some (group n o.1.1).
Proof.
  revert c b s o. induction r as [|P|P|P|r1 IH1 r2 IH2|r1 IH1 r2 IH2|r IH|m r IH| | | | |P|neg r _];
    intros c b s o Hb Ho; simpl in *; try done.
  - apply list_elem_of_bind in Ho as (o1 & Ho & H1).
    apply orb_true_iff in Hb as [Hb|Hb]; [|eauto]. eapply outcomes_group_mono; eauto.
  - apply andb_true_iff in Hb as [Hb1 Hb2]. apply elem_of_app in Ho as [Ho|Ho]; eauto.
  - apply list_elem_of_fmap in Ho as (o1 & -> & H1). cbn [fst]. rewrite group_cons.
    destruct (Nat.eqb m n) eqn:E; [by eexists|]. simpl in Hb. eauto.
Qed.

(** The group of a match, when every way to match captures it. *)
Lemma re_match_binds r s m n :
  binds r n = true → re_match r s = Some m →
  group n m = Some (default [] (group n m)) ∧ captures r n (default [] (group n m)).
Proof.
  intros Hb Hm. assert (is_Some (group n m)) as [p Hp].
  { unfold re_match, match_at in Hm. apply fmap_Some in Hm as (? & (o & Ho & ->)%fmap_Some & ->).
    apply head_elem in Ho. by eapply outcomes_binds. }
  rewrite Hp. split; [done|]. by eapply re_match_group.
Qed.

(** ** Searching *)

(** A text of a pattern without assertions is found wherever it stands. *)
Lemma search_complete r p q s b : pure r = true → lang r q → is_Some (search_go r b (p ++ q ++ s)).
Proof.
  intros Hr Hq. revert b. induction p as [|d p IH]; intros b.
  - destruct (outcomes_complete r [] b q s Hr Hq) as (c' & b' & Ho).
    destruct (head_is_Some _ _ Ho) as [o Hh]. cbn [app].
    assert (is_Some (match_at r b (q ++ s))) as [[c1 s1] E] by (apply fmap_is_Some; by eexists).
    destruct (q ++ s); cbn [search_go]; rewrite E; by eexists.
  - cbn [app search_go]. destruct (match_at r b (d :: p ++ q ++ s)) as [[c rest]|]; [by eexists|apply IH].
Qed.

Lemma search_binds r b s m n : binds r n = true → search_go r b s = Some m → is_Some (group n m).
Proof.
  intros Hb. assert (∀ b s c rest, match_at r b s = Some (c, rest) → is_Some (group n c)) as H.
  { intros b' s' c rest ([[c' b''] s''] & Ho%head_elem & [= -> ->])%fmap_Some. by apply (outcomes_binds _ _ _ _ _ n Hb) in Ho. }
  revert b. induction s as [|d s IH]; intros b; cbn [search_go];
    (destruct (match_at r b _) as [[c rest]|] eqn:E; [intros [= <-]; by eapply H|]); [done|apply IH].
Qed.

(** ** Patterns anchored at the end *)

Fixpoint anchored (r : re) : bool :=
  match r with Eol | Eos => true | Seq _ r2 => anchored r2 | _ => false end.

Lemma anchored_rest r c b s o : anchored r = true → o ∈ outcomes r c b s → o.2 = [] ∨ o.2 = [10%N].
Proof.
  revert c b s. induction r as [|P|P|P|r1 IH1 r2 IH2|r1 IH1 r2 IH2|r IH|m r IH| | | | |P|neg r _]; intros c b s Ha Ho; try done.
  - apply list_elem_of_bind in Ho as (o1 & Ho & _). by eapply IH2.
  - simpl in Ho. destruct s as [|d [|e s]]; [apply list_elem_of_singleton in Ho as ->; auto| |by apply elem_of_nil in Ho].
    destruct (N.eqb_spec d 10) as [->|]; [apply list_elem_of_singleton in Ho as ->; auto|by apply elem_of_nil in Ho].
  - simpl in Ho. destruct s; [apply list_elem_of_singleton in Ho as ->; auto|by apply elem_of_nil in Ho].
Qed.
