(* ===== verification/PyDict.v ===== *)
(** * Python dictionaries

    A [dict] keeps its keys in the order of their first insertion, and the
    engine relies on it: the tickets of a board are visited in board order. A
    dictionary of the model is therefore an association list, whose keys the
    operations keep distinct. *)

From S2P Require Import Prelude PyStr.

Definition dict (K V : Type) : Type := list (K * V).

Section dict.
Context {K V : Type} `{EqDecision K}.
Implicit Types (d : dict K V) (k : K) (v : V).

(** [d.get(k)] *)
Fixpoint dget k d : option V :=
  match d with
  | [] => None
  | (k', v) :: d' => if bool_decide (k = k') then Some v else dget k d'
  end.
(** [k in d] *)
Definition dmem k d : bool := bool_decide (is_Some (dget k d)).
(** [d[k] = v] *)
Fixpoint dset k v d : dict K V :=
  match d with
  | [] => [(k, v)]
  | (k', v') :: d' => if bool_decide (k = k') then (k', v) :: d' else (k', v') :: dset k v d'
  end.
(** [d.keys()], [d.values()] *)
Definition dkeys d : list K := d.*1.
Definition dvalues d : list V := d.*2.
Definition wf_dict d : Prop := NoDup (dkeys d).

Lemma dget_dset_eq k v d : dget k (dset k v d) = Some v.
Proof.
  induction d as [|[k' v'] d IH]; simpl; [by rewrite bool_decide_true|].
  case_bool_decide; simpl; [by rewrite bool_decide_true|by rewrite bool_decide_false].
Qed.

Lemma dget_dset_ne k k' v d : k ≠ k' → dget k' (dset k v d) = dget k' d.
Proof.
  intros Hne. induction d as [|[j w] d IH]; simpl.
  - by rewrite bool_decide_false.
  - case_bool_decide; subst; simpl; [by rewrite !bool_decide_false by done|].
    by rewrite IH.
Qed.

Lemma dget_Some_elem k v d : dget k d = Some v → (k, v) ∈ d.
Proof.
  induction d as [|[j w] d IH]; simpl; [done|].
  case_bool_decide; intros; simplify_eq; [left|right; auto].
Qed.

Lemma dget_None k d : dget k d = None ↔ k ∉ dkeys d.
Proof.
  induction d as [|[j w] d IH]; simpl; [split; [intros _; apply not_elem_of_nil|done]|].
  rewrite not_elem_of_cons. case_bool_decide; naive_solver.
Qed.

Lemma dmem_spec k d : dmem k d = true ↔ k ∈ dkeys d.
Proof.
  unfold dmem. rewrite bool_decide_eq_true, is_Some_alt.
  pose proof (dget_None k d) as Hn. destruct (dget k d) eqn:E.
  - split; [|done]. intros _. destruct (decide (k ∈ dkeys d)); [done|]. naive_solver.
  - split; [done|]. intros. naive_solver.
Qed.

Lemma dget_elem k v d : wf_dict d → (k, v) ∈ d → dget k d = Some v.
Proof.
  unfold wf_dict. induction d as [|[j w] d IH]; simpl; [by intros _ ?%elem_of_nil|].
  intros [Hj Hd]%NoDup_cons [Heq|Hin]%elem_of_cons; simplify_eq.
  - by rewrite bool_decide_true.
  - rewrite bool_decide_false; [by apply IH|]. intros ->.
    apply Hj. by apply (list_elem_of_fmap_2 fst _ (j, v)).
Qed.

Lemma dkeys_dset k v d :
  dkeys (dset k v d) = if dmem k d then dkeys d else dkeys d ++ [k].
Proof.
  unfold dmem. induction d as [|[j w] d IH]; simpl; [done|].
  destruct (decide (k = j)) as [->|Hne].
  - rewrite (bool_decide_true (j = j)) by done. simpl. done.
  - rewrite !(bool_decide_false (k = j)) by done. simpl. rewrite IH.
    by case_bool_decide.
Qed.

Lemma wf_dset k v d : wf_dict d → wf_dict (dset k v d).
Proof.
  unfold wf_dict. intros Hd. rewrite dkeys_dset. destruct (dmem k d) eqn:E; [done|].
  apply NoDup_app. split_and!; [done| |apply NoDup_singleton].
  intros x Hx ->%list_elem_of_singleton. apply dmem_spec in Hx. congruence.
Qed.

Lemma dset_new k v d : dget k d = None → dset k v d = d ++ [(k, v)].
Proof.
  induction d as [|[j w] d IH]; simpl; [done|].
  case_bool_decide; [done|]. intros Hd. by rewrite IH.
Qed.

Lemma elem_of_dset k v d e : e ∈ dset k v d → e = (k, v) ∨ e ∈ d.
Proof.
  induction d as [|[j w] d IH]; simpl; [rewrite list_elem_of_singleton; auto|].
  case_bool_decide; rewrite !elem_of_cons; naive_solver.
Qed.

Lemma elem_of_dkeys_dset k v d x : x ∈ dkeys (dset k v d) → x = k ∨ x ∈ dkeys d.
Proof. rewrite dkeys_dset. destruct (dmem k d); [by right|]. set_solver. Qed.

Lemma wf_nil : wf_dict [].
Proof. constructor. Qed.
End dict.

Lemma dget_fmap {K V W} `{EqDecision K} (f : V → W) (k : K) (d : dict K V) :
  dget k ((λ e : K * V, (e.1, f e.2)) <$> d) = f <$> dget k d.
Proof. induction d as [|[j v] d IH]; [done|]. simpl. by case_bool_decide. Qed.

#[export] Hint Resolve wf_dset wf_nil : saipen.

(** [str(fields.get(k, "")).strip()], the accessor of the board's field maps. *)
Definition fget (k : pystr) (d : dict pystr pystr) : pystr := default [] (dget k d).
Definition fval (k : pystr) (d : dict pystr pystr) : pystr := strip (fget k d).
