(* ===== verification/Phases.v ===== *)
(** * The phase automaton and the [PHASE] next-action grammar

    [tools/saipen_engine/phases.py], over the phase data of
    [saipen/REGISTRY.json]. *)

From S2P Require Import Prelude PyStr PyRegex PyDict.

(** ** Registry data *)

Definition PHASES_ALL : list pystr :=
  strs ["INIT"; "PLAN"; "SCOUT"; "BUILD"; "VERIFY"; "REVIEW"; "SHIP"; "DONE"; "BLOCKED";
        "VALIDATE"; "HUNT"; "MARKHUNT"; "ADD"; "CLEAN"; "TRANSLATE"; "PREPARE"].

Definition VALID_TRANSITIONS : dict pystr (list pystr) :=
  (λ e : string * list string, (py e.1, strs e.2)) <$>
  [("INIT", ["PLAN"; "BLOCKED"]);
   ("PLAN", ["SCOUT"; "BUILD"; "DONE"; "BLOCKED"]);
   ("SCOUT", ["BUILD"; "BLOCKED"]);
   ("BUILD", ["VERIFY"; "BLOCKED"]);
   ("VERIFY", ["REVIEW"; "SCOUT"; "BUILD"; "BLOCKED"]);
   ("REVIEW", ["SHIP"; "BUILD"; "SCOUT"; "BLOCKED"]);
   ("SHIP", ["DONE"; "BUILD"; "BLOCKED"]);
   ("DONE", ["SCOUT"; "PLAN"; "HUNT"; "BLOCKED"]);
   ("BLOCKED", ["PLAN"; "SCOUT"; "DONE"]);
   ("VALIDATE", ["SCOUT"; "PLAN"; "DONE"; "BLOCKED"]);
   ("HUNT", ["ADD"; "PLAN"; "SCOUT"; "BLOCKED"]);
   ("MARKHUNT", ["DONE"; "BLOCKED"]);
   ("ADD", ["BUILD"; "PLAN"; "SCOUT"; "DONE"; "BLOCKED"]);
   ("CLEAN", ["DONE"; "BLOCKED"]);
   ("TRANSLATE", ["DONE"; "BLOCKED"]);
   ("PREPARE", ["DONE"; "BLOCKED"])].

Global Arguments VALID_TRANSITIONS : simpl never.

Definition ALL_PHASES : list pystr := dkeys VALID_TRANSITIONS.
Definition ANY_FROM : list pystr :=
  strs ["VALIDATE"; "MARKHUNT"; "CLEAN"; "TRANSLATE"; "PREPARE"; "PLAN"; "HUNT"].
Definition TICKET_BEARING_PHASES : list pystr :=
  strs ["SCOUT"; "BUILD"; "VERIFY"; "REVIEW"; "SHIP"].

Definition is_phase_char (c : N) : bool :=
  is_AZ c || is_az c || (c =? 95)%N || (c =? 45)%N.

(** [^PHASE\s+([A-Za-z_-]+)(?:\s+(T-\d+))?(?:\s+\[[^\]]*\])?\s*$] *)
Definition PHASE_NA_RE : re :=
  seqs [lit "PHASE"; plus is_space; Grp 1 (plus is_phase_char);
        Opt (Seq (plus is_space) (Grp 2 ticket_id_re));
        Opt (seqs [plus is_space; lit "["; Star (λ c, negb (c =? 93)%N); lit "]"]);
        Star is_space; Eol].

(** ** Operations *)

(** The five refusals of [phase_next_action_error], with the phase and the
    ticket reference their messages quote. *)
Inductive na_error : Type :=
  | NotPhaseForm
  | LowerCasePhase (ph : pystr)
  | UnknownPhase (ph : pystr)
  | MissingTicket (ph : pystr)
  | SpuriousTicket (ph ref : pystr).

Definition phase_next_action_error (value : pystr) : option na_error :=
  match re_match PHASE_NA_RE (strip value) with
  | None => Some NotPhaseForm
  | Some m =>
      let ph := default [] (group 1 m) in
      let ref := group 2 m in
      if negb (ph =s upper ph) then Some (LowerCasePhase ph)
      else if negb (mem ph ALL_PHASES) then Some (UnknownPhase ph)
      else match mem ph TICKET_BEARING_PHASES, ref with
           | true, None => Some (MissingTicket ph)
           | false, Some r => Some (SpuriousTicket ph r)
           | _, _ => None
           end
  end.

(** [VALID_TRANSITIONS.get(phase, ())] *)
Definition destinations (phase : pystr) : list pystr := default [] (dget phase VALID_TRANSITIONS).

Definition transition_legal (source destination : pystr) : bool :=
  if mem destination ANY_FROM then true
  else if source =s destination then dmem source VALID_TRANSITIONS || mem source ANY_FROM
  else mem destination (destinations source).

Definition ENTRY_COMMAND : pystr := "saipen start '<the task, one line>'".

Definition forward_route (phase ticket : option pystr) : option pystr :=
  let subject := strip (default [] ticket) in
  if negb (is_full ticket_id_re subject) then Some ENTRY_COMMAND
  else match destinations (default [] phase) with
       | [] => None
       | next :: _ => Some ("saipen transition " +s next +s " " +s subject +s " '<why>'")
       end.

Definition phase_document (phase : pystr) : pystr := "phases/" +s lower phase +s ".md".

(** A walk of the automaton: the phases passed through, the last one included. *)
Inductive walk : pystr → list pystr → pystr → Prop :=
  | walk_here p : walk p [p] p
  | walk_step p q l r : transition_legal p q = true → walk q l r → walk p (p :: l) r.

Definition shipping_order : list pystr := strs ["BUILD"; "VERIFY"; "REVIEW"; "SHIP"].

(** What remains of the shipping order for a walk that stands at a phase. *)
Definition owed (p : pystr) : list pystr :=
  match list_find (eq p) shipping_order with
  | Some (i, _) => drop i shipping_order
  | None => shipping_order
  end.

(** The command [forward_route] prints for a ticket. *)
Definition transition_command (ticket next : pystr) : pystr :=
  "saipen transition " +s next +s " " +s ticket +s " '<why>'".

(** A ticket whose forward routes lead to [DONE] in at most [n] transitions. *)
Inductive routed (ticket : pystr) : nat → pystr → Prop :=
  | routed_done n : routed ticket n (py "DONE")
  | routed_step n p q :
      forward_route (Some p) (Some ticket) = Some (transition_command (strip ticket) q) →
      transition_legal p q = true → routed ticket n q → routed ticket (S n) p.

Fixpoint reaches_done (n : nat) (p : pystr) : bool :=
  match n with
  | O => p =s "DONE"
  | S k => (p =s "DONE") || match head (destinations p) with
                            | Some q => reaches_done k q
                            | None => false
                            end
  end.

(** ** The automaton *)

(** A decidable fact about the finitely many phases. *)
Lemma known_cases (P : pystr → bool) p : forallb P ALL_PHASES = true → p ∈ ALL_PHASES → P p = true.
Proof. rewrite forallb_forall. intros H Hp. apply H. by apply list_elem_of_In. Qed.

Lemma destinations_known p : destinations p ≠ [] → p ∈ ALL_PHASES.
Proof.
  intros H. destruct (decide (p ∈ ALL_PHASES)) as [|Hp]; [done|].
  apply dget_None in Hp. unfold destinations in H. by rewrite Hp in H.
Qed.

Lemma legal_known p q : transition_legal p q = true → q ∉ ANY_FROM → p ∈ ALL_PHASES.
Proof.
  intros H Hq. assert (mem q ANY_FROM = false) as Hm by (by apply bool_decide_eq_false).
  unfold transition_legal in H. rewrite Hm in H. destruct (p =s q) eqn:E.
  - apply eqs_true in E as ->. rewrite Hm, orb_false_r in H. by apply dmem_spec.
  - apply mem_true in H. apply destinations_known. intros E'. rewrite E' in H.
    by apply elem_of_nil in H.
Qed.

Lemma owed_step p q : transition_legal p q = true →
  sublist (owed p) (p :: owed q).
Proof.
  intros H. destruct (decide (q ∈ shipping_order)) as [Hq|Hq].
  - assert (Hp : p ∈ ALL_PHASES).
    { apply legal_known with q; [done|]. intros Ha. revert q H Hq Ha.
      assert (forallb (λ q, negb (mem q ANY_FROM)) shipping_order = true) as HF by (by vm_compute).
      intros q _ Hq Ha. rewrite forallb_forall in HF. specialize (HF q ltac:(by apply list_elem_of_In)).
      unfold mem in HF. by rewrite bool_decide_true in HF. }
    assert (forallb (λ p, forallb (λ q, implb (transition_legal p q) (bool_decide (owed p = p :: owed q) || bool_decide (owed p `suffix_of` owed q))) shipping_order) ALL_PHASES = true) as HF by (by vm_compute).
    apply (known_cases _ p HF) in Hp. rewrite forallb_forall in Hp. specialize (Hp q ltac:(by apply list_elem_of_In)).
    rewrite H in Hp. apply orb_true_iff in Hp as [->%bool_decide_eq_true|Hs%bool_decide_eq_true]; [done|].
    destruct Hs as [k ->]. by apply sublist_cons, sublist_inserts_l.
  - assert (owed q = shipping_order) as ->.
    { unfold owed. rewrite (proj2 (list_find_None _ _)); [done|]. apply Forall_forall. by intros x Hx ->. }
    unfold owed. destruct (list_find (eq p) shipping_order) as [[i ?]|]; [|by constructor]. apply sublist_cons, sublist_drop.
Qed.

Lemma owed_start p : p ∉ shipping_order → owed p = shipping_order.
Proof.
  intros Hp. unfold owed. rewrite (proj2 (list_find_None _ _)); [done|].
  apply Forall_forall. by intros x Hx ->.
Qed.

Lemma walk_owed p l r : walk p l r → r = py "SHIP" → sublist (owed p) l.
Proof.
  intros Hw. induction Hw as [p|p q l r Hs Hw IH]; intros Hr.
  - subst. by constructor; constructor.
  - etrans; [apply owed_step, Hs|]. by constructor; apply IH.
Qed.

(** ** The next-action grammar *)

Lemma phase_chars ph : ph ∈ ALL_PHASES → Forall (λ d, is_phase_char d = true) ph ∧ ph ≠ [].
Proof.
  intros Hph. assert (H : (forallb is_phase_char ph && nonempty ph) = true).
  { apply (known_cases (λ ph, forallb is_phase_char ph && nonempty ph)); [by vm_compute|done]. }
  apply andb_true_iff in H as [H Hn]. split; [|by intros ->].
  apply Forall_forall. rewrite forallb_forall in H. intros d Hd. apply H. by apply list_elem_of_In.
Qed.

Lemma phase_char_not_space d : is_phase_char d = true → is_space d = false.
Proof. intros Hd. destruct (is_space d) eqn:Hs; [|done]. by rewrite (is_space_elem is_phase_char d) in Hd. Qed.

Lemma na_prefix r ph tl s' c' :
  ph ∈ ALL_PHASES → head_fails is_phase_char tl →
  (∀ b, ∃ b', first r [(1, ph)] b tl (c', b', s')) →
  re_match (seqs [lit "PHASE"; plus is_space; Grp 1 (plus is_phase_char); r])
           (py "PHASE " ++ ph ++ tl) = Some c'.
Proof.
  intros [Hc Hne]%phase_chars Htl Hr.
  destruct (Hr (lastb (lastb (lastb None (py "PHASE")) [32%N]) ph)) as [b' Hb].
  eapply first_match, first_Seq; [apply (first_lit "PHASE")|].
  eapply first_Seq; [apply (first_plus is_space _ _ [32%N]); [done|by repeat constructor|]|].
  { destruct ph as [|d ph]; [done|]. inversion_clear Hc. by apply phase_char_not_space. }
  eapply first_Seq; [apply first_Grp, first_plus; [done|exact Hc|exact Htl]|]. exact Hb.
Qed.

Lemma na_tail c b :
  first (seqs [Opt (seqs [plus is_space; lit "["; Star (λ c, negb (c =? 93)%N); lit "]"]);
               Star is_space; Eol]) c b [] (c, b, []).
Proof. done. Qed.

Lemma na_match_bare ph :
  ph ∈ ALL_PHASES → re_match PHASE_NA_RE (py "PHASE " ++ ph) = Some [(1, ph)].
Proof.
  intros Hph. rewrite <-(app_nil_r ph) at 1. apply (na_prefix _ _ [] []); [done..|]. intros b. by exists b.
Qed.

Lemma na_match_ticket ph ds :
  ph ∈ ALL_PHASES → ds ≠ [] → Forall (λ d, is_digit d = true) ds →
  re_match PHASE_NA_RE (py "PHASE " ++ ph ++ py " " ++ py "T-" ++ ds)
  = Some [(2, py "T-" ++ ds); (1, ph)].
Proof.
  intros Hph Hne Hds. eapply (na_prefix _ _ _ []); [done..|]. intros b. eexists.
  eapply first_Seq; [apply first_Opt|apply na_tail].
  eapply first_Seq; [apply (first_plus is_space _ _ [32%N]); [done|by repeat constructor|done]|].
  rewrite <-(app_nil_r ds) at 1. rewrite (assoc_L (++)). apply first_Grp. rewrite <-(assoc_L (++)).
  eapply first_Seq; [apply first_lit|by apply first_plus].
Qed.

(** A canonical action is accepted exactly when it names a ticket if and only if
    its phase bears one. *)
Lemma na_canonical ph (ref : option pystr) :
  ph ∈ ALL_PHASES → from_option (λ r, is_full ticket_id_re r = true) True ref →
  phase_next_action_error (py "PHASE " ++ ph ++ from_option (λ r, py " " ++ r) [] ref)
  = match mem ph TICKET_BEARING_PHASES, ref with
    | true, None => Some (MissingTicket ph)
    | false, Some r => Some (SpuriousTicket ph r)
    | _, _ => None
    end.
Proof.
  intros Hph Href.
  assert (Hup : (ph =s upper ph) = true).
  { apply (known_cases (λ ph, ph =s upper ph)); [by vm_compute|done]. }
  unfold phase_next_action_error. rewrite strip_trimmed.
  - destruct ref as [r|]; cbn [from_option].
    + apply is_full_ident in Href as (ds & -> & Hne & Hds).
      rewrite na_match_ticket by done. cbn [group find_first fmap option_fmap option_map Nat.eqb fst snd default].
      unfold default; simpl. rewrite Hup. simpl. rewrite (proj2 (mem_true _ _) Hph). simpl. by destruct (mem _ _).
    + rewrite app_nil_r, na_match_bare by done.
      unfold default; simpl. rewrite Hup. simpl. rewrite (proj2 (mem_true _ _) Hph). simpl. by destruct (mem _ _).
  - split; [by intros c [= <-]|]. intros c.
    destruct ref as [r|]; cbn [from_option].
    + apply is_full_ident in Href as (ds & -> & Hne & Hds).
      rewrite !(assoc_L (++)), last_app. destruct (last ds) eqn:E; [|by apply last_None in E].
      intros ?; simplify_eq. apply digit_not_space. rewrite Forall_forall in Hds. by apply Hds, last_Some_elem_of.
    + rewrite app_nil_r, last_app. destruct (phase_chars _ Hph) as [Hc Hne].
      destruct (last ph) eqn:E; [|by apply last_None in E].
      intros ?; simplify_eq. apply phase_char_not_space. rewrite Forall_forall in Hc. by apply Hc, last_Some_elem_of.
Qed.

(** ** The forward route *)

Lemma forward_route_ticket phase t :
  is_full ticket_id_re (strip t) = true →
  forward_route (Some phase) (Some t)
  = transition_command (strip t) <$> head (destinations phase).
Proof.
  intros Ht. unfold forward_route.
  change (default [] (Some t)) with t. change (default [] (Some phase)) with phase. rewrite Ht.
  by destruct (destinations phase).
Qed.

Lemma route_head_legal phase next :
  head (destinations phase) = Some next → transition_legal phase next = true.
Proof.
  intros Hn. assert (phase ∈ ALL_PHASES) as Hp by (apply destinations_known; by intros E; rewrite E in Hn).
  apply (known_cases (λ p, match head (destinations p) with
                           | Some q => transition_legal p q | None => true end)) in Hp; [|by vm_compute].
  by rewrite Hn in Hp.
Qed.

Lemma routes_to_done n phase :
  reaches_done n phase = true → ∀ t, is_full ticket_id_re (strip t) = true → routed t n phase.
Proof.
  revert phase. induction n as [|n IH]; intros phase; simpl.
  - intros ->%eqs_true t _. constructor.
  - intros [->%eqs_true|H]%orb_true_iff t Ht; [constructor|].
    destruct (head _) as [next|] eqn:E; [|done].
    apply routed_step with next; [|by apply route_head_legal|by apply IH].
    by rewrite forward_route_ticket, E.
Qed.

(** ** Properties *)

(** C5: Nothing ships unverified: a walk of legal transitions that starts outside
    the shipping order and ends in [SHIP] passes through [BUILD], [VERIFY] and
    [REVIEW], in this order. *)
Theorem ship_needs_verification p l :
  walk p l (py "SHIP") → p ∉ shipping_order → sublist shipping_order l.
Proof. intros Hw Hp. rewrite <-(owed_start p Hp). by apply (walk_owed p l _ Hw). Qed.

Lemma ship_needs_verification_witness :
  sublist shipping_order (strs ["PLAN"; "BUILD"; "VERIFY"; "BUILD"; "VERIFY"; "REVIEW"; "SHIP"]).
Proof.
  apply (ship_needs_verification (py "PLAN")); [|by vm_compute; set_solver].
  unfold strs; cbn [fmap list_fmap].
  apply (walk_step _ (py "BUILD")); [by vm_compute|].
  apply (walk_step _ (py "VERIFY")); [by vm_compute|].
  apply (walk_step _ (py "BUILD")); [by vm_compute|].
  apply (walk_step _ (py "VERIFY")); [by vm_compute|].
  apply (walk_step _ (py "REVIEW")); [by vm_compute|].
  apply (walk_step _ (py "SHIP")); [by vm_compute|].
  apply walk_here.
Defined.

(** The command that [forward_route] prints is a legal transition of the given
    ticket; without a well-formed ticket it is the entry command, and only an
    unknown phase gets no command at all. *)
Theorem forward_route_sound (phase ticket : pystr) :
  match forward_route (Some phase) (Some ticket) with
  | Some cmd =>
      (is_full ticket_id_re (strip ticket) = false ∧ cmd = ENTRY_COMMAND)
      ∨ (is_full ticket_id_re (strip ticket) = true
         ∧ ∃ next, transition_legal phase next = true
                   ∧ cmd = transition_command (strip ticket) next)
  | None => is_full ticket_id_re (strip ticket) = true ∧ phase ∉ ALL_PHASES
  end.
Proof.
  destruct (is_full ticket_id_re (strip ticket)) eqn:Ht.
  - rewrite forward_route_ticket by done.
    destruct (head _) as [next|] eqn:E; simpl; [eauto 6 using route_head_legal|].
    split; [done|]. intros Hp.
    apply (known_cases (λ p, match head (destinations p) with
                             | Some q => true | None => false end)) in Hp; [|by vm_compute].
    by rewrite E in Hp.
  - unfold forward_route. change (default [] (Some ticket)) with ticket. rewrite Ht. cbn [negb]. by left.
Qed.

(** Following [forward_route] brings a ticket from any phase of the registry to
    [DONE] in at most eight legal transitions. *)
Theorem forward_route_reaches_done phase ticket :
  phase ∈ ALL_PHASES → is_full ticket_id_re (strip ticket) = true → routed ticket 8 phase.
Proof. intros Hp. apply routes_to_done. by apply (known_cases (reaches_done 8)); [vm_compute|]. Qed.

Lemma forward_route_reaches_done_witness : routed "T-12" 8 "BLOCKED".
Proof. apply forward_route_reaches_done; [by apply mem_true; vm_compute|by vm_compute]. Defined.

(** A canonical [PHASE] action is accepted exactly when it names a ticket if and
    only if its phase bears one, and refused with the matching error otherwise. *)
Theorem phase_next_action_canonical ph (ref : option pystr) :
  ph ∈ ALL_PHASES → from_option (λ r, is_full ticket_id_re r = true) True ref →
  phase_next_action_error (py "PHASE " ++ ph ++ from_option (λ r, py " " ++ r) [] ref)
  = match mem ph TICKET_BEARING_PHASES, ref with
    | true, None => Some (MissingTicket ph)
    | false, Some r => Some (SpuriousTicket ph r)
    | _, _ => None
    end.
Proof. apply na_canonical. Qed.

Lemma phase_next_action_canonical_witness :
  phase_next_action_error (py "PHASE BUILD T-7") = None.
Proof.
  apply (phase_next_action_canonical (py "BUILD") (Some (py "T-7")));
    [by apply mem_true; vm_compute|by vm_compute].
Defined.
