(* ===== verification/BoardClock.v ===== *)
(** * Strict UTC time stamps

    [_strict_utc_stamp], [strict_iso_utc] and [iso_utc_sort_key] of
    [tools/saipen_engine/board.py]. A datetime is a [stamp]; its position on
    the time line, which is what datetime comparison and subtraction use, is
    [instant], in microseconds. *)

From S2P Require Import Prelude PyStr PyStrFacts PyRegex.

Record stamp : Type := Stamp {
  year : N; month : N; day : N; hour : N; minute : N; second : N; micro : N }.

Global Instance stamp_eq_dec : EqDecision stamp.
Proof. solve_decision. Defined.

(** ** The calendar of [datetime] *)

Definition is_leap (y : N) : bool :=
  ((y mod 4 =? 0) && (negb (y mod 100 =? 0) || (y mod 400 =? 0)))%N.

Definition days_in_month (y m : N) : N :=
  match m with
  | 2 => if is_leap y then 29 else 28
  | 4 | 6 | 9 | 11 => 30
  | _ => 31
  end%N.

Definition days_before_year (y : N) : N :=
  ((y - 1) * 365 + (y - 1) / 4 - (y - 1) / 100 + (y - 1) / 400)%N.

Definition days_before_month (y m : N) : N :=
  match m with
  | 1 => 0 | 2 => 31 | 3 => 59 | 4 => 90 | 5 => 120 | 6 => 151 | 7 => 181
  | 8 => 212 | 9 => 243 | 10 => 273 | 11 => 304 | _ => 334
  end%N + (if ((2 <? m) && is_leap y)%N then 1 else 0)%N.

Definition ordinal (t : stamp) : N :=
  (days_before_year (year t) + days_before_month (year t) (month t) + day t)%N.

Definition instant (t : stamp) : Z :=
  Z.of_N ((((ordinal t * 24 + hour t) * 60 + minute t) * 60 + second t) * 1000000 + micro t).

(** The range checks of the [datetime] constructor. *)
Definition valid_stamp (t : stamp) : bool :=
  ((1 <=? year t) && (year t <=? 9999)
   && (1 <=? month t) && (month t <=? 12)
   && (1 <=? day t) && (day t <=? days_in_month (year t) (month t))
   && (hour t <? 24) && (minute t <? 60) && (second t <? 60) && (micro t <? 1000000))%N.

(** ** Parsing *)

Definition date_time_re : list re :=
  [rep 4 is_digit; lit "-"; rep 2 is_digit; lit "-"; rep 2 is_digit; lit "T";
   rep 2 is_digit; lit ":"; rep 2 is_digit; lit ":"; rep 2 is_digit;
   Opt (Seq (lit ".") (plus is_digit))].

Definition STRICT_UTC_RE : re :=
  Alt (seqs (date_time_re ++ [lit "Z"; Eol])) (seqs (date_time_re ++ [lit "+00:00"; Eol])).

(** A run of ASCII digits: [datetime] accepts no other decimal digits. *)
Definition ascii_num (s : pystr) : option N :=
  if forallb is_ascii_digit s then Some (int_of s) else None.

(** The first six digits of a fraction, as microseconds. *)
Definition micro_of (digits : pystr) : N :=
  int_of (take 6 (digits ++ replicate 6 48%N)).

(** [datetime.fromisoformat] on a text of the shape [STRICT_UTC_RE] admits,
    whose final [Z] has been replaced by [+00:00]. *)
Definition fromisoformat (t : pystr) : option stamp :=
  y ← ascii_num (take 4 t);
  mo ← ascii_num (take 2 (drop 5 t));
  d ← ascii_num (take 2 (drop 8 t));
  h ← ascii_num (take 2 (drop 11 t));
  mi ← ascii_num (take 2 (drop 14 t));
  s ← ascii_num (take 2 (drop 17 t));
  us ← (let rest := drop 19 t in
        if rest =s "+00:00" then Some 0%N
        else match rest with
             | dot :: r =>
                 let digits := take_while is_ascii_digit r in
                 if (dot =? 46)%N && nonempty digits
                    && (drop_while is_ascii_digit r =s "+00:00")
                 then Some (micro_of digits) else None
             | [] => None
             end);
  let st := Stamp y mo d h mi s us in
  if valid_stamp st then Some st else None.

Definition strict_utc_stamp (text : pystr) : option stamp :=
  if is_match STRICT_UTC_RE text then fromisoformat (replace "Z" "+00:00" text) else None.

Definition iso_utc_sort_key (value : pystr) : option stamp :=
  let text := strip value in
  if nonempty text then strict_utc_stamp text else None.

(** ** Printing *)

Definition digit (n : N) : N := (48 + n mod 10)%N.
Fixpoint pad (width : nat) (n : N) : pystr :=
  match width with O => [] | S w => pad w (n / 10) ++ [digit n] end.

(** [datetime.isoformat] of a naive datetime. *)
Definition isoformat (t : stamp) : pystr :=
  pad 4 (year t) ++ py "-" ++ pad 2 (month t) ++ py "-" ++ pad 2 (day t) ++ py "T"
  ++ pad 2 (hour t) ++ py ":" ++ pad 2 (minute t) ++ py ":" ++ pad 2 (second t)
  ++ (if (micro t =? 0)%N then [] else py "." ++ pad 6 (micro t)).

Definition strict_iso_utc (value : pystr) : pystr :=
  let text := strip value in
  if nonempty text
  then match strict_utc_stamp text with
       | Some st => isoformat st ++ py "Z"
       | None => []
       end
  else [].

(** ** Notions of the properties *)

(** The fraction [isoformat] prints. *)
Definition fraction (us : N) : pystr := if (us =? 0)%N then [] else py "." ++ pad 6 us.

Definition utc : pystr := py "+00:00".

(** The calendar fields, most significant first, and their lexicographic order. *)
Definition fields_of (t : stamp) : list N :=
  [year t; month t; day t; hour t; minute t; second t; micro t].
Fixpoint lex_ltb (a b : list N) : bool :=
  match a, b with
  | x :: a', y :: b' => (x <? y)%N || ((x =? y)%N && lex_ltb a' b')
  | _, _ => false
  end.

(** ** Decimal numerals *)

Lemma digit_val_ascii k : (k < 10)%N → digit_val (48 + k) = Some k.
Proof.
  intros Hk. assert (k = 0 ∨ k = 1 ∨ k = 2 ∨ k = 3 ∨ k = 4 ∨ k = 5 ∨ k = 6 ∨ k = 7 ∨ k = 8 ∨ k = 9)%N as H by lia.
  repeat (destruct H as [->|H]; [by vm_compute|]). subst. by vm_compute.
Qed.

Lemma digit_val_digit n : digit_val (digit n) = Some (n mod 10)%N.
Proof. apply digit_val_ascii, N.mod_lt. done. Qed.

Lemma digit_is_ascii n : is_ascii_digit (digit n) = true.
Proof.
  unfold is_ascii_digit, in_range, digit. pose proof (N.mod_lt n 10 ltac:(done)).
  apply andb_true_iff. rewrite !N.leb_le. revert H. generalize (n mod 10)%N. intros m Hm. lia.
Qed.

Lemma digit_is_digit n : is_digit (digit n) = true.
Proof. unfold is_digit. by rewrite digit_val_digit. Qed.

Lemma length_pad w n : length (pad w n) = w.
Proof. revert n. induction w as [|w IH]; intros n; simpl; [done|]. rewrite length_app, IH. simpl. lia. Qed.

Lemma pad_Forall (P : N → Prop) w n : (∀ m, P (digit m)) → Forall P (pad w n).
Proof.
  intros HP. revert n. induction w as [|w IH]; intros n; simpl; [constructor|].
  apply Forall_app. split; [done|by constructor].
Qed.

Lemma int_of_snoc s c : int_of (s ++ [c]) = (10 * int_of s + default 0 (digit_val c))%N.
Proof. unfold int_of. by rewrite foldl_app. Qed.

Lemma int_of_pad w n : (n < 10 ^ N.of_nat w)%N → int_of (pad w n) = n.
Proof.
  revert n. induction w as [|w IH]; intros n Hn.
  - simpl in Hn. change (int_of (pad 0 n)) with 0%N. lia.
  - simpl pad. rewrite int_of_snoc, digit_val_digit, IH.
    + simpl. rewrite <-N.div_mod by done. done.
    + rewrite Nat2N.inj_succ, N.pow_succ_r' in Hn. apply N.Div0.div_lt_upper_bound. lia.
Qed.

Lemma ascii_num_pad w n : (n < 10 ^ N.of_nat w)%N → ascii_num (pad w n) = Some n.
Proof.
  intros Hn. unfold ascii_num. rewrite int_of_pad by done.
  assert (forallb is_ascii_digit (pad w n) = true) as ->; [|done].
  apply forallb_forall. intros x Hx%list_elem_of_In.
  pose proof (pad_Forall (λ c, is_ascii_digit c = true) w n digit_is_ascii) as H.
  rewrite Forall_forall in H. by apply H.
Qed.

(** ** The printed form is accepted and read back *)

Lemma can_pad w n s : can (rep w is_digit) (pad w n ++ s) s.
Proof. apply can_rep; [apply length_pad|apply pad_Forall, digit_is_digit]. Qed.

Lemma can_fraction us s :
  head_fails (λ c, (c =? 46)%N) s →
  can (Opt (Seq (lit ".") (plus is_digit))) (fraction us ++ s) s.
Proof.
  intros Hs. unfold fraction. case_match.
  - by apply (can_pure _ []); [|right].
  - rewrite <-(assoc_L (++)). intros c b.
    destruct (can_Seq (lit ".") (plus is_digit) (py "." ++ pad 6 us ++ s) (pad 6 us ++ s) s
                (can_lit _ _)) with c b as (c' & b' & Ho).
    + apply can_pure; [done|]. apply lang_plus. split; [|apply pad_Forall, digit_is_digit].
      intros E. pose proof (length_pad 6 us) as Hl. by rewrite E in Hl.
    + exists c', b'. simpl. apply elem_of_app. by left.
Qed.

Lemma isoformat_matches st : is_match STRICT_UTC_RE (isoformat st ++ py "Z") = true.
Proof.
  unfold STRICT_UTC_RE, isoformat. fold (fraction (micro st)). rewrite <-!(assoc_L (++)).
  eapply can_match, can_Alt_l. unfold date_time_re. cbn [seqs app].
  repeat first
    [ apply can_Eol
    | eapply can_Seq;
      [first [apply can_pad | apply can_lit | by apply can_fraction
             | rewrite <-(app_nil_r (py "Z")); apply can_lit]|] ].
Qed.

Lemma isoformat_no_Z st : Forall (λ c, head (py "Z") ≠ Some c) (isoformat st).
Proof.
  assert (Hd : ∀ m, head (py "Z") ≠ Some (digit m)).
  { intros m. unfold digit. pose proof (N.mod_lt m 10 ltac:(done)) as H. revert H.
    generalize (m mod 10)%N. intros k Hk [= E]. lia. }
  unfold isoformat. rewrite !Forall_app. split_and!;
    try (by apply pad_Forall); try (repeat constructor; by vm_compute).
  case_match; [constructor|]. apply Forall_app. split; [repeat constructor; by vm_compute|by apply pad_Forall].
Qed.

Lemma valid_bounds st :
  valid_stamp st = true →
  (year st < 10000 ∧ month st < 100 ∧ day st < 100 ∧ hour st < 100 ∧ minute st < 100
   ∧ second st < 100 ∧ micro st < 1000000)%N.
Proof.
  unfold valid_stamp. intros H. bool_tac.
  assert (days_in_month (year st) (month st) ≤ 31)%N.
  { unfold days_in_month. repeat case_match; lia. }
  repeat match goal with
  | H : (_ <=? _)%N = true |- _ => apply N.leb_le in H
  | H : (_ <? _)%N = true |- _ => apply N.ltb_lt in H
  end. lia.
Qed.

Lemma take_while_app P p s :
  Forall (λ c, P c = true) p → head_fails P s → take_while P (p ++ s) = p.
Proof.
  intros Hp Hs. induction Hp as [|c p Hc Hp IH]; simpl.
  - destruct s as [|c s]; [done|]. simpl in *. by rewrite Hs.
  - by rewrite Hc, IH.
Qed.

Lemma drop_while_app P p s :
  Forall (λ c, P c = true) p → head_fails P s → drop_while P (p ++ s) = s.
Proof.
  intros Hp Hs. induction Hp as [|c p Hc Hp IH]; simpl; [|by rewrite Hc].
  destruct s as [|c s]; [done|]. simpl in *. by rewrite Hs.
Qed.

Lemma read_fraction us :
  (us < 1000000)%N →
  (let rest := fraction us ++ utc in
   if rest =s "+00:00" then Some 0%N
   else match rest with
        | dot :: r =>
            let digits := take_while is_ascii_digit r in
            if (dot =? 46)%N && nonempty digits
               && (drop_while is_ascii_digit r =s "+00:00")
            then Some (micro_of digits) else None
        | [] => None
        end) = Some us.
Proof.
  intros Hus. unfold fraction. destruct (us =? 0)%N eqn:E.
  - apply N.eqb_eq in E as ->. by vm_compute.
  - assert (Hne : ((py "." ++ pad 6 us) ++ utc =s "+00:00") = false).
    { apply bool_decide_eq_false. intros [=]. }
    cbv zeta. rewrite Hne. change ((py "." ++ pad 6 us) ++ utc) with (46%N :: pad 6 us ++ utc). cbv iota.
    assert (Hd : Forall (λ c, is_ascii_digit c = true) (pad 6 us)) by (apply pad_Forall, digit_is_ascii).
    rewrite take_while_app, drop_while_app by (done || by vm_compute).
    assert (nonempty (pad 6 us) = true) as ->.
    { pose proof (length_pad 6 us) as Hl. by destruct (pad 6 us). }
    change (Some (micro_of (pad 6 us)) = Some us). unfold micro_of.
    rewrite take_app_length', int_of_pad by (done || by rewrite length_pad). done.
Qed.

Lemma fromisoformat_isoformat st :
  valid_stamp st = true → fromisoformat (isoformat st ++ utc) = Some st.
Proof.
  intros Hv. pose proof (valid_bounds st Hv) as (Hy & Hmo & Hd & Hh & Hmi & Hs & Hus).
  unfold isoformat. fold (fraction (micro st)). rewrite <-!(assoc_L (++)).
  set (rest := fraction (micro st) ++ utc). unfold fromisoformat.
  set (t := pad 4 (year st) ++ _).
  change (take 4 t) with (pad 4 (year st)). change (take 2 (drop 5 t)) with (pad 2 (month st)).
  change (take 2 (drop 8 t)) with (pad 2 (day st)). change (take 2 (drop 11 t)) with (pad 2 (hour st)).
  change (take 2 (drop 14 t)) with (pad 2 (minute st)). change (take 2 (drop 17 t)) with (pad 2 (second st)).
  change (drop 19 t) with rest. rewrite !ascii_num_pad by done. cbn [mbind option_bind].
  unfold rest. rewrite read_fraction by done. cbn [mbind option_bind]. destruct st; simpl in *.
  by rewrite Hv.
Qed.

Lemma isoformat_trimmed st : trimmed (isoformat st ++ py "Z").
Proof.
  split; [|intros c; rewrite last_app; by intros [= <-]].
  intros c Hc. change (Some (digit (year st / 10 / 10 / 10)) = Some c) in Hc. simplify_eq.
  apply digit_not_space, digit_is_digit.
Qed.

Lemma stamp_roundtrip st :
  valid_stamp st = true → iso_utc_sort_key (isoformat st ++ py "Z") = Some st.
Proof.
  intros Hv. unfold iso_utc_sort_key. rewrite strip_trimmed by apply isoformat_trimmed.
  assert (nonempty (isoformat st ++ py "Z") = true) as -> by done.
  unfold strict_utc_stamp. rewrite isoformat_matches. unfold replace.
  rewrite replace_go_skip by (done || apply isoformat_no_Z).
  by apply (fromisoformat_isoformat st).
Qed.

Lemma iso_utc_sort_key_valid v st : iso_utc_sort_key v = Some st → valid_stamp st = true.
Proof.
  unfold iso_utc_sort_key, strict_utc_stamp. intros H. case_match; [|done]. case_match; [|done].
  unfold fromisoformat in H. repeat apply bind_Some in H as (? & _ & H).
  cbv zeta in H. case_match; [|done]. by simplify_eq.
Qed.

Lemma strict_iso_utc_key v :
  strict_iso_utc v = match iso_utc_sort_key v with Some st => isoformat st ++ py "Z" | None => [] end.
Proof. unfold strict_iso_utc, iso_utc_sort_key. by destruct (nonempty (strip v)). Qed.

(** ** The order of instants *)

Lemma days_before_next_year y :
  (1 ≤ y)%N → days_before_year (y + 1) = (days_before_year y + 365 + if is_leap y then 1 else 0)%N.
Proof.
  intros Hy. pose proof (N.div_mod (y - 1) 400 ltac:(done)) as Hx.
  assert (Hr : ((y - 1) mod 400 < 400)%N) by (by apply N.mod_lt).
  remember ((y - 1) / 400)%N as k. remember ((y - 1) mod 400)%N as r. clear Heqk Heqr.
  assert (y = 400 * k + (r + 1))%N as -> by lia. clear Hx Hy.
  unfold days_before_year, is_leap.
  replace (400 * k + (r + 1) + 1 - 1)%N with (400 * k + (r + 1))%N by lia.
  replace (400 * k + (r + 1) - 1)%N with (400 * k + r)%N by lia.
  rewrite !(N.add_comm (400 * k)).
  assert (D : ∀ z c q, (c ≠ 0 → c * q = 400 → (z + 400 * k) / c = z / c + q * k)%N).
  { intros z c q Hc Hq. rewrite <-Hq, <-N.mul_assoc, N.mul_comm, N.div_add by done. lia. }
  assert (M : ∀ z c q, (c ≠ 0 → c * q = 400 → (z + 400 * k) mod c = z mod c)%N).
  { intros z c q Hc Hq. rewrite <-Hq, <-N.mul_assoc, N.mul_comm. by apply N.Div0.mod_add. }
  rewrite !(D _ 4 100)%N, !(D _ 100 4)%N, !(D _ 400 1)%N by done.
  rewrite !(M _ 4 100)%N, !(M _ 100 4)%N, !(M _ 400 1)%N by done.
  assert (C : forallb (λ n, let r := N.of_nat n in
    ((r + 1) / 4 + r / 100 + (r + 1) / 400 =?
     (r / 4 + (r + 1) / 100 + r / 400 + (if ((r + 1) mod 4 =? 0) && (negb ((r + 1) mod 100 =? 0)
      || ((r + 1) mod 400 =? 0)) then 1 else 0)))%N && ((r + 1) / 100 <=? (r + 1) / 4)%N && (r / 100 <=? r / 4)%N) (seq 0 400) = true) by (by vm_compute).
  rewrite forallb_forall in C. specialize (C (N.to_nat r)). rewrite in_seq, N2Nat.id in C.
  specialize (C ltac:(lia)). cbv zeta in C. bool_tac.
  repeat match goal with H : (_ <=? _)%N = true |- _ => apply N.leb_le in H | H : (_ =? _)%N = true |- _ => apply N.eqb_eq in H end. clear D M. case_match; lia.
Qed.

Lemma day_of_year_bound t :
  valid_stamp t = true →
  (1 ≤ days_before_month (year t) (month t) + day t ≤ 365 + if is_leap (year t) then 1 else 0)%N.
Proof.
  unfold valid_stamp. intros H. bool_tac.
  N_bounds.
  unfold days_in_month, days_before_month in *. destruct (is_leap (year t)).
  all: destruct (month t) as [|p]; [lia|]; repeat (destruct p as [p|p|]; try lia); simpl in *; lia.
Qed.

Lemma days_before_year_mono y y' :
  (1 ≤ y → y < y' → days_before_year y + 365 + (if is_leap y then 1 else 0) ≤ days_before_year y')%N.
Proof.
  intros Hy Hlt. replace y' with (y + 1 + N.of_nat (N.to_nat (y' - y - 1)))%N by lia.
  induction (N.to_nat (y' - y - 1)) as [|n IH].
  - rewrite N.add_0_r, days_before_next_year by done. lia.
  - etrans; [exact IH|]. replace (y + 1 + N.of_nat (S n))%N with (y + 1 + N.of_nat n + 1)%N by lia.
    rewrite (days_before_next_year (y + 1 + N.of_nat n)) by lia. lia.
Qed.

Lemma month_end y m m' d :
  (1 ≤ m → m < m' → m' ≤ 12 → d ≤ days_in_month y m →
   days_before_month y m + d ≤ days_before_month y m')%N.
Proof.
  intros H1 H2 H3 Hd. unfold days_in_month, days_before_month in *. destruct (is_leap y).
  all: assert (m = 1 ∨ m = 2 ∨ m = 3 ∨ m = 4 ∨ m = 5 ∨ m = 6 ∨ m = 7 ∨ m = 8 ∨ m = 9 ∨ m = 10 ∨ m = 11)%N as Hm by lia;
    repeat (destruct Hm as [->|Hm]; [|try subst m]); simpl in Hd;
    destruct m' as [|p]; try lia; repeat (destruct p as [p|p|]; try lia); simpl; lia.
Qed.

Ltac lex_prop H :=
  cbn [lex_ltb] in H;
  repeat first [rewrite orb_true_iff in H | rewrite andb_true_iff in H
               | rewrite N.ltb_lt in H | rewrite N.eqb_eq in H].

Lemma lex_ordinal a b :
  valid_stamp a = true → valid_stamp b = true →
  lex_ltb [year a; month a; day a] [year b; month b; day b] = true → (ordinal a < ordinal b)%N.
Proof.
  intros Ha Hb H. pose proof (day_of_year_bound a Ha). pose proof (day_of_year_bound b Hb).
  unfold valid_stamp in Ha, Hb. bool_tac.
  N_bounds.
  unfold ordinal. lex_prop H. destruct H as [H|[<- [H|[<- [H|[_ H]]]]]]; [| | |done].
  - pose proof (days_before_year_mono (year a) (year b)). lia.
  - pose proof (month_end (year a) (month a) (month b) (day a)). lia.
  - lia.
Qed.

Lemma lex_app a1 a2 b1 b2 :
  length a1 = length b1 →
  lex_ltb (a1 ++ a2) (b1 ++ b2) = true ↔ lex_ltb a1 b1 = true ∨ (a1 = b1 ∧ lex_ltb a2 b2 = true).
Proof.
  revert b1. induction a1 as [|x a1 IH]; intros [|y b1] Hl; simplify_eq/=; [naive_solver|].
  rewrite !orb_true_iff, !andb_true_iff, IH, !N.ltb_lt, !N.eqb_eq by done. naive_solver.
Qed.

Lemma instant_mono a b :
  valid_stamp a = true → valid_stamp b = true →
  lex_ltb (fields_of a) (fields_of b) = true → (instant a < instant b)%Z.
Proof.
  intros Ha Hb H.
  apply (lex_app [year a; month a; day a] _ [year b; month b; day b] _ eq_refl) in H.
  assert (H' : (ordinal a < ordinal b)%N ∨ (ordinal a = ordinal b ∧ lex_ltb
    [hour a; minute a; second a; micro a] [hour b; minute b; second b; micro b] = true)).
  { destruct H as [H|[[= E1 E2 E3] H]]; [left; by apply lex_ordinal|right].
    unfold ordinal. by rewrite E1, E2, E3. }
  clear H. unfold valid_stamp in Ha, Hb. bool_tac.
  N_bounds.
  unfold instant. destruct H' as [Ho|[Ho Hx]]; [lia|]. rewrite Ho. lex_prop Hx. lia.
Qed.

Lemma lex_total a b : length a = length b → lex_ltb a b = true ∨ a = b ∨ lex_ltb b a = true.
Proof.
  revert b. induction a as [|x a IH]; intros [|y b] Hl; simplify_eq/=; [auto|].
  rewrite !orb_true_iff, !andb_true_iff, !N.ltb_lt, !N.eqb_eq.
  destruct (N.lt_trichotomy x y) as [|[->|]]; [auto| |auto]. destruct (IH b) as [|[->|]]; auto.
Qed.

(** ** Properties *)

(** [strict_iso_utc] is a normal form: it is idempotent, keeps the instant of
    every text that [iso_utc_sort_key] accepts, and is empty for every other. *)
Theorem strict_iso_utc_normal v :
  strict_iso_utc (strict_iso_utc v) = strict_iso_utc v
  ∧ iso_utc_sort_key (strict_iso_utc v) = iso_utc_sort_key v
  ∧ (strict_iso_utc v = [] ↔ iso_utc_sort_key v = None).
Proof.
  rewrite (strict_iso_utc_key (strict_iso_utc v)), (strict_iso_utc_key v).
  destruct (iso_utc_sort_key v) as [st|] eqn:E; [|done].
  rewrite stamp_roundtrip by (by eapply iso_utc_sort_key_valid). done.
Qed.

(** Comparing the instants of two accepted texts is comparing their calendar
    fields, most significant first: the order [iso_utc_sort_key] sorts by is the
    chronological one. *)
Theorem sort_key_chronological v w a b :
  iso_utc_sort_key v = Some a → iso_utc_sort_key w = Some b →
  (instant a < instant b)%Z ↔ lex_ltb (fields_of a) (fields_of b) = true.
Proof.
  intros Ha%iso_utc_sort_key_valid Hb%iso_utc_sort_key_valid. split; [|by apply instant_mono].
  intros Hlt. destruct (lex_total (fields_of a) (fields_of b) eq_refl) as [|[E|H]]; [done| |].
  - assert (a = b) as -> by (destruct a, b; unfold fields_of in E; simpl in E; congruence). lia.
  - apply instant_mono in H; [lia|done|done].
Qed.

Lemma sort_key_chronological_witness :
  (instant (Stamp 2024 2 29 23 59 59 500000) < instant (Stamp 2024 3 1 0 0 0 0))%Z.
Proof.
  apply (sort_key_chronological "2024-02-29T23:59:59.5Z" " 2024-03-01T00:00:00+00:00");
    vm_compute; reflexivity.
Defined.
