(* ===== verification/BoardRecord.v ===== *)
(** * One physical board record

    The record boundary, the escaping of payload text and the field mutators of
    [tools/saipen_engine/board.py]. *)

From S2P Require Import Prelude PyStr PyStrFacts PyRegex.

(** ** The record boundary *)

Definition RECORD_SEPARATORS : list N := [10; 13; 11; 12; 28; 29; 30; 133; 8232; 8233]%N.

(** The refusals of the record writers. *)
Inductive record_error : Type :=
  | CarriesSeparator (field : pystr) (sep : N)
  | RecordOversize (length : nat)
  | RepeatsField (field : pystr).

Definition record_separator_in (value : pystr) : option N :=
  find_first (λ sep, bool_decide (sep ∈ value)) RECORD_SEPARATORS.

Definition assert_single_record (value field : pystr) : res record_error pystr :=
  match record_separator_in value with
  | Some sep => Err (CarriesSeparator field sep)
  | None => Ok value
  end.

Definition MAX_LIVE_RECORD_CHARS : nat := 1200.

Definition assert_live_record (record : pystr) : res record_error pystr :=
  assert_single_record record "ticket_record" ≫= λ _,
  if (MAX_LIVE_RECORD_CHARS <? length record)%nat
  then Err (RecordOversize (length record)) else Ok record.

(** ** Escaping *)

Definition PIPE_SENTINEL : pystr := [0%N].

Definition escape_ticket_description (description : pystr) : res record_error pystr :=
  assert_single_record description "description" ≫= λ _,
  Ok (replace "|" "\|" (replace "\" "\\" description)).

Definition unescape_ticket_part (part : pystr) : pystr :=
  replace PIPE_SENTINEL "|" (replace "\\" "\" part).

(** ** Fields of a record *)

Definition fields_split (raw : pystr) : list pystr :=
  split " | " (replace "\|" PIPE_SENTINEL raw).

Definition fields_join (parts : list pystr) : pystr :=
  replace PIPE_SENTINEL "\|" (join " | " parts).

Definition is_field_char (c : N) : bool := is_az c || (c =? 95)%N.

(** [^([a-z_]+):\s*] *)
Definition FIELD_HEAD_RE : re :=
  seqs [Grp 1 (plus is_field_char); lit ":"; Star is_space].

(** [^<field>:\s*] *)
Definition field_pattern (field : pystr) : re :=
  seqs [lit field; lit ":"; Star is_space].

Fixpoint reject_duplicates_go (seen : list pystr) (parts : list pystr) : res record_error () :=
  match parts with
  | [] => Ok tt
  | part :: parts' =>
      if startswith "- " part then reject_duplicates_go seen parts'
      else match re_match FIELD_HEAD_RE part with
           | None => reject_duplicates_go seen parts'
           | Some m =>
               let name := default [] (group 1 m) in
               if mem name seen then Err (RepeatsField name)
               else reject_duplicates_go (name :: seen) parts'
           end
  end.

Definition reject_duplicate_fields (raw : pystr) : res record_error () :=
  reject_duplicates_go [] (fields_split raw).

(** The loop of [set_ticket_field]: the first part that carries the field is
    replaced, every other part is kept. *)
Fixpoint set_parts (field value : pystr) (replaced : bool) (parts : list pystr)
    : list pystr * bool :=
  match parts with
  | [] => ([], replaced)
  | part :: parts' =>
      let hit := is_match (field_pattern field) part in
      if (startswith "- " part || hit) && hit && negb replaced
      then let '(out, r) := set_parts field value true parts' in
           ((field +s ": " +s value) :: out, r)
      else let '(out, r) := set_parts field value replaced parts' in (part :: out, r)
  end.

Definition set_ticket_field (raw field value : pystr) (enforce_cap : bool)
    : res record_error pystr :=
  assert_single_record value field ≫= λ _,
  reject_duplicate_fields raw ≫= λ _,
  let '(out, replaced) := set_parts field value false (fields_split raw) in
  let out := if replaced then out else out ++ [field +s ": " +s value] in
  let joined := fields_join out in
  if enforce_cap then assert_live_record joined
  else assert_single_record joined "ticket_record".

Definition remove_ticket_field (raw field : pystr) : res record_error pystr :=
  reject_duplicate_fields raw ≫= λ _,
  Ok (fields_join (base.filter (λ part, is_match (field_pattern field) part = false)
                          (fields_split raw))).

(** ** Notions of the properties *)

(** What the reader sees of an escaped text. *)
Definition received (d : pystr) : pystr := (λ c, if (c =? 0)%N then 124%N else c) <$> d.

(** Adjacent characters never form an escaped pipe. *)
Fixpoint unescaped (s : pystr) : Prop :=
  match s with
  | a :: ((b :: _) as s') => ¬ (a = 92 ∧ b = 124)%N ∧ unescaped s'
  | _ => True
  end.

Definition esc1 (c : N) : pystr :=
  if (c =? 92)%N then [92; 92]%N else if (c =? 124)%N then [92; 124]%N else [c].

Definition esc2 (c : N) : pystr := if (c =? 92)%N then [92; 92]%N else if (c =? 124)%N then [0]%N else [c].

Definition PARTS : pystr := " | ".

(** ** The record boundary *)

Lemma separator_is_linebreak c : c ∈ RECORD_SEPARATORS ↔ is_linebreak c = true.
Proof. unfold is_linebreak, RECORD_SEPARATORS. rewrite bool_decide_eq_true. set_solver. Qed.

Lemma record_separator_None v :
  record_separator_in v = None ↔ Forall (λ c, is_linebreak c = false) v.
Proof.
  unfold record_separator_in. rewrite find_first_None, Forall_forall. split.
  - intros H c Hc. destruct (is_linebreak c) eqn:E; [|done].
    apply separator_is_linebreak, H in E. by apply bool_decide_eq_false in E.
  - intros H c Hc%separator_is_linebreak. apply bool_decide_eq_false. intros Hv. apply H in Hv. congruence.
Qed.

Lemma assert_single_record_Ok v field w :
  assert_single_record v field = Ok w → w = v ∧ record_separator_in v = None.
Proof. unfold assert_single_record. destruct (record_separator_in v); by intros [= <-]. Qed.

(** ** Escaping *)

Lemma escape_charwise d e : escape_ticket_description d = Ok e → e = d ≫= esc1.
Proof.
  unfold escape_ticket_description. intros (w & [-> _]%assert_single_record_Ok & [= <-])%res_bind_Ok.
  change (py "|") with [124%N]. change (py "\") with [92%N].
  rewrite !replace_char. induction d as [|c d IH]; [done|].
  rewrite !bind_cons, bind_app, IH. f_equal. unfold esc1.
  destruct (N.eqb_spec c 92) as [->|]; [done|]. simpl. by destruct (c =? 124)%N.
Qed.

Lemma esc1_head d : head (d ≫= esc1) ≠ Some 124%N.
Proof.
  destruct d as [|c d]; [done|]. rewrite bind_cons. unfold esc1.
  destruct (N.eqb_spec c 92); [done|]. destruct (N.eqb_spec c 124); [done|]. by intros [= ->].
Qed.

Lemma pipes_to_sentinel d : replace "\|" PIPE_SENTINEL (d ≫= esc1) = d ≫= esc2.
Proof.
  induction d as [|c d IH]; [done|]. rewrite !bind_cons, <-IH. unfold esc1, esc2.
  destruct (N.eqb_spec c 92) as [->|H1]; [|destruct (N.eqb_spec c 124) as [->|H2]].
  - assert (E : startswith "\|" (92%N :: (d ≫= esc1)) = false).
    { pose proof (esc1_head d) as Hh. destruct (d ≫= esc1) as [|x l]; [done|].
      change (startswith "|" (x :: l) = false). apply startswith_head, Hh. }
    change (replace "\|" PIPE_SENTINEL (92%N :: 92%N :: (d ≫= esc1)) = 92%N :: 92%N :: replace "\|" PIPE_SENTINEL (d ≫= esc1)).
    rewrite replace_miss by done. by rewrite replace_miss.
  - by apply (replace_hit (py "\|") PIPE_SENTINEL).
  - simpl. rewrite replace_miss; [done|]. apply startswith_head. simpl. by intros [= ->].
Qed.

Lemma unescape_charwise d : unescape_ticket_part (d ≫= esc2) = received d.
Proof.
  unfold unescape_ticket_part, received. change PIPE_SENTINEL with [0%N]. rewrite replace_char.
  assert (H : replace "\\" "\" (d ≫= esc2) = d ≫= λ c, if (c =? 124)%N then [0]%N else [c]).
  { induction d as [|c d IH]; [done|]. rewrite !bind_cons, <-IH. unfold esc2 at 1.
    destruct (N.eqb_spec c 92) as [->|H1]; [|destruct (N.eqb_spec c 124) as [->|H2]].
    - by apply (replace_hit (py "\\") (py "\")).
    - simpl. by rewrite replace_miss.
    - simpl. rewrite replace_miss; [done|]. apply startswith_head. simpl. by intros [= ->]. }
  rewrite H. clear H. induction d as [|c d IH]; [done|]. rewrite bind_cons, bind_app, fmap_cons, IH.
  destruct (N.eqb_spec c 124) as [->|]; [done|]. simpl. by destruct (c =? 0)%N.
Qed.

(** What the reader of a record makes of an escaped text. *)
Lemma escape_received d e :
  escape_ticket_description d = Ok e →
  unescape_ticket_part (replace "\|" PIPE_SENTINEL e) = received d.
Proof. intros ->%escape_charwise. by rewrite pipes_to_sentinel, unescape_charwise. Qed.

(** ** Fields *)

Lemma set_parts_spec field value parts out r :
  set_parts field value false parts = (out, r) →
  if r
  then ∃ l1 old l2, parts = l1 ++ old :: l2
       ∧ out = l1 ++ (field +s ": " +s value) :: l2
       ∧ is_match (field_pattern field) old = true
       ∧ Forall (λ part, is_match (field_pattern field) part = false) l1
  else out = parts ∧ Forall (λ part, is_match (field_pattern field) part = false) parts.
Proof.
  assert (Hkeep : ∀ parts, set_parts field value true parts = (parts, true)).
  { clear parts. induction parts as [|part parts IH]; [done|]. simpl. by rewrite andb_false_r, IH. }
  revert out r. induction parts as [|part parts IH]; intros out r H; simpl in H; [by simplify_eq|].
  destruct (is_match (field_pattern field) part) eqn:Hm; rewrite ?orb_true_r in H; simpl in H.
  - rewrite Hkeep in H. simplify_eq. exists [], part, parts. by split_and!.
  - rewrite andb_false_r in H. simpl in H.
    destruct (set_parts field value false parts) as [out' r'] eqn:Hs. simplify_eq.
    specialize (IH _ _ eq_refl). destruct r.
    + destruct IH as (l1 & old & l2 & -> & -> & Hold & Hl1).
      exists (part :: l1), old, l2. split_and!; [done..|by constructor].
    + destruct IH as [-> IH]. split; [done|by constructor].
Qed.

(** Replacing one piece of a joined list. *)
Lemma join_piece sep l1 l2 :
  ∃ pre post, (∀ x, join sep (l1 ++ x :: l2) = pre ++ x ++ post)
    ∧ (l1 = [] ∧ pre = [] ∨ ∃ p, pre = p ++ sep) ∧ (post = [] ∨ ∃ p, post = sep ++ p).
Proof.
  assert (Hpost : ∃ post, (∀ x, join sep (x :: l2) = x ++ post) ∧ (post = [] ∨ ∃ p, post = sep ++ p)).
  { destruct l2 as [|y l2]; [exists []|exists (sep ++ join sep (y :: l2))].
    - split; [|by left]. intros x. by rewrite app_nil_r.
    - split; [done|]. right. eauto. }
  destruct Hpost as (post & Hpost & Hq). destruct (decide (l1 = [])) as [->|Hne].
  - exists [], post. split_and!; [done|by left|done].
  - exists (join sep l1 ++ sep), post. split_and!; [|right; eauto|done].
    intros x. by rewrite join_app, Hpost, <-(assoc_L (++)).
Qed.

Lemma fields_join_app s t : replace PIPE_SENTINEL "\|" (s ++ t) = replace PIPE_SENTINEL "\|" s ++ replace PIPE_SENTINEL "\|" t.
Proof. apply replace_char_app. Qed.

Lemma fields_join_split raw : (0%N ∉ raw) → fields_join (fields_split raw) = raw.
Proof.
  intros H. unfold fields_join, fields_split. rewrite join_split by done.
  by apply (replace_back (py "\|")).
Qed.

Lemma assert_live_Ok r w :
  assert_live_record r = Ok w → w = r ∧ record_separator_in r = None ∧ length r ≤ MAX_LIVE_RECORD_CHARS.
Proof.
  unfold assert_live_record. intros (? & [-> Hs]%assert_single_record_Ok & H)%res_bind_Ok.
  destruct (MAX_LIVE_RECORD_CHARS <? length r) eqn:E; [done|]. simplify_eq.
  apply Nat.ltb_ge in E. done.
Qed.

(** What a successful [set_ticket_field] wrote. *)
Lemma set_ticket_field_Ok raw field value cap raw' :
  set_ticket_field raw field value cap = Ok raw' →
  record_separator_in raw' = None ∧ (cap = true → length raw' ≤ MAX_LIVE_RECORD_CHARS)
  ∧ ∃ out r, set_parts field value false (fields_split raw) = (out, r)
             ∧ raw' = fields_join (if r then out else out ++ [field +s ": " +s value]).
Proof.
  unfold set_ticket_field. intros (? & _ & (? & _ & H)%res_bind_Ok)%res_bind_Ok.
  destruct (set_parts field value false (fields_split raw)) as [out r].
  destruct cap.
  - apply assert_live_Ok in H as (-> & ? & ?). split_and!; eauto.
  - apply assert_single_record_Ok in H as [-> ?]. split_and!; [done..|]. eauto.
Qed.

(** ** Reading a rewritten record back *)

Lemma unescaped_app l1 l2 :
  unescaped (l1 ++ l2) ↔
  unescaped l1 ∧ unescaped l2 ∧ ¬ (last l1 = Some 92 ∧ head l2 = Some 124)%N.
Proof.
  induction l1 as [|a l1 IH]; [by simpl; naive_solver|].
  destruct l1 as [|b l1].
  - destruct l2 as [|c l2]; simpl; naive_solver.
  - change ((a :: b :: l1) ++ l2) with (a :: (b :: l1) ++ l2).
    change (unescaped (a :: (b :: l1) ++ l2)) with (¬ (a = 92 ∧ b = 124)%N ∧ unescaped ((b :: l1) ++ l2)).
    rewrite IH, last_cons_cons. simpl. naive_solver.
Qed.

Lemma unescaped_sentinel s : unescaped (replace "\|" PIPE_SENTINEL s).
Proof.
  assert (H : ∀ n s, length s ≤ n → unescaped (replace "\|" PIPE_SENTINEL s)); [|by apply (H (length s))].
  clear s. induction n as [|n IH]; intros s Hn; [by destruct s; [|simpl in Hn; lia]|].
  destruct (startswith "\|" s) eqn:E.
  - apply startswith_spec in E as [s' ->]. rewrite replace_hit by done.
    apply unescaped_app. split_and!; [done| |by intros [[=] _]].
    apply IH. rewrite length_app in Hn. simpl in Hn. lia.
  - destruct s as [|c s]; [done|]. rewrite replace_miss by done.
    change (c :: replace "\|" PIPE_SENTINEL s) with ([c] ++ replace "\|" PIPE_SENTINEL s).
    apply unescaped_app. split_and!; [done|apply IH; simpl in Hn; lia|].
    intros [[= ->] Hh]. destruct (startswith "\|" s) eqn:E'.
    + apply startswith_spec in E' as [s' ->]. by rewrite replace_hit in Hh.
    + destruct s as [|d s]; [done|]. rewrite replace_miss in Hh by done. simplify_eq/=.
Qed.

Lemma sentinel_back x :
  unescaped x → replace "\|" PIPE_SENTINEL (replace PIPE_SENTINEL "\|" x) = x.
Proof.
  induction x as [|c x IH]; [done|]. change (c :: x) with ([c] ++ x). intros (_ & Hx & Hh)%unescaped_app.
  rewrite fields_join_app. specialize (IH Hx). destruct (N.eqb_spec c 0) as [->|Hc].
  - change (replace PIPE_SENTINEL "\|" [0%N]) with (py "\|"). by rewrite replace_hit, IH.
  - change (replace PIPE_SENTINEL "\|" [c]) with (replace [0%N] "\|" [c]).
    rewrite replace_char_id by (rewrite list_elem_of_singleton; congruence).
    change ([c] ++ replace PIPE_SENTINEL "\|" x) with (c :: replace PIPE_SENTINEL "\|" x).
    rewrite replace_miss, IH; [done|]. destruct x as [|d x]; [apply andb_false_r|].
    destruct (N.eqb_spec c 92) as [->|]; [|apply startswith_head; by intros [= ->]].
    destruct (N.eqb_spec d 0) as [->|Hd]; [done|].
    change (d :: x) with ([d] ++ x). rewrite fields_join_app.
    change (replace PIPE_SENTINEL "\|" [d]) with (replace [0%N] "\|" [d]).
    rewrite replace_char_id by (rewrite list_elem_of_singleton; congruence).
    change (startswith "|" ([d] ++ replace PIPE_SENTINEL "\|" x) = false).
    apply startswith_head. intros [= ->]. by apply Hh.
Qed.

Lemma PARTS_miss c s : head s ≠ Some 124%N → startswith PARTS (c :: s) = false.
Proof.
  intros Hh. destruct s as [|d s]; [apply andb_false_r|].
  change (startswith PARTS (c :: d :: s)) with ((32 =? c)%N && ((124 =? d)%N && startswith " " s)).
  destruct (N.eqb_spec 124 d) as [<-|]; [done|]. by rewrite andb_false_r.
Qed.

Lemma split_go_clean acc x rest :
  124%N ∉ x → split_go PARTS 0 acc (x ++ PARTS ++ rest) = (reverse acc ++ x) :: split PARTS rest.
Proof.
  revert acc. induction x as [|c x IH]; intros acc Hx.
  - rewrite app_nil_l, app_nil_r. by rewrite split_go_hit.
  - rewrite not_elem_of_cons in Hx. destruct Hx as [Hc Hx].
    change ((c :: x) ++ PARTS ++ rest) with (c :: (x ++ PARTS ++ rest)).
    rewrite split_go_miss, IH by done || (apply PARTS_miss; destruct x as [|d x]; [done|]; set_solver).
    by rewrite reverse_cons, <-(assoc_L (++)).
Qed.

Lemma split_go_clean_end acc x : 124%N ∉ x → split_go PARTS 0 acc x = [reverse acc ++ x].
Proof.
  revert acc. induction x as [|c x IH]; intros acc Hx; [by simpl; rewrite app_nil_r|].
  rewrite not_elem_of_cons in Hx. destruct Hx as [Hc Hx].
  rewrite split_go_miss, IH by done || (apply PARTS_miss; destruct x as [|d x]; [done|]; set_solver).
  by rewrite reverse_cons, <-(assoc_L (++)).
Qed.

Lemma split_piece s l1 old l2 x :
  split PARTS s = l1 ++ old :: l2 → 124%N ∉ x →
  split PARTS (join PARTS (l1 ++ x :: l2)) = l1 ++ x :: l2.
Proof.
  intros Hs Hx.
  assert (Hrest : split PARTS (join PARTS (x :: l2)) = x :: l2).
  { destruct l2 as [|y l2]; [by apply split_go_clean_end|].
    rewrite join_cons by done. unfold split. rewrite split_go_clean by done. f_equal.
    apply (split_tail PARTS s (l1 ++ [old])); [done|by destruct l1|done|].
    by rewrite <-(assoc_L (++)). }
  destruct (decide (l1 = [])) as [->|Hne]; [done|].
  destruct (split_go_prefix PARTS [] s l1 old l2) as (p & Hp & Hsp); [done..|].
  assert (join PARTS l1 = p) as <-.
  { pose proof (join_split PARTS s ltac:(done)) as Hj. rewrite Hs, join_app in Hj by done.
    rewrite Hp in Hj. by apply app_inv_tail in Hj. }
  rewrite join_app by done. unfold split. rewrite Hsp. by rewrite Hrest.
Qed.

Lemma split_append s x :
  last s ≠ Some 124%N → split PARTS (s ++ PARTS ++ x) = split PARTS s ++ split PARTS x.
Proof.
  unfold split at 1 2. generalize (@nil N) as acc.
  assert (H : ∀ n s acc, length s ≤ n → last s ≠ Some 124%N →
    split_go PARTS 0 acc (s ++ PARTS ++ x) = split_go PARTS 0 acc s ++ split PARTS x);
    [|intros; by apply (H (length s))].
  clear s. induction n as [|n IH]; intros s acc Hn Hl.
  - destruct s; [|simpl in Hn; lia]. by rewrite app_nil_l, split_go_hit.
  - destruct (startswith PARTS s) eqn:E.
    + apply startswith_spec in E as [s' ->]. rewrite <-(assoc_L (++)), !split_go_hit by done.
      rewrite IH; [done|rewrite length_app in Hn; simpl in Hn; lia|].
      rewrite last_app in Hl. by destruct (last s').
    + destruct s as [|c s]; [by rewrite app_nil_l, split_go_hit|].
      change ((c :: s) ++ PARTS ++ x) with (c :: (s ++ PARTS ++ x)).
      rewrite (split_go_miss _ _ c s) by done. rewrite split_go_miss.
      * apply IH; [simpl in Hn; lia|]. rewrite last_cons in Hl. by destruct (last s).
      * destruct s as [|d [|d' s]]; [by apply PARTS_miss| |].
        { apply PARTS_miss. simpl. intros [= ->]. done. }
        { change (c :: (d :: d' :: s) ++ PARTS ++ x) with ((c :: d :: d' :: s) ++ (PARTS ++ x)).
          by rewrite startswith_prefix by (simpl; lia). }
Qed.

Lemma received_pipe_free s : 124%N ∉ s → unescaped s.
Proof.
  induction s as [|c s IH]; [done|]. rewrite not_elem_of_cons. intros [Hc Hs].
  change (c :: s) with ([c] ++ s). apply unescaped_app. split_and!; [done|auto|].
  intros [_ Hh]. destruct s; simplify_eq/=. set_solver.
Qed.

(** Splitting the rewritten record gives the rewritten pieces. *)
Lemma readback_replaced raw l1 old l2 x :
  fields_split raw = l1 ++ old :: l2 → 124%N ∉ x →
  fields_split (fields_join (l1 ++ x :: l2)) = l1 ++ x :: l2.
Proof.
  intros Hs Hx. unfold fields_split, fields_join. rewrite sentinel_back; [by eapply split_piece|].
  pose proof (unescaped_sentinel raw) as Hu. unfold fields_split in Hs. change (py " | ") with PARTS in *.
  rewrite <-(join_split PARTS (replace "\|" PIPE_SENTINEL raw)), Hs in Hu by done.
  destruct (join_piece PARTS l1 l2) as (pre & post & Hj & Hpre & Hpost). rewrite Hj in *.
  rewrite !unescaped_app in Hu. rewrite !unescaped_app. destruct Hu as (H1 & (H2 & H3 & _) & _).
  split_and!; [done|by apply received_pipe_free|done| |].
  - intros [_ Hh]. by destruct Hpost as [->|[p ->]].
  - intros [Hl _]. destruct Hpre as [[_ ->]|[p ->]]; [done|]. by rewrite last_app in Hl.
Qed.

Lemma readback_appended raw x :
  0%N ∉ raw → last raw ≠ Some 124%N → 124%N ∉ x →
  fields_split (fields_join (fields_split raw ++ [x])) = fields_split raw ++ [x].
Proof.
  intros H0 Hl Hx. unfold fields_split at 1, fields_join.
  assert (Hj : join PARTS (fields_split raw ++ [x]) = replace "\|" PIPE_SENTINEL raw ++ PARTS ++ x).
  { rewrite join_app by (done || apply split_go_nonempty). unfold fields_split.
    by rewrite join_split by done. }
  change (py " | ") with PARTS. rewrite Hj. rewrite sentinel_back.
  - unfold PARTS. rewrite split_append; [by unfold fields_split, split at 2; rewrite split_go_clean_end|].
    intros Hl'. apply Hl.
    rewrite <-(replace_back (py "\|") 0%N raw) by done.
    destruct (replace "\|" PIPE_SENTINEL raw) as [|c r] eqn:E using rev_ind; [done|].
    rewrite last_snoc in Hl'. simplify_eq. change PIPE_SENTINEL with [0%N] in E. rewrite E.
    rewrite replace_char_app, last_app. done.
  - rewrite !unescaped_app. split_and!; [apply unescaped_sentinel|by vm_compute; naive_solver|by apply received_pipe_free| |].
    + by intros [[=] _].
    + by intros [_ [=]].
Qed.

(** ** Properties *)

(** The record boundary is exactly Python's line boundary: a nonempty scalar is
    accepted as one record if and only if [splitlines] reads it as one line. *)
Theorem record_boundary v :
  v ≠ [] → record_separator_in v = None ↔ splitlines v = [v].
Proof.
  intros Hne. rewrite record_separator_None. split.
  - intros Hv. unfold splitlines. by rewrite splitlines_go_clean.
  - intros Hs. apply (splitlines_lines v). rewrite Hs. left.
Qed.

Lemma record_boundary_witness : splitlines "- [ ] T-1 one line" = [py "- [ ] T-1 one line"].
Proof. apply record_boundary; [done|vm_compute; reflexivity]. Defined.

(** Escaping is undone by the reader, up to the sentinel: what comes back is the
    text that was escaped with each U+0000 turned into a pipe. A text without
    U+0000 therefore survives exactly, and one with it does not. *)
Theorem escape_roundtrip d e :
  escape_ticket_description d = Ok e →
  unescape_ticket_part (replace "\|" PIPE_SENTINEL e) = received d
  ∧ (received d = d ↔ 0%N ∉ d).
Proof.
  intros He. split; [by apply escape_received|]. unfold received. clear He.
  induction d as [|c d IH]; [by split; [intros _; apply not_elem_of_nil|]|].
  rewrite fmap_cons, not_elem_of_cons. destruct (N.eqb_spec c 0) as [->|Hc]; [by split; [|intros [? _]]|].
  split; [intros [= H]|intros [_ H]; f_equal]; naive_solver.
Qed.

Lemma escape_roundtrip_witness :
  unescape_ticket_part (replace "\|" PIPE_SENTINEL "a\|b\\c") = py "a|b\c".
Proof.
  destruct (escape_roundtrip "a|b\c" "a\|b\\c") as [H _]; [vm_compute; reflexivity|].
  rewrite H. vm_compute. reflexivity.
Defined.

(** [set_ticket_field] writes one field and nothing else. On a record without
    U+0000 the bytes before and after the replaced piece are kept, or, when no
    piece carries the field, the whole record is kept and the field appended;
    and what is written is one physical record within the cap. *)
Theorem set_ticket_field_exact raw field value cap raw' :
  0%N ∉ raw → 0%N ∉ field → 0%N ∉ value →
  set_ticket_field raw field value cap = Ok raw' →
  record_separator_in raw' = None ∧ (cap = true → length raw' ≤ MAX_LIVE_RECORD_CHARS)
  ∧ ((∃ pre old post, old ∈ fields_split raw ∧ is_match (field_pattern field) old = true
        ∧ raw = pre ++ fields_join [old] ++ post
        ∧ raw' = pre ++ (field ++ py ": " ++ value) ++ post)
     ∨ ((∀ part, part ∈ fields_split raw → is_match (field_pattern field) part = false)
        ∧ raw' = raw ++ py " | " ++ field ++ py ": " ++ value)).
Proof.
  intros Hraw Hf Hv H. apply set_ticket_field_Ok in H as (Hs & Hc & out & r & Hp & ->).
  split_and!; [done..|]. clear Hs Hc.
  assert (Hnew : replace PIPE_SENTINEL "\|" (field +s ": " +s value) = field ++ py ": " ++ value).
  { apply (replace_char_id 0%N). unfold cat. rewrite !not_elem_of_app. split_and!; [done| |done].
    by apply (bool_decide_unpack _). }
  apply set_parts_spec in Hp.
  remember (field +s ": " +s value) as new eqn:En. clear En. destruct r.
  - left. destruct Hp as (l1 & old & l2 & Hsp & -> & Hold & _).
    destruct (join_piece PARTS l1 l2) as (pre & post & Hj & _).
    exists (replace PIPE_SENTINEL "\|" pre), old, (replace PIPE_SENTINEL "\|" post).
    rewrite <-(fields_join_split raw Hraw) at 2. rewrite Hsp. unfold fields_join.
    change (py " | ") with PARTS. rewrite !Hj, !fields_join_app, Hnew. split_and!; [apply elem_of_app; right; left|done..].
  - right. destruct Hp as [-> Hno]. split; [by apply Forall_forall|].
    rewrite <-(fields_join_split raw Hraw) at 2. unfold fields_join.
    rewrite join_app, !fields_join_app by (done || apply split_go_nonempty).
    simpl (join _ [_]). by rewrite Hnew.
Qed.

Lemma set_ticket_field_exact_witness :
  ∃ pre old post, old ∈ fields_split "- [ ] T-1 x | owner: a | verify: y"
    ∧ py "- [ ] T-1 x | owner: b | verify: y" = pre ++ (py "owner" ++ py ": " ++ py "b") ++ post.
Proof.
  destruct (set_ticket_field_exact "- [ ] T-1 x | owner: a | verify: y" "owner" "b" true
              "- [ ] T-1 x | owner: b | verify: y") as (_ & _ & [H|[H _]]);
    [apply (bool_decide_unpack _); vm_compute; exact I..|vm_compute; reflexivity| |].
  - destruct H as (pre & old & post & H1 & _ & _ & H2). exists pre, old, post. split; [exact H1|exact H2].
  - exfalso. specialize (H "owner: a"). vm_compute in H. discriminate H. right. left.
Defined.

(** What [set_ticket_field] writes is what the next reader splits out: the
    record's pieces, with the one that carries the field replaced, or with the
    field after the last of them. *)
Theorem set_ticket_field_readback raw field value cap raw' :
  0%N ∉ raw → 124%N ∉ field → 124%N ∉ value → last raw ≠ Some 124%N →
  set_ticket_field raw field value cap = Ok raw' →
  let new := field ++ py ": " ++ value in
  (∃ l1 old l2, fields_split raw = l1 ++ old :: l2
     ∧ is_match (field_pattern field) old = true
     ∧ Forall (λ part, is_match (field_pattern field) part = false) l1
     ∧ fields_split raw' = l1 ++ new :: l2)
  ∨ (Forall (λ part, is_match (field_pattern field) part = false) (fields_split raw)
     ∧ fields_split raw' = fields_split raw ++ [new]).
Proof.
  intros Hraw Hf Hv Hl H new. apply set_ticket_field_Ok in H as (_ & _ & out & r & Hp & ->).
  assert (Hnew : 124%N ∉ new).
  { unfold new. rewrite !not_elem_of_app. split_and!; [done| |done].
    by apply (bool_decide_unpack _). }
  apply set_parts_spec in Hp. destruct r.
  - left. destruct Hp as (l1 & old & l2 & Hsp & -> & Hold & Hl1). exists l1, old, l2.
    split_and!; [done..|]. by eapply readback_replaced.
  - right. destruct Hp as [-> Hno]. split; [done|]. by apply readback_appended.
Qed.

Lemma set_ticket_field_readback_witness :
  fields_split "- [ ] T-1 a\|b | owner: me" = [py "- [ ] T-1 a" ++ [0%N] ++ py "b"; py "owner: me"].
Proof.
  destruct (set_ticket_field_readback (py "- [ ] T-1 a\|b") (py "owner") (py "me") true
              (py "- [ ] T-1 a\|b | owner: me")) as [(l1 & old & l2 & H1 & H2 & _)|[_ H]];
    [apply (bool_decide_unpack _); vm_compute; exact I..|discriminate|vm_compute; reflexivity| |].
  - exfalso. assert (old = py "- [ ] T-1 a" ++ [0%N] ++ py "b") as ->.
    { vm_compute in H1. destruct l1 as [|? [|??]]; by simplify_eq/=. }
    vm_compute in H2. discriminate H2.
  - rewrite H. vm_compute. reflexivity.
Defined.
