(* ===== verification/BoardParse.v ===== *)
(** * Board parsing

    [parse_board] of [tools/saipen_engine/board.py]: the walk over the physical
    records of [BOARD.md] into a ticket map, with the records it refuses. *)

From S2P Require Import Prelude PyStr PyStrFacts PyRegex PyDict BoardRecord.

Record ticket : Type := Ticket {
  t_id : pystr;
  t_section : pystr;
  t_line_no : nat;
  t_checkbox : pystr;
  t_needs : list pystr;
  t_fields : dict pystr pystr;
  t_raw : pystr;
  t_description : pystr;
  t_shadowed : list pystr }.

Definition tickets := dict pystr ticket.

Definition DOING : pystr := "## DOING".
Definition TODO : pystr := "## TODO".
Definition DONE : pystr := "## DONE".
Definition BLOCKED : pystr := "## BLOCKED".
Definition REQUIRED_HEADINGS : list pystr := [DOING; TODO; DONE; BLOCKED].

(** [ticket_states.known_fields] of [saipen/REGISTRY.json]. *)
Definition KNOWN_FIELDS : list pystr :=
  strs ["blocked_on"; "blocker"; "blocker_scope"; "claim_generation"; "claim_run";
        "claim_session"; "claim_time"; "closure_cohort"; "closure_mode"; "closure_paths";
        "detail_ref"; "external_authority"; "external_evidence"; "external_implementation";
        "implementation_delta"; "implementation_source"; "invalidation_evidence"; "needs";
        "owner"; "recurrence"; "regression"; "regression_evidence"; "publication";
        "publication_state"; "request_witness"; "requires"; "resolution_reason";
        "resume_phase"; "resume_transition_from"; "retry_not_before"; "review_passes";
        "source_receipts"; "source_reports"; "superseded_by"; "supersession_authority";
        "supersession_evidence"; "user_explicit"; "verify"; "verification_contract";
        "verify_attempts"; "weak_model"].

(** A checkbox, a ticket id and the rest of the line. *)
Definition is_checkbox (c : N) : bool := (c =? 32)%N || (c =? 120)%N || (c =? 47)%N.
Definition TICKET_RE : re :=
  seqs [lit "- ["; Grp 1 (Chr is_checkbox); lit "] "; Grp 2 ticket_id_re;
        plus is_space; Grp 3 (Star not_nl); Eol].

(** A second ticket opener inside a record. *)
Definition EMBEDDED_TICKET_RE : re :=
  seqs [lit "["; Chr is_checkbox; lit "]"; plus is_space; ticket_id_re].

(** A field name, a colon and the value. *)
Definition FIELD_RE : re :=
  seqs [Grp 1 (plus is_field_char); lit ":"; Star is_space; Grp 2 (Star not_nl); Eol].

(** The parse errors, with what their messages quote. *)
Inductive board_error : Type :=
  | NotTicketShape (line : nat)
  | EmbedsTicket (line : nat) (tid : pystr)
  | OutsideSections (line : nat) (tid : pystr) (section : option pystr)
  | UnrecognizedField (line : nat) (tid part : pystr)
  | DuplicatesField (line : nat) (tid name : pystr)
  | DuplicateTicket (line : nat) (tid : pystr)
  | UnexpectedRecord (line : nat) (section text : pystr)
  | HeadingCount (heading : pystr) (times : nat).

Record board : Type := Board {
  b_tickets : tickets;
  b_headings : list pystr;
  b_errors : list board_error;
  b_section : option pystr }.

Definition add_error (e : board_error) (b : board) : board :=
  Board (b_tickets b) (b_headings b) (b_errors b ++ [e]) (b_section b).

(** The loop over the pipe-delimited parts after the description. *)
Fixpoint parse_fields (line_no : nat) (tid : pystr) (parts : list pystr)
    (needs : list pystr) (fields : dict pystr pystr)
    : list pystr * dict pystr pystr * list board_error :=
  match parts with
  | [] => (needs, fields, [])
  | part :: parts' =>
      match re_match FIELD_RE part with
      | Some fm =>
          let name := default [] (group 1 fm) in
          let value := default [] (group 2 fm) in
          if negb (mem name KNOWN_FIELDS)
          then let '(n, f, es) := parse_fields line_no tid parts' needs fields in
               (n, f, UnrecognizedField line_no tid part :: es)
          else if dmem name fields
          then let '(n, f, es) := parse_fields line_no tid parts' needs fields in
               (n, f, DuplicatesField line_no tid name :: es)
          else parse_fields line_no tid parts'
                 (if name =s "needs" then re_findall ticket_id_re value else needs)
                 (dset name value fields)
      | None => let '(n, f, es) := parse_fields line_no tid parts' needs fields in
                (n, f, UnrecognizedField line_no tid part :: es)
      end
  end.

Definition shadow (section : pystr) (t : ticket) : ticket :=
  Ticket (t_id t) (t_section t) (t_line_no t) (t_checkbox t) (t_needs t) (t_fields t)
         (t_raw t) (t_description t) (t_shadowed t ++ [section]).

(** A line that opens like a ticket record. *)
Definition parse_ticket_line (line_no : nat) (line : pystr) (b : board) : board :=
  match re_match TICKET_RE (replace "\|" PIPE_SENTINEL (strip line)) with
  | None => add_error (NotTicketShape line_no) b
  | Some m =>
      let checkbox := default [] (group 1 m) in
      let tid := default [] (group 2 m) in
      let rest := default [] (group 3 m) in
      if is_found EMBEDDED_TICKET_RE rest then add_error (EmbedsTicket line_no tid) b
      else match b_section b with
      | None => add_error (OutsideSections line_no tid None) b
      | Some section =>
          if negb (mem section REQUIRED_HEADINGS)
          then add_error (OutsideSections line_no tid (Some section)) b
          else
            let parts := (λ p, unescape_ticket_part (strip p)) <$> split " | " rest in
            let '(needs, fields, es) := parse_fields line_no tid (tail parts) [] [] in
            let b := Board (b_tickets b) (b_headings b) (b_errors b ++ es) (b_section b) in
            match dget tid (b_tickets b) with
            | Some first =>
                Board (dset tid (shadow section first) (b_tickets b)) (b_headings b)
                      (b_errors b ++ [DuplicateTicket line_no tid]) (b_section b)
            | None =>
                Board (dset tid (Ticket tid section line_no checkbox needs fields line
                                        (default [] (head parts)) []) (b_tickets b))
                      (b_headings b) (b_errors b) (b_section b)
            end
      end
  end.

Definition parse_line (b : board) (line_no : nat) (line : pystr) : board :=
  if startswith "## " line
  then Board (b_tickets b) (b_headings b ++ [strip line]) (b_errors b) (Some (strip line))
  else if negb (nonempty (strip line)) then b
  else if startswith "- [" (lstrip line) then parse_ticket_line line_no line b
  else match b_section b with
       | None => b
       | Some section =>
           if mem section REQUIRED_HEADINGS
           then add_error (UnexpectedRecord line_no section (take 80 (strip line))) b
           else b
       end.

Fixpoint parse_lines (line_no : nat) (lines : list pystr) (b : board) : board :=
  match lines with
  | [] => b
  | line :: lines' => parse_lines (S line_no) lines' (parse_line b line_no line)
  end.

Definition count_heading (heading : pystr) (headings : list pystr) : nat :=
  length (base.filter (eq heading) headings).

Definition heading_errors (headings : list pystr) : list board_error :=
  REQUIRED_HEADINGS ≫= λ heading,
    let n := count_heading heading headings in
    if Nat.eqb n 1 then [] else [HeadingCount heading n].

Definition empty_board : board := Board [] [] [] None.

Definition parse_board (text : pystr) : board :=
  let b := parse_lines 1 (splitlines text) empty_board in
  Board (b_tickets b) (b_headings b) (b_errors b ++ heading_errors (b_headings b)) (b_section b).

(** ** Notions of the properties *)

(** A ticket map whose entries are filed under their own id. *)
Definition keyed (ts : tickets) : Prop := wf_dict ts ∧ ∀ k t, (k, t) ∈ ts → t_id t = k.

(** What the parser guarantees of a ticket. *)
Record ticket_ok (t : ticket) : Prop := {
  ok_id : is_full ticket_id_re (t_id t) = true;
  ok_section : t_section t ∈ REQUIRED_HEADINGS;
  ok_checkbox : ∃ c, t_checkbox t = [c] ∧ is_checkbox c = true;
  ok_known : ∀ name, name ∈ dkeys (t_fields t) → name ∈ KNOWN_FIELDS;
  ok_distinct : wf_dict (t_fields t);
  ok_needs : ∀ need, need ∈ t_needs t → is_full ticket_id_re need = true }.

Definition board_ok (b : board) : Prop :=
  keyed (b_tickets b) ∧ ∀ k t, (k, t) ∈ b_tickets b → ticket_ok t.

(** A line that opens like a ticket record. *)
Definition ticket_like (line : pystr) : bool :=
  negb (startswith "## " line) && nonempty (strip line) && startswith "- [" (lstrip line).

Definition next_section (section : option pystr) (line : pystr) : option pystr :=
  if startswith "## " line then Some (strip line) else section.

(** The ticket records of a board, each with the heading it stands under: what a
    parse that loses nothing has to return. *)
Fixpoint placed (section : option pystr) (lines : list pystr) : list (pystr * option pystr) :=
  match lines with
  | [] => []
  | line :: lines' =>
      (if ticket_like line then [(line, section)] else [])
      ++ placed (next_section section line) lines'
  end.

Definition rows (b : board) : list (pystr * option pystr) :=
  (λ t, (t_raw t, Some (t_section t))) <$> dvalues (b_tickets b).
Definition unshadowed (b : board) : Prop := ∀ t, t ∈ dvalues (b_tickets b) → t_shadowed t = [].

(** What one line does to the board: nothing but its section, an error, or one
    more ticket, when no error is reported. *)
Inductive line_effect (b : board) (n : nat) (line : pystr) : board → Prop :=
  | line_section hs :
      ticket_like line = false →
      line_effect b n line
        (Board (b_tickets b) hs (b_errors b) (next_section (b_section b) line))
  | line_refused e :
      startswith "## " line = false →
      line_effect b n line (add_error e b)
  | line_duplicate section tid first es e :
      startswith "## " line = false → dget tid (b_tickets b) = Some first →
      line_effect b n line
        (Board (dset tid (shadow section first) (b_tickets b)) (b_headings b)
               (b_errors b ++ es ++ [e]) (b_section b))
  | line_ticket section t es :
      ticket_like line = true → b_section b = Some section → ticket_ok t →
      t_raw t = line → t_section t = section → t_line_no t = n → t_shadowed t = [] →
      dget (t_id t) (b_tickets b) = None →
      line_effect b n line
        (Board (dset (t_id t) t (b_tickets b)) (b_headings b) (b_errors b ++ es) (b_section b)).

Definition ticket_prefix (ds : pystr) : pystr := py "- [ ] T-" ++ ds ++ py " ".

(** ** Fields *)

Lemma parse_fields_ok n tid parts needs fields needs' fields' es :
  parse_fields n tid parts needs fields = (needs', fields', es) →
  wf_dict fields → (∀ name, name ∈ dkeys fields → name ∈ KNOWN_FIELDS) →
  (∀ need, need ∈ needs → is_full ticket_id_re need = true) →
  wf_dict fields' ∧ (∀ name, name ∈ dkeys fields' → name ∈ KNOWN_FIELDS)
  ∧ (∀ need, need ∈ needs' → is_full ticket_id_re need = true).
Proof.
  revert needs fields es. induction parts as [|part parts IH]; intros needs fields es H Hwf Hk Hn; simpl in H.
  { by simplify_eq. }
  assert (Hskip : ∀ e, (let '(n0, f, es0) := parse_fields n tid parts needs fields in (n0, f, e :: es0))
    = (needs', fields', es) → wf_dict fields' ∧ (∀ name, name ∈ dkeys fields' → name ∈ KNOWN_FIELDS)
  ∧ (∀ need, need ∈ needs' → is_full ticket_id_re need = true)).
  { intros e He. destruct (parse_fields n tid parts needs fields) as [[n0 f] es0] eqn:E.
    simplify_eq. by eapply IH. }
  destruct (re_match FIELD_RE part) as [fm|]; [|by eapply Hskip].
  destruct (mem _ KNOWN_FIELDS) eqn:Hm; simpl in H; [|by eapply Hskip].
  destruct (dmem (default [] (group 1 fm)) fields) eqn:Hd; [by eapply Hskip|].
  eapply IH; [exact H|by apply wf_dset| |].
  - intros name [->|?]%elem_of_dkeys_dset; [by apply mem_true|auto].
  - intros need. destruct (eqs _ _); [|apply Hn]. intros Hin. by apply findall_full in Hin.
Qed.

(** ** One line *)

Lemma TICKET_RE_groups s m :
  re_match TICKET_RE s = Some m →
  (∃ c, default [] (group 1 m) = [c] ∧ is_checkbox c = true)
  ∧ is_full ticket_id_re (default [] (group 2 m)) = true.
Proof.
  intros Hm.
  destruct (re_match_binds TICKET_RE s m 1 eq_refl Hm) as [_ H1].
  destruct (re_match_binds TICKET_RE s m 2 eq_refl Hm) as [_ H2]. split.
  - simpl in H1. decompose [or and] H1; done.
  - assert (lang ticket_id_re (default [] (group 2 m))); [|by apply is_full_spec].
    simpl in H2. decompose [or and] H2; done.
Qed.

Lemma parse_ticket_line_effect b n line :
  ticket_like line = true → line_effect b n line (parse_ticket_line n line b).
Proof.
  intros Hl. assert (Hns : startswith "## " line = false).
  { unfold ticket_like in Hl. by destruct (startswith "## " line). }
  unfold parse_ticket_line. destruct (re_match _ _) as [m|] eqn:Hm; [|by constructor].
  apply TICKET_RE_groups in Hm as [Hc Hid].
  destruct (is_found _ _); [by constructor|].
  destruct (b_section b) as [section|] eqn:Hs; [|by constructor].
  destruct (mem section REQUIRED_HEADINGS) eqn:Hr; simpl; [|by constructor].
  destruct (parse_fields _ _ _ _ _) as [[needs fields] es] eqn:Hf. cbn [b_tickets b_headings b_errors b_section].
  destruct (dget (default [] (group 2 m)) (b_tickets b)) as [first|] eqn:Hd.
  - rewrite <-Hs, <-(assoc_L (++)). by apply line_duplicate.
  - rewrite <-Hs. apply (line_ticket b n line section (Ticket _ _ _ _ _ _ _ _ _)); try done.
    apply parse_fields_ok in Hf as (Hwf & Hk & Hn); [|apply wf_nil|by intros ? ?%elem_of_nil..].
    split; cbn; [done|by apply mem_true|done..].
Qed.

Lemma parse_line_effect b n line : line_effect b n line (parse_line b n line).
Proof.
  unfold parse_line. destruct (startswith "## " line) eqn:Hh.
  { assert (Some (strip line) = next_section (b_section b) line) as -> by (unfold next_section; by rewrite Hh).
    apply line_section. unfold ticket_like. by rewrite Hh. }
  assert (Hsame : ticket_like line = false → line_effect b n line b).
  { intros Hl. destruct b as [ts hs es s]. replace s with (next_section s line) at 2.
    - by apply (line_section (Board ts hs es s)).
    - unfold next_section. by rewrite Hh. }
  destruct (nonempty (strip line)) eqn:Hn; cbn [negb]; [|apply Hsame; unfold ticket_like; by rewrite Hn, andb_false_r].
  destruct (startswith "- [" (lstrip line)) eqn:Hl.
  { apply parse_ticket_line_effect. unfold ticket_like. by rewrite Hh, Hn, Hl. }
  assert (ticket_like line = false) by (unfold ticket_like; by rewrite Hl, andb_false_r).
  destruct (b_section b) as [section|]; [|auto]. destruct (mem _ _); [by constructor|auto].
Qed.

(** ** The walk *)

Lemma line_section_next b n line b' :
  line_effect b n line b' → b_section b' = next_section (b_section b) line.
Proof.
  unfold next_section. destruct 1 as [hs Hl|e Hh|section tid first es e Hh Hd|section t es Hl Hs]; cbn [b_section add_error]; try done.
  - by rewrite Hh.
  - by rewrite Hh.
  - unfold ticket_like in Hl. destruct (startswith "## " line); [done|]. done.
Qed.

Lemma line_ok b n line b' : line_effect b n line b' → board_ok b → board_ok b'.
Proof.
  intros H [[Hwf Hid] Hok].
  destruct H as [hs Hl|e Hh|section tid first es e Hh Hd|section t es Hl Hs Ht Hraw Hsec Hno Hsh Hd];
    unfold board_ok, keyed; simpl; try (by split_and!).
  - apply dget_Some_elem in Hd. split_and!; [by apply wf_dset| |];
      intros k t [[= -> ->]|H]%elem_of_dset; eauto; [by apply (Hid _ _ Hd)|].
    destruct (Hok _ _ Hd); by split.
  - split_and!; [by apply wf_dset| |]; intros k t' [[= -> ->]|H]%elem_of_dset; eauto.
Qed.

Lemma line_lossless b n line b' :
  line_effect b n line b' → b_errors b' = [] →
  b_errors b = []
  ∧ rows b' = rows b ++ (if ticket_like line then [(line, b_section b)] else [])
  ∧ (unshadowed b → unshadowed b').
Proof.
  intros H. destruct H as [hs Hl|e Hh|section tid first es e Hh Hd|section t es Hl Hs Ht Hraw Hsec Hno Hsh Hd];
    simpl; intros He.
  - rewrite Hl, app_nil_r. done.
  - by apply app_nil in He as [_ ?].
  - apply app_nil in He as [_ He]. by apply app_nil in He as [_ ?].
  - apply app_nil in He as [He ->]. rewrite Hl, Hs. split_and!; [done| |].
    + unfold rows, dvalues. simpl. rewrite dset_new by done. rewrite !fmap_app. simpl.
      by rewrite Hraw, Hsec.
    + unfold unshadowed, dvalues. simpl. rewrite dset_new, fmap_app by done.
      intros Hu t' [Ht'|Ht']%elem_of_app; [auto|]. by apply list_elem_of_singleton in Ht' as ->.
Qed.

Lemma parse_lines_walk lines n b :
  let b' := parse_lines n lines b in
  (board_ok b → board_ok b')
  ∧ (b_errors b' = [] →
     b_errors b = [] ∧ rows b' = rows b ++ placed (b_section b) lines
     ∧ (unshadowed b → unshadowed b')).
Proof.
  revert n b. induction lines as [|line lines IH]; intros n b; simpl.
  - split; [done|]. by rewrite app_nil_r.
  - pose proof (parse_line_effect b n line) as H. destruct (IH (S n) (parse_line b n line)) as [IH1 IH2].
    split; [eauto using line_ok|]. intros He. apply IH2 in He as (He & Hrows & Hsh).
    pose proof (line_section_next _ _ _ _ H) as Hsec.
    apply (line_lossless b n line _ H) in He as (He & Hr & Hu).
    split_and!; [done| |auto]. by rewrite Hrows, Hr, Hsec, <-(assoc_L (++)).
Qed.

Lemma parse_board_ok text : board_ok (parse_board text).
Proof.
  destruct (parse_lines_walk (splitlines text) 1 empty_board) as [H _].
  apply H. split; [split; [apply wf_nil|]|]; by intros ? ? ?%elem_of_nil.
Qed.

(** ** Reading a written description back *)

Lemma esc2_last d c : last d = Some c → ∃ c', last (d ≫= esc2) = Some c' ∧ (is_space c = false → is_space c' = false).
Proof.
  destruct d as [|x d _] using rev_ind; [done|]. rewrite last_snoc. intros [= ->].
  rewrite bind_app, last_app. simpl. rewrite app_nil_r. unfold esc2.
  destruct (c =? 92)%N; [by eexists|]. destruct (c =? 124)%N; by eexists.
Qed.

Lemma esc2_trimmed d : trimmed d → trimmed (d ≫= esc2).
Proof.
  intros [Hh Hl]. split.
  - intros c Hc. destruct d as [|x d]; [done|]. rewrite bind_cons in Hc. unfold esc2 in Hc.
    destruct (x =? 92)%N; [by simplify_eq/=|]. destruct (x =? 124)%N; simplify_eq/=; [done|by apply Hh].
  - intros c Hc. destruct (last d) as [x|] eqn:E.
    + destruct (esc2_last d x E) as (c' & Hc' & Hs). rewrite Hc in Hc'. simplify_eq. by apply Hs, Hl.
    + apply last_None in E. by subst.
Qed.

Lemma esc1_last d c : last d = Some c → ∃ c', last (d ≫= esc1) = Some c' ∧ (is_space c = false → is_space c' = false).
Proof.
  destruct d as [|x d _] using rev_ind; [done|]. rewrite last_snoc. intros [= ->].
  rewrite bind_app, last_app. simpl. rewrite app_nil_r. unfold esc1.
  destruct (c =? 92)%N; [by eexists|]. destruct (c =? 124)%N; by eexists.
Qed.

Lemma esc2_no_pipe d : 124%N ∉ d ≫= esc2.
Proof.
  intros (c & Hc & _)%list_elem_of_bind. unfold esc2 in Hc.
  destruct (N.eqb_spec c 92), (N.eqb_spec c 124); rewrite ?elem_of_cons, ?list_elem_of_singleton, ?elem_of_nil in Hc; naive_solver.
Qed.

Lemma esc2_not_nl d : Forall (λ c, is_linebreak c = false) d → Forall (λ c, not_nl c = true) (d ≫= esc2).
Proof.
  rewrite !Forall_forall. intros Hd x (c & Hx & Hc)%list_elem_of_bind. apply Hd in Hc. unfold esc2 in Hx.
  destruct (c =? 92)%N; [|destruct (c =? 124)%N].
  - apply elem_of_cons in Hx as [->| ->%list_elem_of_singleton]; done.
  - by apply list_elem_of_singleton in Hx as ->.
  - apply list_elem_of_singleton in Hx as ->. unfold not_nl. destruct (N.eqb_spec c 10) as [->|]; done.
Qed.

Lemma TICKET_RE_first ds rest :
  ds ≠ [] → Forall (λ c, is_digit c = true) ds →
  (∀ c, head rest = Some c → is_space c = false) → Forall (λ c, not_nl c = true) rest →
  re_match TICKET_RE (ticket_prefix ds ++ rest) = Some [(3, rest); (2, py "T-" ++ ds); (1, py " ")].
Proof.
  intros Hne Hds Hh Hr. unfold ticket_prefix. rewrite <-!(assoc_L (++)).
  change (py "- [ ] T-" ++ ds ++ py " " ++ rest)
    with (py "- [" ++ py " " ++ py "] " ++ py "T-" ++ ds ++ py " " ++ rest).
  eapply first_match. unfold TICKET_RE. cbn [seqs].
  eapply first_Seq; [apply first_lit|].
  eapply first_Seq; [by apply (first_Grp 1 (Chr is_checkbox) _ _ (py " "))|].
  eapply first_Seq; [apply first_lit|].
  eapply first_Seq.
  { rewrite (assoc_L (++) (py "T-")). apply first_Grp. rewrite <-(assoc_L (++)).
    eapply first_Seq; [apply first_lit|by apply first_plus]. }
  eapply first_Seq; [apply first_plus; [done|by repeat constructor|]|].
  { destruct rest; [done|]. by apply Hh. }
  eapply first_Seq; [|apply first_Eol].
  rewrite <-(app_nil_r rest) at 1. apply first_Grp. by apply first_Star.
Qed.

(** ** Properties *)

(** Whatever the text, the parsed board is well formed: tickets are filed under
    distinct ids, and each has a ticket id, one of the four sections, a legal
    checkbox, distinct known fields and needs that are ticket ids. *)
Theorem parse_board_well_formed text :
  keyed (b_tickets (parse_board text))
  ∧ ∀ tid t, dget tid (b_tickets (parse_board text)) = Some t → t_id t = tid ∧ ticket_ok t.
Proof.
  destruct (parse_board_ok text) as [Hk Hok]. split; [done|].
  intros tid t Ht%dget_Some_elem. split; [by apply (proj2 Hk)|by apply (Hok tid)].
Qed.

(** C33: A parse without errors loses nothing: the tickets are, in order and with the
    heading each stands under, exactly the lines that open like a ticket; none of
    them hides another record, and every required heading occurs once. *)
Theorem parse_board_lossless text :
  b_errors (parse_board text) = [] →
  rows (parse_board text) = placed None (splitlines text)
  ∧ unshadowed (parse_board text)
  ∧ ∀ heading, heading ∈ REQUIRED_HEADINGS → count_heading heading (b_headings (parse_board text)) = 1.
Proof.
  intros He. simpl in He. apply app_nil in He as [He Hh].
  destruct (parse_lines_walk (splitlines text) 1 empty_board) as [_ H].
  apply H in He as (_ & Hr & Hu). split_and!; [done|by apply Hu; intros ? ?%elem_of_nil|].
  intros heading Hin. unfold heading_errors in Hh. cbn [b_headings parse_board].
  apply list_elem_of_split in Hin as (l1 & l2 & Hl). rewrite Hl, bind_app, bind_cons in Hh.
  apply app_nil in Hh as [_ Hh]. apply app_nil in Hh as [Hh _].
  destruct (Nat.eqb_spec (count_heading heading (b_headings (parse_lines 1 (splitlines text) empty_board))) 1); done.
Qed.

Definition newline : pystr := [10%N].
Definition sample_text : pystr :=
  join newline (strs ["# Board"; "## DOING"; "## TODO"; "- [ ] T-1 first | needs: T-2"; "";
                      "## DONE"; "- [x] T-2 second | verify: run"; "## BLOCKED"]).

Lemma parse_board_lossless_witness :
  rows (parse_board sample_text)
  = [(py "- [ ] T-1 first | needs: T-2", Some TODO); (py "- [x] T-2 second | verify: run", Some DONE)].
Proof.
  destruct (parse_board_lossless sample_text) as [H _]; [vm_compute; reflexivity|].
  rewrite H. vm_compute. reflexivity.
Defined.

(** A description written by [escape_ticket_description] is read back exactly:
    the record's line adds one ticket, with that description, the id and the
    section it was written under, and no error. *)
Theorem written_description_read_back b n ds d e section :
  ds ≠ [] → Forall (λ c, is_digit c = true) ds →
  d ≠ [] → trimmed d → 0%N ∉ d → escape_ticket_description d = Ok e →
  is_found EMBEDDED_TICKET_RE (replace "\|" PIPE_SENTINEL e) = false →
  b_section b = Some section → section ∈ REQUIRED_HEADINGS →
  dget (py "T-" ++ ds) (b_tickets b) = None →
  let line := ticket_prefix ds ++ e in
  parse_line b n line
  = Board (b_tickets b ++ [(py "T-" ++ ds,
             Ticket (py "T-" ++ ds) section n (py " ") [] [] line d [])])
          (b_headings b) (b_errors b) (Some section).
Proof.
  intros Hne Hds Hd Ht H0 He Hemb Hs Hsec Hget line.
  pose proof (escape_charwise _ _ He) as He'. pose proof (escape_received _ _ He) as Hrec.
  assert (Hnl : Forall (λ c, is_linebreak c = false) d).
  { unfold escape_ticket_description in He.
    apply res_bind_Ok in He as (? & [_ ?]%assert_single_record_Ok & _). by apply record_separator_None. }
  assert (Hrep : replace "\|" PIPE_SENTINEL e = d ≫= esc2) by (subst e; apply pipes_to_sentinel).
  assert (Hline : trimmed line).
  { split; [by intros c [= <-]|]. intros c Hc. unfold line in Hc. rewrite last_app in Hc.
    destruct (last d) as [x|] eqn:Hl; [|by apply last_None in Hl].
    destruct (esc1_last d x Hl) as (c' & Hc' & Hsp). rewrite He', Hc' in Hc. simplify_eq.
    by apply Hsp, (proj2 Ht). }
  unfold parse_line. rewrite (strip_trimmed line Hline).
  assert (lstrip line = line) as -> by done.
  change (startswith "## " line) with false. change (nonempty line) with true.
  change (startswith "- [" line) with true. cbn [negb].
  unfold parse_ticket_line. rewrite (strip_trimmed line Hline).
  assert (replace "\|" PIPE_SENTINEL line = ticket_prefix ds ++ (d ≫= esc2)) as ->.
  { unfold line, replace. rewrite replace_go_skip; [by rewrite <-Hrep| |done].
    unfold ticket_prefix. rewrite !Forall_app. split_and!;
      [repeat constructor; by vm_compute| |repeat constructor; by vm_compute].
    eapply Forall_impl; [exact Hds|]. intros c Hc [= <-]. by vm_compute in Hc. }
  pose proof (esc2_trimmed d Ht) as Ht2.
  rewrite TICKET_RE_first by (done || apply (proj1 Ht2) || by apply esc2_not_nl).
  change (default [] (group 1 _)) with (py " "). change (default [] (group 2 _)) with (py "T-" ++ ds).
  change (default [] (group 3 _)) with (d ≫= esc2). cbv zeta. rewrite Hrep in Hemb. rewrite Hemb, Hs.
  rewrite (proj2 (mem_true _ _) Hsec). cbn [negb].
  change (py " | ") with PARTS. unfold split. rewrite split_go_clean_end by apply esc2_no_pipe.
  rewrite reverse_nil, app_nil_l. cbn [fmap list_fmap tail parse_fields b_tickets b_headings b_errors b_section head default].
  rewrite (strip_trimmed _ Ht2), <-Hrep, Hrec.
  assert (received d = d) as ->.
  { unfold received. clear -H0. induction d as [|c d IH]; [done|]. rewrite not_elem_of_cons in H0.
    rewrite fmap_cons, IH by naive_solver. f_equal. destruct (N.eqb_spec c 0); naive_solver. }
  rewrite app_nil_r. unfold pystr in *. rewrite Hget. rewrite dset_new by done. done.
Qed.

Lemma written_description_read_back_witness :
  t_description <$> dget (py "T-7")
    (b_tickets (parse_line (Board [] [] [] (Some TODO)) 3 "- [ ] T-7 a\|b \\ c")) = Some (py "a|b \ c").
Proof.
  pose proof (written_description_read_back (Board [] [] [] (Some TODO)) 3 (py "7") (py "a|b \ c")
                (py "a\|b \\ c") TODO) as H.
  assert (py "- [ ] T-7 a\|b \\ c" = ticket_prefix (py "7") ++ py "a\|b \\ c") as -> by (vm_compute; reflexivity).
  rewrite H; [vm_compute; reflexivity|discriminate|repeat constructor|discriminate| | | | | | |].
  - split; intros c Hc; vm_compute in Hc; injection Hc as <-; vm_compute; reflexivity.
  - apply (bool_decide_unpack _). vm_compute. exact I.
  - vm_compute. reflexivity.
  - vm_compute. reflexivity.
  - reflexivity.
  - right. left.
  - reflexivity.
Defined.
