(* ===== verification/BoardClaims.v ===== *)
(** * Claims, blockers and the Pick Rule

    The scheduling half of [tools/saipen_engine/board.py]: the claim
    classifier, the blocker vocabulary, workability and [pick_next_work]. The
    clock is an argument: [now] is an instant in microseconds. *)

From S2P Require Import Prelude PyStr PyRegex PyDict BoardClock BoardParse.

(** ** Accessors *)

Definition field (t : ticket) (name : pystr) : pystr := fval name (t_fields t).
Definition in_section (t : ticket) (section : pystr) : bool := t_section t =s section.
Definition has_field (t : ticket) (name : pystr) : bool := dmem name (t_fields t).
Definition open_checkbox (t : ticket) : bool := mem (t_checkbox t) (strs [" "; ""]).

Definition REGRESSION_REQUIRED : pystr := "required".
Definition regression_required (t : ticket) : bool :=
  lower (field t "regression") =s REGRESSION_REQUIRED.

(** ** The claim classifier *)

Inductive claim : Type := UNCLAIMED | SELF | FOREIGN_LIVE | FOREIGN_STALE | INVALID.

Global Instance claim_eq_dec : EqDecision claim.
Proof. solve_decision. Defined.

(** Fifteen minutes, in microseconds. *)
Definition CLAIM_LIVENESS_WINDOW : Z := 15 * 60 * 1000000.

Definition claim_status (t : ticket) (agent : option pystr) (now : Z) : claim :=
  let owner := field t "owner" in
  let claim_time := field t "claim_time" in
  let has_owner := nonempty owner in
  let has_time := nonempty claim_time in
  if negb (Bool.eqb has_owner has_time) then INVALID
  else if negb has_owner then UNCLAIMED
  else match iso_utc_sort_key claim_time with
       | None => INVALID
       | Some st =>
           if nonempty (default [] agent) && (owner =s default [] agent) then SELF
           else if (CLAIM_LIVENESS_WINDOW <=? now - instant st)%Z
                then FOREIGN_STALE else FOREIGN_LIVE
       end.

Definition bare_ticket (fields : dict pystr pystr) : ticket :=
  Ticket "?" [] 0 [] [] fields [] [] [].

Definition claim_is_live (owner claim_time : pystr) (agent : option pystr) (now : Z) : bool :=
  let owner := strip owner in
  let claim_time := strip claim_time in
  if negb (nonempty owner) || negb (nonempty claim_time) then false
  else if nonempty (default [] agent) && (owner =s default [] agent) then false
  else bool_decide
         (claim_status (bare_ticket [(py "owner", owner); (py "claim_time", claim_time)])
                       agent now = FOREIGN_LIVE).

(** [binding] is this process's claim binding, [None] when it cannot be proved. *)
Definition session_locked_out (t : ticket) (binding : option pystr) (now : Z) : bool :=
  let bound := field t "claim_session" in
  if negb (nonempty bound) || negb (bool_decide (claim_status t None now = FOREIGN_LIVE))
  then false
  else negb (bool_decide (binding = Some bound)).

(** ** The blocker vocabulary *)

Definition NON_CLOSURE_BLOCKER_TOKENS : list pystr :=
  strs ["HELD"; "FUTURE_GATE"; "PERMANENT_WARNING_OWNER"; "WAIT_USER_CONFIRMATION";
        "WAIT_USER_DECISION"; "ACTIVE"; "WAIT_ROLE"; "BLOCKED_EXTERNAL"].
Definition CLOSURE_EXEMPT_BLOCKER_CLASSES : list pystr :=
  strs ["HELD"; "FUTURE_GATE"; "PERMANENT_WARNING_OWNER"; "WAIT_USER_CONFIRMATION";
        "WAIT_USER_DECISION"].
Definition DEFERRED_OPERATOR_BLOCKER_CLASSES : list pystr :=
  strs ["WAIT_USER_CONFIRMATION"; "WAIT_USER_DECISION"; "BLOCKED_EXTERNAL"].

Definition is_role_char (c : N) : bool :=
  is_AZ c || is_az c || is_ascii_digit c || (c =? 95)%N || (c =? 45)%N.
Definition WAIT_ROLE_RE : re := Seq (lit "WAIT_ROLE:") (Grp 1 (plus is_role_char)).

Definition blocker_head (blocker : pystr) : pystr :=
  strip (split1_head " -- " (strip blocker)).

Definition blocker_class (blocker : pystr) : option pystr :=
  let head := upper (blocker_head blocker) in
  if mem head NON_CLOSURE_BLOCKER_TOKENS then Some head
  else if is_match (Seq WAIT_ROLE_RE Eol) (blocker_head blocker) then Some (py "WAIT_ROLE")
  else None.

Definition deferred_operator_class (blocker : pystr) : option pystr :=
  let head := upper (blocker_head blocker) in
  if mem head DEFERRED_OPERATOR_BLOCKER_CLASSES then Some head else None.

Definition wait_role_target (blocker : pystr) : option pystr :=
  re_match WAIT_ROLE_RE (blocker_head blocker) ≫= group 1.

(** ** Declared metadata with its defaults *)

Definition BLOCKER_SCOPES : list pystr := strs ["ticket"; "goal"].
Definition CLOSURE_MODES : list pystr :=
  strs ["own_patch"; "inherited_verified"; "cohort"; "superseded_verified";
        "external_implementation"; "finding_invalidated"].

Definition is_user_explicit (t : ticket) : bool :=
  let witness := field t "request_witness" in
  (lower (field t "user_explicit") =s "true")
  && (negb (nonempty witness) || (witness =s "operator_carrier")).

Definition blocker_scope (t : ticket) : pystr :=
  let value := lower (field t "blocker_scope") in
  if mem value BLOCKER_SCOPES then value else "ticket".

Definition closure_mode (t : ticket) : pystr :=
  let value := lower (field t "closure_mode") in
  if mem value CLOSURE_MODES then value else "own_patch".

Definition full_or_none (r : re) (value : pystr) : option pystr :=
  if is_full r value then Some value else None.

Definition cohort_id_re : re := ident_re "C-".
Definition lineage_re : re := Seq (lit "lineage-") (rep 32 is_hex).
Definition implementation_re : re := seqs [ticket_id_re; lit "@"; reps 7 33 is_hex].
Definition external_evidence_re : re := Seq (lit "EX-") (rep 6 is_digit).

Definition closure_cohort (t : ticket) : option pystr :=
  full_or_none cohort_id_re (field t "closure_cohort").
Definition superseded_by (t : ticket) : option pystr :=
  full_or_none ticket_id_re (field t "superseded_by").
Definition external_authority (t : ticket) : option pystr :=
  full_or_none lineage_re (field t "external_authority").
Definition external_implementation (t : ticket) : option pystr :=
  full_or_none implementation_re (field t "external_implementation").
Definition external_evidence (t : ticket) : option pystr :=
  full_or_none external_evidence_re (field t "external_evidence").
Definition closure_paths (t : ticket) : list pystr :=
  base.filter (λ p, nonempty p = true) (strip <$> words (replace "," " " (field t "closure_paths"))).

Definition retry_not_before (t : ticket) : option pystr :=
  let value := field t "retry_not_before" in
  if negb (nonempty value) then None
  else if bool_decide (is_Some (iso_utc_sort_key value)) then Some value else None.

(** ** Deferred operator gates *)

Inductive deferral : Type := DEFERRED_OPERATOR | DUE_OPERATOR_ACTION.

Definition deferred_state (t : ticket) (now : Z) : option deferral :=
  if negb (in_section t BLOCKED) then None
  else match retry_not_before t with
       | None => None
       | Some due =>
           match deferred_operator_class (fget "blocker" (t_fields t)), iso_utc_sort_key due with
           | Some _, Some st =>
               Some (if (instant st <=? now)%Z then DUE_OPERATOR_ACTION else DEFERRED_OPERATOR)
           | _, _ => None
           end
       end.

Record operator_gate : Type := OperatorGate {
  g_ticket : pystr; g_retry_not_before : option pystr; g_state : deferral }.

Definition operator_gates (ts : tickets) (now : Z) : list operator_gate :=
  omap (λ t, if negb (in_section t BLOCKED) then None
             else OperatorGate (t_id t) (retry_not_before t) <$> deferred_state t now)
       (dvalues ts).

Definition goal_blocked_tickets (ts : tickets) : list pystr :=
  t_id <$> base.filter (λ t, in_section t BLOCKED && (blocker_scope t =s "goal") = true) (dvalues ts).

(** ** Workability and the Pick Rule *)

Definition ticket_has_blocker (t : ticket) : bool := has_field t "blocker".

Definition is_done (ts : tickets) (tid : pystr) : bool :=
  match dget tid ts with Some t => in_section t DONE | None => false end.

Definition ticket_is_workable (t : ticket) (ts : tickets) (agent : option pystr) (now : Z) : bool :=
  let cs := claim_status t agent now in
  let claim_blocks :=
    bool_decide (cs = INVALID) || (in_section t DOING && bool_decide (cs = FOREIGN_LIVE)) in
  in_section t TODO && open_checkbox t && negb (ticket_has_blocker t) && negb claim_blocks
  && forallb (is_done ts) (t_needs t).

Definition workable_tickets (ts : tickets) (agent : option pystr) (now : Z) : list pystr :=
  t_id <$> base.filter (λ t, ticket_is_workable t ts agent now = true) (dvalues ts).

Definition blocked_on (t : ticket) : pystr := field t "blocked_on".

Definition reserved_children (ts : tickets) (agent : option pystr) (now : Z) : list ticket :=
  omap (λ parent,
          if negb (in_section parent BLOCKED) then None
          else match dget (blocked_on parent) ts with
               | None => None
               | Some child =>
                   if mem (blocked_on parent) (t_needs parent)
                      && ticket_is_workable child ts agent now
                   then Some child else None
               end)
       (dvalues ts).

Definition reserved_continuation_child (ts : tickets) (agent : option pystr) (now : Z)
    : option ticket :=
  match reserved_children ts agent now with [c] => Some c | _ => None end.

(** The queue order: user-explicit work first, then the topmost ticket. *)
Definition pick_from_queue (ts : tickets) (agent : option pystr) (now : Z)
    : option pystr * pystr :=
  let workable := workable_tickets ts agent now in
  match find_first (λ tid, from_option is_user_explicit false (dget tid ts)) workable with
  | Some tid => (Some tid, py "start-user-explicit")
  | None => match workable with
            | tid :: _ => (Some tid, py "start")
            | [] => (None, py "none")
            end
  end.

Definition pick_next_work (ts : tickets) (agent : option pystr) (now : Z)
    : option pystr * pystr :=
  match reserved_continuation_child ts agent now with
  | Some c => (Some (t_id c), py "dependency-continuation")
  | None => pick_from_queue ts agent now
  end.

(** ** Continuation parents *)

Definition continuation_parent (ts : tickets) (child_id : pystr) (require_done : bool)
    : option ticket :=
  match dget child_id ts with
  | None => None
  | Some child =>
      if require_done && negb (in_section child DONE) then None
      else match base.filter (λ t, in_section t BLOCKED && (blocked_on t =s child_id)
                              && mem child_id (t_needs t) = true) (dvalues ts) with
           | [p] => Some p
           | _ => None
           end
  end.

(** The identity test of the source compares entries of one ticket map, whose
    ids are distinct. *)
Definition resumable_parent (ts : tickets) : option ticket :=
  match base.filter (λ t, in_section t BLOCKED
                     && match continuation_parent ts (blocked_on t) true with
                        | Some p => t_id p =s t_id t
                        | None => false
                        end = true) (dvalues ts) with
  | [p] => Some p
  | _ => None
  end.

(** ** Convergence *)

Inductive closure_problem : Type :=
  | BoardProblem (e : board_error)
  | ActiveDoing (tids : list pystr)
  | WorkableTodo (tids : list pystr)
  | ClosureBlocking (tids : list pystr).

Definition blocks_closure (wait_role_roles : list pystr) (t : ticket) : bool :=
  let blocker := fget "blocker" (t_fields t) in
  in_section t BLOCKED
  && match blocker_class blocker with
     | Some cls =>
         negb (mem cls CLOSURE_EXEMPT_BLOCKER_CLASSES)
         && negb ((cls =s "WAIT_ROLE")
                  && match wait_role_target blocker with
                     | Some role => mem role wait_role_roles
                     | None => false
                     end)
     | None => true
     end.

Definition some_problem (mk : list pystr → closure_problem) (tids : list pystr)
    : list closure_problem :=
  match tids with [] => [] | _ => [mk (take 3 tids)] end.

Definition convergence_closure_problems (b : board) (agent : option pystr)
    (wait_role_roles : list pystr) (now : Z) : list closure_problem :=
  let ts := b_tickets b in
  (BoardProblem <$> b_errors b)
  ++ some_problem ActiveDoing (t_id <$> base.filter (λ t, in_section t DOING = true) (dvalues ts))
  ++ some_problem WorkableTodo (workable_tickets ts agent now)
  ++ some_problem ClosureBlocking
       (t_id <$> base.filter (λ t, blocks_closure wait_role_roles t = true) (dvalues ts)).

(** ** Lookups *)

Lemma keyed_dget ts t : keyed ts → t ∈ dvalues ts → dget (t_id t) ts = Some t.
Proof.
  intros [Hwf Hk] ([k t'] & -> & Hin)%list_elem_of_fmap. simpl.
  rewrite (Hk k t') by done. by apply dget_elem.
Qed.

Lemma dget_values tid t (ts : tickets) : dget tid ts = Some t → t ∈ dvalues ts.
Proof. intros H%dget_Some_elem. by apply (list_elem_of_fmap_2 snd _ (tid, t)). Qed.

Lemma elem_of_workable ts agent now tid :
  tid ∈ workable_tickets ts agent now ↔
  ∃ t, t_id t = tid ∧ t ∈ dvalues ts ∧ ticket_is_workable t ts agent now = true.
Proof.
  unfold workable_tickets. rewrite list_elem_of_fmap. setoid_rewrite elem_of_filter_true. naive_solver.
Qed.

Lemma elem_of_reserved ts agent now c :
  c ∈ reserved_children ts agent now ↔
  ∃ parent, parent ∈ dvalues ts ∧ in_section parent BLOCKED = true
    ∧ dget (blocked_on parent) ts = Some c ∧ blocked_on parent ∈ t_needs parent
    ∧ ticket_is_workable c ts agent now = true.
Proof.
  unfold reserved_children. rewrite list_elem_of_omap. split.
  - intros (p & Hp & H). exists p. case_match eqn:Hb; [done|]. apply negb_false_iff in Hb.
    case_match; [|done]. case_match eqn:Hm; [|done]. simplify_eq. bool_tac.
    by rewrite mem_true in *.
  - intros (p & Hp & Hb & Hd & Hn & Hw). exists p. split; [done|].
    rewrite Hb, Hd, Hw. simpl. by rewrite (proj2 (mem_true _ _) Hn).
Qed.

(** ** The agent and the clock do not matter to a TODO ticket *)

Lemma claim_invalid_stable t a now a' now' :
  claim_status t a now = INVALID → claim_status t a' now' = INVALID.
Proof.
  unfold claim_status. destruct (negb (Bool.eqb _ _)); [done|]. destruct (negb _); [done|].
  destruct (iso_utc_sort_key _); [|done]. by repeat case_match.
Qed.

Lemma workable_stable t ts a now a' now' :
  ticket_is_workable t ts a now = ticket_is_workable t ts a' now'.
Proof.
  unfold ticket_is_workable.
  assert (bool_decide (claim_status t a now = INVALID) = bool_decide (claim_status t a' now' = INVALID)) as ->.
  { apply bool_decide_ext. split; apply claim_invalid_stable. }
  destruct (in_section t TODO) eqn:E; [|done].
  assert (in_section t DOING = false) as ->; [|done].
  unfold in_section in *. apply eqs_true in E. rewrite E. by vm_compute.
Qed.

Lemma pick_stable ts a now a' now' : pick_next_work ts a now = pick_next_work ts a' now'.
Proof.
  assert (Hw : workable_tickets ts a now = workable_tickets ts a' now').
  { unfold workable_tickets. f_equal. apply list_filter_iff. intros t.
    by rewrite (workable_stable t ts a now a' now'). }
  assert (Hr : reserved_children ts a now = reserved_children ts a' now').
  { unfold reserved_children. apply list_omap_ext, Forall_Forall2_diag, Forall_forall. intros p _.
    repeat case_match; try done; rewrite (workable_stable _ ts a now a' now') in *; congruence. }
  unfold pick_next_work, pick_from_queue, reserved_continuation_child. by rewrite Hw, Hr.
Qed.

Lemma pick_queue ts agent now :
  keyed ts →
  match pick_from_queue ts agent now
  with
  | (Some tid, reason) =>
      ∃ t, dget tid ts = Some t ∧ ticket_is_workable t ts agent now = true
      ∧ ∃ above below, workable_tickets ts agent now = above ++ tid :: below
        ∧ let explicit tid' := from_option is_user_explicit false (dget tid' ts) in
          (reason = py "start-user-explicit" ∧ is_user_explicit t = true
           ∧ Forall (λ tid', explicit tid' = false) above)
          ∨ (reason = py "start" ∧ above = []
             ∧ Forall (λ tid', explicit tid' = false) (tid :: below))
  | (None, reason) =>
      reason = py "none" ∧ ∀ t, t ∈ dvalues ts → ticket_is_workable t ts agent now = false
  end.
Proof.
  intros Hts. unfold pick_from_queue.
  assert (Hin : ∀ tid, tid ∈ workable_tickets ts agent now →
    ∃ t, dget tid ts = Some t ∧ ticket_is_workable t ts agent now = true).
  { intros tid (t & <- & Ht & Hw)%elem_of_workable. exists t. by rewrite keyed_dget. }
  destruct (find_first _ _) as [tid|] eqn:Hf.
  - apply find_first_split in Hf as (above & below & Hw & Hex & Hab).
    destruct (Hin tid) as (t & Hd & Ht); [rewrite Hw; set_solver|]. rewrite Hd in Hex. simpl in Hex.
    exists t. split_and!; [done..|]. exists above, below. split; [done|]. by left.
  - rewrite find_first_None in Hf. destruct (workable_tickets ts agent now) as [|tid below] eqn:Hw.
    + split; [done|]. intros t Ht. apply not_true_is_false. intros Hwk.
      assert (t_id t ∈ workable_tickets ts agent now) as H by (apply elem_of_workable; eauto).
      rewrite Hw in H. by apply elem_of_nil in H.
    + destruct (Hin tid) as (t & Hd & Ht); [left|]. exists t. split_and!; [done..|].
      exists [], below. split; [done|]. right. split_and!; [done..|]. by apply Forall_forall.
Qed.

(** ** The reserved child *)

(** A blocked parent reserves a workable child it needs and is blocked on. *)
Definition reserves (ts : tickets) (agent : option pystr) (now : Z) (parent child : ticket) : Prop :=
  parent ∈ dvalues ts ∧ in_section parent BLOCKED = true ∧ dget (blocked_on parent) ts = Some child ∧
  blocked_on parent ∈ t_needs parent ∧ ticket_is_workable child ts agent now = true.
(** The child of the one parent that reserves any. *)
Definition only_reserved (ts : tickets) (agent : option pystr) (now : Z) (child : ticket) : Prop :=
  ∃ parent, reserves ts agent now parent child ∧ ∀ p c, reserves ts agent now p c → p = parent.

Lemma omap_singleton {A B} (f : A → option B) l y :
  NoDup l → omap f l = [y] ↔ ∃ x, x ∈ l ∧ f x = Some y ∧ ∀ x' y', x' ∈ l → f x' = Some y' → x' = x.
Proof.
  induction 1 as [|x l Hx Hnd IH]; [split; [done|by intros (? & ?%elem_of_nil & _)]|]. cbn [omap list_omap]. split.
  - destruct (f x) as [b|] eqn:Ef.
    + intros [= -> Hl]. exists x. split_and!; [left|done|]. intros x' y' [->|Hin]%elem_of_cons Hf; [done|].
      assert (y' ∈ omap f l) as H by (apply list_elem_of_omap; eauto). rewrite Hl in H. by apply elem_of_nil in H.
    + intros (x' & Hin & Hf & Hu)%IH. exists x'. split_and!; [by right|done|]. intros z y' [->|Hz]%elem_of_cons Hf'; [congruence|by eapply Hu].
  - intros (x' & [->|Hin]%elem_of_cons & Hf & Hu).
    + rewrite Hf. f_equal. destruct (omap f l) as [|b bs] eqn:El; [done|]. exfalso.
      assert (b ∈ omap f l) as (z & Hz & Hfz)%list_elem_of_omap by (rewrite El; left). rewrite (Hu z b) in Hz; [done|by right|done].
    + destruct (f x) as [b|] eqn:Ef; [rewrite (Hu x b) in Hx by (done || left); done|]. apply IH. exists x'. split_and!; [done..|].
      intros z y' Hz. apply Hu. by right.
Qed.

Lemma keyed_values ts : keyed ts → NoDup (dvalues ts).
Proof.
  intros [Hw Hk]. apply (NoDup_fmap_1 t_id). unfold dvalues. rewrite <-list_fmap_compose.
  assert (t_id ∘ snd <$> ts = ts.*1) as ->; [|exact Hw]. apply list_fmap_ext. intros i [k t] Hi. cbn. apply Hk. by eapply list_elem_of_lookup_2.
Qed.

Lemma reserved_exact ts agent now c :
  keyed ts → reserved_continuation_child ts agent now = Some c ↔ only_reserved ts agent now c.
Proof.
  intros Hts. assert (reserved_continuation_child ts agent now = Some c ↔ reserved_children ts agent now = [c]) as ->.
  { unfold reserved_continuation_child. destruct (reserved_children ts agent now) as [|d []]; naive_solver. }
  unfold reserved_children, only_reserved. match goal with |- context [omap ?g _] => set (f := g) end.
  rewrite omap_singleton by by apply keyed_values.
  assert (∀ p d, p ∈ dvalues ts → f p = Some d ↔ reserves ts agent now p d) as Hf.
  { intros p d Hp. unfold f, reserves. destruct (in_section p BLOCKED); cbn [negb]; [|naive_solver].
    destruct (dget (blocked_on p) ts) as [e|]; [|naive_solver]. destruct (mem _ _ && _) eqn:E.
    - bool_tac. rewrite mem_true in *. naive_solver.
    - split; [done|]. intros (_ & _ & [= ->] & Hn%mem_true & Hw). by rewrite Hn, Hw in E. }
  split.
  - intros (p & Hp & Hfp & Hu). exists p. split; [by apply Hf|]. intros p' c' H. apply (Hu p' c'); [apply H|]. by apply Hf; [apply H|].
  - intros (p & Hp & Hu). exists p. split_and!; [apply Hp|apply Hf; [apply Hp|done]|]. intros p' c' Hp' Hf'. apply (Hu p' c'). by apply Hf.
Qed.

(** ** Properties *)

(** C34: The Pick Rule. What it picks is a workable ticket of the board: the child that
    exactly one blocked parent reserves, when one parent alone reserves a child;
    only when no child is so reserved, the topmost workable ticket that is user
    explicit; and only when none is, the topmost workable ticket. It picks nothing
    exactly when nothing is workable. *)
Theorem pick_next_work_spec ts agent now :
  keyed ts →
  match pick_next_work ts agent now with
  | (Some tid, reason) =>
      ∃ t, dget tid ts = Some t ∧ ticket_is_workable t ts agent now = true
      ∧ ((reason = py "dependency-continuation" ∧ only_reserved ts agent now t)
         ∨ (∀ c, ¬ only_reserved ts agent now c) ∧
           ∃ above below, workable_tickets ts agent now = above ++ tid :: below
           ∧ let explicit tid' := from_option is_user_explicit false (dget tid' ts) in
             (reason = py "start-user-explicit" ∧ is_user_explicit t = true
              ∧ Forall (λ tid', explicit tid' = false) above)
             ∨ (reason = py "start" ∧ above = []
                ∧ Forall (λ tid', explicit tid' = false) (tid :: below)))
  | (None, reason) =>
      reason = py "none" ∧ ∀ t, t ∈ dvalues ts → ticket_is_workable t ts agent now = false
  end.
Proof.
  intros Hts. pose proof (pick_queue ts agent now Hts) as Hq. unfold pick_next_work.
  destruct (reserved_continuation_child ts agent now) as [c|] eqn:Hr.
  - apply (reserved_exact ts agent now c Hts) in Hr. pose proof Hr as (p & (_ & _ & Hd & _ & Hw) & _).
    pose proof (proj2 Hts _ _ (dget_Some_elem _ _ _ Hd)) as Hid. exists c. rewrite <-Hid in Hd. split_and!; [done..|]. by left.
  - destruct (pick_from_queue ts agent now) as [[tid|] reason]; [|done]. destruct Hq as (t & Hd & Hw & H).
    exists t. split_and!; [done..|]. right. split; [|exact H]. intros c Hc%(reserved_exact ts agent now c Hts). congruence.
Qed.

(** The Pick Rule is said to put user-explicit work first: a reserved child goes
    before it. *)
Definition reserving_queue : tickets :=
  (λ t, (t_id t, t)) <$>
  [Ticket "T-1" "## TODO" 2 " " [] [(py "user_explicit", py "true")] [] [] [];
   Ticket "T-2" "## TODO" 3 " " [] [] [] [] [];
   Ticket "T-3" "## BLOCKED" 5 " " (strs ["T-2"]) [(py "blocked_on", py "T-2")] [] [] []].
Lemma reservation_outranks_the_user :
  (pick_next_work reserving_queue None 0, is_user_explicit <$> dget (py "T-1") reserving_queue)
  = ((Some (py "T-2"), py "dependency-continuation"), Some true).
Proof. vm_compute. reflexivity. Qed.

Definition sample_queue : tickets :=
  (λ t, (t_id t, t)) <$>
  [Ticket "T-1" "## TODO" 2 " " [] [] [] [] [];
   Ticket "T-2" "## TODO" 3 " " (strs ["T-3"]) [(py "user_explicit", py "true")] [] [] [];
   Ticket "T-3" "## DONE" 5 "x" [] [(py "verify", py "tests")] [] [] []].

Lemma keyed_fmap (l : list ticket) : NoDup (t_id <$> l) → keyed ((λ t, (t_id t, t)) <$> l).
Proof.
  intros Hl. split.
  - unfold wf_dict, dkeys. by rewrite <-list_fmap_compose.
  - intros k t (t' & [= -> ->] & _)%list_elem_of_fmap. done.
Qed.

Lemma pick_next_work_spec_witness :
  ∃ t, dget (py "T-2") sample_queue = Some t ∧ ticket_is_workable t sample_queue None 0 = true.
Proof.
  assert (keyed sample_queue) as Hk
    by (apply keyed_fmap; apply (bool_decide_unpack _); vm_compute; exact I).
  pose proof (pick_next_work_spec sample_queue None 0 Hk) as H.
  assert (pick_next_work sample_queue None 0 = (Some (py "T-2"), py "start-user-explicit")) as E
    by (vm_compute; reflexivity).
  rewrite E in H. destruct H as (t & Hd & Hw & _). exists t. split; [exact Hd|exact Hw].
Defined.

(** Neither the agent nor the clock takes part in the pick: whatever claim a
    [TODO] ticket carries, every agent picks the same ticket at any time. *)
Theorem pick_agent_independent ts agent now agent' now' :
  pick_next_work ts agent now = pick_next_work ts agent' now'.
Proof. apply pick_stable. Qed.

(** A claim's life: the owner always sees it as its own; every other agent is
    held off for exactly the liveness window, after which the claim is stale; and
    a session that does not hold the claim's binding is locked out for just as
    long. *)
Theorem claim_lifecycle t owner st now :
  field t "owner" = owner → owner ≠ [] →
  field t "claim_time" = isoformat st ++ py "Z" → valid_stamp st = true →
  claim_status t (Some owner) now = SELF
  ∧ (∀ agent, agent ≠ Some owner →
       claim_status t agent now
       = if (CLAIM_LIVENESS_WINDOW <=? now - instant st)%Z then FOREIGN_STALE else FOREIGN_LIVE)
  ∧ (∀ binding, nonempty (field t "claim_session") = true →
       session_locked_out t binding now = true ↔
       (now - instant st < CLAIM_LIVENESS_WINDOW)%Z ∧ binding ≠ Some (field t "claim_session")).
Proof.
  intros Ho Hne Ht Hv.
  assert (Hn : nonempty owner = true) by (by destruct owner).
  assert (Hs : ∀ agent, claim_status t agent now =
    if nonempty (default [] agent) && (owner =s default [] agent) then SELF
    else if (CLAIM_LIVENESS_WINDOW <=? now - instant st)%Z then FOREIGN_STALE else FOREIGN_LIVE).
  { intros agent. unfold claim_status. rewrite Ho, Ht, Hn, stamp_roundtrip by done. done. }
  split_and!.
  - rewrite Hs. change (default [] (Some owner)) with owner. by rewrite Hn, eqs_refl.
  - intros agent Ha. rewrite Hs. destruct (nonempty (default [] agent)) eqn:E; [|done].
    destruct (owner =s default [] agent) eqn:E'; [|done]. apply eqs_true in E' as ->.
    by destruct agent.
  - intros binding Hb. unfold session_locked_out. rewrite Hb, Hs. simpl.
    destruct (CLAIM_LIVENESS_WINDOW <=? now - instant st)%Z eqn:E.
    + apply Z.leb_le in E. simpl. split; [done|]. lia.
    + apply Z.leb_gt in E. simpl. rewrite negb_true_iff, bool_decide_eq_false. naive_solver.
Qed.

Definition sample_claim : ticket :=
  Ticket "T-1" "## DOING" 1 "/" []
    [(py "owner", py "alpha"); (py "claim_time", py "2024-05-01T10:00:00Z");
     (py "claim_session", py "s1")] [] [] [].

Lemma claim_lifecycle_witness :
  let start := instant (Stamp 2024 5 1 10 0 0 0) in
  claim_status sample_claim (Some (py "beta")) (start + CLAIM_LIVENESS_WINDOW - 1) = FOREIGN_LIVE
  ∧ claim_status sample_claim (Some (py "beta")) (start + CLAIM_LIVENESS_WINDOW) = FOREIGN_STALE.
Proof.
  split.
  - rewrite (proj1 (proj2 (claim_lifecycle sample_claim "alpha" (Stamp 2024 5 1 10 0 0 0) _
      eq_refl ltac:(done) ltac:(by vm_compute) ltac:(by vm_compute)))) by done.
    vm_compute. reflexivity.
  - rewrite (proj1 (proj2 (claim_lifecycle sample_claim "alpha" (Stamp 2024 5 1 10 0 0 0) _
      eq_refl ltac:(done) ltac:(by vm_compute) ltac:(by vm_compute)))) by done.
    vm_compute. reflexivity.
Defined.

(** A deferred operator gate opens exactly once: it is deferred before its
    retry time, due from that instant on, and never deferred again. *)
Theorem deferral_opens_once t now now' :
  (now ≤ now')%Z →
  (deferred_state t now = None ↔ deferred_state t now' = None)
  ∧ (deferred_state t now = Some DUE_OPERATOR_ACTION → deferred_state t now' = Some DUE_OPERATOR_ACTION)
  ∧ (∀ st, iso_utc_sort_key (field t "retry_not_before") = Some st → deferred_state t now ≠ None →
       deferred_state t now = Some DUE_OPERATOR_ACTION ↔ (instant st ≤ now)%Z).
Proof.
  intros Hle. unfold deferred_state, retry_not_before.
  destruct (negb (in_section t BLOCKED)); [done|].
  destruct (negb (nonempty (field t "retry_not_before"))); [done|].
  destruct (bool_decide _); [|done]. destruct (deferred_operator_class _); [|done].
  destruct (iso_utc_sort_key _) as [st|]; [|done]. split_and!; [done| |].
  - destruct (instant st <=? now)%Z eqn:E; [|done]. apply Z.leb_le in E.
    rewrite (proj2 (Z.leb_le _ _)) by lia. done.
  - intros st' [= <-] _. rewrite <-Z.leb_le. by destruct (instant st <=? now)%Z.
Qed.

Definition sample_gate : ticket :=
  Ticket "T-2" "## BLOCKED" 1 " " []
    [(py "blocker", py "WAIT_USER_DECISION -- which licence");
     (py "retry_not_before", py "2024-05-01T10:00:00Z")] [] [] [].

Lemma deferral_opens_once_witness :
  let due := instant (Stamp 2024 5 1 10 0 0 0) in
  deferred_state sample_gate (due - 1) = Some DEFERRED_OPERATOR
  ∧ deferred_state sample_gate (due + 1) = Some DUE_OPERATOR_ACTION.
Proof.
  split; [by vm_compute|].
  apply (deferral_opens_once sample_gate (instant (Stamp 2024 5 1 10 0 0 0))); [lia|by vm_compute].
Defined.
