(* ===== verification/BoardClosure.v ===== *)
(** * Closure metadata and the lifecycle invariants of a ticket

    [ticket_status_error], [board_scalar_errors], [closure_metadata_errors] and
    [board_semantic_errors] of [tools/saipen_engine/board.py]. An error is a
    constructor of [closure_error] with what its message quotes. *)

From S2P Require Import Prelude PyStr PyRegex PyDict Phases BoardClock BoardRecord BoardParse.
From S2P Require Import BoardClaims.

Inductive closure_error : Type :=
  (* blocker_scope, retry_not_before *)
  | ScopeOutsideBlocked | ScopeUnknown (v : pystr)
  | RetryOutsideBlocked | RetryNotUtc (v : pystr) | RetryNotOperatorOwned
  (* external dependency declarations *)
  | MalformedDeclaration (name v : pystr)
  (* placement and vocabulary *)
  | MetadataOutsideDone (names : list pystr)
  | ModeUnknown (v : pystr) | DeltaUnknown (v : pystr) | CohortNotId (v : pystr)
  | CohortMissing | CohortWithoutMode | SourceMissing | SourceWithoutMode
  | PublicationUnknown (v : pystr) | PublicationWithoutOwnPatch | ProhibitionUnknown (v : pystr)
  (* invalidation *)
  | InvalidationNotEvent (v : pystr) | InvalidationMissing | InvalidationWithoutMode
  (* supersession *)
  | SupersessionMissing (names : list pystr) | SuccessorNotTicket | SelfSupersession
  | SupersessionEvidenceNotEvent | SupersessionAuthorityNotSource
  | SupersededWithDelta | SupersessionWithoutMode (names : list pystr)
  (* external implementation *)
  | ExternalMissing (names : list pystr) | AuthorityNotLineage | ImplementationNotIdentity
  | EvidenceNotReceipt | ReasonUnknown (v : pystr) | ExternalWithDelta
  | ExternalWithoutMode (names : list pystr)
  (* user request *)
  | WitnessUnknown | UnwitnessedExplicit | ExplicitNotTrue (v : pystr)
  (* continuation reservation *)
  | ReservationOutsideBlocked (names : list pystr) | ReservationPartial (missing : list pystr)
  | BlockedOnNotTicket (v : pystr) | ResumePhaseNotBearing (v : pystr)
  | ResumeIllegal (from to : pystr)
  (* semantic invariants *)
  | CheckedOutsideDone | InProgressOutsideDoing | OpenUnderDoneOrDoing | DoneWithoutVerify
  | BlockedWithoutBlocker | BlockerOutsideBlocked
  | FieldSeparator (name : pystr) | PseudoLink (name marker : pystr)
  | RegressionEvidenceProfile.

Definition when (b : bool) (e : closure_error) : list closure_error := if b then [e] else [].

Section errors.
Variable t : ticket.
Let fld (name : pystr) : pystr := field t name.
Let mode : pystr := lower (fld "closure_mode").
Let delta : pystr := lower (fld "implementation_delta").
Let present (names : list pystr) : list pystr := base.filter (λ n, nonempty (fld n) = true) names.
Let missing (names : list pystr) : list pystr := base.filter (λ n, nonempty (fld n) = false) names.

Definition scope_errors : list closure_error :=
  let scope := fld "blocker_scope" in
  if negb (nonempty scope) then []
  else if negb (in_section t BLOCKED) then [ScopeOutsideBlocked]
  else when (negb (mem (lower scope) BLOCKER_SCOPES)) (ScopeUnknown scope).

Definition retry_errors : list closure_error :=
  let rnb := fld "retry_not_before" in
  if negb (nonempty rnb) then []
  else if negb (in_section t BLOCKED) then [RetryOutsideBlocked]
  else match iso_utc_sort_key rnb with
       | None => [RetryNotUtc rnb]
       | Some _ => match deferred_operator_class (fget "blocker" (t_fields t)) with
                   | None => [RetryNotOperatorOwned]
                   | Some _ => []
                   end
       end.

Definition EXTERNAL_DECLARATION_FIELDS : list pystr :=
  strs ["external_authority"; "external_implementation"].

Definition value_matches_field (name value : pystr) : bool :=
  if name =s "external_authority" then is_full lineage_re value
  else is_full implementation_re value.

Definition CLOSURE_METADATA_FIELDS : list pystr :=
  strs ["closure_mode"; "closure_cohort"; "implementation_delta"; "implementation_source";
        "closure_paths"; "superseded_by"; "supersession_evidence"; "supersession_authority";
        "external_authority"; "external_implementation"; "external_evidence";
        "resolution_reason"; "invalidation_evidence"; "publication_state"].

Definition declaration_errors : list closure_error :=
  if in_section t BLOCKED
  then EXTERNAL_DECLARATION_FIELDS ≫= λ name,
         when (nonempty (fld name) && negb (value_matches_field name (fld name)))
              (MalformedDeclaration name (fld name))
  else [].

Definition placement_errors : list closure_error :=
  let declaration := if in_section t BLOCKED then EXTERNAL_DECLARATION_FIELDS else [] in
  let declared := present (base.filter (λ n, mem n declaration = false) CLOSURE_METADATA_FIELDS) in
  match declared with
  | [] => []
  | _ => when (negb (in_section t DONE)) (MetadataOutsideDone declared)
  end.

Definition PUBLICATION_STATES : list pystr := strs ["published"; "pending"].

Definition mode_errors : list closure_error :=
  let raw_mode := fld "closure_mode" in
  let raw_delta := fld "implementation_delta" in
  let cohort := fld "closure_cohort" in
  let source := fld "implementation_source" in
  let published := fld "publication_state" in
  when (nonempty raw_mode && negb (mem mode CLOSURE_MODES)) (ModeUnknown raw_mode)
  ++ when (nonempty raw_delta && negb (mem delta (strs ["none"; "patch"])))
          (DeltaUnknown raw_delta)
  ++ when (nonempty cohort && negb (is_full cohort_id_re cohort)) (CohortNotId cohort)
  ++ when ((mode =s "cohort") && negb (nonempty cohort)) CohortMissing
  ++ when (nonempty cohort && negb (mode =s "cohort")) CohortWithoutMode
  ++ when ((mode =s "inherited_verified") && negb (nonempty source)) SourceMissing
  ++ when (nonempty source && negb (mode =s "inherited_verified")) SourceWithoutMode
  ++ when (nonempty published && negb (mem published PUBLICATION_STATES))
          (PublicationUnknown published)
  ++ when (nonempty published && negb (mode =s "own_patch")) PublicationWithoutOwnPatch.

Definition prohibition_errors : list closure_error :=
  let prohibition := fld "publication" in
  when (nonempty prohibition && negb (lower prohibition =s "forbidden"))
       (ProhibitionUnknown prohibition).

Definition invalidation_errors : list closure_error :=
  let invalidation := fld "invalidation_evidence" in
  when (nonempty invalidation && negb (is_full event_id_re invalidation))
       (InvalidationNotEvent invalidation)
  ++ when ((mode =s "finding_invalidated") && negb (nonempty invalidation)) InvalidationMissing
  ++ when (nonempty invalidation && negb (mode =s "finding_invalidated")) InvalidationWithoutMode.

Definition SUPERSESSION_FIELDS : list pystr :=
  strs ["superseded_by"; "supersession_evidence"; "supersession_authority"].

Definition supersession_errors : list closure_error :=
  let successor := fld "superseded_by" in
  let evidence := fld "supersession_evidence" in
  let authority := fld "supersession_authority" in
  if mode =s "superseded_verified"
  then
    (match missing SUPERSESSION_FIELDS with [] => [] | ms => [SupersessionMissing ms] end)
    ++ when (nonempty successor && negb (is_full ticket_id_re successor)) SuccessorNotTicket
    ++ when (successor =s t_id t) SelfSupersession
    ++ when (nonempty evidence && negb (is_full event_id_re evidence)) SupersessionEvidenceNotEvent
    ++ when (nonempty authority && negb (is_full (ident_re "SRC-") authority))
            SupersessionAuthorityNotSource
    ++ when (negb (delta =s "none")) SupersededWithDelta
  else match present SUPERSESSION_FIELDS with
       | [] => []
       | ps => [SupersessionWithoutMode ps]
       end.

Definition EXTERNAL_FIELDS : list pystr :=
  strs ["external_authority"; "external_implementation"; "external_evidence";
        "resolution_reason"].
Definition RESOLUTION_REASONS : list pystr :=
  strs ["PROTOCOL_HOME_FIX_VERIFIED"; "DEPENDENCY_UPGRADE_VERIFIED"; "UPSTREAM_FIX_VERIFIED"].

Definition external_errors : list closure_error :=
  let authority := fld "external_authority" in
  let implementation := fld "external_implementation" in
  let evidence := fld "external_evidence" in
  let reason := fld "resolution_reason" in
  if mode =s "external_implementation"
  then
    (match missing EXTERNAL_FIELDS with [] => [] | ms => [ExternalMissing ms] end)
    ++ when (nonempty authority && negb (is_full lineage_re authority)) AuthorityNotLineage
    ++ when (nonempty implementation && negb (is_full implementation_re implementation))
            ImplementationNotIdentity
    ++ when (nonempty evidence && negb (is_full external_evidence_re evidence)) EvidenceNotReceipt
    ++ when (nonempty reason && negb (mem reason RESOLUTION_REASONS)) (ReasonUnknown reason)
    ++ when (negb (delta =s "none")) ExternalWithDelta
  else match present EXTERNAL_FIELDS with
       | [] => []
       | ps =>
           when (negb (in_section t BLOCKED
                       && forallb (λ n, mem n EXTERNAL_DECLARATION_FIELDS) ps))
                (ExternalWithoutMode ps)
       end.

Definition WITNESSES : list pystr := strs ["operator_carrier"; "transport_obligation"; "model_supplied"].

Definition request_errors : list closure_error :=
  let explicit := fld "user_explicit" in
  let witness := fld "request_witness" in
  (if nonempty witness
   then when (negb (mem witness WITNESSES)) WitnessUnknown
        ++ when ((lower explicit =s "true") && negb (witness =s "operator_carrier"))
                UnwitnessedExplicit
   else [])
  ++ when (nonempty explicit && negb (lower explicit =s "true")) (ExplicitNotTrue explicit).

Definition RESERVATION_FIELDS : list pystr :=
  strs ["blocked_on"; "resume_phase"; "resume_transition_from"].

Definition reservation_errors : list closure_error :=
  let blocked_on := fld "blocked_on" in
  let resume_phase := fld "resume_phase" in
  let resume_from := fld "resume_transition_from" in
  let ps := present RESERVATION_FIELDS in
  when (negb (Nat.eqb (length ps) 0) && negb (in_section t BLOCKED)) (ReservationOutsideBlocked ps)
  ++ when (negb (Nat.eqb (length ps) 0)
           && negb (Nat.eqb (length ps) (length RESERVATION_FIELDS)))
          (ReservationPartial (missing RESERVATION_FIELDS))
  ++ when (nonempty blocked_on && negb (is_full ticket_id_re blocked_on))
          (BlockedOnNotTicket blocked_on)
  ++ (if negb (nonempty resume_phase) then []
      else if negb (mem resume_phase TICKET_BEARING_PHASES)
      then [ResumePhaseNotBearing resume_phase]
      else when (negb (transition_legal resume_from resume_phase))
                (ResumeIllegal resume_from resume_phase)).

Definition closure_metadata_errors : list closure_error :=
  scope_errors ++ retry_errors ++ declaration_errors ++ placement_errors ++ mode_errors
  ++ prohibition_errors ++ invalidation_errors ++ supersession_errors ++ external_errors
  ++ request_errors ++ reservation_errors.

(** ** The lifecycle invariants *)

Definition ticket_status_error : option closure_error :=
  let blocked := in_section t BLOCKED in
  if blocked && negb (nonempty (fld "blocker")) then Some BlockedWithoutBlocker
  else if negb blocked && ticket_has_blocker t then Some BlockerOutsideBlocked
  else None.

Definition RESERVED_FIELD_MARKERS : list pystr :=
  strs ["source_receipts"; "owner"; "claim_time"; "needs"].

(** [(?:^|[;,])\s*(marker)\s*:], whose [^] is the start of the value. *)
Definition PSEUDO_FIELD_MARKER_RE : re :=
  seqs [Chr (λ c, (c =? 59)%N || (c =? 44)%N); Star is_space;
        Grp 1 (alts RESERVED_FIELD_MARKERS); Star is_space; lit ":"].
Definition PSEUDO_FIELD_START_RE : re :=
  seqs [Star is_space; Grp 1 (alts RESERVED_FIELD_MARKERS); Star is_space; lit ":"].

Definition pseudo_markers (value : pystr) : list pystr :=
  match match_at PSEUDO_FIELD_START_RE None value with
  | Some (c, rest) => default [] (group 1 c)
                      :: ((λ m, default [] (group 1 m.2)) <$> re_finditer PSEUDO_FIELD_MARKER_RE rest)
  | None => (λ m, default [] (group 1 m.2)) <$> re_finditer PSEUDO_FIELD_MARKER_RE value
  end.

Definition board_scalar_errors (fields : dict pystr pystr) : list closure_error :=
  fields ≫= λ e,
    when (bool_decide (is_Some (record_separator_in e.2))) (FieldSeparator e.1)
    ++ (PseudoLink e.1 <$> pseudo_markers e.2).

Definition board_semantic_errors : list closure_error :=
  let checkbox := t_checkbox t in
  when ((checkbox =s "x") && negb (in_section t DONE)) CheckedOutsideDone
  ++ when ((checkbox =s "/") && negb (in_section t DOING)) InProgressOutsideDoing
  ++ when (open_checkbox t && (in_section t DONE || in_section t DOING)) OpenUnderDoneOrDoing
  ++ when (in_section t DONE && negb (nonempty (fld "verify"))) DoneWithoutVerify
  ++ option_list ticket_status_error
  ++ board_scalar_errors (dset (py "description") (t_description t) (t_fields t))
  ++ (match dget (py "regression_evidence") (t_fields t) with
      | None => []
      | Some profile =>
          when (negb (profile =s "executed")
                || negb (fget "regression" (t_fields t) =s "required")) RegressionEvidenceProfile
      end)
  ++ closure_metadata_errors.
End errors.

(** ** Absence of errors *)

Lemma when_nil b e : when b e = [] ↔ b = false.
Proof. by destruct b. Qed.

(** Read every conjunct off a concatenation of error lists that is empty. *)
Ltac no_errors :=
  repeat match goal with
  | H : _ ++ _ = [] |- _ => apply app_nil in H; destruct H
  | H : when _ _ = [] |- _ => apply when_nil in H
  | H : (_ && _) = false |- _ => apply andb_false_iff in H
  end.

Lemma full_or_none_Some r v : is_full r v = true → full_or_none r v = Some v.
Proof. unfold full_or_none. by intros ->. Qed.

Lemma absent_or b1 b2 : b1 = false ∨ b2 = false → b1 = true → b2 = false.
Proof. destruct b1, b2; naive_solver. Qed.

(** The fields of a list are all present when none is missing, and all absent
    when none is present. *)
Lemma none_missing (f : pystr → bool) names :
  base.filter (λ n, f n = false) names = [] → ∀ n, n ∈ names → f n = true.
Proof.
  intros H n Hn. destruct (f n) eqn:E; [done|].
  assert (n ∈ base.filter (λ n, f n = false) names) as H' by by apply list_elem_of_filter.
  rewrite H in H'. by apply elem_of_nil in H'.
Qed.

Lemma none_present (f : pystr → bool) names :
  base.filter (λ n, f n = true) names = [] → ∀ n, n ∈ names → f n = false.
Proof.
  intros H n Hn. destruct (f n) eqn:E; [|done].
  assert (n ∈ base.filter (λ n, f n = true) names) as H' by by apply list_elem_of_filter.
  rewrite H in H'. by apply elem_of_nil in H'.
Qed.

Lemma supersession_clean t :
  supersession_errors t = [] →
  if lower (field t "closure_mode") =s "superseded_verified"
  then is_full ticket_id_re (field t "superseded_by") = true
       ∧ field t "superseded_by" ≠ t_id t
       ∧ is_full event_id_re (field t "supersession_evidence") = true
       ∧ is_full (ident_re "SRC-") (field t "supersession_authority") = true
       ∧ lower (field t "implementation_delta") = py "none"
  else field t "superseded_by" = [] ∧ field t "supersession_evidence" = []
       ∧ field t "supersession_authority" = [].
Proof.
  unfold supersession_errors. destruct (_ =s "superseded_verified"); intros H.
  - apply app_nil in H as [Hm H]. destruct (base.filter _ _) eqn:E; [|done]. clear Hm.
    pose proof (none_missing (λ n, nonempty (field t n)) _ E) as Hp. no_errors.
    assert (nonempty (field t "superseded_by") = true) by (apply Hp; left).
    assert (nonempty (field t "supersession_evidence") = true) by (apply Hp; right; left).
    assert (nonempty (field t "supersession_authority") = true) by (apply Hp; right; right; left).
    repeat match goal with
    | Ha : _ ∨ _, Hb : _ = true |- _ => apply (λ o, absent_or _ _ o Hb) in Ha
    end.
    bool_tac. split_and!; try done.
    + intros E'. by rewrite E', eqs_refl in *.
    + by apply eqs_true.
  - destruct (base.filter _ _) eqn:E; [|done].
    pose proof (none_present (λ n, nonempty (field t n)) _ E) as Hp.
    split_and!; apply nonempty_false, Hp; [left|right; left|right; right; left].
Qed.

Lemma external_clean t :
  external_errors t = [] →
  if lower (field t "closure_mode") =s "external_implementation"
  then is_full lineage_re (field t "external_authority") = true
       ∧ is_full implementation_re (field t "external_implementation") = true
       ∧ is_full external_evidence_re (field t "external_evidence") = true
       ∧ field t "resolution_reason" ∈ RESOLUTION_REASONS
       ∧ lower (field t "implementation_delta") = py "none"
  else field t "external_evidence" = [] ∧ field t "resolution_reason" = []
       ∧ (in_section t BLOCKED = false →
          field t "external_authority" = [] ∧ field t "external_implementation" = []).
Proof.
  unfold external_errors. destruct (_ =s "external_implementation"); intros H.
  - apply app_nil in H as [Hm H]. destruct (base.filter _ _) eqn:E; [|done]. clear Hm.
    pose proof (none_missing (λ n, nonempty (field t n)) _ E) as Hp. no_errors.
    assert (nonempty (field t "external_authority") = true) by (apply Hp; left).
    assert (nonempty (field t "external_implementation") = true) by (apply Hp; right; left).
    assert (nonempty (field t "external_evidence") = true) by (apply Hp; do 2 right; left).
    assert (nonempty (field t "resolution_reason") = true) by (apply Hp; do 3 right; left).
    repeat match goal with
    | Ha : _ ∨ _, Hb : _ = true |- _ => apply (λ o, absent_or _ _ o Hb) in Ha
    end.
    bool_tac. split_and!; try done; [by apply mem_true|by apply eqs_true].
  - set (ps := base.filter _ EXTERNAL_FIELDS) in H.
    assert (Hps : ∀ n, n ∈ EXTERNAL_FIELDS → n ∉ ps → field t n = []).
    { intros n Hn Hno. apply nonempty_false. destruct (nonempty (field t n)) eqn:E; [|done].
      destruct Hno. by apply list_elem_of_filter. }
    assert (Hdecl : ∀ n, n ∈ ps → in_section t BLOCKED = true ∧ n ∈ EXTERNAL_DECLARATION_FIELDS).
    { intros n Hn. destruct ps as [|p ps'] eqn:Eps; [by apply elem_of_nil in Hn|]. no_errors.
      apply negb_false_iff, andb_true_iff in H as [Hb H]. rewrite forallb_forall in H.
      split; [done|]. by apply mem_true, H, list_elem_of_In. }
    split_and!; [| |intros Hnb; split];
      (apply Hps; [apply mem_true; by vm_compute|]; intros [? Hd]%Hdecl).
    + apply mem_true in Hd. by vm_compute in Hd.
    + apply mem_true in Hd. by vm_compute in Hd.
    + congruence.
    + congruence.
Qed.

Lemma eqs_iff a b s : ((a =s b) && negb (nonempty s)) = false → (nonempty s && negb (a =s b)) = false → a = b ↔ s ≠ [].
Proof. rewrite <-nonempty_true, <-eqs_true. destruct (a =s b), (nonempty s); naive_solver. Qed.

Lemma mode_clean t :
  mode_errors t = [] →
  let mode := lower (field t "closure_mode") in
  (mode = py "cohort" ↔ field t "closure_cohort" ≠ [])
  ∧ (mode = py "inherited_verified" ↔ field t "implementation_source" ≠ [])
  ∧ (field t "publication_state" ≠ [] → mode = py "own_patch").
Proof.
  intros H mode. unfold mode_errors in H. fold mode in H.
  repeat match goal with
  | H : _ ++ _ = [] |- _ => apply app_nil in H; destruct H
  | H : when _ _ = [] |- _ => apply when_nil in H
  end.
  split_and!; [by eapply eqs_iff|by eapply eqs_iff|].
  intros Hp%nonempty_true. rewrite Hp in *. by apply eqs_true, negb_false_iff.
Qed.

Lemma placement_clean t :
  declaration_errors t = [] → placement_errors t = [] →
  ∀ name, name ∈ CLOSURE_METADATA_FIELDS → nonempty (field t name) = true →
  in_section t DONE = true
  ∨ (in_section t BLOCKED = true ∧ name ∈ EXTERNAL_DECLARATION_FIELDS
     ∧ value_matches_field name (field t name) = true).
Proof.
  unfold declaration_errors, placement_errors. intros Hd Hp name Hn Hne.
  set (declaration := if in_section t BLOCKED then EXTERNAL_DECLARATION_FIELDS else []) in Hp.
  destruct (mem name declaration) eqn:E.
  - right. apply mem_true in E. unfold declaration in E. destruct (in_section t BLOCKED); [|by apply elem_of_nil in E].
    split_and!; [done..|]. apply (bind_nil _ _ name) in Hd; [|done]. apply when_nil in Hd. rewrite Hne in Hd.
    by apply negb_false_iff.
  - left. assert (Hin : name ∈ base.filter (λ n, nonempty (field t n) = true)
      (base.filter (λ n, mem n declaration = false) CLOSURE_METADATA_FIELDS)).
    { by rewrite !list_elem_of_filter. }
    destruct (base.filter (λ n, nonempty (field t n) = true) _); [by apply elem_of_nil in Hin|].
    apply when_nil in Hp. by apply negb_false_iff.
Qed.

Lemma reservation_clean t :
  reservation_errors t = [] → nonempty (field t "resume_phase") = true →
  transition_legal (field t "resume_transition_from") (field t "resume_phase") = true
  ∧ field t "resume_phase" ∈ TICKET_BEARING_PHASES ∧ in_section t BLOCKED = true.
Proof.
  unfold reservation_errors. intros H Hr. rewrite Hr in H.
  apply app_nil in H as [H1 H]. apply app_nil in H as [_ H]. apply app_nil in H as [_ H].
  assert (Hin : py "resume_phase" ∈ base.filter (λ n, nonempty (field t n) = true) RESERVATION_FIELDS).
  { apply list_elem_of_filter. split; [done|]. right. left. }
  destruct (base.filter _ _) as [|p ps]; [by apply elem_of_nil in Hin|]. clear Hin.
  apply when_nil in H1. simpl in H1. cbn [negb] in H.
  destruct (mem _ TICKET_BEARING_PHASES) eqn:E; [|done]. apply when_nil in H.
  split_and!; [by apply negb_false_iff|by apply mem_true|by apply negb_false_iff].
Qed.

Lemma status_clean t :
  option_list (ticket_status_error t) = [] →
  (in_section t BLOCKED = true ↔ has_field t "blocker" = true)
  ∧ (in_section t BLOCKED = true → nonempty (field t "blocker") = true).
Proof.
  unfold ticket_status_error, ticket_has_blocker. destruct (in_section t BLOCKED); simpl.
  - destruct (nonempty (field t "blocker")) eqn:E; [|done]. intros _. split; [|done]. split; [|done].
    intros _. unfold has_field, dmem. apply bool_decide_eq_true. unfold field, fval, fget in E.
    destruct (dget (py "blocker") (t_fields t)); [by eexists|done].
  - by destruct (has_field t "blocker").
Qed.

Lemma retry_clean t now :
  retry_errors t = [] → nonempty (field t "retry_not_before") = true →
  in_section t BLOCKED = true ∧ deferred_state t now ≠ None.
Proof.
  unfold retry_errors, deferred_state, retry_not_before. intros H Hr. rewrite Hr in *. cbn [negb] in *.
  destruct (in_section t BLOCKED); [|done]. cbn [negb] in *.
  destruct (iso_utc_sort_key (field t "retry_not_before")) as [st|] eqn:E; [|done].
  destruct (deferred_operator_class _); [|done].
  rewrite bool_decide_true by (by eexists). by rewrite E.
Qed.

(** ** Properties *)

(** What closure metadata without errors means. Metadata other than a blocked
    ticket's external declarations stands only under [DONE]; a ticket closed as
    superseded or by an external implementation carries every piece of evidence
    its mode needs, well formed, and no patch of its own, and a ticket in another
    mode carries none of them; inherited and cohort closures name their source
    and cohort; a publication state needs an own patch; and a resumption is a
    legal phase transition. *)
Theorem clean_closure_metadata t :
  closure_metadata_errors t = [] →
  let mode := lower (field t "closure_mode") in
  (∀ name, name ∈ CLOSURE_METADATA_FIELDS → nonempty (field t name) = true →
     in_section t DONE = true
     ∨ (in_section t BLOCKED = true ∧ name ∈ EXTERNAL_DECLARATION_FIELDS
        ∧ value_matches_field name (field t name) = true))
  ∧ (if mode =s "superseded_verified"
     then superseded_by t = Some (field t "superseded_by")
          ∧ field t "superseded_by" ≠ t_id t
          ∧ is_full event_id_re (field t "supersession_evidence") = true
          ∧ is_full (ident_re "SRC-") (field t "supersession_authority") = true
          ∧ lower (field t "implementation_delta") = py "none"
     else field t "superseded_by" = [] ∧ field t "supersession_evidence" = []
          ∧ field t "supersession_authority" = [])
  ∧ (if mode =s "external_implementation"
     then external_authority t = Some (field t "external_authority")
          ∧ external_implementation t = Some (field t "external_implementation")
          ∧ external_evidence t = Some (field t "external_evidence")
          ∧ field t "resolution_reason" ∈ RESOLUTION_REASONS
          ∧ lower (field t "implementation_delta") = py "none"
     else field t "external_evidence" = [] ∧ field t "resolution_reason" = [])
  ∧ (mode = py "inherited_verified" ↔ field t "implementation_source" ≠ [])
  ∧ (mode = py "cohort" ↔ field t "closure_cohort" ≠ [])
  ∧ (mode = py "finding_invalidated" ↔ field t "invalidation_evidence" ≠ [])
  ∧ (field t "publication_state" ≠ [] → mode = py "own_patch")
  ∧ (field t "resume_phase" ≠ [] →
     transition_legal (field t "resume_transition_from") (field t "resume_phase") = true
     ∧ field t "resume_phase" ∈ TICKET_BEARING_PHASES ∧ in_section t BLOCKED = true).
Proof.
  intros H mode. unfold closure_metadata_errors in H.
  apply app_nil in H as [_ H]. apply app_nil in H as [_ H]. apply app_nil in H as [Hdecl H].
  apply app_nil in H as [Hplace H]. apply app_nil in H as [Hmode%mode_clean H].
  apply app_nil in H as [_ H]. apply app_nil in H as [Hinv H]. apply app_nil in H as [Hsup%supersession_clean H].
  apply app_nil in H as [Hext%external_clean H]. apply app_nil in H as [_ Hres].
  destruct Hmode as (Hco & Hsrc & Hpub).
  split; [by apply placement_clean|]. unfold mode.
  split_and!; [| |done|done| |done|].
  - destruct (_ =s "superseded_verified"); [|done]. destruct Hsup as (? & ? & ? & ? & ?).
    split_and!; try done. by apply full_or_none_Some.
  - destruct (_ =s "external_implementation"); [|by destruct Hext as (? & ? & _)].
    destruct Hext as (? & ? & ? & ? & ?). split_and!; try done; by apply full_or_none_Some.
  - unfold invalidation_errors in Hinv. apply app_nil in Hinv as [_ Hinv].
    apply app_nil in Hinv as [Ha Hb]. apply when_nil in Ha, Hb. by eapply eqs_iff.
  - intros Hrp. apply reservation_clean in Hres; [done|by apply nonempty_true].
Qed.

Definition sample_closed : ticket :=
  Ticket "T-9" "## DONE" 7 "x" []
    [(py "verify", py "suite"); (py "closure_mode", py "superseded_verified");
     (py "implementation_delta", py "none"); (py "superseded_by", py "T-12");
     (py "supersession_evidence", py "E-3"); (py "supersession_authority", py "SRC-4")] [] [] [].

Lemma clean_closure_metadata_witness :
  superseded_by sample_closed = Some (py "T-12") ∧ field sample_closed "superseded_by" ≠ t_id sample_closed.
Proof.
  destruct (clean_closure_metadata sample_closed) as (_ & H & _); [vm_compute; reflexivity|].
  destruct H as (H1 & H2 & _). split; [exact H1|exact H2].
Defined.

(** A ticket without semantic errors is where its fields say it is: its checkbox
    agrees with its section, it is blocked exactly when it has a blocker, a done
    ticket records its verification, and a retry time makes a blocked ticket's
    gate decidable at any instant. *)
Theorem clean_lifecycle t now :
  board_semantic_errors t = [] →
  (t_checkbox t = py "x" → in_section t DONE = true)
  ∧ (t_checkbox t = py "/" → in_section t DOING = true)
  ∧ (open_checkbox t = true → in_section t DONE = false ∧ in_section t DOING = false)
  ∧ (in_section t DONE = true → field t "verify" ≠ [])
  ∧ (in_section t BLOCKED = true ↔ has_field t "blocker" = true)
  ∧ (in_section t BLOCKED = true → field t "blocker" ≠ [])
  ∧ (field t "retry_not_before" ≠ [] → in_section t BLOCKED = true ∧ deferred_state t now ≠ None)
  ∧ (∀ name value, dget name (t_fields t) = Some value → name ≠ py "description" →
       record_separator_in value = None).
Proof.
  intros H. unfold board_semantic_errors in H.
  apply app_nil in H as [H1 H]. apply app_nil in H as [H2 H]. apply app_nil in H as [H3 H].
  apply app_nil in H as [H4 H]. apply app_nil in H as [Hst H]. apply app_nil in H as [Hsc H].
  apply app_nil in H as [_ H]. unfold closure_metadata_errors in H. apply app_nil in H as [_ H].
  apply app_nil in H as [Hretry _].
  apply when_nil in H1, H2, H3, H4. apply status_clean in Hst as [Hb Hne].
  split_and!.
  - intros E. rewrite E in H1. by destruct (in_section t DONE).
  - intros E. rewrite E in H2. by destruct (in_section t DOING).
  - intros E. rewrite E in H3. by apply orb_false_iff.
  - intros E. rewrite E in H4. apply nonempty_true. by apply negb_false_iff.
  - done.
  - intros E. apply nonempty_true. by apply Hne.
  - intros E. apply nonempty_true in E. by apply retry_clean.
  - intros name value Hd Hn.
    assert (Hin : (name, value) ∈ dset (py "description") (t_description t) (t_fields t)).
    { apply dget_Some_elem. by rewrite dget_dset_ne. }
    unfold board_scalar_errors in Hsc. apply (bind_nil _ _ (name, value)) in Hsc; [|done].
    apply app_nil in Hsc as [Hsc _]. apply when_nil, bool_decide_eq_false in Hsc.
    by apply eq_None_not_Some.
Qed.

Lemma clean_lifecycle_witness :
  deferred_state (Ticket "T-2" "## BLOCKED" 1 " " []
    [(py "blocker", py "WAIT_USER_DECISION -- which licence");
     (py "retry_not_before", py "2024-05-01T10:00:00Z")] [] [] []) 0 ≠ None.
Proof.
  match goal with |- deferred_state ?t _ ≠ _ =>
    destruct (clean_lifecycle t 0) as (_ & _ & _ & _ & _ & _ & H & _);
      [vm_compute; reflexivity|] end.
  apply H. vm_compute. discriminate.
Defined.
