(* ===== verification/BoardGraph.v ===== *)
(** * The dependency graph of a board

    [board_graph_errors] of [tools/saipen_engine/board.py]: dangling and cyclic
    [needs:] references, supersession chains and continuation reservations. *)

From S2P Require Import Prelude PyStr PyDict BoardParse BoardClaims.

Inductive graph_error : Type :=
  | SuccessorMissing (tid successor : pystr)
  | SuccessorNotDone (tid successor : pystr)
  | CyclicSupersession (cycle : list pystr)
  | NeedMissing (tid need : pystr) (line_no : nat)
  | BlockedOnMissing (tid child : pystr)
  | BlockedOnNotNeeded (tid child : pystr)
  | MultipleParents (child prior tid : pystr)
  | CyclicNeeds (cycle : list pystr).

Global Instance graph_error_eq_dec : EqDecision graph_error.
Proof. solve_decision. Defined.

Section graph.
Variable ts : tickets.

(** ** Supersession chains *)

Definition superseded : dict pystr pystr :=
  omap (λ e : pystr * ticket,
          let successor := field e.2 "superseded_by" in
          if nonempty successor then Some (e.1, successor) else None) ts.

Definition successor_errors : list graph_error :=
  superseded ≫= λ e,
    match dget e.2 ts with
    | None => [SuccessorMissing e.1 e.2]
    | Some t => if in_section t DONE then [] else [SuccessorNotDone e.1 e.2]
    end.

(** The walk from [current]; [chain] is the visited ids, in order. *)
Fixpoint chase (fuel : nat) (chain : list pystr) (current : pystr) : list graph_error :=
  match fuel with
  | O => []
  | S fuel' =>
      match dget current superseded with
      | None => []
      | Some next =>
          match list_find (eq current) chain with
          | Some (i, _) => [CyclicSupersession (drop i chain ++ [current])]
          | None => chase fuel' (chain ++ [current]) next
          end
      end
  end.

Definition chain_errors : list graph_error :=
  dkeys superseded ≫= chase (S (length superseded)) [].

(** ** Dangling needs and reservations *)

Definition need_errors : list graph_error :=
  ts ≫= λ e, t_needs e.2 ≫= λ need,
    if dmem need ts then [] else [NeedMissing e.1 need (t_line_no e.2)].

Fixpoint reserve (children : dict pystr pystr) (es : list (pystr * ticket)) : list graph_error :=
  match es with
  | [] => []
  | (tid, t) :: es' =>
      let child := blocked_on t in
      if negb (nonempty child) then reserve children es'
      else if negb (dmem child ts) then BlockedOnMissing tid child :: reserve children es'
      else (if mem child (t_needs t) then [] else [BlockedOnNotNeeded tid child])
           ++ (match dget child children with
               | Some prior => if prior =s tid then [] else [MultipleParents child prior tid]
               | None => []
               end)
           ++ reserve (dset child tid children) es'
  end.

(** ** The three-color depth-first search *)

Inductive color : Type := WHITE | GRAY | BLACK.

(** A frame is a node with its needs from the frame's index on; the nodes of
    the frames, innermost first, are the source's [stack]. *)
Record dfs : Type := Dfs {
  d_color : gmap pystr color;
  d_frames : list (pystr * list pystr);
  d_cycles : list (list pystr) }.

Definition needs_of (tid : pystr) : list pystr :=
  match dget tid ts with Some t => t_needs t | None => [] end.
Definition color_of (s : dfs) (tid : pystr) : color := default WHITE (d_color s !! tid).
Definition dfs_stack (s : dfs) : list pystr := reverse (d_frames s).*1.

(** One turn of the inner loop, or the completion of the innermost frame. *)
Definition dfs_step (s : dfs) : dfs :=
  match d_frames s with
  | [] => s
  | (node, []) :: fs => Dfs (<[node := BLACK]> (d_color s)) fs (d_cycles s)
  | (node, need :: rest) :: fs =>
      let s' := Dfs (d_color s) ((node, rest) :: fs) (d_cycles s) in
      if negb (dmem need ts) then s'
      else match color_of s need with
           | GRAY =>
               match list_find (eq need) (dfs_stack s) with
               | Some (i, _) =>
                   let cycle := drop i (dfs_stack s) ++ [need] in
                   if bool_decide (cycle ∈ d_cycles s) then s'
                   else Dfs (d_color s) ((node, rest) :: fs) (d_cycles s ++ [cycle])
               | None => s'
               end
           | WHITE => Dfs (<[need := GRAY]> (d_color s))
                          ((need, needs_of need) :: (node, rest) :: fs) (d_cycles s)
           | BLACK => s'
           end
  end.

Fixpoint dfs_run (fuel : nat) (s : dfs) : dfs :=
  match fuel with
  | O => s
  | S fuel' => match d_frames s with [] => s | _ => dfs_run fuel' (dfs_step s) end
  end.

(** Enough steps to exhaust every need of every ticket. *)
Definition dfs_fuel : nat := sum_list ((λ e : pystr * ticket, S (length (t_needs e.2))) <$> ts).

Definition dfs_start (s : dfs) (start : pystr) : dfs :=
  match color_of s start with
  | WHITE => dfs_run dfs_fuel
               (Dfs (<[start := GRAY]> (d_color s)) [(start, needs_of start)] (d_cycles s))
  | _ => s
  end.

Definition dfs_all : dfs := foldl dfs_start (Dfs ∅ [] []) (dkeys ts).

Definition board_graph_errors : list graph_error :=
  successor_errors ++ chain_errors ++ need_errors ++ reserve [] ts
  ++ (CyclicNeeds <$> d_cycles dfs_all).

(** ** The edges the search follows *)

(** [u] needs [v], and [v] is a ticket of the board. *)
Definition edge (u v : pystr) : Prop := v ∈ needs_of u ∧ dmem v ts = true.

Fixpoint path (l : list pystr) : Prop :=
  match l with
  | u :: ((v :: _) as l') => edge u v ∧ path l'
  | _ => True
  end.

(** [u] is superseded by [v]. *)
Definition successor (u v : pystr) : Prop := dget u superseded = Some v.

(** A reported cycle: a path of needs that ends where it starts. *)
Definition closed_path (c : list pystr) : Prop :=
  ∃ x mid, c = x :: mid ++ [x] ∧ path c.

(** The frames of a running search: each node was reached from the one below
    it, and the needs it is past are finished, or the frame above it. *)
Fixpoint frames_ok (s : dfs) (above : option pystr) (fs : list (pystr * list pystr)) : Prop :=
  match fs with
  | [] => True
  | (u, rest) :: fs' =>
      from_option (edge u) True above
      ∧ (∃ past, needs_of u = past ++ rest
                 ∧ ∀ v, v ∈ past → dmem v ts = true → d_cycles s = [] →
                        color_of s v = BLACK ∨ above = Some v)
      ∧ frames_ok s (Some u) fs'
  end.

Record dfs_inv (s : dfs) : Prop := {
  inv_gray u : color_of s u = GRAY ↔ u ∈ (d_frames s).*1;
  inv_nodup : NoDup (d_frames s).*1;
  inv_known u : color_of s u ≠ WHITE → dmem u ts = true;
  inv_frames : frames_ok s None (d_frames s);
  inv_black u : d_cycles s = [] → color_of s u = BLACK → Acc (flip edge) u;
  inv_cycles c : c ∈ d_cycles s → closed_path c }.

(** What is left to do: the needs of the tickets not yet reached and of the
    frames, each ticket and each frame counting one more for its completion. *)
Definition white_cost (s : dfs) (e : pystr * ticket) : nat :=
  match color_of s e.1 with WHITE => S (length (t_needs e.2)) | _ => 0 end.
Definition cost (s : dfs) : nat :=
  sum_list (white_cost s <$> ts) + sum_list ((λ f, S (length f.2)) <$> d_frames s).

(** ** Paths *)

Lemma path_snoc l u v : path (l ++ [u]) → edge u v → path (l ++ [u; v]).
Proof.
  induction l as [|x l IH]; [by simpl|]. intros Hp He. destruct l as [|y l]; simpl in *; naive_solver.
Qed.

Lemma path_app_r l1 l2 : path (l1 ++ l2) → path l2.
Proof.
  induction l1 as [|x l1 IH]; [done|]. simpl. intros Hp. apply IH.
  destruct (l1 ++ l2); [done|]. naive_solver.
Qed.

Lemma path_frames s above fs :
  frames_ok s above fs → path (reverse fs.*1 ++ option_list above).
Proof.
  revert above. induction fs as [|[u rest] fs IH]; intros above; simpl.
  - intros _. by destruct above.
  - intros (Ha & _ & Hf%IH). simpl in Hf. rewrite reverse_cons, <-(assoc_L (++)).
    destruct above as [v|]; simpl in *; [by apply path_snoc|done].
Qed.

Lemma path_tc l u v : path (u :: l ++ [v]) → tc edge u v.
Proof.
  revert u. induction l as [|x l IH]; intros u; simpl.
  - intros [He _]. by apply tc_once.
  - intros [He Hp]. eapply tc_l; [done|]. by apply IH.
Qed.

Lemma Acc_no_cycle u : Acc (flip edge) u → ¬ tc edge u u.
Proof.
  induction 1 as [u _ IH]. intros Hc. inversion Hc as [? ? He|? v ? He Hv]; subst.
  - by apply (IH u).
  - apply (IH v He). by eapply tc_r.
Qed.

(** ** One step of the search *)

Lemma color_of_insert s c u fs cy v :
  color_of (Dfs (<[u := c]> (d_color s)) fs cy) v
  = if bool_decide (u = v) then c else color_of s v.
Proof.
  unfold color_of; simpl. case_bool_decide; subst; [by rewrite lookup_insert_eq|by rewrite lookup_insert_ne].
Qed.

(** Frames stay in order when finished nodes stay finished. *)
Lemma frames_ok_mono s s' above fs :
  (d_cycles s' = [] → d_cycles s = []) →
  (∀ v, color_of s v = BLACK → color_of s' v = BLACK) →
  frames_ok s above fs → frames_ok s' above fs.
Proof.
  intros Hcy Hb. revert above. induction fs as [|[u rest] fs IH]; intros above; [done|].
  intros (Ha & (past & Hn & Hpast) & Hf). split_and!; [done| |by apply IH].
  exists past. split; [done|]. intros v Hv Hk Hc. destruct (Hpast v Hv Hk (Hcy Hc)); auto.
Qed.

(** The frame on top moves past a need that is finished, or no ticket. *)
Lemma inv_skip s node need rest fs :
  dfs_inv s → d_frames s = (node, need :: rest) :: fs →
  (d_cycles s = [] → dmem need ts = true → color_of s need = BLACK) →
  dfs_inv (Dfs (d_color s) ((node, rest) :: fs) (d_cycles s)).
Proof.
  intros [Hg Hn Hk Hf Hb Hc] E Hneed. rewrite E in *. split; try done.
  destruct Hf as (_ & (past & Hp & Hpast) & Hf). split_and!; [done| |].
  - exists (past ++ [need]). rewrite Hp, <-(assoc_L (++)). split; [done|].
    intros v [Hv| ->%list_elem_of_singleton]%elem_of_app Hv' Hcy; [by apply Hpast|left; by apply Hneed].
  - by apply (frames_ok_mono s).
Qed.

(** A need on the current path closes a cycle. *)
Lemma inv_report s node need rest fs i cy :
  dfs_inv s → d_frames s = (node, need :: rest) :: fs →
  dmem need ts = true → list_find (eq need) (dfs_stack s) = Some (i, cy) →
  dfs_inv (Dfs (d_color s) ((node, rest) :: fs) (d_cycles s ++ [drop i (dfs_stack s) ++ [need]])).
Proof.
  intros [Hg Hn Hk Hf Hb Hc] E Hneed (Hi & <- & _)%list_find_Some.
  assert (Hne : d_cycles s ++ [drop i (dfs_stack s) ++ [need]] ≠ []) by (by destruct (d_cycles s)).
  unfold dfs_stack in *. rewrite E in *. split; try done.
  - destruct Hf as (_ & (past & Hp & Hpast) & Hf). split_and!; [done| |].
    + exists (past ++ [need]). rewrite Hp, <-(assoc_L (++)). by split.
    + by apply (frames_ok_mono s).
  - intros c [Hin| ->%list_elem_of_singleton]%elem_of_app; [by apply Hc|].
    pose proof (drop_S _ _ _ Hi) as Hd. exists need, (drop (S i) (reverse ((node, need :: rest) :: fs).*1)).
    split; [by rewrite Hd|]. apply (path_app_r (take i (reverse ((node, need :: rest) :: fs).*1))).
    rewrite (assoc_L (++)), take_drop. simpl. rewrite reverse_cons, <-(assoc_L (++)). apply path_snoc.
    + change [node] with (option_list (Some node)). apply (path_frames s). by destruct Hf as (_ & _ & Hf).
    + destruct Hf as (_ & (past & Hp & _) & _). split; [rewrite Hp; set_solver|done].
Qed.

(** The search enters a ticket it has not reached. *)
Lemma inv_push s need fs' :
  dfs_inv s → fs'.*1 = (d_frames s).*1 → color_of s need = WHITE → dmem need ts = true →
  frames_ok s (Some need) fs' →
  dfs_inv (Dfs (<[need := GRAY]> (d_color s)) ((need, needs_of need) :: fs') (d_cycles s)).
Proof.
  intros [Hg Hn Hk Hf Hb Hc] E Hw Hneed Hfs.
  assert (Hb' : ∀ v (fs : list (pystr * list pystr)), color_of s v = BLACK →
    color_of (Dfs (<[need := GRAY]> (d_color s)) fs (d_cycles s)) v = BLACK).
  { intros v ? Hv. rewrite color_of_insert, bool_decide_false; [done|congruence]. }
  split; cbn [d_color d_frames d_cycles frames_ok]; rewrite ?fmap_cons, ?E; cbn [fst].
  - intros u. rewrite color_of_insert, elem_of_cons. case_bool_decide as Hu.
    + subst. split; auto.
    + rewrite Hg. split; [by right|by intros [->|]].
  - constructor; [|done]. rewrite <-Hg. congruence.
  - intros u. rewrite color_of_insert. case_bool_decide; [by subst|]. apply Hk.
  - split_and!; [done| |by apply (frames_ok_mono s); auto].
    exists []. split; [done|]. by intros ? ?%elem_of_nil.
  - intros u Hcy. rewrite color_of_insert. case_bool_decide; [done|]. by apply Hb.
  - done.
Qed.

(** The frame on top is finished. *)
Lemma inv_pop s node fs :
  dfs_inv s → d_frames s = (node, []) :: fs →
  dfs_inv (Dfs (<[node := BLACK]> (d_color s)) fs (d_cycles s)).
Proof.
  intros [Hg Hn Hk Hf Hb Hc] E. rewrite E in *.
  apply NoDup_cons in Hn as [Hnode Hn]. destruct Hf as (_ & (past & Hp & Hpast) & Hf).
  split; cbn [d_color d_frames d_cycles].
  - intros u. rewrite color_of_insert. specialize (Hg u). rewrite fmap_cons, elem_of_cons in Hg.
    case_bool_decide as Hu.
    + subst. by split.
    + rewrite Hg. split; [by intros [->|]|by right].
  - done.
  - intros u. rewrite color_of_insert. case_bool_decide as Hu; [|apply Hk].
    intros _. subst. apply Hk. rewrite (proj2 (Hg u)); [done|by left].
  - destruct fs as [|[u rest] fs]; [done|]. destruct Hf as (Ha & (past' & Hp' & Hpast') & Hf).
    split_and!; [done| |].
    + exists past'. split; [done|]. intros v Hv Hv' Hcy. rewrite color_of_insert.
      case_bool_decide; [by left|]. destruct (Hpast' v Hv Hv' Hcy) as [|[= ->]]; [by left|done].
    + eapply frames_ok_mono; [| |exact Hf]; [done|].
      intros v Hv. rewrite color_of_insert. by case_bool_decide.
  - intros u Hcy. rewrite color_of_insert. case_bool_decide; [|by apply Hb]. intros _. subst.
    constructor. intros v [Hv Hv']. apply Hb; [done|].
    rewrite app_nil_r in Hp. rewrite Hp in Hv. by destruct (Hpast v Hv Hv' Hcy).
  - done.
Qed.

Lemma inv_step s : dfs_inv s → dfs_inv (dfs_step s).
Proof.
  intros H. unfold dfs_step. destruct (d_frames s) as [|[node [|need rest]] fs] eqn:E; [done|by apply inv_pop|].
  destruct (dmem need ts) eqn:Hk; simpl; [|by eapply inv_skip; [done|done|congruence]].
  destruct (color_of s need) eqn:Hcol.
  - pose proof (inv_frames s H) as Hf. rewrite E in Hf. destruct Hf as (_ & (past & Hp & Hpast) & Hf).
    eapply inv_push; [done|by rewrite E|done|done|]. split_and!; [|exists (past ++ [need])|done].
    + split; [rewrite Hp; set_solver|done].
    + rewrite Hp, <-(assoc_L (++)). split; [done|].
      intros v [Hv| ->%list_elem_of_singleton]%elem_of_app Hv' Hcy; [|by right].
      left. by destruct (Hpast v Hv Hv' Hcy).
  - destruct (list_find _ _) as [[i cy]|] eqn:Hi.
    + case_bool_decide as Hin; [|by eapply inv_report].
      eapply inv_skip; [done..|]. intros Hcy. rewrite Hcy in Hin. by apply elem_of_nil in Hin.
    + exfalso. apply list_find_None in Hi. rewrite Forall_forall in Hi. apply (Hi need); [|done].
      unfold dfs_stack. rewrite elem_of_reverse. by apply inv_gray.
  - by eapply inv_skip.
Qed.

Lemma step_not_white s v : color_of s v ≠ WHITE → color_of (dfs_step s) v ≠ WHITE.
Proof.
  intros Hv. unfold dfs_step. destruct (d_frames s) as [|[node [|need rest]] fs]; [done| |].
  - rewrite color_of_insert. by case_bool_decide.
  - destruct (negb _); [done|]. destruct (color_of s need).
    + rewrite color_of_insert. by case_bool_decide.
    + destruct (list_find _ _) as [[i cy]|]; [|done]. by case_bool_decide.
    + done.
Qed.

(** ** Termination of the search *)

Lemma white_same s s' (d : tickets) :
  (∀ v, color_of s' v = WHITE ↔ color_of s v = WHITE) →
  sum_list (white_cost s' <$> d) = sum_list (white_cost s <$> d).
Proof.
  intros H. f_equal. apply list_fmap_ext. intros i [k t] _. unfold white_cost; simpl.
  specialize (H k). destruct (color_of s k), (color_of s' k); naive_solver.
Qed.

Lemma white_gray s need fs cy (d : tickets) :
  NoDup (dkeys d) → color_of s need = WHITE →
  sum_list (white_cost s <$> d)
  = from_option (λ t, S (length (t_needs t))) 0 (dget need d)
    + sum_list (white_cost (Dfs (<[need := GRAY]> (d_color s)) fs cy) <$> d).
Proof.
  intros Hd Hw. induction d as [|[k t] d IH]; [done|].
  unfold dkeys in Hd. rewrite fmap_cons in Hd. apply NoDup_cons in Hd as [Hk Hd].
  rewrite !fmap_cons. simpl sum_list. rewrite (IH Hd). unfold white_cost at 1 3. cbn [fst snd dget].
  rewrite color_of_insert. case_bool_decide as E.
  - subst. rewrite Hw. rewrite (proj2 (dget_None k d)) by done. simpl. lia.
  - lia.
Qed.

Lemma needs_of_dget u : dmem u ts = true → from_option (λ t, S (length (t_needs t))) 0 (dget u ts) = S (length (needs_of u)).
Proof. unfold dmem, needs_of. intros H%bool_decide_eq_true. by destruct (dget u ts); [|destruct H]. Qed.

(** Every step uses up one unit of what is left to do. *)
Lemma cost_step s : wf_dict ts → dfs_inv s → d_frames s ≠ [] → cost s = S (cost (dfs_step s)).
Proof.
  intros Hts H Hf. unfold dfs_step, cost.
  destruct (d_frames s) as [|[node [|need rest]] fs] eqn:E; [done| |]; cbn [d_frames].
  - rewrite fmap_cons. simpl sum_list.
    rewrite (white_same s (Dfs (<[node:=BLACK]> (d_color s)) fs (d_cycles s))); [lia|].
    intros v. rewrite color_of_insert. case_bool_decide as Hv; [|done]. subst.
    split; [done|]. intros Hw. assert (color_of s v = GRAY); [|congruence].
    apply (inv_gray s H). rewrite E. by left.
  - set (fs' := (node, rest) :: fs).
    assert (Hc : sum_list ((λ f, S (length f.2)) <$> (node, need :: rest) :: fs)
                 = S (sum_list ((λ f, S (length f.2)) <$> fs'))) by done. rewrite Hc.
    assert (Hs : ∀ cy, sum_list (white_cost (Dfs (d_color s) fs' cy) <$> ts)
                       = sum_list (white_cost s <$> ts)) by (intros; by apply white_same).
    destruct (dmem need ts) eqn:Hk; cbn [negb]; [|cbn [d_frames]; rewrite Hs; lia].
    destruct (color_of s need) eqn:Hcol.
    + rewrite (white_gray s need ((need, needs_of need) :: fs') (d_cycles s) ts), needs_of_dget by done.
      cbn [d_frames]. rewrite (fmap_cons _ (need, _)). simpl sum_list. fold fs'. lia.
    + destruct (list_find _ _) as [[i cy]|]; [case_bool_decide|]; cbn [d_frames]; rewrite Hs; lia.
    + cbn [d_frames]. rewrite Hs. lia.
Qed.

Lemma run_finishes fuel s :
  wf_dict ts → dfs_inv s → (cost s ≤ fuel)%nat →
  dfs_inv (dfs_run fuel s) ∧ d_frames (dfs_run fuel s) = []
  ∧ ∀ v, color_of s v ≠ WHITE → color_of (dfs_run fuel s) v ≠ WHITE.
Proof.
  intros Hts. revert s. induction fuel as [|fuel IH]; intros s H Hc.
  - split_and!; [done| |done]. destruct (decide (d_frames s = [])) as [|Hf]; [done|].
    rewrite (cost_step s) in Hc by done. lia.
  - simpl. destruct (d_frames s) eqn:E; [done|].
    destruct (IH (dfs_step s)) as (? & ? & Hw); [by apply inv_step| |].
    + rewrite (cost_step s) in Hc by (done || by rewrite E). lia.
    + split_and!; [done..|]. intros v Hv. by apply Hw, step_not_white.
Qed.

Lemma start_finishes s start :
  wf_dict ts → dmem start ts = true → dfs_inv s → d_frames s = [] →
  dfs_inv (dfs_start s start) ∧ d_frames (dfs_start s start) = []
  ∧ color_of (dfs_start s start) start ≠ WHITE
  ∧ ∀ v, color_of s v ≠ WHITE → color_of (dfs_start s start) v ≠ WHITE.
Proof.
  intros Hts Hk H Hf. unfold dfs_start. destruct (color_of s start) eqn:E; [|split_and!; congruence..].
  set (s' := Dfs _ _ _). destruct (run_finishes dfs_fuel s') as (? & ? & Hw); [done| | |].
  - apply inv_push; [done|by rewrite Hf|done|done|done].
  - assert (cost s' = sum_list (white_cost s <$> ts)) as ->.
    { rewrite (white_gray s start [(start, needs_of start)] (d_cycles s) ts), needs_of_dget by done.
      unfold cost, s'. cbn [d_frames]. simpl. lia. }
    unfold dfs_fuel. clear. induction (ts : list _) as [|e d IH]; [done|].
    rewrite !fmap_cons. simpl sum_list. unfold white_cost at 1. destruct (color_of s e.1); lia.
  - split_and!; [done..| |].
    + apply Hw. unfold s'. rewrite color_of_insert, bool_decide_true; done.
    + intros v Hv. apply Hw. unfold s'. rewrite color_of_insert. by case_bool_decide.
Qed.

(** The search ends with no frame open and every ticket finished. *)
Lemma dfs_all_finishes :
  wf_dict ts →
  dfs_inv dfs_all ∧ d_frames dfs_all = [] ∧ ∀ u, dmem u ts = true → color_of dfs_all u = BLACK.
Proof.
  intros Hts. assert (Hgo : ∀ keys s, (∀ u, u ∈ keys → dmem u ts = true) → dfs_inv s → d_frames s = [] →
    let s' := foldl dfs_start s keys in
    dfs_inv s' ∧ d_frames s' = [] ∧ (∀ u, u ∈ keys → color_of s' u ≠ WHITE)
    ∧ ∀ v, color_of s v ≠ WHITE → color_of s' v ≠ WHITE).
  { induction keys as [|k keys IH]; intros s Hk H Hf; simpl.
    - split_and!; [done..| |done]. by intros ? ?%elem_of_nil.
    - destruct (start_finishes s k) as (H1 & H2 & H3 & H4); [done|by apply Hk; left|done..|].
      destruct (IH (dfs_start s k)) as (? & ? & ? & Hm); [intros; apply Hk; by right|done..|].
      split_and!; [done..| |auto]. intros u [->|]%elem_of_cons; auto. }
  destruct (Hgo (dkeys ts) (Dfs ∅ [] [])) as (H & Hf & Hw & _).
  - intros u. by rewrite dmem_spec.
  - split; simpl; try done; try (by constructor).
    + intros u. split; [done|by intros ?%elem_of_nil].
    + by intros c ?%elem_of_nil.
  - done.
  - split_and!; [done..|]. intros u Hu. apply dmem_spec, Hw in Hu. fold dfs_all in Hu.
    destruct (color_of dfs_all u) eqn:E; [done| |done].
    apply (inv_gray _ H) in E. unfold dfs_all in E. rewrite Hf in E. by apply elem_of_nil in E.
Qed.

Lemma CyclicNeeds_reported c : CyclicNeeds c ∈ board_graph_errors ↔ c ∈ d_cycles dfs_all.
Proof.
  unfold board_graph_errors. rewrite !elem_of_app, list_elem_of_fmap. split.
  - intros [H|[H|[H|[H|(c' & [= ->] & ?)]]]]; [..|done]; exfalso.
    + apply list_elem_of_bind in H as ([k v] & H & _). simpl in H.
      destruct (dget v ts) as [t|]; [destruct (in_section t DONE)|]; set_solver.
    + apply list_elem_of_bind in H as (k & H & _). revert H. generalize (@nil pystr), k.
      induction (S (length superseded)) as [|n IH]; intros chain cur; simpl; [by intros ?%elem_of_nil|].
      destruct (dget cur superseded); [|by intros ?%elem_of_nil].
      destruct (list_find _ _) as [[i ?]|]; [set_solver|apply IH].
    + apply list_elem_of_bind in H as (e & H & _). apply list_elem_of_bind in H as (n & H & _).
      destruct (dmem n ts); set_solver.
    + revert H. generalize (@nil (pystr * pystr)). induction (ts : list _) as [|[tid t] es IH]; intros ch; simpl.
      * by intros ?%elem_of_nil.
      * repeat case_match; rewrite ?elem_of_app, ?elem_of_cons, ?elem_of_nil; naive_solver.
  - intros Hc. do 4 right. by exists c.
Qed.

(** ** Supersession chains *)

Lemma successor_cycle_step u v : successor u v → tc successor u u → tc successor v v.
Proof.
  intros Huv Hc. inversion Hc as [? ? He|? w ? He Hw]; subst; unfold successor in *; simplify_eq.
  - done.
  - by eapply tc_r.
Qed.

Lemma successor_cycle_rtc u v : rtc successor u v → tc successor u u → tc successor v v.
Proof. induction 1; [done|]. eauto using successor_cycle_step. Qed.

Lemma chase_error_cycle fuel chain cur :
  (∀ x, x ∈ chain → tc successor x cur) → chase fuel chain cur ≠ [] → ∃ x, tc successor x x.
Proof.
  revert chain cur. induction fuel as [|fuel IH]; intros chain cur Hc; simpl; [done|].
  destruct (dget cur superseded) as [next|] eqn:E; [|done].
  destruct (list_find _ _) as [[i x]|] eqn:Hi.
  - intros _. apply list_find_Some in Hi as (Hi & <- & _).
    exists cur. apply Hc. by eapply list_elem_of_lookup_2.
  - apply IH. intros x [Hx| ->%list_elem_of_singleton]%elem_of_app; [|by apply tc_once].
    eapply tc_r; [by apply Hc|done].
Qed.

(** The bound on the walk is never what ends it. *)
Lemma chase_clean_ends fuel chain cur :
  NoDup chain → chain ⊆ dkeys superseded → length superseded < fuel + length chain →
  chase fuel chain cur = [] → ∃ v, rtc successor cur v ∧ dget v superseded = None.
Proof.
  revert chain cur. induction fuel as [|fuel IH]; intros chain cur Hn Hk Hf; simpl.
  - exfalso. pose proof (submseteq_length _ _ (NoDup_submseteq _ _ Hn Hk)) as Hl.
    unfold dkeys in Hl. rewrite length_fmap in Hl. lia.
  - destruct (dget cur superseded) as [next|] eqn:E; [|by exists cur].
    destruct (list_find _ _) as [[i x]|] eqn:Hi; [done|]. intros H.
    assert (Hcur : cur ∉ chain).
    { intros Hin. apply list_find_None in Hi. rewrite Forall_forall in Hi. by apply (Hi cur). }
    destruct (IH (chain ++ [cur]) next) as (v & Hv & Hv'); [..|done|].
    + apply NoDup_app. split_and!; [done| |apply NoDup_singleton].
      by intros x Hx ->%list_elem_of_singleton.
    + intros x [Hx| ->%list_elem_of_singleton]%elem_of_app; [by apply Hk|].
      apply dmem_spec. unfold dmem. rewrite E. by apply bool_decide_eq_true.
    + rewrite length_app. simpl. lia.
    + exists v. split; [by eapply rtc_l|done].
Qed.

Lemma chain_errors_acyclic : chain_errors = [] ↔ ∀ u, ¬ tc successor u u.
Proof.
  unfold chain_errors. split.
  - intros H u Hu. assert (Hk : u ∈ dkeys superseded).
    { apply dmem_spec. unfold dmem. apply bool_decide_eq_true.
      inversion Hu as [? ? He|? ? ? He]; subst; unfold successor in He; by rewrite He. }
    assert (Hc : chase (S (length superseded)) [] u = []).
    { apply list_elem_of_split in Hk as (k1 & k2 & Hk). rewrite Hk, bind_app, bind_cons in H.
      apply app_eq_nil in H as [_ H]. by apply app_eq_nil in H as [H _]. }
    apply chase_clean_ends in Hc as (v & Hv & Hv'); [|constructor|by intros ? ?%elem_of_nil|simpl; lia].
    apply (successor_cycle_rtc u v) in Hv; [|done].
    inversion Hv as [? ? He|? ? ? He]; subst; unfold successor in He; congruence.
  - intros H. induction (dkeys superseded) as [|k ks IH]; [done|].
    rewrite bind_cons, IH, app_nil_r. destruct (decide (chase (S (length superseded)) [] k = [])) as [|Hk]; [done|].
    apply chase_error_cycle in Hk as [x Hx]; [by apply H in Hx|by intros ? ?%elem_of_nil].
Qed.

(** ** Reservations *)

Lemma reserve_clean children es :
  reserve children es = [] →
  ∀ e, e ∈ es → nonempty (blocked_on e.2) = true →
  dmem (blocked_on e.2) ts = true ∧ blocked_on e.2 ∈ t_needs e.2
  ∧ (∀ prior, dget (blocked_on e.2) children = Some prior → prior = e.1)
  ∧ ∀ e', e' ∈ es → blocked_on e'.2 = blocked_on e.2 → e'.1 = e.1.
Proof.
  revert children. induction es as [|[tid t] es IH]; intros children H e He Hne; [by apply elem_of_nil in He|].
  simpl in H. destruct (nonempty (blocked_on t)) eqn:Hb; simpl in H.
  - destruct (dmem (blocked_on t) ts) eqn:Hk; [|done]. simpl in H.
    apply app_eq_nil in H as [Hm H]. apply app_eq_nil in H as [Hp H].
    destruct (mem (blocked_on t) (t_needs t)) eqn:Hin; [|done]. apply mem_true in Hin.
    pose proof (IH _ H) as IH'.
    assert (Hsame : ∀ e', e' ∈ es → blocked_on e'.2 = blocked_on t → e'.1 = tid).
    { intros e' He' Heq. destruct (IH' e' He') as (_ & _ & Hpr & _); [by rewrite Heq|].
      symmetry. apply Hpr. rewrite Heq. apply dget_dset_eq. }
    apply elem_of_cons in He as [->|He]; simpl in *.
    + split_and!; [done..| |].
      * intros prior Hpr. rewrite Hpr in Hp. destruct (prior =s tid) eqn:E; [by apply eqs_true|done].
      * intros e' [->|He']%elem_of_cons Heq; [done|by apply Hsame].
    + destruct (IH' e He Hne) as (H1 & H2 & H3 & H4). split_and!; [done..| |].
      * intros prior Hpr. destruct (decide (blocked_on t = blocked_on e.2)) as [E|E].
        { rewrite E in Hp. rewrite Hpr in Hp. rewrite (Hsame e He) by done.
          destruct (prior =s tid) eqn:E'; [by apply eqs_true|done]. }
        { apply H3. by rewrite dget_dset_ne. }
      * intros e' [->|He']%elem_of_cons Heq; [|by apply H4]. simpl in *. symmetry. by apply Hsame.
  - apply elem_of_cons in He as [->|He]; [simpl in *; congruence|].
    destruct (IH _ H e He Hne) as (H1 & H2 & H3 & H4). split_and!; [done..|].
    intros e' [->|He']%elem_of_cons Heq; [|by apply H4]. simpl in *. rewrite Heq in Hb. congruence.
Qed.

Lemma needs_wf_iff : wf_dict ts → d_cycles dfs_all = [] ↔ ∀ u, Acc (flip edge) u.
Proof.
  intros Hts. destruct (dfs_all_finishes Hts) as (H & _ & Hb). split.
  - intros Hc u. destruct (dmem u ts) eqn:Hk; [by apply (inv_black _ H); auto|].
    constructor. intros v [Hv _]. unfold needs_of in Hv. unfold dmem in Hk. bool_tac.
    destruct (dget u ts); [destruct Hk; eauto|]. by apply elem_of_nil in Hv.
  - intros Ha. destruct (d_cycles dfs_all) as [|c cs] eqn:E; [done|].
    destruct (inv_cycles _ H c) as (x & mid & -> & Hp); [rewrite E; by left|].
    apply path_tc in Hp. by apply Acc_no_cycle in Hp.
Qed.
End graph.

(** ** Properties *)

(** A board for the witnesses: [T-1] needs [T-2], and when [back] is set [T-2]
    needs [T-1]; [T-3] is reserved for [T-1]. *)
Definition sample_ticket (tid section : string) (needs : list string) (fields : dict pystr pystr)
    : pystr * ticket :=
  (py tid, Ticket tid section 1 " " (strs needs) fields [] [] []).
Definition sample_board (back : bool) : tickets :=
  [sample_ticket "T-1" "## TODO" ["T-2"] [];
   sample_ticket "T-2" "## TODO" (if back then ["T-1"] else []) [];
   sample_ticket "T-3" "## BLOCKED" ["T-1"] [(py "blocked_on", py "T-1")];
   sample_ticket "T-4" "## DONE" [] [];
   sample_ticket "T-5" "## DONE" [] [(py "superseded_by", py "T-4")]].

Lemma sample_board_wf back : wf_dict (sample_board back).
Proof. unfold wf_dict. destruct back; apply (bool_decide_unpack _); by vm_compute. Qed.

(** C40: The depth-first search of [board_graph_errors] terminates: within the
    fuel of one step per need and one per ticket it closes every frame and
    finishes every ticket of the board. *)
Theorem needs_search_terminates ts :
  wf_dict ts →
  d_frames (dfs_all ts) = [] ∧ ∀ u, dmem u ts = true → color_of (dfs_all ts) u = BLACK.
Proof. intros Hts. by destruct (dfs_all_finishes ts Hts) as (_ & ? & ?). Qed.

Lemma needs_search_terminates_witness :
  d_frames (dfs_all (sample_board true)) = [] ∧ color_of (dfs_all (sample_board true)) "T-2" = BLACK.
Proof.
  destruct (needs_search_terminates (sample_board true)) as [Hf Hb]; [apply sample_board_wf|].
  split; [exact Hf|]. apply Hb. vm_compute. reflexivity.
Defined.

(** Every cycle [board_graph_errors] reports is a real one: a path of needs
    between tickets of the board that ends where it starts. *)
Theorem needs_cycles_sound ts c :
  wf_dict ts → CyclicNeeds c ∈ board_graph_errors ts → closed_path ts c.
Proof.
  intros Hts Hc%CyclicNeeds_reported. destruct (dfs_all_finishes ts Hts) as (H & _).
  by apply (inv_cycles _ _ H).
Qed.

Lemma needs_cycles_sound_witness : closed_path (sample_board true) (strs ["T-1"; "T-2"; "T-1"]).
Proof.
  apply needs_cycles_sound; [apply sample_board_wf|].
  apply (bool_decide_unpack _). vm_compute. reflexivity.
Defined.

Lemma no_cycle_exact ts :
  wf_dict ts →
  (∀ c, CyclicNeeds c ∉ board_graph_errors ts) ↔ ∀ u, Acc (flip (edge ts)) u.
Proof.
  intros Hts. rewrite <-needs_wf_iff by done. setoid_rewrite CyclicNeeds_reported.
  destruct (d_cycles (dfs_all ts)) as [|c cs]; [set_solver|].
  split; [|done]. intros H. destruct (H c). by left.
Qed.

(** C12: No cycle is missed: the board is free of cyclic-needs errors exactly when
    every chain of needs is finite. *)
Theorem needs_cycles_complete ts :
  wf_dict ts →
  (∀ c, CyclicNeeds c ∉ board_graph_errors ts) ↔ ∀ u, Acc (flip (edge ts)) u.
Proof. apply no_cycle_exact. Qed.

Lemma needs_cycles_complete_witness : Acc (flip (edge (sample_board false))) "T-1".
Proof.
  apply needs_cycles_complete; [apply sample_board_wf|]. intros c.
  assert (board_graph_errors (sample_board false) = []) as -> by (vm_compute; reflexivity).
  apply not_elem_of_nil.
Defined.

(** The supersession walk is exact too: its bound never cuts it short, and it
    reports an error exactly when some ticket is superseded by itself through a
    chain of successors. *)
Theorem supersession_chains_exact ts :
  chain_errors ts = [] ↔ ∀ u, ¬ tc (successor ts) u u.
Proof. apply chain_errors_acyclic. Qed.

(** C13: A board without graph errors is sound: its needs are well founded and name
    tickets of the board, a superseding ticket is [DONE] and no ticket
    supersedes itself, and a reservation names a needed ticket that no other
    ticket reserves. *)
Theorem clean_graph ts :
  wf_dict ts → board_graph_errors ts = [] →
  (∀ u, Acc (flip (edge ts)) u)
  ∧ (∀ tid t need, dget tid ts = Some t → need ∈ t_needs t → dmem need ts = true)
  ∧ (∀ tid s, successor ts tid s → is_done ts s = true ∧ ¬ tc (successor ts) tid tid)
  ∧ (∀ tid t, dget tid ts = Some t → nonempty (blocked_on t) = true →
       dmem (blocked_on t) ts = true ∧ blocked_on t ∈ t_needs t
       ∧ ∀ tid' t', dget tid' ts = Some t' → blocked_on t' = blocked_on t → tid' = tid).
Proof.
  intros Hts H. split.
  { apply no_cycle_exact; [done|]. intros c. rewrite H. apply not_elem_of_nil. }
  unfold board_graph_errors in H.
  apply app_eq_nil in H as [Hs H]. apply app_eq_nil in H as [Hch H].
  apply app_eq_nil in H as [Hn H]. apply app_eq_nil in H as [Hr _].
  split_and!.
  - intros tid t need Ht Hneed. pose proof (bind_nil _ _ (tid, t) Hn (dget_Some_elem _ _ _ Ht)) as E.
    pose proof (bind_nil _ _ need E Hneed) as E'. simpl in E'. by destruct (dmem need ts).
  - intros tid s Hsucc. split; [|by apply chain_errors_acyclic].
    pose proof (bind_nil _ _ (tid, s) Hs (dget_Some_elem _ _ _ Hsucc)) as E. simpl in E.
    unfold is_done. destruct (dget s ts) as [t|]; [|done]. by destruct (in_section t DONE).
  - intros tid t Ht Hne.
    destruct (reserve_clean ts [] ts Hr (tid, t) (dget_Some_elem _ _ _ Ht) Hne) as (H1 & H2 & _ & H4).
    split_and!; [done..|]. intros tid' t' Ht' E. apply (H4 (tid', t')); [by apply dget_Some_elem|done].
Qed.

Lemma clean_graph_witness :
  dmem (py "T-2") (sample_board false) = true ∧ is_done (sample_board false) "T-4" = true.
Proof.
  destruct (clean_graph (sample_board false)) as (_ & Hn & Hs & _);
    [apply sample_board_wf|vm_compute; reflexivity|]. split.
  - apply (Hn (py "T-1") (sample_ticket "T-1" "## TODO" ["T-2"] []).2);
      [vm_compute; reflexivity|left].
  - apply (Hs (py "T-5")). vm_compute. reflexivity.
Defined.
