(* ===== verification/BoardBlockers.v ===== *)
(** * Root blockers and the classification of an idle board

    [_root_blockers], [project_blockers] and [classify_idle_work] of
    [tools/saipen_engine/board.py]. *)

From S2P Require Import Prelude PyStr PyRegex PyDict BoardClock BoardParse BoardClaims.

(** ** Roots *)

(** [^PUBLICATION_STAGING_BLOCKED(?:\s|:|$)], or a recorded refusal about
    foreign staging. *)
Definition publication_staging_blocker (raw : pystr) : bool :=
  is_match (Seq (lit "PUBLICATION_STAGING_BLOCKED")
                (Alt (Alt (Chr is_space) (lit ":")) Eol)) raw
  || (startswith "publication blocked:" raw
      && is_found (seqs [Wordb; lit_ci "foreign"; Wordb; Star not_nl; Wordb; lit_ci "stag"]) raw).

(** A ticket id, its blocker class and the recorded blocker text. *)
Definition root : Type := pystr * pystr * pystr.

Definition ACTIVE_DEPENDENCY_RE : re :=
  seqs [lit "ACTIVE_DEPENDENCY"; Star is_space; lit ":"; Star is_space; Grp 1 ticket_id_re].

(** The first piece of [re.split(r"[\s:\-]+", raw)]. *)
Definition class_head (raw : pystr) : pystr :=
  take_while (λ c, negb (is_space c || (c =? 58)%N || (c =? 45)%N)) raw.

Definition root_class (raw : pystr) : pystr :=
  if publication_staging_blocker raw then "WAIT_USER_DECISION"
  else if nonempty raw then class_head raw else "UNKNOWN".

Definition blocker_dependencies (t : ticket) : list pystr :=
  let explicit := match re_match ACTIVE_DEPENDENCY_RE (field t "blocker") ≫= group 1 with
                  | Some tid => tid
                  | None => field t "blocked_on"
                  end in
  if nonempty explicit then [explicit]
  else if in_section t TODO then t_needs t else [].

Definition follows (ts : tickets) (dependency : pystr) : bool :=
  match dget dependency ts with
  | None => true
  | Some target => in_section target BLOCKED || in_section target TODO
  end.

(** [seen] is the path of tickets that led here. *)
Fixpoint root_blockers_go (fuel : nat) (ts : tickets) (seen : list pystr) (ticket_id : pystr)
    : list root :=
  let unresolved := [(ticket_id, py "UNKNOWN", py "unresolved or cyclic dependency")] in
  match fuel with
  | O => unresolved
  | S fuel' =>
      if mem ticket_id seen then unresolved
      else match dget ticket_id ts with
           | None => unresolved
           | Some t =>
               let roots := base.filter (λ d, follows ts d = true) (blocker_dependencies t)
                            ≫= root_blockers_go fuel' ts (ticket_id :: seen) in
               match roots with
               | [] => [(ticket_id, root_class (field t "blocker"), field t "blocker")]
               | _ => fromkeys roots
               end
           end
  end.

Definition root_blockers (ts : tickets) (ticket_id : pystr) : list root :=
  root_blockers_go (S (length ts)) ts [] ticket_id.

Definition resolve_root_blocker (ts : tickets) (ticket_id : pystr) : option root :=
  head (root_blockers ts ticket_id).

(** ** The projection *)

Record group_of_roots : Type := Group {
  gr_identity : pystr;
  gr_owner : pystr;
  gr_class : pystr;
  gr_staging : bool;
  gr_cause : pystr;
  gr_root_cause : pystr;
  gr_command : option pystr;
  gr_roots : list pystr;
  gr_dependents : list pystr }.

Definition identity_owner (r : root) : pystr * pystr :=
  let '(root, klass, raw) := r in
  let raw_upper := upper raw in
  if publication_staging_blocker raw
  then (py "release:shared-index", py "tools/saipen_engine/release.py")
  else if contains "PUBLICATION_BLOCKED_EXTERNAL" raw_upper
  then (py "release:external-publication", py "operator:external-publication")
  else if contains "MARKHUNT_TRIAGE_REQUIRED" raw_upper
  then (py "triage:markhunt", py "human:triage")
  else if contains "PERMANENT_WARNING_OWNER" raw_upper
  then (py "observability:warning-owner", py "observability:warning")
  else if (klass =s "HELD") || contains "HELD" raw_upper
  then (py "architecture:held-chain", py "architecture:gate")
  else if contains "[LIVE]" raw_upper || contains "ACCEPTANCE_WITNESS" raw_upper
  then (py "acceptance:operator-witness", py "operator:acceptance")
  else ("work:" +s root,
        if klass =s "BLOCKED_EXTERNAL" then py "tools/saipen_engine/external.py"
        else py "tools/saipen_engine/board.py").

Definition new_group (r : root) : group_of_roots :=
  let '(root, klass, raw) := r in
  let '(ident, owner) := identity_owner r in
  let staging := publication_staging_blocker raw in
  Group ident owner klass staging
        (if staging then "publication-staging" else lower klass)
        (if nonempty raw then raw else "No verified root-cause evidence is recorded")
        (if klass =s "BLOCKED_EXTERNAL"
         then Some ("saipen ticket resolve-external " +s root) else None)
        [] [].

Definition add_once (x : pystr) (l : list pystr) : list pystr := if mem x l then l else l ++ [x].

Definition note_root (tid : pystr) (groups : dict pystr group_of_roots) (r : root)
    : dict pystr group_of_roots :=
  let ident := (identity_owner r).1 in
  let g := match dget ident groups with Some g => g | None => new_group r end in
  dset ident
    (Group (gr_identity g) (gr_owner g) (gr_class g) (gr_staging g) (gr_cause g)
           (gr_root_cause g) (gr_command g)
           (add_once r.1.1 (gr_roots g)) (add_once tid (gr_dependents g))) groups.

Record blocked_item : Type := BlockedItem {
  bi_ticket : pystr;
  bi_primary : pystr;
  bi_roots : list pystr;
  bi_identities : list pystr;
  bi_needs : list pystr }.

Record projection : Type := Projection {
  pr_groups : dict pystr group_of_roots;
  pr_items : dict pystr blocked_item }.

Definition project_ticket (ts : tickets) (p : projection) (e : pystr * ticket) : projection :=
  let '(tid, t) := e in
  if negb (in_section t BLOCKED || in_section t TODO) then p
  else
    let roots := root_blockers ts tid in
    if in_section t TODO && forallb (λ r : root, r.1.1 =s tid) roots then p
    else
      let identities := (λ r, (identity_owner r).1) <$> roots in
      Projection (foldl (note_root tid) (pr_groups p) roots)
        (dset tid (BlockedItem tid (default [] (head identities))
                     (fromkeys ((λ r : root, r.1.1) <$> roots)) (fromkeys identities)
                     (t_needs t)) (pr_items p)).

(** A dependent ticket that is itself a root of the group is not a dependent. *)
Definition settle_group (g : group_of_roots) : group_of_roots :=
  Group (gr_identity g) (gr_owner g) (gr_class g) (gr_staging g) (gr_cause g)
        (gr_root_cause g) (gr_command g) (gr_roots g)
        (base.filter (λ tid, mem tid (gr_roots g) = false) (gr_dependents g)).

Definition project_blockers (ts : tickets) : projection :=
  let p := foldl (project_ticket ts) (Projection [] []) ts in
  Projection ((λ e : pystr * group_of_roots, (e.1, settle_group e.2)) <$> pr_groups p)
             (pr_items p).

(** ** Idle classification *)

Inductive disposition : Type :=
  | ALL_WORK_COMPLETE
  | IDLE_BLOCKED_EXTERNAL
  | IDLE_OPERATOR_REQUIRED
  | IDLE_FUTURE_GATED
  | NO_ADMISSIBLE_WORK.

Global Instance disposition_eq_dec : EqDecision disposition.
Proof. solve_decision. Defined.

(** What the audit inbox and the future gate report to the classifier. *)
Record audit_inbox : Type := AuditInbox {
  unresolved_audit_count : nat; has_residue : bool; has_invalid_audit : bool }.
Record future_gate : Type := FutureGate {
  fg_eligible : list pystr; fg_refinable : list pystr; fg_refresh_required : bool }.

Record idle : Type := Idle {
  i_disposition : disposition;
  i_no_admissible_work : bool;
  i_next_exact_action : pystr;
  i_externally_blocked : list pystr;
  i_operator_required : list pystr;
  i_future_gated : list pystr;
  i_primary_blocker : option group_of_roots }.

Fixpoint pystr_leb (a b : pystr) : bool :=
  match a, b with
  | [], _ => true
  | _ :: _, [] => false
  | x :: a', y :: b' => if (x =? y)%N then pystr_leb a' b' else (x <? y)%N
  end.

Fixpoint insert_sorted (x : pystr) (l : list pystr) : list pystr :=
  match l with
  | [] => [x]
  | y :: l' => if pystr_leb x y then x :: l else y :: insert_sorted x l'
  end.
Definition sorted (l : list pystr) : list pystr := foldr insert_sorted [] l.

(** [sorted(set(filter(None, l)))] *)
Definition sorted_set (l : list pystr) : list pystr :=
  sorted (fromkeys (base.filter (λ s, nonempty s = true) l)).

Definition OPERATOR_ROOT_CLASSES : list pystr :=
  strs ["WAIT_USER_DECISION"; "WAIT_USER_CONFIRMATION"; "DEFERRED_BY_OPERATOR"; "WAIT_ROLE"].
Definition FUTURE_ROOT_CLASSES : list pystr := strs ["FUTURE_GATE"; "HELD"; "FUTURE/STRATEGIC"].

Definition roots_of_class (classes : list pystr) (groups : list group_of_roots) : list pystr :=
  groups ≫= λ g, if mem (gr_class g) classes then gr_roots g else [].

Definition gate_tickets (gates : list operator_gate) : list pystr :=
  let due := base.filter (λ g, match g_state g with
                               | DUE_OPERATOR_ACTION => true
                               | DEFERRED_OPERATOR => false
                               end = true) gates in
  base.filter (λ s, nonempty s = true)
    (g_ticket <$> match due with [] => gates | _ => due end).

Definition operator_action (ts : tickets) (staging : option group_of_roots)
    (operator_required : list pystr) : pystr :=
  let target := match staging with
                | Some g => default [] (head (gr_roots g))
                | None => default [] (head operator_required)
                end in
  match dget target ts with
  | None => py "saipen status"
  | Some t =>
      let holder := blocked_on t in
      if nonempty holder
         && startswith ("ACTIVE_DEPENDENCY:" +s holder) (field t "blocker")
         && mem holder (t_needs t)
      then "saipen ticket unblock " +s target else "saipen status"
  end.

Definition future_action (fg : option future_gate) : pystr :=
  match fg with
  | Some g => match fg_eligible g with
              | e :: _ => "saipen future promote " +s e
              | [] => if fg_refresh_required g then "saipen future refresh"
                      else "saipen future status"
              end
  | None => "saipen future status"
  end.

Definition classify_idle_work (ts : tickets) (inbox : option audit_inbox)
    (fg : option future_gate) (now : Z) : idle :=
  let active := base.filter (λ t, in_section t DOING || in_section t TODO
                                  || in_section t BLOCKED = true) (dvalues ts) in
  let inbox := default (AuditInbox 0 false false) inbox in
  if Nat.eqb (length active) 0 && Nat.eqb (unresolved_audit_count inbox) 0
     && negb (has_residue inbox) && negb (has_invalid_audit inbox)
  then Idle ALL_WORK_COMPLETE false "saipen status" [] [] [] None
  else
    let groups := dvalues (pr_groups (project_blockers ts)) in
    let staging := find_first (λ g, gr_cause g =s "publication-staging") groups in
    let operator_required :=
      sorted_set (gate_tickets (operator_gates ts now)
                  ++ roots_of_class OPERATOR_ROOT_CLASSES groups) in
    let externally_blocked := sorted_set (roots_of_class (strs ["BLOCKED_EXTERNAL"]) groups) in
    let future_gated :=
      sorted_set (roots_of_class FUTURE_ROOT_CLASSES groups
                  ++ match fg with
                     | Some g => match fg_eligible g with [] => fg_refinable g | es => es end
                     | None => []
                     end) in
    let '(disposition, action) :=
      match externally_blocked, staging, operator_required, future_gated with
      | x :: _, None, _, _ => (IDLE_BLOCKED_EXTERNAL, "saipen ticket resolve-external " +s x)
      | _, _, _ :: _, _ =>
          (IDLE_OPERATOR_REQUIRED, operator_action ts staging operator_required)
      | _, _, [], _ :: _ => (IDLE_FUTURE_GATED, future_action fg)
      | _, _, [], [] => (NO_ADMISSIBLE_WORK, py "saipen status")
      end in
    Idle disposition true action externally_blocked operator_required future_gated staging.

(** ** Notions of the properties *)

(** [u] is held up by [v]. *)
Definition held_by (ts : tickets) (u v : pystr) : Prop :=
  ∃ t, dget u ts = Some t ∧ v ∈ blocker_dependencies t ∧ follows ts v = true.

(** The group of a root knows the root and the ticket it holds up. *)
Definition covered (tid : pystr) (groups : dict pystr group_of_roots) (r : root) : Prop :=
  ∃ g, dget (identity_owner r).1 groups = Some g
       ∧ r.1.1 ∈ gr_roots g ∧ tid ∈ gr_dependents g.

(** What the projection has for the tickets it has visited. *)
Definition item_ok (ts : tickets) (p : projection) (tid : pystr) : Prop :=
  ∃ item, dget tid (pr_items p) = Some item
    ∧ bi_roots item = fromkeys ((λ r : root, r.1.1) <$> root_blockers ts tid)
    ∧ bi_identities item = fromkeys ((λ r, (identity_owner r).1) <$> root_blockers ts tid)
    ∧ ∀ r, r ∈ root_blockers ts tid → covered tid (pr_groups p) r.

(** ** The roots of a blocker *)

Lemma fromkeys_nonempty (l : list root) : l ≠ [] → fromkeys l ≠ [].
Proof.
  destruct l as [|x l]; [done|]. intros _ E.
  assert (x ∈ fromkeys (x :: l)) as H by (apply elem_of_nub; split; [left|apply not_elem_of_nil]).
  rewrite E in H. by apply elem_of_nil in H.
Qed.

Lemma root_blockers_nonempty fuel ts seen tid : root_blockers_go fuel ts seen tid ≠ [].
Proof.
  destruct fuel as [|fuel]; simpl; [done|]. destruct (mem tid seen); [done|].
  destruct (dget tid ts) as [t|]; [|done].
  destruct (_ ≫= _) as [|r rs] eqn:E; [done|]. by apply fromkeys_nonempty.
Qed.

Lemma root_blockers_reach fuel ts seen tid r :
  r ∈ root_blockers_go fuel ts seen tid → rtc (held_by ts) tid r.1.1.
Proof.
  revert seen tid. induction fuel as [|fuel IH]; intros seen tid; simpl.
  { by intros ->%list_elem_of_singleton. }
  destruct (mem tid seen); [by intros ->%list_elem_of_singleton|].
  destruct (dget tid ts) as [t|] eqn:Ht; [|by intros ->%list_elem_of_singleton].
  set (ds := base.filter _ _ ≫= _).
  assert (Hds : r ∈ ds → rtc (held_by ts) tid r.1.1).
  { intros (d & Hr & [Hf Hd]%elem_of_filter_true)%list_elem_of_bind.
    eapply rtc_l; [by exists t|]. by eapply IH. }
  destruct ds as [|r0 rs] eqn:E; [by intros ->%list_elem_of_singleton|].
  intros Hr. apply Hds. unfold fromkeys in Hr. by apply elem_of_nub in Hr as [? _].
Qed.

(** The bound on the walk is the number of tickets: it is never what ends it. *)
Lemma root_blockers_fuel fuel n ts seen tid :
  NoDup seen → (∀ x, x ∈ seen → x ∈ dkeys ts) → length ts < fuel + length seen → fuel ≤ n →
  root_blockers_go fuel ts seen tid = root_blockers_go n ts seen tid.
Proof.
  revert n seen tid. induction fuel as [|fuel IH]; intros n seen tid Hn Hk Hlen Hle.
  - exfalso. pose proof (submseteq_length _ _ (NoDup_submseteq _ _ Hn Hk)) as Hl.
    unfold dkeys in Hl. rewrite length_fmap in Hl. lia.
  - destruct n as [|n]; [lia|]. simpl. destruct (mem tid seen) eqn:Hm; [done|].
    destruct (dget tid ts) as [t|] eqn:Ht; [|done].
    assert (Hb : ∀ l, l ≫= root_blockers_go fuel ts (tid :: seen) = l ≫= root_blockers_go n ts (tid :: seen)).
    { intros l. induction l as [|d l IHl]; [done|]. rewrite !bind_cons, IHl. f_equal. apply IH.
      - constructor; [|done]. intros Hin%mem_true. congruence.
      - intros x [->|?]%elem_of_cons; [|auto]. apply dmem_spec, bool_decide_eq_true. by rewrite Ht.
      - simpl. lia.
      - lia. }
    by rewrite Hb.
Qed.

(** ** The projection *)

Lemma add_once_elem x y l : y ∈ add_once x l ↔ y = x ∨ y ∈ l.
Proof.
  unfold add_once. destruct (mem x l) eqn:E; [apply mem_true in E|]; set_solver.
Qed.

Lemma note_root_covers tid groups r : covered tid (note_root tid groups r) r.
Proof.
  unfold covered, note_root. rewrite dget_dset_eq. eexists. split; [done|]. simpl.
  rewrite !add_once_elem. auto.
Qed.

Lemma note_root_mono tid tid' groups r r' :
  covered tid groups r → covered tid (note_root tid' groups r') r.
Proof.
  intros (g & Hg & Hr & Hd). unfold covered, note_root.
  destruct (decide ((identity_owner r').1 = (identity_owner r).1)) as [E|E].
  - rewrite E, dget_dset_eq, Hg. eexists. split; [done|]. simpl. rewrite !add_once_elem. auto.
  - rewrite dget_dset_ne by done. eauto.
Qed.

Lemma note_roots_cover tid roots groups :
  (∀ r, r ∈ roots → covered tid (foldl (note_root tid) groups roots) r)
  ∧ ∀ tid' r, covered tid' groups r → covered tid' (foldl (note_root tid) groups roots) r.
Proof.
  revert groups. induction roots as [|r0 roots IH]; intros groups; simpl.
  - split; [by intros ? ?%elem_of_nil|done].
  - destruct (IH (note_root tid groups r0)) as [H1 H2]. split.
    + intros r [->|?]%elem_of_cons; [apply H2, note_root_covers|auto].
    + intros. by apply H2, note_root_mono.
Qed.

Lemma project_ticket_ok ts p e tid :
  e.1 ≠ tid → item_ok ts p tid → item_ok ts (project_ticket ts p e) tid.
Proof.
  destruct e as [tid' t]. intros Hne (item & Hi & Hr & Hid & Hc). unfold project_ticket. simpl in Hne.
  destruct (negb _); [by exists item|]. destruct (_ && _); [by exists item|].
  exists item. simpl. rewrite dget_dset_ne by done. split_and!; [done..|].
  intros r Hrin. by apply note_roots_cover, Hc.
Qed.

Lemma project_ticket_new ts p tid t :
  in_section t BLOCKED = true → item_ok ts (project_ticket ts p (tid, t)) tid.
Proof.
  intros Hb. unfold project_ticket. rewrite Hb. simpl.
  assert (in_section t TODO = false) as ->.
  { unfold in_section in *. apply eqs_true in Hb. rewrite Hb. by vm_compute. }
  simpl. eexists. split; [apply dget_dset_eq|]. split_and!; [done..|].
  intros r Hr. by apply (proj1 (note_roots_cover tid (root_blockers ts tid) (pr_groups p))).
Qed.

Lemma project_items ts es p tid t :
  NoDup es.*1 → (tid, t) ∈ es → in_section t BLOCKED = true →
  item_ok ts (foldl (project_ticket ts) p es) tid.
Proof.
  assert (Hkeep : ∀ es p, tid ∉ es.*1 → item_ok ts p tid → item_ok ts (foldl (project_ticket ts) p es) tid).
  { clear. induction es as [|e es IH]; intros p Hn Hi; [done|]. rewrite fmap_cons, not_elem_of_cons in Hn.
    simpl. apply IH; [naive_solver|]. apply project_ticket_ok; [naive_solver|done]. }
  revert p. induction es as [|[tid' t'] es IH]; intros p Hn Hin Hb; [by apply elem_of_nil in Hin|].
  rewrite fmap_cons in Hn. apply NoDup_cons in Hn as [Hn1 Hn2]. simpl.
  apply elem_of_cons in Hin as [[= <- <-]|Hin]; [|by apply IH].
  apply Hkeep; [done|]. by apply project_ticket_new.
Qed.

(** ** Properties *)

(** The walk to the root blockers is total and honest: its bound never cuts it
    short, it always finds a root, and every root holds the ticket up through a
    chain of recorded dependencies. *)
Theorem root_blockers_exact ts tid n :
  length ts < n →
  root_blockers_go n ts [] tid = root_blockers ts tid
  ∧ root_blockers ts tid ≠ []
  ∧ ∀ r, r ∈ root_blockers ts tid → rtc (held_by ts) tid r.1.1.
Proof.
  intros Hn. split_and!.
  - symmetry. apply root_blockers_fuel; [constructor|by intros ? ?%elem_of_nil|simpl; lia|lia].
  - apply root_blockers_nonempty.
  - intros r. apply root_blockers_reach.
Qed.

Definition sample_blocked : tickets :=
  (λ t, (t_id t, t)) <$>
  [Ticket "T-1" "## BLOCKED" 1 " " (strs ["T-2"])
     [(py "blocker", py "ACTIVE_DEPENDENCY: T-2"); (py "blocked_on", py "T-2")] [] [] [];
   Ticket "T-2" "## BLOCKED" 2 " " [] [(py "blocker", py "WAIT_USER_DECISION -- licence")] [] [] []].

Lemma root_blockers_exact_witness :
  rtc (held_by sample_blocked) "T-1" "T-2"
  ∧ root_blockers_go 7 sample_blocked [] "T-1" = root_blockers sample_blocked "T-1".
Proof.
  destruct (root_blockers_exact sample_blocked "T-1" 7) as (H1 & _ & H2); [vm_compute; lia|].
  split; [|exact H1].
  apply (H2 (py "T-2", py "WAIT_USER_DECISION", py "WAIT_USER_DECISION -- licence")).
  vm_compute. left.
Defined.

(** No blocked ticket is hidden: the projection has an item for each, with its
    roots, and every root is filed in the group of its identity, which lists the
    ticket as a root or as a dependent. *)
Theorem blocked_tickets_projected ts tid t :
  wf_dict ts → dget tid ts = Some t → in_section t BLOCKED = true →
  ∃ item, dget tid (pr_items (project_blockers ts)) = Some item
    ∧ bi_roots item = fromkeys ((λ r : root, r.1.1) <$> root_blockers ts tid)
    ∧ ∀ r, r ∈ root_blockers ts tid →
        ∃ g, dget (identity_owner r).1 (pr_groups (project_blockers ts)) = Some g
             ∧ r.1.1 ∈ gr_roots g ∧ (tid ∈ gr_roots g ∨ tid ∈ gr_dependents g).
Proof.
  intros Hwf Ht%dget_Some_elem Hb.
  destruct (project_items ts ts (Projection [] []) tid t Hwf Ht Hb) as (item & Hi & Hr & _ & Hc).
  exists item. split_and!; [done..|]. intros r Hin. apply Hc in Hin as (g & Hg & Hroot & Hdep).
  exists (settle_group g). split_and!.
  - unfold project_blockers. simpl. by rewrite dget_fmap, Hg.
  - done.
  - destruct (mem tid (gr_roots g)) eqn:E; [left; by apply mem_true|right].
    by apply list_elem_of_filter.
Qed.

Lemma blocked_tickets_projected_witness :
  ∃ item, dget (py "T-1") (pr_items (project_blockers sample_blocked)) = Some item
          ∧ bi_roots item = strs ["T-2"].
Proof.
  destruct (blocked_tickets_projected sample_blocked (py "T-1")
    (Ticket "T-1" "## BLOCKED" 1 " " (strs ["T-2"])
     [(py "blocker", py "ACTIVE_DEPENDENCY: T-2"); (py "blocked_on", py "T-2")] [] [] []))
    as (item & H1 & H2 & _);
    [apply (bool_decide_unpack _); vm_compute; exact I|vm_compute; reflexivity|vm_compute; reflexivity|].
  exists item. split; [exact H1|]. rewrite H2. vm_compute. reflexivity.
Defined.
