(* ===== verification/Sha256.v ===== *)
(** * SHA-256

    The journal compares files by the digests of [hashlib.sha256], so the model
    computes them: FIPS 180-4 over words of 32 bits. The facts below, that a
    digest is 64 lowercase hexadecimal digits, are what the classification of
    targets relies on; no theorem of the development assumes that digests do
    not collide. *)

From S2P Require Import Prelude PyStr.
Local Open Scope N_scope.

Definition w32 : N := 2 ^ 32.
Definition add32 (a b : N) : N := (a + b) mod w32.
Definition rotr (k x : N) : N := N.lor (N.shiftr x k) (N.shiftl x (32 - k) mod w32).

(** The constants of the standard are the first 32 bits of the fractional parts
    of the cube roots of the first 64 primes, and of the square roots of the
    first eight: [root_bits e k x] is the [e]-th root of [x] rounded down, found bit
    by bit from the [k]-th on. *)
Definition root_bits (e x : N) (k : nat) : N :=
  foldl (λ r i, let r' := r + 2 ^ N.of_nat i in if r' ^ e <=? x then r' else r) 0 (reverse (seq 0 k)).

Definition is_prime (p : N) : bool :=
  forallb (λ d, negb (p mod d =? 0)) (N.of_nat <$> seq 2 (N.to_nat p - 2)).
Definition primes : list N := base.filter is_prime (N.of_nat <$> seq 2 310).

Definition fraction_bits (e p : N) : N := root_bits e (p * w32 ^ e) 37 mod w32.

Definition round_constants : list N := Eval vm_compute in fraction_bits 3 <$> primes.
Definition initial_hash : list N := Eval vm_compute in fraction_bits 2 <$> take 8 primes.

(** The [k] bytes of [n], most significant first. *)
Fixpoint be_bytes (k : nat) (n : N) : list N :=
  match k with
  | O => []
  | S k' => N.shiftr n (8 * N.of_nat k') mod 256 :: be_bytes k' n
  end.

Definition padding (len : nat) : list N :=
  let n := N.of_nat len in
  128 :: replicate (N.to_nat ((119 - n mod 64) mod 64)) 0 ++ be_bytes 8 (8 * n).

Fixpoint words32 (bs : list N) : list N :=
  match bs with
  | a :: b :: c :: d :: bs' =>
      N.lor (N.shiftl a 24) (N.lor (N.shiftl b 16) (N.lor (N.shiftl c 8) d)) :: words32 bs'
  | _ => []
  end.

(** The message schedule: [ws] holds the last sixteen words, newest first. *)
Fixpoint schedule (n : nat) (ws acc : list N) : list N :=
  match n with
  | O => reverse acc
  | S n' =>
      let w i := nth i ws 0 in
      let s0 := N.lxor (rotr 7 (w 14%nat)) (N.lxor (rotr 18 (w 14%nat)) (N.shiftr (w 14%nat) 3)) in
      let s1 := N.lxor (rotr 17 (w 1%nat)) (N.lxor (rotr 19 (w 1%nat)) (N.shiftr (w 1%nat) 10)) in
      let x := add32 (add32 (w 15%nat) s0) (add32 (w 6%nat) s1) in
      schedule n' (x :: take 15 ws) (x :: acc)
  end.

Definition sha_round (h : list N) (kw : N * N) : list N :=
  match h with
  | [a; b; c; d; e; f; g; hh] =>
      let S1 := N.lxor (rotr 6 e) (N.lxor (rotr 11 e) (rotr 25 e)) in
      let ch := N.lxor (N.land e f) (N.land (N.lxor e 0xffffffff) g) in
      let t1 := add32 (add32 hh S1) (add32 ch (add32 kw.1 kw.2)) in
      let S0 := N.lxor (rotr 2 a) (N.lxor (rotr 13 a) (rotr 22 a)) in
      let maj := N.lxor (N.land a b) (N.lxor (N.land a c) (N.land b c)) in
      [add32 t1 (add32 S0 maj); a; b; c; add32 d t1; e; f; g]
  | _ => h
  end.

Definition compress (h block : list N) : list N :=
  let ws := block ++ schedule 48 (reverse block) [] in
  zip_with add32 h (foldl sha_round h (zip round_constants ws)).

Fixpoint blocks (fuel : nat) (h ws : list N) : list N :=
  match fuel, ws with
  | S f, _ :: _ => blocks f (compress h (take 16 ws)) (drop 16 ws)
  | _, _ => h
  end.

Definition sha256 (bs : list N) : list N :=
  let m := words32 (bs ++ padding (length bs)) in blocks (length m) initial_hash m.

Definition hex_digit (n : N) : N := if n <? 10 then 48 + n else 87 + n.
Definition hex_byte (b : N) : pystr := [hex_digit (b / 16 mod 16); hex_digit (b mod 16)].

(** [hashlib.sha256(bs).hexdigest()] *)
Definition hexdigest (bs : list N) : pystr := sha256 bs ≫= λ w, be_bytes 4 w ≫= hex_byte.

(** ** The shape of a digest *)

Lemma length_sha_round h kw : length (sha_round h kw) = length h.
Proof. destruct h as [|? [|? [|? [|? [|? [|? [|? [|? [|? ?]]]]]]]]]; reflexivity. Qed.

Lemma length_compress h b : length (compress h b) = length h.
Proof.
  unfold compress. rewrite length_zip_with.
  assert (∀ l h, length (foldl sha_round h l) = length h) as H; [|rewrite H; apply Nat.min_id].
  induction l as [|kw l IH]; intros h'; simpl; [done|]. by rewrite IH, length_sha_round.
Qed.

Lemma length_blocks f h ws : length (blocks f h ws) = length h.
Proof.
  revert h ws. induction f as [|f IH]; intros h [|w ws]; simpl; [done..|].
  by rewrite IH, length_compress.
Qed.

Lemma length_sha256 bs : length (sha256 bs) = 8%nat.
Proof. unfold sha256. by rewrite length_blocks. Qed.

Lemma length_be_bytes k n : length (be_bytes k n) = k.
Proof. induction k; simpl; auto. Qed.

Lemma length_bind_const {A B} (f : A → list B) k l :
  (∀ x, length (f x) = k) → length (l ≫= f) = (length l * k)%nat.
Proof.
  intros H. induction l as [|x l IH]; [done|]. rewrite bind_cons, length_app, IH, H. simpl. lia.
Qed.

Lemma length_hexdigest bs : length (hexdigest bs) = 64%nat.
Proof.
  unfold hexdigest. rewrite (length_bind_const _ 8), length_sha256; [done|].
  intros w. by rewrite (length_bind_const _ 2), length_be_bytes.
Qed.

Lemma hex_digit_is_hex n : is_hex (hex_digit (n mod 16)) = true.
Proof.
  assert (n mod 16 < 16) as H by (by apply N.mod_lt). revert H. generalize (n mod 16). intros m H.
  unfold is_hex, is_ascii_digit, in_range, hex_digit.
  destruct (N.ltb_spec m 10); apply orb_true_intro; [left|right];
    apply andb_true_intro; split; apply N.leb_le; lia.
Qed.

Lemma hexdigest_hex bs : Forall (λ c, is_hex c = true) (hexdigest bs).
Proof.
  apply Forall_forall. intros c. unfold hexdigest.
  intros (w & Hc & _)%list_elem_of_bind. apply list_elem_of_bind in Hc as (b & Hc & _).
  unfold hex_byte in Hc. rewrite !elem_of_cons, elem_of_nil in Hc.
  destruct Hc as [->|[->|[]]]; apply hex_digit_is_hex.
Qed.

Example sha256_empty :
  hexdigest [] = py "e3b0c44298fc1c149afbf4c8996fb92427ae41e4649b934ca495991b7852b855".
Proof. vm_compute. reflexivity. Qed.

Example sha256_abc :
  hexdigest [97; 98; 99] = py "ba7816bf8f01cfea414140de5dae2223b00361a396177a9cb410ff61f20015ad".
Proof. vm_compute. reflexivity. Qed.

Example sha256_two_blocks : hexdigest (replicate 64 97) =
  py "ffe054fe7ae0cb6dc65c3af9b61d5209f439851db43d0ba5997337df154668eb".
Proof. vm_compute. reflexivity. Qed.
