(* ===== verification/JournalFs.v ===== *)
(** * Project files, owned paths and the digests of the journal

    The files of a project as the mutation journal sees them (journal.py,
    safeid.py, paths.py): a finite map from resolved paths, relative to the
    project root, to nodes. The model has no symbolic links and no access
    rights, so that [os.path.realpath] is the lexical normalisation of a path
    and the mode of a node is that of its type. *)

From stdpp Require Import sorting.
From S2P Require Import Prelude PyStr PyStrFacts PyDict Sha256.

(** ** Paths *)

(** A resolved path: its components under the root of the project. *)
Definition path : Type := list pystr.

(** The components of a path string: empty components and [.] are dropped. *)
Definition parts (s : pystr) : list pystr :=
  base.filter (λ c, c ≠ [] ∧ c ≠ py ".") (split (py "/") s).

(** [Path.as_posix()] of a relative path. *)
Definition as_posix (p : path) : pystr :=
  match p with [] => py "." | _ => join (py "/") p end.

(** [os.path.isabs] on POSIX, and the drive pattern [^[A-Za-z]:[\\/]]. *)
Definition isabs (s : pystr) : bool := startswith (py "/") s.
Definition is_drive (s : pystr) : bool :=
  match s with
  | a :: b :: c :: _ =>
      (is_AZ a || is_az a) && (b =? 58)%N && ((c =? 92)%N || (c =? 47)%N)
  | _ => false
  end.

(** [os.path.realpath] of a path without links: [..] leaves a component. The
    accumulator holds the components so far, last one first. *)
Fixpoint norm_go (acc : path) (cs : list pystr) : path :=
  match cs with
  | [] => reverse acc
  | c :: cs' => if c =s py ".." then norm_go (tail acc) cs' else norm_go (c :: acc) cs'
  end.

Fixpoint strip_prefix (p q : path) : option path :=
  match p, q with
  | [], _ => Some q
  | a :: p', b :: q' => if a =s b then strip_prefix p' q' else None
  | _ :: _, [] => None
  end.

(** [prove_inside], relative to the owner root: [None] is the escape. *)
Definition prove_inside (root cs : path) : option path :=
  strip_prefix root (norm_go (reverse root) cs).

(** [owned_target_path(root, rel).relative_to(root)]; [None] is the
    [InvalidIdError]. [root] is the absolute, resolved root of the project. *)
Definition owned_target_path (root : path) (rel : pystr) : option path :=
  if negb (nonempty rel) then None
  else if isabs rel || is_drive rel then None
  else prove_inside root (parts rel).

(** [q] is a proper prefix of [p]: [q in p.parents]. *)
Definition parent_of (q p : path) : bool :=
  bool_decide (is_Some (strip_prefix q p) ∧ q ≠ p).

(** The proper prefixes of a path, the root first. *)
Fixpoint parents (p : path) : list path :=
  match p with
  | [] => []
  | c :: p' => [] :: (cons c <$> parents p')
  end.

(** ** Nodes *)

Inductive node : Type :=
  | File (data : list N)
  | Dir
  | Special (mode : N).
Global Instance node_eq_dec : EqDecision node.
Proof. solve_decision. Defined.

Abbreviation fs := (gmap path node).

(** The root of the project is always a directory. *)
Definition look (f : fs) (p : path) : option node :=
  match p with [] => Some Dir | _ => f !! p end.

Definition is_dir (n : option node) : bool := match n with Some Dir => true | _ => false end.
Definition is_file (n : option node) : bool := match n with Some (File _) => true | _ => false end.

(** [st_mode]: a regular file, a directory, or the recorded mode. *)
Definition st_mode (n : node) : N :=
  match n with File _ => 33188 | Dir => 16877 | Special m => m end.

Inductive oserror : Type := FileNotFoundError | NotADirectoryError | IsADirectoryError | DirectoryNotEmpty.
Inductive pyexn : Type := OSError (e : oserror) | ValueError.

(** An ancestor that is there and is not a directory. *)
Definition blocked (f : fs) (p : path) : bool :=
  existsb (λ q, match look f q with Some Dir | None => false | Some _ => true end) (parents p).

(** [Path.lstat] *)
Definition lstat (f : fs) (p : path) : res oserror node :=
  if blocked f p then Err NotADirectoryError
  else match look f p with Some n => Ok n | None => Err FileNotFoundError end.

(** [Path.read_bytes] *)
Definition read_bytes (f : fs) (p : path) : res oserror (list N) :=
  n ← lstat f p;
  match n with
  | File d => Ok d
  | Dir => Err IsADirectoryError
  | Special _ => Err NotADirectoryError
  end.

(** ** Changing files *)

(** [Path.mkdir(parents=True)] of every directory above [p]. *)
Definition mkdirs (f : fs) (p : path) : fs :=
  foldl (λ f q, match q with [] => f | _ => <[q := default Dir (f !! q)]> f end) f (parents p).

(** [safe_atomic_write_bytes]: the ancestors must be directories and the node
    itself absent or a regular file; it is then replaced as a whole. *)
Definition safe_atomic_write_bytes (f : fs) (p : path) (data : list N) : res pyexn fs :=
  match p with
  | [] => Err ValueError
  | _ => if blocked f p then Err ValueError
         else match f !! p with
              | Some (File _) | None => Ok (<[p := File data]> (mkdirs f p))
              | Some _ => Err ValueError
              end
  end.

(** [Path.unlink] *)
Definition unlink (f : fs) (p : path) : res pyexn fs :=
  match lstat f p with
  | Err e => Err (OSError e)
  | Ok Dir => Err (OSError IsADirectoryError)
  | Ok _ => Ok (delete p f)
  end.

(** The names in a directory, sorted by code point. *)
Fixpoint str_leb (s t : pystr) : bool :=
  match s, t with
  | [], _ => true
  | _ :: _, [] => false
  | a :: s', b :: t' => (a <? b)%N || ((a =? b)%N && str_leb s' t')
  end.

Definition str_le (s t : pystr) : Prop := str_leb s t = true.
Global Instance str_le_dec s t : Decision (str_le s t) := decide (str_leb s t = true).

Definition child_name (p q : path) : option pystr :=
  match strip_prefix p q with Some [n] => Some n | _ => None end.
Definition names (f : fs) (p : path) : list pystr :=
  merge_sort str_le (omap (λ e, child_name p e.1) (map_to_list f)).

(** [Path.rmdir] *)
Definition rmdir (f : fs) (p : path) : res pyexn fs :=
  match lstat f p with
  | Err e => Err (OSError e)
  | Ok Dir => match p, names f p with
              | _ :: _, [] => Ok (delete p f)
              | _, _ => Err (OSError DirectoryNotEmpty)
              end
  | Ok _ => Err (OSError NotADirectoryError)
  end.

(** ** Digests *)

(** [s.encode("utf-8")] *)
Definition utf8_char (c : N) : list N :=
  if (c <? 128)%N then [c]
  else if (c <? 2048)%N then [192 + c / 64; 128 + c mod 64]%N
  else if (c <? 65536)%N then [224 + c / 4096; 128 + c / 64 mod 64; 128 + c mod 64]%N
  else [240 + c / 262144; 128 + c / 4096 mod 64; 128 + c / 64 mod 64; 128 + c mod 64]%N.
Definition utf8 (s : pystr) : list N := s ≫= utf8_char.

Definition hash_bytes (content : list N) : pystr := take 16 (hexdigest content).

(** [_hash_file]: a file that cannot be read hashes like an absent one. *)
Definition _hash_file (f : fs) (p : path) : pystr :=
  match read_bytes f p with Ok d => hash_bytes d | Err _ => [] end.

Definition MISSING_TREE_DEPENDENCY : pystr := "tree-missing-v1".
Definition MISSING_FILE_DEPENDENCY : pystr := "file-missing-v1".
Definition TREE_MAGIC : list N := utf8 "saipen-delete-tree-v1" ++ [0%N].
Definition object_mode (n : node) : pystr := py "object:" +s str_of (st_mode n).

Definition frame (bs : list N) : list N := be_bytes 8 (N.of_nat (length bs)) ++ bs.
Definition dir_frame (rel : path) : list N := utf8 "D" ++ frame (utf8 (as_posix rel)).
Definition file_frame (rel : path) (raw : list N) : list N :=
  utf8 "F" ++ frame (utf8 (as_posix rel)) ++ frame raw.

(** The walk of [_hash_delete_tree] from the directory [root/rel]: directories
    before their entries, files before subdirectories. [Err] is the token of
    an entry that is neither a file nor a directory. *)
Fixpoint walk_tree (fuel : nat) (f : fs) (root rel : path) : res pystr (list N) :=
  match fuel with
  | O => Ok []
  | S fuel' =>
      let entries := (λ n, (rel ++ [n], look f (root ++ rel ++ [n]))) <$> names f (root ++ rel) in
      let files := base.filter (λ e : path * option node, is_dir e.2 = false) entries in
      let dirs := base.filter (λ e : path * option node, is_dir e.2 = true) entries in
      here ← foldl (λ acc e,
          bs ← acc;
          match e.2 with
          | Some (File raw) => Ok (bs ++ file_frame e.1 raw)
          | _ => Err (py "object-unsupported:" +s as_posix e.1)
          end) (Ok (dir_frame rel)) files;
      foldl (λ acc e,
          bs ← acc;
          sub ← walk_tree fuel' f root e.1;
          Ok (bs ++ sub)) (Ok here) dirs
  end.

(** The length of the longest path, which bounds the depth of every walk. *)
Definition depth (f : fs) : nat := foldr max 0 ((λ e, length e.1) <$> map_to_list f).

Definition tree_token (digest : list N) : pystr := py "delete-tree-sha256:" +s hexdigest digest.

(** [_hash_delete_tree] *)
Definition _hash_delete_tree (f : fs) (p : path) : pystr :=
  match lstat f p with
  | Err FileNotFoundError => []
  | Err _ => "object-unreadable"
  | Ok Dir =>
      match walk_tree (S (depth f)) f p [] with
      | Ok bs => tree_token (TREE_MAGIC ++ bs)
      | Err token => token
      end
  | Ok n => object_mode n
  end.

Definition empty_delete_tree_hash : pystr := tree_token (TREE_MAGIC ++ dir_frame []).

(** [hash_tree_dependency] *)
Definition hash_tree_dependency (f : fs) (p : path) : pystr :=
  let digest := _hash_delete_tree f p in
  if negb (nonempty digest) && bool_decide (look f p = None)
  then MISSING_TREE_DEPENDENCY else digest.

(** [hash_file_dependency] *)
Definition hash_file_dependency (f : fs) (p : path) : pystr :=
  match lstat f p with
  | Err FileNotFoundError => MISSING_FILE_DEPENDENCY
  | Err _ => "object-unreadable"
  | Ok (File d) => hash_bytes d
  | Ok n => object_mode n
  end.

(** [hash_directory_listing_dependency] *)
Definition DIRECTORY_LISTING_PREFIX : pystr := "directory-listing-sha256:".
Definition LISTING_MAGIC : list N := utf8 "saipen-directory-listing-v1" ++ [0%N].
Definition listing_frame (f : fs) (p : path) (n : pystr) : list N :=
  utf8 (match look f (p ++ [n]) with Some (File _) => "F" | Some Dir => "D" | _ => "O" end)
  ++ frame (utf8 n).
Definition hash_directory_listing_dependency (f : fs) (p : path) : pystr :=
  match lstat f p with
  | Err FileNotFoundError => DIRECTORY_LISTING_PREFIX +s py "missing"
  | Err _ => "object-unreadable"
  | Ok Dir => DIRECTORY_LISTING_PREFIX +s
              hexdigest (LISTING_MAGIC ++ (names f p ≫= listing_frame f p))
  | Ok n => object_mode n
  end.

(** ** Paths and their parents *)

Lemma elem_of_parents q p : q ∈ parents p ↔ ∃ c r, p = q ++ c :: r.
Proof.
  revert q. induction p as [|c p IH]; intros q; cbn [parents].
  - split; [by intros ?%elem_of_nil|]. intros (c & r & H). by destruct q.
  - rewrite elem_of_cons, list_elem_of_fmap. split.
    + intros [->|(q' & -> & Hq)]; [by exists c, p|]. apply IH in Hq as (d & r & ->). by exists d, r.
    + intros (d & r & H). destruct q as [|e q]; [by left|]. right. simplify_eq/=.
      exists q. split; [done|]. apply IH. eauto.
Qed.

Lemma parents_irrefl p : p ∉ parents p.
Proof.
  intros (c & r & H)%elem_of_parents. apply (f_equal length) in H. rewrite length_app in H. simpl in H. lia.
Qed.

Lemma parents_trans r q p : r ∈ parents q → q ∈ parents p → r ∈ parents p.
Proof.
  rewrite !elem_of_parents. intros (c & s & ->) (d & t & ->). exists c, (s ++ d :: t).
  by rewrite <-app_assoc.
Qed.

Lemma strip_prefix_Some p q r : strip_prefix p q = Some r ↔ q = p ++ r.
Proof.
  revert q. induction p as [|a p IH]; intros q; simpl; [naive_solver|].
  destruct q as [|b q]; [naive_solver|]. destruct (a =s b) eqn:E.
  - apply eqs_true in E as ->. rewrite IH. naive_solver.
  - apply bool_decide_eq_false in E. naive_solver.
Qed.

Lemma parent_of_spec q p : parent_of q p = true ↔ q ∈ parents p.
Proof.
  unfold parent_of. rewrite bool_decide_eq_true, elem_of_parents. split.
  - intros [[r ->%strip_prefix_Some] Hne]. destruct r as [|c r]; [rewrite app_nil_r in Hne; done|]. eauto.
  - intros (c & r & ->). split.
    + exists (c :: r). by apply strip_prefix_Some.
    + intros H. apply (f_equal length) in H. rewrite length_app in H. simpl in H. lia.
Qed.

Lemma as_posix_clean p :
  Forall (λ c, (47%N ∉ c) ∧ c ≠ [] ∧ c ≠ py ".") p → parts (as_posix p) = p.
Proof.
  intros Hp. destruct p as [|c p]; [reflexivity|]. unfold parts, as_posix.
  assert (split (py "/") (join (py "/") (c :: p)) = c :: p) as ->.
  { clear -Hp. revert c Hp. induction p as [|d p IH]; intros c [[Hc _] Hp]%Forall_cons.
    - apply (split_one _ 47%N); [done|]. done.
    - rewrite join_cons by done. unfold split in *.
      assert (∀ acc, split_go "/" 0 acc (c ++ py "/" ++ join "/" (d :: p))
                = (reverse acc ++ c) :: (split_go "/" 0 [] (join "/" (d :: p)))) as Hgo.
      { change (py "/") with [47%N]. clear -Hc. induction c as [|x c IH]; intros acc.
        - simpl. rewrite app_nil_r. by rewrite split_go_drop.
        - apply not_elem_of_cons in Hc as [Hx Hc]. cbn [app split_go startswith].
          rewrite (proj2 (N.eqb_neq 47 x)) by done. cbn [andb]. rewrite (IH Hc), reverse_cons, <-app_assoc. done. }
      rewrite Hgo. cbn [reverse rev_append app]. f_equal. by apply IH. }
  induction Hp as [|x l (_ & H1 & H2) _ IH]; [done|]. rewrite filter_cons_True by done. f_equal. exact IH.
Qed.

(** ** Lookups after a change *)

Lemma look_cons f c p : look f (c :: p) = f !! (c :: p).
Proof. done. Qed.

Lemma foldl_mkdirs f l q :
  look (foldl (λ f q, match q with [] => f | _ => <[q := default Dir (f !! q)]> f end) f l) q =
  if bool_decide (q ∈ l) then Some (default Dir (look f q)) else look f q.
Proof.
  destruct q as [|c q]; [by case_bool_decide|]. rewrite !look_cons.
  revert f. induction l as [|r l IH]; intros f; cbn [foldl]; [done|]. rewrite IH.
  destruct r as [|d r].
  - destruct (decide (c :: q ∈ l)) as [Hin|Hin].
    + rewrite !bool_decide_true by (done || by right). done.
    + rewrite !bool_decide_false; [done|set_solver|done].
  - destruct (decide (d :: r = c :: q)) as [E|E].
    + rewrite E, lookup_insert, decide_True by done.
      rewrite (bool_decide_true (_ ∈ _ :: _)) by left. by case_bool_decide.
    + rewrite lookup_insert_ne by done. destruct (decide (c :: q ∈ l)) as [Hin|Hin].
      * rewrite !bool_decide_true by (done || by right). done.
      * rewrite !bool_decide_false; [done|set_solver|done].
Qed.

Lemma look_mkdirs f p q :
  look (mkdirs f p) q = if bool_decide (q ∈ parents p) then Some (default Dir (look f q)) else look f q.
Proof. apply foldl_mkdirs. Qed.

Lemma look_insert f p n q : p ≠ [] → look (<[p := n]> f) q = if bool_decide (q = p) then Some n else look f q.
Proof.
  intros Hp. destruct q as [|c q]; [by case_bool_decide|]. rewrite !look_cons.
  case_bool_decide as E; [subst; by rewrite lookup_insert, decide_True|by rewrite lookup_insert_ne].
Qed.

Lemma look_delete f p q : p ≠ [] → look (delete p f) q = if bool_decide (q = p) then None else look f q.
Proof.
  intros Hp. destruct q as [|c q]; [by case_bool_decide|]. rewrite !look_cons.
  case_bool_decide as E; [subst; by rewrite lookup_delete, decide_True|by rewrite lookup_delete_ne].
Qed.

(** [f'] differs from [f] at [p] and by directories made above [p] only. *)
Definition only (p : path) (f f' : fs) : Prop :=
  ∀ q, q ≠ p → look f' q = look f q ∨ (q ∈ parents p ∧ look f q = None ∧ look f' q = Some Dir).

Lemma only_mkdirs f p : only p f (mkdirs f p).
Proof.
  intros q Hq. rewrite look_mkdirs. case_bool_decide; [|by left]. destruct (look f q); auto.
Qed.

Lemma only_refl f p : only p f f.
Proof. by left. Qed.

(** ** Digests of absent and present files *)

Lemma length_hash_bytes d : length (hash_bytes d) = 16.
Proof. unfold hash_bytes. by rewrite length_take, length_hexdigest. Qed.

Lemma hash_bytes_nonempty d : hash_bytes d ≠ [].
Proof. intros H. pose proof (length_hash_bytes d) as L. by rewrite H in L. Qed.

Lemma blocked_false f p :
  blocked f p = false ↔ ∀ q, q ∈ parents p → look f q = None ∨ look f q = Some Dir.
Proof.
  unfold blocked. rewrite <-not_true_iff_false, existsb_exists. split.
  - intros H q Hq. destruct (look f q) as [n|] eqn:E; [|by left]. right.
    destruct n; [exfalso; apply H; exists q; rewrite E; split; [by apply list_elem_of_In|done]|done|].
    exfalso; apply H; exists q; rewrite E; split; [by apply list_elem_of_In|done].
  - intros H (q & Hq%list_elem_of_In & Hb). by destruct (H q Hq) as [E|E]; rewrite E in Hb.
Qed.

(** Only a change at one of its ancestors can block a path. *)
Lemma blocked_only f f' p q : only p f f' → p ∉ parents q → blocked f' q = blocked f q.
Proof.
  intros Ho Hp.
  assert (∀ r, r ∈ parents q →
    match look f' r with Some Dir | None => false | Some _ => true end =
    match look f r with Some Dir | None => false | Some _ => true end) as E.
  { intros r Hr. destruct (Ho r) as [->|(_ & -> & ->)]; [by intros ->|done..]. }
  unfold blocked. clear Ho Hp. induction (parents q) as [|r l IH]; [done|]. simpl.
  rewrite E by left. rewrite IH; [done|]. intros r' Hr'. apply E. by right.
Qed.

Lemma lstat_only f f' p q :
  only p f f' → q ≠ p → p ∉ parents q → q ∉ parents p → lstat f' q = lstat f q.
Proof.
  intros Ho Hqp Hpq Hq. unfold lstat. rewrite (blocked_only _ _ _ _ Ho Hpq).
  destruct (Ho q Hqp) as [->|(? & _)]; done.
Qed.

Lemma _hash_file_lstat f f' p q : lstat f p = lstat f' q → _hash_file f p = _hash_file f' q.
Proof. intros E. unfold _hash_file, read_bytes. by rewrite E. Qed.

Lemma _hash_file_File f p d : lstat f p = Ok (File d) → _hash_file f p = hash_bytes d.
Proof. intros E. unfold _hash_file, read_bytes. by rewrite E. Qed.

Lemma _hash_file_absent f p e : lstat f p = Err e → _hash_file f p = [].
Proof. intros E. unfold _hash_file, read_bytes. by rewrite E. Qed.

(** ** What each operation changes *)

Lemma write_spec f p d f' :
  safe_atomic_write_bytes f p d = Ok f' →
  f' = <[p := File d]> (mkdirs f p) ∧ p ≠ [] ∧ blocked f p = false ∧
  lstat f' p = Ok (File d) ∧ only p f f' ∧ (∀ q, q ∈ parents p → look f' q = Some Dir).
Proof.
  intros E. assert (p ≠ [] ∧ blocked f p = false ∧ f' = <[p := File d]> (mkdirs f p)) as (HP & Hb & ->).
  { unfold safe_atomic_write_bytes in E. destruct p as [|c p]; [done|].
    destruct (blocked f (c :: p)); [done|]. repeat case_match; by simplify_eq. }
  pose proof (proj1 (blocked_false f p) Hb) as Hb'.
  assert (∀ q, q ∈ parents p → look (<[p:=File d]> (mkdirs f p)) q = Some Dir) as Hpar.
  { intros q Hq. rewrite look_insert by done. rewrite bool_decide_false by (intros ->; by apply parents_irrefl in Hq).
    rewrite look_mkdirs, bool_decide_true by done. by destruct (Hb' q Hq) as [-> | ->]. }
  split_and!; try done.
  - unfold lstat. rewrite (proj2 (blocked_false _ p)) by (intros q Hq; right; by apply Hpar).
    by rewrite look_insert, bool_decide_true.
  - intros q Hq. rewrite look_insert, bool_decide_false by done. by apply only_mkdirs.
Qed.

Lemma lstat_Ok f p n : lstat f p = Ok n ↔ blocked f p = false ∧ look f p = Some n.
Proof. unfold lstat. destruct (blocked f p), (look f p); naive_solver. Qed.

Lemma delete_spec f p n :
  lstat f p = Ok n → p ≠ [] →
  lstat (delete p f) p = Err FileNotFoundError ∧ only p f (delete p f).
Proof.
  intros [Hb Hl]%lstat_Ok Hp. assert (only p f (delete p f)) as Ho.
  { intros q Hq. left. by rewrite look_delete, bool_decide_false. }
  split; [|done]. unfold lstat. rewrite (blocked_only _ _ _ _ Ho (parents_irrefl p)), Hb.
  by rewrite look_delete, bool_decide_true.
Qed.

Lemma unlink_spec f p f' :
  unlink f p = Ok f' →
  f' = delete p f ∧ p ≠ [] ∧ (∃ n, lstat f p = Ok n ∧ n ≠ Dir) ∧
  lstat f' p = Err FileNotFoundError ∧ only p f f'.
Proof.
  unfold unlink. intros E. destruct (lstat f p) as [n|] eqn:El; [|done].
  assert (p ≠ [] ∨ n = Dir) as Hp.
  { destruct p; [right|by left]. apply lstat_Ok in El as [_ El]. by simplify_eq/=. }
  assert (n ≠ Dir ∧ f' = delete p f) as [Hn ->] by (destruct n; by simplify_eq).
  destruct Hp as [Hp|]; [|done]. destruct (delete_spec f p n El Hp). eauto 10.
Qed.

Lemma rmdir_spec f p f' :
  rmdir f p = Ok f' →
  f' = delete p f ∧ p ≠ [] ∧ lstat f p = Ok Dir ∧ names f p = [] ∧
  lstat f' p = Err FileNotFoundError ∧ only p f f'.
Proof.
  unfold rmdir. intros E. destruct (lstat f p) as [[]|] eqn:El; try done.
  destruct p as [|c p]; [by destruct (names f [])|]. destruct (names f (c :: p)) eqn:En; [|done].
  simplify_eq. destruct (delete_spec f (c :: p) Dir El) as [? ?]; [done|]. done.
Qed.

(** ** Owned paths are their own spelling *)

Definition clean (c : pystr) : Prop := (47%N ∉ c) ∧ c ≠ [] ∧ c ≠ py "." ∧ c ≠ py "..".

Lemma split_no_sep a acc s c : a ∉ acc → c ∈ split_go [a] 0 acc s → a ∉ c.
Proof.
  revert acc. induction s as [|b s IH]; intros acc Ha Hc; cbn [split_go startswith] in Hc.
  - apply list_elem_of_singleton in Hc as ->. by rewrite elem_of_reverse.
  - destruct (a =? b)%N eqn:E; cbn [andb length Nat.sub] in Hc.
    + apply elem_of_cons in Hc as [->|Hc]; [by rewrite elem_of_reverse|].
      eapply IH; [|exact Hc]. apply not_elem_of_nil.
    + eapply IH; [|exact Hc]. apply N.eqb_neq in E. set_solver.
Qed.

Lemma parts_clean s c : c ∈ parts s → (47%N ∉ c) ∧ c ≠ [] ∧ c ≠ py ".".
Proof.
  unfold parts. intros [[H1 H2] H3]%list_elem_of_filter. split_and!; [|done|done].
  eapply split_no_sep; [|exact H3]. apply not_elem_of_nil.
Qed.

Lemma norm_go_clean acc cs :
  Forall clean acc → Forall (λ c, (47%N ∉ c) ∧ c ≠ [] ∧ c ≠ py ".") cs → Forall clean (norm_go acc cs).
Proof.
  intros Ha Hc. revert acc Ha. induction Hc as [|c cs (H1 & H2 & H3) _ IH]; intros acc Ha; cbn [norm_go].
  - by apply Forall_reverse.
  - destruct (c =s py "..") eqn:E.
    + apply IH. destruct Ha; [constructor|done].
    + apply IH. apply bool_decide_eq_false in E. by constructor.
Qed.

Lemma norm_go_id acc cs : Forall clean cs → norm_go acc cs = reverse acc ++ cs.
Proof.
  intros Hc. revert acc. induction Hc as [|c cs (_ & _ & _ & H) _ IH]; intros acc; cbn [norm_go].
  - by rewrite app_nil_r.
  - unfold eqs. rewrite bool_decide_false by done. rewrite IH, reverse_cons, <-app_assoc. done.
Qed.

Lemma owned_clean root rel p : Forall clean root → owned_target_path root rel = Some p → Forall clean p.
Proof.
  unfold owned_target_path, prove_inside. intros Hr. do 2 (case_match; [done|]).
  intros Hp%strip_prefix_Some.
  assert (Forall clean (root ++ p)) as Hf.
  { rewrite <-Hp. apply norm_go_clean; [by apply Forall_reverse|].
    apply Forall_forall. intros c. apply parts_clean. }
  by apply Forall_app in Hf as [_ ?].
Qed.

Lemma as_posix_head p : Forall clean p → ∃ x t, as_posix p = x :: t ∧ x ≠ 47%N.
Proof.
  intros Hc. destruct p as [|[|x c] p]; [by eexists _, _|by apply Forall_cons in Hc as [(_ & ? & _) _]|].
  apply Forall_cons in Hc as [(Hx & _) _]. exists x. destruct p; eexists; (split; [reflexivity|set_solver]).
Qed.

(** The spelling of an owned path resolves to the path itself, unless it looks
    like a drive. *)
Lemma owned_fixed root rel p :
  Forall clean root → owned_target_path root rel = Some p → is_drive (as_posix p) = false →
  owned_target_path root (as_posix p) = Some p.
Proof.
  intros Hr Hp Hd. pose proof (owned_clean _ _ _ Hr Hp) as Hc. unfold owned_target_path.
  destruct (as_posix_head p Hc) as (x & t & E & Hx).
  assert (nonempty (as_posix p) = true ∧ isabs (as_posix p) = false) as [-> ->].
  { rewrite E. split; [done|]. unfold isabs. change (py "/") with [47%N]. apply startswith_head. simpl. congruence. }
  rewrite Hd. cbn [negb orb]. unfold prove_inside. rewrite as_posix_clean.
  - rewrite norm_go_id, reverse_involutive by done. by apply strip_prefix_Some.
  - eapply Forall_impl; [exact Hc|]. unfold clean. naive_solver.
Qed.
