(* ===== verification/SafeId.v ===== *)
(** * Path-safe identifiers

    safeid.py: every identifier of the engine that becomes a component of a
    path passes [validate_safe_id]. An operation id passes [validate_op_id] of
    journal.py, which calls it. *)

From S2P Require Import Prelude PyStr PyStrFacts PyUnicode PyRegex JournalFs.

Inductive id_error : Type :=
  | IdEmpty | IdDotPath | IdControl | IdSeparator | IdDrive | IdGrammar | IdTooLong | IdDevice
  | IdNotComponent.
Global Instance id_error_eq_dec : EqDecision id_error.
Proof. solve_decision. Defined.

Definition MAX_ID_BYTES : nat := 128.

Definition _WIN_DEVICES : list pystr :=
  strs ["con"; "prn"; "aux"; "nul"; "com1"; "com2"; "com3"; "com4"; "com5"; "com6"; "com7";
        "com8"; "com9"; "lpt1"; "lpt2"; "lpt3"; "lpt4"; "lpt5"; "lpt6"; "lpt7"; "lpt8"; "lpt9"].

(** The characters of [_CONTROL_RE]. *)
Definition is_control (c : N) : bool := in_range 0 31 c || in_range 127 159 c.

(** [_SAFE_ID_RE]; the value has no newline, so [$] is the end. *)
Definition is_alnum (c : N) : bool := is_AZ c || is_az c || is_ascii_digit c.
Definition is_id_char (c : N) : bool :=
  is_alnum c || bool_decide (c ∈ [95; 46; 45]%N).
Definition _SAFE_ID_RE (s : pystr) : bool :=
  match s with c :: s' => is_alnum c && forallb is_id_char s' | [] => false end.

Definition _DRIVE_RE (s : pystr) : bool :=
  match s with a :: b :: _ => (is_AZ a || is_az a) && (b =? 58)%N | _ => false end.

Definition has_separator (s : pystr) : bool := contains "/" s || contains "\" s.

(** [validate_safe_id] of a string: the trimmed value is the result. *)
Definition validate_safe_id (value : pystr) : res id_error pystr :=
  let value := strip value in
  if negb (nonempty value) then Err IdEmpty
  else if (value =s py ".") || (value =s py "..") then Err IdDotPath
  else if existsb is_control value then Err IdControl
  else if has_separator value then Err IdSeparator
  else if _DRIVE_RE value then Err IdDrive
  else if negb (_SAFE_ID_RE value) then Err IdGrammar
  else if MAX_ID_BYTES <? length (utf8 value) then Err IdTooLong
  else if existsb (λ part, mem (lower part) _WIN_DEVICES) (split "." value) then Err IdDevice
  else Ok value.

(** [validate_op_id] of a string. *)
Definition validate_op_id (op_id : pystr) : res id_error pystr :=
  if negb (nonempty op_id) then Err IdEmpty
  else if startswith ".." op_id || has_separator op_id then Err IdNotComponent
  else validate_safe_id op_id.

(** ** Operation-id provenance *)

Definition _HEX32 : list nat := [32].
Definition _HEX8_32 : list nat := [8; 32].

Definition with_widths (ws : list nat) (prefixes : list string) : list (pystr * list nat) :=
  (λ p, (py p, ws)) <$> prefixes.

(** [OP_CLASSES]: the registered prefixes with the body widths their writers emit. *)
Definition OP_CLASSES : list (pystr * list nat) :=
  with_widths _HEX8_32
    ["checkpoint-"; "claim-"; "converge_intent-"; "crew-defer-"; "crew-run-";
     "finalize_crew-"; "finalize_done-"; "finalize_ship-"; "finish-"; "fpc-"; "scope-";
     "stop-"; "ticket-"; "transition-"; "valve-"; "wait-"] ++
  with_widths [8; 16; 32]
    ["goal-"] ++
  with_widths _HEX32
    ["attempt-close-"; "attempt-open-"; "bind-cohort-"; "board-compact-";
     "board-scrub-"; "ccc-entry-"; "clear-wait-role-"; "cohort-reconcile-";
     "convergence-"; "crew-closure-"; "goal-entry-"; "goal-authorize-"; "handover-";
     "improve-hold-"; "improve-unhold-"; "metadata-repair-"; "migrate_generation-";
     "needs-detach-"; "normalize-log-"; "quarantine-log-tail-"; "rebind_home-";
     "resolve-external-"; "retire-"; "retire-source-"; "seal-log-"; "supersede-";
     "ticket-reasoning-"; "ticket-requires-"; "ticket-verify-"; "userreq-";
     "duplicate-id-"; "release-"; "source.requirement_add-"; "cycle-"; "improve-admit-";
     "improve-rebind-"; "report-"; "regression-execution-"; "retrospective-"; "run-";
     "seat-"; "sweep-"; "userperson-"; "userperson-reset-"] ++
  with_widths [8]
    ["sub-adopt-"; "sub-clean-"; "sub-collect-"; "sub-disposition-"; "sub-pause-";
     "sub-reconcile-"; "sub-resume-"; "sub-spawn-"; "sub-sync-"] ++
  with_widths [16]
    ["audit-consume-"; "authority-capture-"; "build-intake-"; "cut-intake-";
     "milestone-"; "source-link-"; "undo-"; "undo-intake-"] ++
  with_widths [12]
    ["accepted_debt.rebind-"; "accepted_debt.register-"; "debt.snapshot-"; "receipt-";
     "reverify."; "source.purge-"; "source.receipt-range-"; "source.reconcile-"] ++
  with_widths [20]
    ["reconcile-"].

(** [$] also matches before a final newline. *)
Definition chomp (s : pystr) : pystr :=
  match last s with Some c => if (c =? 10)%N then take (length s - 1) s else s | None => s end.

(** The match of [_OP_ID_GRAMMAR]. *)
Definition op_id_body (ws : list nat) (body : pystr) : bool :=
  forallb is_hex body && bool_decide (length body ∈ ws).
Definition _OP_ID_GRAMMAR (op_id : pystr) : bool :=
  existsb (λ c : pystr * list nat, startswith c.1 op_id &&
    op_id_body c.2 (chomp (drop (length c.1) op_id))) OP_CLASSES.

Inductive provenance : Type := Absent | Canonical | HandAuthored.

Definition op_id_provenance (op_id : option pystr) : provenance :=
  match op_id with
  | None | Some [] => Absent
  | Some s => if _OP_ID_GRAMMAR s then Canonical else HandAuthored
  end.

(** ** Minted operation ids are path components *)

Lemma split_go_snoc c acc p b :
  c ∉ b → ∃ l z, split_go [c] 0 acc p = l ++ [z] ∧ split_go [c] 0 acc (p ++ b) = l ++ [z ++ b].
Proof.
  intros Hb. revert acc. induction p as [|a p IH]; intros acc.
  - exists [], (reverse acc). split; [done|]. simpl. revert acc.
    induction b as [|d b IHb]; intros acc; simpl; [by rewrite app_nil_r|].
    apply not_elem_of_cons in Hb as [Hd Hb].
    rewrite (proj2 (N.eqb_neq c d)) by done. simpl. rewrite (IHb Hb). rewrite reverse_cons, <-app_assoc. done.
  - simpl. destruct (c =? a)%N; simpl.
    + destruct (IH []) as (l & z & E1 & E2). exists (reverse acc :: l), z. by rewrite E1, E2.
    + apply IH.
Qed.

Lemma is_id_char_facts c :
  is_id_char c = true →
  is_space c = false ∧ is_control c = false ∧ (c < 128)%N ∧ c ≠ 47%N ∧ c ≠ 92%N ∧ c ≠ 58%N ∧ c ≠ 10%N.
Proof.
  intros H. split_and!; [destruct (is_space c) eqn:Hs; [|done];
    by rewrite (is_space_elem is_id_char c) in H|..].
  all: unfold is_id_char, is_alnum, is_AZ, is_az, is_ascii_digit, is_control, in_range in *.
  all: rewrite ?orb_true_iff, ?bool_decide_eq_true, ?andb_true_iff, ?N.leb_le, ?orb_false_iff,
         ?andb_false_iff, ?N.leb_gt in *; rewrite !elem_of_cons, elem_of_nil in H; lia.
Qed.

Lemma is_hex_id c : is_hex c = true → is_id_char c = true ∧ c ≠ 46%N.
Proof.
  unfold is_hex, is_id_char, is_alnum, is_AZ, is_az, is_ascii_digit, in_range.
  rewrite !orb_true_iff, !andb_true_iff, !N.leb_le. lia.
Qed.

Lemma id_chars_utf8 s : forallb is_id_char s = true → length (utf8 s) = length s.
Proof.
  rewrite forallb_forall. intros H. unfold utf8.
  rewrite <-(Nat.mul_1_r (length s)). induction s as [|c s IH]; [done|].
  rewrite bind_cons, length_app, IH by (intros x ?; apply H; by right).
  destruct (is_id_char_facts c) as (_ & _ & Hc & _); [apply H; by left|].
  unfold utf8_char. apply N.ltb_lt in Hc. by rewrite Hc.
Qed.

Lemma length_lower s : length s ≤ length (lower s).
Proof.
  unfold lower. induction s as [|c s IH]; [done|]. rewrite bind_cons, length_app. simpl.
  assert (1 ≤ length (lower_char c)); [|lia].
  unfold lower_char. repeat case_match; simpl; lia.
Qed.

(** What a prefix must satisfy for its ids to be components. *)
Definition prefix_ok (c : pystr * list nat) : bool :=
  match c.1 with
  | [] => false
  | a :: _ => is_alnum a && forallb is_id_char c.1
      && forallb (λ w, (8 <=? w) && (length c.1 + w <=? MAX_ID_BYTES)) c.2
      && forallb (λ part, negb (mem (lower part) _WIN_DEVICES)) (split "." c.1)
  end.

Lemma id_chars_component s a t :
  s = a :: t → is_alnum a = true → forallb is_id_char s = true → length s ≤ MAX_ID_BYTES →
  existsb (λ part, mem (lower part) _WIN_DEVICES) (split "." s) = false →
  validate_op_id s = Ok s.
Proof.
  intros Es Ha Hs Hlen Hdev. pose proof Hs as Hs'. rewrite forallb_forall in Hs'.
  assert (∀ c, c ∈ s → is_id_char c = true) as Hin by (intros c Hc; by apply Hs', list_elem_of_In).
  assert (∀ c, (c = 47 ∨ c = 92)%N → contains [c] s = false) as Hsep.
  { intros c Hc. destruct (contains [c] s) eqn:E; [|done].
    apply contains_spec in E as (l & r & E). destruct (is_id_char_facts c) as (_ & _ & _ & ? & ? & _).
    - apply Hin. rewrite E. set_solver.
    - destruct Hc; congruence. }
  assert (has_separator s = false) as Hsep'.
  { unfold has_separator. change (py "/") with [47%N]. change (py "\") with [92%N]. by rewrite !Hsep by auto. }
  assert (strip s = s) as Hstrip.
  { apply strip_trimmed. split; intros c Hc; eapply is_id_char_facts, Hin.
    - destruct s; simplify_eq/=; left.
    - apply last_Some in Hc as [l ->]. set_solver. }
  assert (a ≠ 46%N) as Ha46 by (intros ->; vm_compute in Ha; done).
  unfold validate_op_id. rewrite Hsep', orb_false_r.
  assert (nonempty s = true) as Hne by (by rewrite Es). rewrite Hne. cbn [negb].
  assert (startswith ".." s = false) as ->.
  { change (py "..") with [46; 46]%N. rewrite Es. apply startswith_head. simpl. congruence. }
  unfold validate_safe_id. rewrite Hstrip, Hne, Hsep'. cbn [negb].
  assert ((s =s py ".") = false ∧ (s =s py "..") = false) as [-> ->].
  { change (py "..") with [46; 46]%N. change (py ".") with [46%N].
    split; apply bool_decide_eq_false; rewrite Es; congruence. }
  cbn [orb].
  assert (existsb is_control s = false) as ->.
  { apply not_true_iff_false. rewrite existsb_exists. intros (c & Hc & Hctl).
    apply list_elem_of_In, Hin, is_id_char_facts in Hc as (_ & Hc & _). congruence. }
  assert (_DRIVE_RE s = false) as ->.
  { rewrite Es. destruct t as [|b t]; [done|]. simpl. destruct (b =? 58)%N eqn:Hb; [|by rewrite andb_false_r].
    apply N.eqb_eq in Hb. subst b. destruct (is_id_char_facts 58%N); [|naive_solver].
    apply Hin. rewrite Es. set_solver. }
  assert (_SAFE_ID_RE s = true) as ->.
  { rewrite Es in Hs |- *. simpl in Hs |- *. bool_tac. by rewrite Ha. }
  cbn [negb]. rewrite id_chars_utf8 by done.
  rewrite (proj2 (Nat.ltb_ge _ _)) by done. by rewrite Hdev.
Qed.

Lemma devices_short s : mem (lower s) _WIN_DEVICES = true → length s < 8.
Proof.
  intros H%mem_true. pose proof (length_lower s).
  assert (∀ d, d ∈ _WIN_DEVICES → length d < 8) as Hd; [|specialize (Hd _ H); lia].
  apply Forall_forall. vm_compute. repeat constructor.
Qed.

Lemma OP_CLASSES_ok c : c ∈ OP_CLASSES → prefix_ok c = true.
Proof.
  intros H. assert (forallb prefix_ok OP_CLASSES = true) as Hf by (vm_compute; done).
  rewrite forallb_forall in Hf. by apply Hf, list_elem_of_In.
Qed.

Lemma chomp_id s : 10%N ∉ s → chomp s = s.
Proof.
  intros H. unfold chomp. destruct (last s) as [c|] eqn:E; [|done].
  apply last_Some in E as [l ->]. rewrite (proj2 (N.eqb_neq _ _)); [done|]. set_solver.
Qed.

(** Every id the registry accepts as minted by a writer of the engine can
    become the name of an operation directory: [validate_op_id] accepts it and
    returns it unchanged, once the newline that [$] of the LOG grammar
    tolerates is excluded. *)
Theorem minted_id_is_component s :
  op_id_provenance (Some s) = Canonical → 10%N ∉ s → validate_op_id s = Ok s.
Proof.
  intros Hp Hnl. destruct s as [|c0 s0]; [done|]. cbn [op_id_provenance] in Hp. remember (c0 :: s0) as s eqn:Es0.
  destruct (_OP_ID_GRAMMAR s) eqn:Hg; [|done]. clear Hp Es0.
  apply existsb_exists in Hg as ([p ws] & Hin%list_elem_of_In & Hg). cbn [fst snd] in Hg. bool_tac.
  apply startswith_spec in H as [body ->]. rewrite drop_app_length in H0.
  rewrite chomp_id in H0 by set_solver. unfold op_id_body in H0. bool_tac.
  apply OP_CLASSES_ok in Hin. unfold prefix_ok in Hin. cbn [fst snd] in Hin.
  destruct p as [|a p]; [done|]. rewrite !andb_true_iff in Hin. destruct Hin as [[[Ha Hp] Hw] Hd].
  rename H into Hhex, H0 into Hlen. rewrite forallb_forall in Hhex, Hw.
  assert (∀ x, x ∈ body → is_id_char x = true ∧ x ≠ 46%N) as Hb.
  { intros x Hx. by apply is_hex_id, Hhex, list_elem_of_In. }
  specialize (Hw _ (proj1 (list_elem_of_In _ _) Hlen)). bool_tac.
  apply Nat.leb_le in H, H0. eapply id_chars_component; [done|done|..].
  - rewrite forallb_app, Hp. cbn [andb]. apply forallb_forall. intros x Hx. by apply Hb, list_elem_of_In.
  - rewrite length_app. lia.
  - change (py ".") with [46%N] in *. unfold split in *.
    destruct (split_go_snoc 46 [] (a :: p) body) as (l & z & E1 & E2); [intros Hx; by apply Hb in Hx as []|].
    rewrite E2, existsb_app. rewrite E1, forallb_app in Hd. bool_tac. cbn [existsb]. rewrite orb_false_r.
    apply orb_false_iff; split.
    + apply not_true_iff_false. rewrite existsb_exists. intros (x & Hx & Hm).
      rewrite forallb_forall in H1. specialize (H1 x Hx). by rewrite Hm in H1.
    + apply not_true_iff_false. intros Hm%devices_short. rewrite length_app in Hm. lia.
Qed.

Lemma minted_id_is_component_witness :
  validate_op_id "reverify.0123456789ab" = Ok (py "reverify.0123456789ab").
Proof.
  apply minted_id_is_component; [vm_compute; reflexivity|].
  apply (bool_decide_unpack _). vm_compute. exact I.
Defined.

Example hand_authored_id : op_id_provenance (Some (py "verify-0123456789abcdef0123456789abcdef")) = HandAuthored.
Proof. vm_compute. reflexivity. Qed.
