(* ===== verification/JournalRecord.v ===== *)
(** * Operation records

    The record of a journaled operation as it stands on disk, and its strict
    decoder (journal.py, [decode_operation_record]). The manifest
    [operation.json] and the sidecar [progress.json] are JSON documents; the
    model starts at the parsed document, and a refusal is the stable code with
    the field it names, without the text for the reader. *)

From S2P Require Import Prelude PyStr PyStrFacts PyDict Sha256 JournalFs SafeId BoardClock.

(** ** JSON documents *)

Inductive json : Type :=
  | JNull
  | JBool (b : bool)
  | JInt (z : Z)
  | JFloat (repr : pystr)
  | JStr (s : pystr)
  | JArr (l : list json)
  | JObj (d : list (pystr * json)).

(** [d.get(k)]: an absent key reads like [null]. *)
Definition jget (k : pystr) (d : dict pystr json) : json := default JNull (dget k d).
Definition is_jstr (j : json) : bool := match j with JStr _ => true | _ => false end.

(** A file of the operation directory: absent, not JSON, or a document. *)
Inductive jfile : Type := Absent | Garbage | Document (j : json).

(** ** The vocabulary of a record *)

Inductive status : Type :=
  PREPARED | APPLYING | VERIFIED | COMMITTED | ABORTED | CONFLICT | RESOLVED.
Global Instance status_eq_dec : EqDecision status.
Proof. solve_decision. Defined.

Definition status_str (s : status) : pystr :=
  match s with
  | PREPARED => "PREPARED" | APPLYING => "APPLYING" | VERIFIED => "VERIFIED"
  | COMMITTED => "COMMITTED" | ABORTED => "ABORTED" | CONFLICT => "CONFLICT"
  | RESOLVED => "RESOLVED"
  end.
Definition STATUS : list status :=
  [PREPARED; APPLYING; VERIFIED; COMMITTED; ABORTED; CONFLICT; RESOLVED].
Definition SETTLED : list status := [COMMITTED; ABORTED; RESOLVED].
Definition UNRESOLVED : list status := [PREPARED; APPLYING; VERIFIED; CONFLICT].
Definition settled (s : status) : bool := bool_decide (s ∈ SETTLED).
Definition unresolved (s : status) : bool := bool_decide (s ∈ UNRESOLVED).
Definition status_of (s : pystr) : option status := find_first (λ x, status_str x =s s) STATUS.

Definition ROLES : list pystr :=
  strs ["log"; "board"; "state"; "manifest"; "report"; "sweep"; "contract"; "contract_revision";
        "coverage"; "generic"].
Definition VERIFICATION_POLICIES : list pystr :=
  strs ["core_fast"; "improve_atomic_file"; "improve_retrospective_v1"; "userperson"; "sub_collect";
        "sub_disposition"; "sub_lifecycle"; "sub_clean"; "sub_sync"; "accepted_debt"; "none"].

Inductive action : Type := Write | DeleteFile | DeleteDir.
Global Instance action_eq_dec : EqDecision action.
Proof. solve_decision. Defined.
Definition action_str (a : action) : pystr :=
  match a with Write => "write" | DeleteFile => "delete_file" | DeleteDir => "delete_dir" end.
Definition TARGET_ACTIONS : list action := [Write; DeleteFile; DeleteDir].
Definition action_of (s : pystr) : option action := find_first (λ x, action_str x =s s) TARGET_ACTIONS.

Record target : Type := Target {
  t_path : pystr;
  t_role : pystr;
  t_action : action;
  t_before : pystr;
  t_after : pystr;
  t_applied : bool;
}.

Record oprec : Type := OpRec {
  r_op_id : pystr;
  r_operation : pystr;
  r_created_at : pystr;
  r_agent : pystr;
  r_identity : pystr;
  r_lineage : option pystr;
  r_payload_hash : pystr;
  r_preconditions : dict pystr pystr;
  r_read_preconditions : dict pystr pystr;
  r_policy : pystr;
  r_status : status;
  r_progress : Z;
  r_targets : list target;
  r_metadata : option (dict pystr json);
}.

(** ** Refusals *)

Inductive refusal : Type :=
  | RecoveryConflict
  | ValidationFailed (field : pystr).

Definition check (b : bool) (e : refusal) : res refusal () := if b then Ok tt else Err e.
Definition the_str (j : json) (field : pystr) : res refusal pystr :=
  match j with JStr s => Ok s | _ => Err (ValidationFailed field) end.

(** ** Fields *)

(** [_canonical_receipt_metadata] *)
Definition _canonical_receipt_metadata (value : json) : res refusal (option (dict pystr json)) :=
  match value with
  | JNull => Ok None
  | JObj d =>
      match dget (py "ticket_id") d with
      | None => Ok (Some d)
      | Some JNull | Some (JStr []) => Ok (Some (base.filter (λ e, e.1 ≠ py "ticket_id") d))
      | Some (JStr _) => Ok (Some d)
      | Some _ => Err (ValidationFailed "receipt_metadata.ticket_id")
      end
  | _ => Err (ValidationFailed "receipt_metadata")
  end.

Definition metadata_str_keys : list pystr :=
  strs ["operation"; "status"; "event_id"; "crew_epoch"; "role"; "stage"; "verdict";
        "package_identity"; "source_head"; "source_tree_fingerprint"; "undo_target"; "undo_reason";
        "undo_current"; "undo_restore_plan_hash"; "resulting_source_head";
        "resulting_source_tree_fingerprint"; "producer"; "input_source";
        "input_source_fingerprint"; "resulting_source"; "resulting_source_fingerprint"].

Definition metadata_key_ok (d : dict pystr json) (key : pystr) : bool :=
  match dget key d with None => true | Some j => is_jstr j end.
Definition metadata_path_ok (e : pystr * json) : bool :=
  nonempty e.1 && match e.2 with JNull | JStr _ => true | _ => false end.

Definition check_metadata (d : dict pystr json) : res refusal () :=
  match find_first (λ k, negb (metadata_key_ok d k)) metadata_str_keys with
  | Some k => Err (ValidationFailed (py "receipt_metadata." +s k))
  | None =>
      match dget (py "paths") d with
      | None => Ok tt
      | Some (JObj paths) =>
          check (forallb metadata_path_ok paths) (ValidationFailed "receipt_metadata.paths")
      | Some _ => Err (ValidationFailed "receipt_metadata.paths")
      end
  end.

Definition decode_metadata (value : json) : res refusal (option (dict pystr json)) :=
  m ← _canonical_receipt_metadata value;
  match m with
  | None => Ok None
  | Some d => check_metadata d ;; Ok (Some d)
  end.

(** A map of nonempty paths to hashes. *)
Fixpoint str_map (key : pystr) (d : list (pystr * json)) : res refusal (dict pystr pystr) :=
  match d with
  | [] => Ok []
  | (p, JStr h) :: d' =>
      check (nonempty p) (ValidationFailed key) ;;
      m ← str_map key d';
      Ok ((p, h) :: m)
  | _ => Err (ValidationFailed key)
  end.
Definition decode_map (key : pystr) (d : dict pystr json) : res refusal (dict pystr pystr) :=
  match dget key d with
  | None => Ok []
  | Some (JObj m) => str_map key m
  | Some _ => Err (ValidationFailed key)
  end.

Definition decode_lineage (j : json) : res refusal (option pystr) :=
  match j with
  | JNull => Ok None
  | JStr s => Ok (Some s)
  | _ => Err (ValidationFailed "project_lineage")
  end.

Definition decode_policy (d : dict pystr json) : res refusal pystr :=
  match dget (py "verification_policy") d with
  | None => Ok (py "none")
  | Some (JStr p) => check (mem p VERIFICATION_POLICIES) (ValidationFailed "verification_policy") ;; Ok p
  | Some _ => Err (ValidationFailed "verification_policy")
  end.

(** In Python a boolean is an integer. *)
Definition decode_progress_index (j : json) : res refusal Z :=
  match j with
  | JInt z => Ok z
  | JBool b => Ok (if b then 1 else 0)%Z
  | _ => Err (ValidationFailed "progress_index")
  end.

(** ** Targets *)

Definition _slug (rel_path : pystr) : pystr := replace "\" "__" (replace "/" "__" rel_path).
Definition staged_name (index : nat) (canonical_path : pystr) : pystr :=
  str_of (N.of_nat index) +s py "_" +s take 16 (hexdigest (utf8 canonical_path)) +s py ".staged".
Definition legacy_staged_name (index : nat) (rel_path : pystr) : pystr :=
  str_of (N.of_nat index) +s py "_" +s _slug rel_path +s py ".staged".

Definition target_field (index : nat) (name : string) : refusal :=
  ValidationFailed (py "targets[" +s str_of (N.of_nat index) +s py "]" +s py name).

Definition decode_action (index : nat) (d : dict pystr json) : res refusal action :=
  match dget (py "action") d with
  | None => Ok Write
  | Some (JStr s) =>
      match action_of s with Some a => Ok a | None => Err (target_field index ".action") end
  | Some _ => Err (target_field index ".action")
  end.

Definition decode_applied (index : nat) (d : dict pystr json) : res refusal bool :=
  match dget (py "applied") d with
  | Some (JBool b) => Ok b
  | _ => Err (target_field index ".applied")
  end.

Section decode.
(** The resolved root of the project, and the files of the operation directory. *)
Context (root : path) (is_staged : pystr → bool).

(** [owned_target_path(root, rel).relative_to(root).as_posix()] *)
Definition canonical_path (rel : pystr) : option pystr := as_posix <$> owned_target_path root rel.

Definition decode_target (base_status : status) (seen : list pystr) (index : nat) (j : json)
    : res refusal (target * pystr) :=
  match j with
  | JObj d =>
      p ← the_str (jget "path" d) (py "targets[" +s str_of (N.of_nat index) +s py "].path");
      role ← the_str (jget "role" d) (py "targets[" +s str_of (N.of_nat index) +s py "].role");
      before ← the_str (jget "before_hash" d) (py "targets[" +s str_of (N.of_nat index) +s py "].before_hash");
      after ← the_str (jget "after_hash" d) (py "targets[" +s str_of (N.of_nat index) +s py "].after_hash");
      check (nonempty p) (target_field index ".path") ;;
      match canonical_path p with
      | None => Err (target_field index ".path")
      | Some canonical =>
          check (negb (mem canonical seen)) (target_field index ".path") ;;
          check (mem role ROLES) (target_field index ".role") ;;
          a ← decode_action index d;
          applied ← decode_applied index d;
          check (match dget (py "content") d with None => true | Some c => is_jstr c end)
                (target_field index ".content") ;;
          check (negb (unresolved base_status && bool_decide (a = Write)
                       && negb (is_staged (staged_name index canonical))
                       && negb (is_staged (legacy_staged_name index p))))
                (target_field index ".path") ;;
          Ok (Target p role a before after applied, canonical)
      end
  | _ => Err (target_field index "")
  end.

Fixpoint decode_targets (base_status : status) (seen : list pystr) (index : nat) (js : list json)
    : res refusal (list target) :=
  match js with
  | [] => Ok []
  | j :: js' =>
      tc ← decode_target base_status seen index j;
      ts ← decode_targets base_status (tc.2 :: seen) (S index) js';
      Ok (tc.1 :: ts)
  end.

(** [record.get("created_at") or ""], which must be a strict stamp while the
    operation is unresolved. *)
Definition decode_created_at (base_status : status) (created_at : pystr) : res refusal pystr :=
  let parsed := strict_iso_utc created_at in
  check (negb (unresolved base_status && negb (nonempty parsed))) (ValidationFailed "created_at") ;;
  Ok (if nonempty parsed then parsed else created_at).

(** The manifest part of [decode_operation_record]. *)
Definition decode_manifest (dir_name : pystr) (f : jfile) : res refusal oprec :=
  match f with
  | Document (JObj d) =>
      op_id ← the_str (jget "op_id" d) "op_id";
      check (nonempty op_id) (ValidationFailed "op_id") ;;
      check (is_ok (validate_op_id op_id)) (ValidationFailed "op_id") ;;
      check (dir_name =s op_id) (ValidationFailed "op_id") ;;
      status_text ← the_str (jget "status" d) "status";
      match status_of status_text with
      | None => Err (ValidationFailed "status")
      | Some st =>
          operation ← the_str (jget "operation" d) "operation";
          check (nonempty operation) (ValidationFailed "operation") ;;
          payload ← the_str (jget "semantic_payload_hash" d) "semantic_payload_hash";
          created_text ← the_str (jget "created_at" d) "created_at";
          created_at ← decode_created_at st created_text;
          agent ← the_str (jget "agent" d) "agent";
          identity ← the_str (jget "project_identity" d) "project_identity";
          lineage ← decode_lineage (jget "project_lineage" d);
          policy ← decode_policy d;
          pre ← decode_map "preconditions" d;
          read_pre ← decode_map "read_preconditions" d;
          metadata ← decode_metadata (jget "receipt_metadata" d);
          progress ← decode_progress_index (jget "progress_index" d);
          match jget "targets" d with
          | JArr js =>
              targets ← decode_targets st [] 0 js;
              Ok (OpRec op_id operation created_at agent identity lineage payload pre read_pre
                        policy st progress targets metadata)
          | _ => Err (ValidationFailed "targets")
          end
      end
  | _ => Err RecoveryConflict
  end.
End decode.

(** ** The progress sidecar *)

Record sidecar : Type := Sidecar {
  s_status : option status;
  s_index : option Z;
  s_frontier : option Z;
}.

(** An optional integer field, in a range; a boolean is not one here. *)
Definition decode_range (j : json) (lo hi : Z) (field : string) : res refusal (option Z) :=
  match j with
  | JNull => Ok None
  | JInt z => check ((lo <=? z) && (z <=? hi))%Z (ValidationFailed (py field)) ;; Ok (Some z)
  | _ => Err (ValidationFailed (py field))
  end.

Definition decode_sidecar_status (j : json) : res refusal (option status) :=
  match j with
  | JNull => Ok None
  | JStr s => match status_of s with
              | Some st => Ok (Some st)
              | None => Err (ValidationFailed "progress.json status")
              end
  | _ => Err (ValidationFailed "progress.json status")
  end.

Definition _decode_progress_sidecar (f : jfile) (n : nat) (base_status : status)
    (allow_settlement_fold : bool) : res refusal sidecar :=
  match f with
  | Document (JObj data) =>
      st ← decode_sidecar_status (jget "status" data);
      index ← decode_range (jget "progress_index" data) 0 (Z.of_nat n) "progress.json progress_index";
      frontier ← decode_range (jget "applied_frontier" data) (-1) (Z.max (Z.of_nat n - 1) (-1))
                   "progress.json applied_frontier";
      check (match st with
             | Some s => negb (settled s && negb (settled base_status)) || allow_settlement_fold
             | None => true
             end) RecoveryConflict ;;
      Ok (Sidecar st index frontier)
  | _ => Err RecoveryConflict
  end.

Definition set_applied (t : target) : target :=
  Target (t_path t) (t_role t) (t_action t) (t_before t) (t_after t) true.

(** The first [k] targets are marked as applied. *)
Fixpoint mark_prefix (k : nat) (ts : list target) : list target :=
  match k, ts with
  | S k', t :: ts' => set_applied t :: mark_prefix k' ts'
  | _, _ => ts
  end.

Definition merge_sidecar (r : oprec) (s : sidecar) : oprec :=
  OpRec (r_op_id r) (r_operation r) (r_created_at r) (r_agent r) (r_identity r) (r_lineage r)
        (r_payload_hash r) (r_preconditions r) (r_read_preconditions r) (r_policy r)
        (default (r_status r) (s_status s)) (default (r_progress r) (s_index s))
        (match s_frontier s with
         | Some z => mark_prefix (Z.to_nat (z + 1)) (r_targets r)
         | None => r_targets r
         end) (r_metadata r).

(** [_merge_progress_sidecar]: no sidecar leaves the record as it is. *)
Definition _merge_progress_sidecar (progress : jfile) (r : oprec) (allow_settlement_fold : bool)
    : res refusal oprec :=
  match progress with
  | Absent => Ok r
  | f => s ← _decode_progress_sidecar f (length (r_targets r)) (r_status r) allow_settlement_fold;
         Ok (merge_sidecar r s)
  end.

(** [decode_operation_record] *)
Definition decode_operation_record (root : path) (is_staged : pystr → bool) (dir_name : pystr)
    (manifest progress : jfile) (allow_settlement_fold : bool) : res refusal oprec :=
  r ← decode_manifest root is_staged dir_name manifest;
  _merge_progress_sidecar progress r allow_settlement_fold.

(** ** Writing a record *)

Definition encode_map (m : dict pystr pystr) : json := JObj ((λ e, (e.1, JStr e.2)) <$> m).

Definition encode_target (t : target) : json :=
  JObj [(py "path", JStr (t_path t)); (py "role", JStr (t_role t));
        (py "action", JStr (action_str (t_action t))); (py "before_hash", JStr (t_before t));
        (py "after_hash", JStr (t_after t)); (py "applied", JBool (t_applied t))].

(** The record [Journal.start] writes. A record that is read back and written
    again states the action of each target, and keeps the keys it knows. *)
Definition encode_record (r : oprec) : json :=
  JObj ([(py "op_id", JStr (r_op_id r)); (py "operation", JStr (r_operation r));
         (py "created_at", JStr (r_created_at r)); (py "agent", JStr (r_agent r));
         (py "project_identity", JStr (r_identity r));
         (py "project_lineage", match r_lineage r with Some l => JStr l | None => JNull end);
         (py "semantic_payload_hash", JStr (r_payload_hash r));
         (py "preconditions", encode_map (r_preconditions r));
         (py "read_preconditions", encode_map (r_read_preconditions r));
         (py "verification_policy", JStr (r_policy r));
         (py "status", JStr (status_str (r_status r)));
         (py "progress_index", JInt (r_progress r));
         (py "targets", JArr (encode_target <$> r_targets r))]
        ++ match r_metadata r with Some d => [(py "receipt_metadata", JObj d)] | None => [] end).

(** ** Well-formed records *)

Lemma check_Ok b e u : check b e = Ok u → b = true.
Proof. by destruct b. Qed.

Lemma check_true {A} b e (k : res refusal A) : b = true → (check b e ;; k) = k.
Proof. by intros ->. Qed.

Lemma the_str_Ok j f s : the_str j f = Ok s → j = JStr s.
Proof. destruct j; simpl; intros; by simplify_eq. Qed.

(** Split a successful decoding into the success of its steps. *)
Ltac inv_res H :=
  repeat match type of H with
  | (_ ≫= _) = Ok _ =>
      let a := fresh "a" in let Ha := fresh "Hstep" in
      apply res_bind_Ok in H as (a & Ha & H);
      first [apply check_Ok in Ha; clear a | apply the_str_Ok in Ha | idtac]
  end.

Lemma status_of_str s : status_of (status_str s) = Some s.
Proof. by destruct s. Qed.

Lemma action_of_str a : action_of (action_str a) = Some a.
Proof. by destruct a. Qed.

Section wf.
Context (root : path) (is_staged : pystr → bool).

Definition evidence (st : status) (i : nat) (t : target) (c : pystr) : Prop :=
  unresolved st = true → t_action t = Write →
  is_staged (staged_name i c) = true ∨ is_staged (legacy_staged_name i (t_path t)) = true.

Inductive targets_wf (st : status) : list pystr → nat → list target → Prop :=
  | targets_wf_nil seen i : targets_wf st seen i []
  | targets_wf_cons seen i t c ts :
      nonempty (t_path t) = true → canonical_path root (t_path t) = Some c →
      mem c seen = false → mem (t_role t) ROLES = true → evidence st i t c →
      targets_wf st (c :: seen) (S i) ts →
      targets_wf st seen i (t :: ts).

Definition metadata_wf (m : option (dict pystr json)) : Prop :=
  match m with
  | None => True
  | Some d => _canonical_receipt_metadata (JObj d) = Ok (Some d) ∧ check_metadata d = Ok tt
  end.

(** What the strict decoder promises of a manifest in the directory [dir]. *)
Record record_wf (dir : pystr) (r : oprec) : Prop := RecordWf {
  wf_op_id : dir = r_op_id r;
  wf_op_id_nonempty : nonempty (r_op_id r) = true;
  wf_op_id_safe : is_ok (validate_op_id (r_op_id r)) = true;
  wf_operation : nonempty (r_operation r) = true;
  wf_created_at : decode_created_at (r_status r) (r_created_at r) = Ok (r_created_at r);
  wf_policy : mem (r_policy r) VERIFICATION_POLICIES = true;
  wf_preconditions : Forall (λ e, nonempty e.1 = true) (r_preconditions r);
  wf_read_preconditions : Forall (λ e, nonempty e.1 = true) (r_read_preconditions r);
  wf_metadata : metadata_wf (r_metadata r);
  wf_targets : targets_wf (r_status r) [] 0 (r_targets r);
}.

(** *** Decoding yields a well-formed record *)

Lemma decode_target_wf st seen i j t c :
  decode_target root is_staged st seen i j = Ok (t, c) →
  nonempty (t_path t) = true ∧ canonical_path root (t_path t) = Some c ∧
  mem c seen = false ∧ mem (t_role t) ROLES = true ∧ evidence st i t c.
Proof.
  intros H. destruct j as [| | | | | |d]; try done. unfold decode_target in H. inv_res H.
  destruct (canonical_path root a) as [canonical|] eqn:E; [|done]. inv_res H. simplify_eq. simpl.
  split_and!; [done|done|by apply negb_true_iff|done|].
  intros Hst Ha. simpl in Ha. subst. simpl.
  match goal with H : negb (unresolved _ && _ && _ && _) = true |- _ => revert H end.
  rewrite Hst, bool_decide_true by done.
  destruct (is_staged (staged_name i c)); [by left|].
  destruct (is_staged (legacy_staged_name i a)); [by right|done].
Qed.

Lemma decode_targets_wf st seen i js ts :
  decode_targets root is_staged st seen i js = Ok ts → targets_wf st seen i ts.
Proof.
  revert seen i ts. induction js as [|j js IH]; intros seen i ts H; simpl in H; [simplify_eq; constructor|].
  apply res_bind_Ok in H as ([t c] & Ht & H). apply res_bind_Ok in H as (ts' & Hts & H). simplify_eq.
  apply decode_target_wf in Ht as (? & ? & ? & ? & ?). econstructor; eauto.
Qed.

Lemma str_map_wf key d m : str_map key d = Ok m → Forall (λ e, nonempty e.1 = true) m.
Proof.
  revert m. induction d as [|[p j] d IH]; intros m H; simpl in H; [by simplify_eq|].
  destruct j; try done. inv_res H. simplify_eq. constructor; auto.
Qed.

Lemma decode_map_wf key d m : decode_map key d = Ok m → Forall (λ e, nonempty e.1 = true) m.
Proof.
  unfold decode_map. intros H. destruct (dget key d) as [[]|]; simplify_eq; try done.
  by apply str_map_wf in H.
Qed.

Lemma canonical_metadata_idemp j d :
  _canonical_receipt_metadata j = Ok (Some d) → _canonical_receipt_metadata (JObj d) = Ok (Some d).
Proof.
  assert (∀ d : dict pystr json, dget (py "ticket_id") (base.filter (λ e, e.1 ≠ py "ticket_id") d) = None) as Hf.
  { intros d'. apply dget_None. intros (e & He & Hin)%list_elem_of_fmap.
    by apply list_elem_of_filter in Hin as [? _]. }
  unfold _canonical_receipt_metadata. intros H. destruct j as [| | | | | |d0]; try done.
  destruct (dget (py "ticket_id") d0) as [[| | | |[|c s]| |]|] eqn:E; simplify_eq; by rewrite ?E, ?Hf.
Qed.

Lemma decode_metadata_wf j m : decode_metadata j = Ok m → metadata_wf m.
Proof.
  unfold decode_metadata. intros H. apply res_bind_Ok in H as ([d|] & Hc & H); [|by simplify_eq].
  apply res_bind_Ok in H as ([] & Hm & H). simplify_eq. split; [by eapply canonical_metadata_idemp|done].
Qed.

Lemma decode_policy_wf d p : decode_policy d = Ok p → mem p VERIFICATION_POLICIES = true.
Proof.
  unfold decode_policy. intros H. destruct (dget _ d) as [[]|]; try done; inv_res H; by simplify_eq.
Qed.

Lemma decode_created_at_idemp st c c' :
  decode_created_at st c = Ok c' → decode_created_at st c' = Ok c'.
Proof.
  unfold decode_created_at. cbv zeta. intros H. inv_res H. simplify_eq.
  destruct (nonempty (strict_iso_utc c)) eqn:E; [|by rewrite E, check_true].
  rewrite (strict_iso_utc_key c) in *. destruct (iso_utc_sort_key c) as [t|] eqn:Et; [|done].
  rewrite (strict_iso_utc_key (isoformat t ++ _)), stamp_roundtrip by (by eapply iso_utc_sort_key_valid).
  by rewrite E, check_true.
Qed.

Lemma decode_manifest_wf dir f r : decode_manifest root is_staged dir f = Ok r → record_wf dir r.
Proof.
  intros H. destruct f as [| |[| | | | | |d]]; try done. unfold decode_manifest in H. inv_res H.
  destruct (status_of _) as [st|]; [|done]. inv_res H. destruct (jget (py "targets") d); try done.
  inv_res H. simplify_eq. split; simpl; try done; eauto using decode_map_wf, decode_metadata_wf,
    decode_policy_wf, decode_targets_wf, decode_created_at_idemp. by apply eqs_true.
Qed.

(** *** A well-formed record is read back as it was written *)

Lemma str_map_encode key m :
  Forall (λ e, nonempty e.1 = true) m → str_map key ((λ e, (e.1, JStr e.2)) <$> m) = Ok m.
Proof.
  induction 1 as [|[p h] m Hp Hm IH]; [done|]. rewrite fmap_cons. simpl in *. by rewrite Hp, IH.
Qed.

Lemma decode_target_encode st seen i t c :
  nonempty (t_path t) = true → canonical_path root (t_path t) = Some c →
  mem c seen = false → mem (t_role t) ROLES = true → evidence st i t c →
  decode_target root is_staged st seen i (encode_target t) = Ok (t, c).
Proof.
  intros Hp Hc Hseen Hrole Hev. unfold encode_target, decode_target.
  match goal with |- context [jget (py "path") ?l] => set (d := l) end.
  change (jget (py "path") d) with (JStr (t_path t)). change (jget (py "role") d) with (JStr (t_role t)).
  change (jget (py "before_hash") d) with (JStr (t_before t)).
  change (jget (py "after_hash") d) with (JStr (t_after t)).
  change (dget (py "content") d) with (@None json).
  assert (decode_action i d = Ok (t_action t)) as ->.
  { unfold decode_action. change (dget (py "action") d) with (Some (JStr (action_str (t_action t)))).
    cbv beta iota. by rewrite action_of_str. }
  change (decode_applied i d) with (Ok (E := refusal) (t_applied t)).
  cbn [the_str mbind res_bind]. rewrite Hp, Hc, Hseen, Hrole. cbn.
  rewrite check_true; [by destruct t|]. apply negb_true_iff.
  destruct (unresolved st) eqn:Hst; [|done]. case_bool_decide as Ha; [|done].
  destruct (Hev Hst Ha) as [->| ->]; by destruct (is_staged _).
Qed.

Lemma decode_targets_encode st seen i ts :
  targets_wf st seen i ts → decode_targets root is_staged st seen i (encode_target <$> ts) = Ok ts.
Proof.
  induction 1 as [|seen i t c ts Hp Hc Hseen Hrole Hev _ IH]; [done|].
  rewrite fmap_cons. cbn [decode_targets]. rewrite (decode_target_encode _ _ _ _ c) by done.
  cbn [mbind res_bind fst snd]. by rewrite IH.
Qed.

Lemma decode_metadata_encode m :
  metadata_wf m → decode_metadata (match m with Some d => JObj d | None => JNull end) = Ok m.
Proof.
  destruct m as [d|]; [|done]. intros [Hc Hm]. unfold decode_metadata. rewrite Hc.
  cbn [mbind res_bind]. by rewrite Hm.
Qed.

Lemma decode_manifest_encode dir r :
  record_wf dir r → decode_manifest root is_staged dir (Document (encode_record r)) = Ok r.
Proof.
  intros [Hid Hne Hsafe Hop Hcr Hpol Hpre Hread Hmeta Hts]. unfold encode_record, decode_manifest.
  match goal with |- context [jget (py "op_id") ?l] => set (d := l) end.
  change (jget (py "op_id") d) with (JStr (r_op_id r)).
  change (jget (py "status") d) with (JStr (status_str (r_status r))).
  change (jget (py "operation") d) with (JStr (r_operation r)).
  change (jget (py "semantic_payload_hash") d) with (JStr (r_payload_hash r)).
  change (jget (py "created_at") d) with (JStr (r_created_at r)).
  change (jget (py "agent") d) with (JStr (r_agent r)).
  change (jget (py "project_identity") d) with (JStr (r_identity r)).
  change (jget (py "project_lineage") d) with (match r_lineage r with Some l => JStr l | None => JNull end).
  change (jget (py "progress_index") d) with (JInt (r_progress r)).
  change (jget (py "targets") d) with (JArr (encode_target <$> r_targets r)).
  assert (decode_policy d = Ok (r_policy r)) as ->.
  { unfold decode_policy. change (dget (py "verification_policy") d) with (Some (JStr (r_policy r))).
    cbv beta iota. by rewrite check_true by apply Hpol. }
  assert (decode_map "preconditions" d = Ok (r_preconditions r)) as ->.
  { unfold decode_map. change (dget (py "preconditions") d) with (Some (encode_map (r_preconditions r))).
    by apply str_map_encode. }
  assert (decode_map "read_preconditions" d = Ok (r_read_preconditions r)) as ->.
  { unfold decode_map. change (dget (py "read_preconditions") d) with (Some (encode_map (r_read_preconditions r))).
    by apply str_map_encode. }
  assert (jget (py "receipt_metadata") d = match r_metadata r with Some m => JObj m | None => JNull end) as ->.
  { unfold d. by destruct (r_metadata r). }
  assert (decode_lineage (match r_lineage r with Some l => JStr l | None => JNull end) = Ok (r_lineage r)) as ->.
  { by destruct (r_lineage r). }
  assert ((dir =s r_op_id r) = true) as Hid' by (by apply eqs_true).
  cbn [the_str mbind res_bind]. rewrite Hne, Hsafe, Hid', status_of_str, Hop. cbn [check mbind res_bind].
  rewrite Hcr. cbn [mbind res_bind]. rewrite decode_metadata_encode by done.
  cbn [mbind res_bind decode_progress_index]. rewrite decode_targets_encode by done. by destruct r.
Qed.
End wf.

Lemma targets_wf_paths root staged st seen i ts :
  targets_wf root staged st seen i ts →
  ∃ cs, Forall2 (λ t c, canonical_path root (t_path t) = Some c) ts cs
        ∧ NoDup cs ∧ (∀ c, c ∈ cs → c ∉ seen).
Proof.
  induction 1 as [|seen i t c ts Hp Hc Hseen Hrole Hev _ (cs & Hcs & Hnd & Hs)].
  - exists []. split_and!; [constructor|constructor|]. by intros c ?%elem_of_nil.
  - exists (c :: cs). apply bool_decide_eq_false in Hseen. split_and!.
    + by constructor.
    + constructor; [|done]. intros Hin. apply (Hs c Hin). left.
    + intros c' [->|Hin]%elem_of_cons; [done|]. specialize (Hs _ Hin). set_solver.
Qed.

Lemma targets_wf_mark root staged st seen i ts k :
  targets_wf root staged st seen i ts → targets_wf root staged st seen i (mark_prefix k ts).
Proof.
  intros H. revert k. induction H as [|seen i t c ts Hp Hc Hseen Hrole Hev H IH]; intros [|k]; simpl;
    try by econstructor.
Qed.

Lemma mark_prefix_path k ts : t_path <$> mark_prefix k ts = t_path <$> ts.
Proof. revert k. induction ts as [|t ts IH]; intros [|k]; try done. cbn [mark_prefix]. by rewrite !fmap_cons, IH. Qed.

Lemma decode_operation_record_Ok root staged dir man prog fold r :
  decode_operation_record root staged dir man prog fold = Ok r →
  ∃ r0, decode_manifest root staged dir man = Ok r0 ∧
    (prog = Absent ∧ r = r0 ∨
     ∃ s, _decode_progress_sidecar prog (length (r_targets r0)) (r_status r0) fold = Ok s ∧
          r = merge_sidecar r0 s).
Proof.
  unfold decode_operation_record. intros (r0 & Hm & H)%res_bind_Ok. exists r0. split; [done|].
  unfold _merge_progress_sidecar in H. destruct prog; [left; by simplify_eq|right..];
    apply res_bind_Ok in H as (s & Hs & H); simplify_eq; eauto.
Qed.

(** ** Properties *)

(** C39: Whatever bytes the operation directory holds, a record the strict decoder
    returns names its own directory by a safe identifier, has a registered
    verification policy, and its targets have roles of the closed set and
    resolve to pairwise distinct paths inside the project. *)
Theorem decoded_record_closed root staged dir man prog r :
  decode_operation_record root staged dir man prog false = Ok r →
  r_op_id r = dir ∧ is_ok (validate_op_id dir) = true ∧ r_policy r ∈ VERIFICATION_POLICIES ∧
  Forall (λ t, t_role t ∈ ROLES) (r_targets r) ∧
  ∃ cs, Forall2 (λ t c, canonical_path root (t_path t) = Some c) (r_targets r) cs ∧ NoDup cs.
Proof.
  intros (r0 & Hm%decode_manifest_wf & Hr)%decode_operation_record_Ok.
  destruct Hm as [Hid Hne Hsafe Hop Hcr Hpol Hpre Hread Hmeta Hts].
  assert (r_op_id r = r_op_id r0 ∧ r_policy r = r_policy r0 ∧
    targets_wf root staged (r_status r0) [] 0 (r_targets r)) as (-> & -> & Hts').
  { destruct Hr as [[_ ->]|(s & _ & ->)]; [done|]. simpl. split_and!; [done..|].
    destruct (s_frontier s); [by apply targets_wf_mark|done]. }
  split_and!; [done|by rewrite Hid|by apply mem_true|..].
  - clear -Hts'. induction Hts' as [|???????? Hrole]; constructor; [by apply mem_true|done].
  - destruct (targets_wf_paths _ _ _ _ _ _ Hts') as (cs & ? & ? & _). eauto.
Qed.

(** The sidecar only reports progress: it never settles an operation whose
    manifest is unresolved, its progress index lies within the plan, and it
    changes nothing of a target but the [applied] flag. *)
Theorem sidecar_never_settles root staged dir man prog r0 r :
  decode_manifest root staged dir man = Ok r0 →
  decode_operation_record root staged dir man prog false = Ok r →
  (settled (r_status r0) = false → settled (r_status r) = false) ∧
  (r_progress r = r_progress r0 ∨ 0 ≤ r_progress r ≤ Z.of_nat (length (r_targets r0)))%Z ∧
  Forall2 (λ t0 t, t = t0 ∨ t = set_applied t0) (r_targets r0) (r_targets r).
Proof.
  intros Hm (r1 & Hm1 & Hr)%decode_operation_record_Ok. rewrite Hm in Hm1. simplify_eq.
  destruct Hr as [[_ ->]|(s & Hs & ->)].
  { split; [done|]. split; [by left|]. apply Forall_Forall2_diag, Forall_true. by left. }
  destruct prog as [| |[| | | | | |d]]; try done. unfold _decode_progress_sidecar in Hs.
  apply res_bind_Ok in Hs as (st & Hst & Hs). apply res_bind_Ok in Hs as (ix & Hix & Hs).
  inv_res Hs. simplify_eq. simpl. split_and!.
  - intros Hset. destruct st as [st|]; [|done]. simpl. rewrite Hset in *.
    by destruct (settled st).
  - destruct ix as [z|]; [|by left]. right. simpl. unfold decode_range in Hix.
    destruct (jget (py "progress_index") d); try done. inv_res Hix. simplify_eq. bool_tac. lia.
  - destruct a as [z|]; [|apply Forall_Forall2_diag, Forall_true; by left].
    generalize (Z.to_nat (z + 1)). generalize (r_targets r1). clear.
    induction l as [|t l IH]; intros [|n]; simpl; constructor; eauto.
    apply Forall_Forall2_diag, Forall_true. by left.
Qed.

(** Writing a well-formed record and decoding it again gives the same record:
    publishing a manifest loses nothing the engine reads. *)
Theorem record_roundtrip root staged dir r :
  record_wf root staged dir r →
  decode_operation_record root staged dir (Document (encode_record r)) Absent false = Ok r.
Proof.
  intros H. unfold decode_operation_record. by rewrite decode_manifest_encode.
Qed.

(** A small record, with its staged evidence. *)
Definition sample_record : oprec :=
  OpRec "goal-0123abcd" "goal" "2024-02-29T10:00:00Z" "agent-a" "rt" (Some (py "lin")) "hash"
    [] [(py "b.md", py "file-missing-v1")] "none" PREPARED 0
    [Target "a.md" "board" Write "" (hash_bytes [97%N]) false] None.
Definition sample_staged (n : pystr) : bool := n =s staged_name 0 "a.md".

Lemma decoded_record_closed_witness :
  r_op_id sample_record ∈ [py "goal-0123abcd"] ∧
  ∃ cs, Forall2 (λ t c, canonical_path [] (t_path t) = Some c) (r_targets sample_record) cs ∧ NoDup cs.
Proof.
  destruct (decoded_record_closed [] sample_staged "goal-0123abcd"
    (Document (encode_record sample_record)) Absent sample_record) as (H1 & _ & _ & _ & H2);
    [vm_compute; reflexivity|]. split; [rewrite H1; left|exact H2].
Defined.

Lemma sidecar_never_settles_witness :
  settled APPLYING = false ∧ decode_operation_record [] sample_staged "goal-0123abcd"
    (Document (encode_record sample_record))
    (Document (JObj [(py "status", JStr "APPLYING"); (py "progress_index", JInt 1);
                     (py "applied_frontier", JInt 0)])) false ≠ Err RecoveryConflict.
Proof.
  destruct (sidecar_never_settles [] sample_staged "goal-0123abcd"
    (Document (encode_record sample_record))
    (Document (JObj [(py "status", JStr "APPLYING"); (py "progress_index", JInt 1);
                     (py "applied_frontier", JInt 0)]))
    sample_record (merge_sidecar sample_record (Sidecar (Some APPLYING) (Some 1%Z) (Some 0%Z))))
    as (H & _); [vm_compute; reflexivity..|].
  split; [apply H; reflexivity|by vm_compute].
Defined.

Lemma record_roundtrip_witness :
  decode_operation_record [] sample_staged "goal-0123abcd"
    (Document (encode_record sample_record)) Absent false = Ok sample_record.
Proof.
  apply record_roundtrip. apply (decode_manifest_wf _ _ _ (Document (encode_record sample_record))).
  vm_compute. reflexivity.
Defined.
