(* ===== verification/Journal.v ===== *)
(** * The mutation journal

    The state of one journaled operation and the routines of journal.py that
    change it: [mark], [reconcile_progress], [fold_progress], [start], the apply
    loop of [run_mutation] and [_recover_locked]. Each durable write is a step
    of a trace, so that a crash is a prefix of the trace and the world it
    leaves is the one recovery starts from. *)

From S2P Require Import Prelude PyStr PyStrFacts PyDict Sha256 JournalFs SafeId JournalRecord.

(** ** The world of one operation *)

Inductive opdir : Type := NoDir | InOps | InSettled.

Record world : Type := World {
  w_fs : fs;
  w_dir : opdir;
  w_manifest : jfile;
  w_progress : jfile;
  w_staged : dict pystr (list N);
}.

Definition set_fs (f : fs) (w : world) : world :=
  World f (w_dir w) (w_manifest w) (w_progress w) (w_staged w).
Definition set_dir (d : opdir) (w : world) : world :=
  World (w_fs w) d (w_manifest w) (w_progress w) (w_staged w).
Definition set_manifest (j : jfile) (w : world) : world :=
  World (w_fs w) (w_dir w) j (w_progress w) (w_staged w).
Definition set_progress (j : jfile) (w : world) : world :=
  World (w_fs w) (w_dir w) (w_manifest w) j (w_staged w).
Definition set_staged (s : dict pystr (list N)) (w : world) : world :=
  World (w_fs w) (w_dir w) (w_manifest w) (w_progress w) s.
Definition is_staged (w : world) (name : pystr) : bool := dmem name (w_staged w).

(** ** Computations: a trace of durable states, and a result or an exception *)

Inductive exn : Type :=
  | Os (e : pyexn)
  | Refused (r : refusal)
  | TypeError.

Definition M (A : Type) : Type := world → list world * (world * res exn A).

Global Instance M_ret : MRet M := λ A a w, ([], (w, Ok a)).
Global Instance M_bind : MBind M := λ A B f m w,
  match m w with
  | (t1, (w1, Ok a)) => match f a w1 with (t2, x) => (t1 ++ t2, x) end
  | (t1, (w1, Err e)) => (t1, (w1, Err e))
  end.
Definition raise {A} (e : exn) : M A := λ w, ([], (w, Err e)).
Definition get : M world := λ w, ([], (w, Ok w)).
(** One durable change of the world. *)
Definition step (g : world → world) : M () := λ w, ([g w], (g w, Ok tt)).

Definition trace {A} (m : M A) (w : world) : list world := (m w).1.
Definition final {A} (m : M A) (w : world) : world := (m w).2.1.
Definition result {A} (m : M A) (w : world) : res exn A := (m w).2.2.

(** ** The machine the engine runs on

    What the routines below ask of the code that is not modelled: the resolved
    root, the lineage the project's identity file states, the lock identity of
    the process, the semantic verifiers of the policies, and the digests of
    dependencies outside the project or of its source identity. *)
Class Host : Type := {
  root : path;
  project_lineage_identity : fs → option pystr;
  runtime_lock_identity : pystr;
  run_verifier : fs → list target → pystr → option (dict pystr json) → list pystr;
  external_hash : pystr → pystr → pystr;
}.

(** ** Targets *)

Section targets.
Context `{Host}.

(** The resolved path of a target; the callers have checked that it is owned. *)
Definition owned (t : target) : path := default [] (owned_target_path root (t_path t)).

(** [_target_live_hash], on a resolved path. *)
Definition live_hash (a : action) (f : fs) (p : path) : pystr :=
  match a with
  | DeleteDir => _hash_delete_tree f p
  | DeleteFile =>
      match lstat f p with
      | Err FileNotFoundError => []
      | Err _ => "object-unreadable"
      | Ok (File _) => _hash_file f p
      | Ok n => object_mode n
      end
  | Write => _hash_file f p
  end.
Definition _target_live_hash (f : fs) (t : target) : pystr := live_hash (t_action t) f (owned t).
End targets.

Inductive classification : Type := TARGET_ALREADY_APPLIED | TARGET_PENDING | TARGET_CONFLICT.
Global Instance classification_eq_dec : EqDecision classification.
Proof. solve_decision. Defined.

Definition classify_target (current_hash before_hash after_hash : pystr) : classification :=
  if current_hash =s after_hash then TARGET_ALREADY_APPLIED
  else if current_hash =s before_hash then TARGET_PENDING
  else TARGET_CONFLICT.

Definition is_noop_target (t : target) : bool := t_before t =s t_after t.

(** [PurePosixPath(s.replace("\\", "/"))]: absolute or not, and its parts. *)
Definition posix (s : pystr) : bool * path :=
  let s := replace "\" "/" s in (isabs s, parts s).
(** [owner in inner.parents] *)
Definition contains_path (owner inner : pystr) : bool :=
  Bool.eqb (posix owner).1 (posix inner).1 && parent_of (posix owner).2 (posix inner).2.

(** [defer_unreached_targets]; [seen] holds the earlier targets with their
    resolved classes. *)
Fixpoint defer_go (seen : list (target * classification)) (ts : list target)
    (cs : list classification) : list classification :=
  match ts, cs with
  | t :: ts', c :: cs' =>
      let c' := if bool_decide (c = TARGET_CONFLICT)
                   && existsb (λ e : target * classification,
                        negb (bool_decide (e.2 = TARGET_ALREADY_APPLIED))
                        && contains_path (t_path t) (t_path e.1)) seen
                then TARGET_PENDING else c in
      c' :: defer_go (seen ++ [(t, c')]) ts' cs'
  | _, _ => []
  end.
Definition defer_unreached_targets : list target → list classification → list classification :=
  defer_go [].

Section journal.
Context `{Host} (op_id : pystr).

Definition classify (f : fs) (t : target) : classification :=
  classify_target (_target_live_hash f t) (t_before t) (t_after t).

(** ** The journal's own files *)

(** [_read_progress_sidecar]: unreadable bytes read like an empty object. *)
Definition _read_progress_sidecar : M (dict pystr json) :=
  w ← get;
  match w_progress w with
  | Document (JObj d) => mret d
  | Document _ => raise TypeError
  | _ => mret []
  end.

(** [Journal.read] *)
Definition read (allow_settlement_fold : bool) : M oprec :=
  w ← get;
  match decode_operation_record root (is_staged w) op_id (w_manifest w) (w_progress w)
          allow_settlement_fold with
  | Ok r => mret r
  | Err e => raise (Refused e)
  end.

(** [Journal.fold_progress] *)
Definition fold_progress : M () :=
  w ← get;
  match w_progress w with
  | Absent => mret tt
  | _ =>
      r ← read true;
      step (set_manifest (Document (encode_record r))) ;;
      step (set_progress Absent)
  end.

(** [_drop_staged_payloads], when every file can be unlinked. *)
Fixpoint drop_staged (names : list pystr) : M () :=
  match names with
  | [] => mret tt
  | n :: names' =>
      step (λ w, set_staged (base.filter (λ e, e.1 ≠ n) (w_staged w)) w) ;; drop_staged names'
  end.
Definition _drop_staged_payloads : M () := w ← get; drop_staged (dkeys (w_staged w)).

(** [_settle_journal], when the directory can be renamed. *)
Definition _settle_journal : M () := step (set_dir InSettled).

(** [prog.get("applied_frontier", -1)] *)
Definition frontier_of (prog : dict pystr json) : option Z :=
  match dget (py "applied_frontier") prog with
  | None => Some (-1)%Z
  | Some (JInt z) => Some z
  | Some _ => None
  end.

Definition set_index (pi : option Z) (prog : dict pystr json) : dict pystr json :=
  match pi with Some i => dset (py "progress_index") (JInt i) prog | None => prog end.

Definition with_frontier (ti : option Z) (prog : dict pystr json) : M (dict pystr json) :=
  match ti with
  | None => mret prog
  | Some i => match frontier_of prog with
              | Some z => mret (dset (py "applied_frontier") (JInt (Z.max z i)) prog)
              | None => raise TypeError
              end
  end.

(** [Journal.mark] *)
Definition mark (st : status) (progress_index target_index : option Z) : M () :=
  prog ← _read_progress_sidecar;
  prog ← with_frontier target_index
           (set_index progress_index (dset (py "status") (JStr (status_str st)) prog));
  step (set_progress (Document (JObj prog))) ;;
  if settled st then
    fold_progress ;;
    (if bool_decide (st = COMMITTED) then _drop_staged_payloads else mret tt) ;;
    _settle_journal
  else mret tt.

(** [Journal.reconcile_progress] *)
Definition reconcile_progress (st : status) (progress_index applied_frontier : Z) : M () :=
  prog ← _read_progress_sidecar;
  step (set_progress (Document (JObj
    (dset (py "applied_frontier") (JInt applied_frontier)
      (dset (py "progress_index") (JInt progress_index)
        (dset (py "status") (JStr (status_str st)) prog)))))).

(** [Journal.staged_content] *)
Definition staged_content (index : nat) (t : target) (w : world) : option (list N) :=
  match dget (staged_name index (as_posix (owned t))) (w_staged w) with
  | Some d => Some d
  | None => dget (legacy_staged_name index (t_path t)) (w_staged w)
  end.

(** ** Acting on a target *)

(** The action itself, on a resolved path; [content] is for writes only. *)
Definition do_action (a : action) (p : path) (content : list N) (f : fs) : res pyexn fs :=
  match a with
  | Write => safe_atomic_write_bytes f p content
  | DeleteFile => unlink f p
  | DeleteDir => rmdir f p
  end.

(** A write first makes the directories above its target. *)
Definition perform (t : target) (content : list N) : M (res pyexn ()) :=
  w ← get;
  match do_action (t_action t) (owned t) content (w_fs w) with
  | Err e => mret (Err e)
  | Ok f' =>
      (if bool_decide (t_action t = Write)
       then step (set_fs (mkdirs (w_fs w) (owned t))) else mret tt) ;;
      step (set_fs f') ;;
      mret (Ok tt)
  end.

(** ** Reports *)

Inductive code : Type :=
  | R_COMMITTED | R_ALREADY_APPLIED | R_ABORTED | R_RESOLVED | R_CONFLICT | R_RECOVERY_CONFLICT
  | R_VALIDATION_FAILED | R_STALE_STATE | R_CORRUPT_JOURNAL | R_TICKET_NOT_FOUND
  | R_PROJECT_MISMATCH.
Global Instance code_eq_dec : EqDecision code.
Proof. solve_decision. Defined.

Record report : Type := Report {
  ok : bool;
  rcode : code;
  target_index : option nat;
  frontier : option Z;
}.
Definition done (c : code) : report := Report true c None None.
Definition refuse (c : code) : report := Report false c None None.
Definition refuse_at (c : code) (index : nat) (fr : Z) : report :=
  Report false c (Some index) (Some fr).

Definition refusal_code (e : refusal) : code :=
  match e with RecoveryConflict => R_RECOVERY_CONFLICT | ValidationFailed _ => R_VALIDATION_FAILED end.

(** Mark the operation CONFLICT and report. *)
Definition conflict (r : report) : M report := mark CONFLICT None None ;; mret r.

(** [_verify_target_bytes]: [None] when every target is at its planned hash. *)
Definition _verify_target_bytes (f : fs) (ts : list target) : bool :=
  forallb (λ t, _target_live_hash f t =s t_after t) ts.

(** The semantic verification of the journaled policy. *)
Definition verified (f : fs) (ts : list target) (policy : pystr) (m : option (dict pystr json)) : bool :=
  if policy =s py "none" then true
  else match run_verifier f ts policy m with [] => true | _ => false end.

(** What follows the last action, on apply and on recovery alike. *)
Definition commit (ts : list target) (policy : pystr) (m : option (dict pystr json)) : M report :=
  w ← get;
  if negb (_verify_target_bytes (w_fs w) ts) then conflict (refuse R_CONFLICT)
  else if negb (verified (w_fs w) ts policy m) then conflict (refuse R_CONFLICT)
  else
    mark VERIFIED None None ;;
    mark COMMITTED None None ;;
    mret (done R_COMMITTED).

(** ** Read dependencies *)

Definition SOURCE_IDENTITY_PREFIX : pystr := "source-identity-v1:".

(** [_hash_dependency] of the path [rel] of a plan; [None] is the escape that
    [read_dependency_path] refuses. Absolute paths, the source identity, the
    receipt digest and the legacy tree digest are the host's. *)
Definition is_external (rel expected : pystr) : bool :=
  isabs rel || startswith SOURCE_IDENTITY_PREFIX expected
  || startswith "ops-receipt-sha256:" expected || startswith "tree-sha256:" expected.

Definition _hash_dependency (f : fs) (p : path) (expected : pystr) : pystr :=
  if startswith DIRECTORY_LISTING_PREFIX expected then hash_directory_listing_dependency f p
  else if expected =s MISSING_TREE_DEPENDENCY then hash_tree_dependency f p
  else if expected =s MISSING_FILE_DEPENDENCY then hash_file_dependency f p
  else if startswith "delete-tree-sha256:" expected then _hash_delete_tree f p
  else if negb (nonempty expected) then _hash_file f p
  else hash_file_dependency f p.

Definition read_dependency_path (rel : pystr) : option path :=
  if isabs rel then Some [] else owned_target_path root rel.

Definition dependency_fresh (f : fs) (e : pystr * pystr) : bool :=
  if is_external e.1 e.2 then external_hash e.1 e.2 =s e.2
  else match owned_target_path root e.1 with
       | Some p => _hash_dependency f p e.2 =s e.2
       | None => false
       end.

(** ** Recovery *)

(** [_recovery_identity_binding] *)
Definition _recovery_identity_binding (f : fs) (r : oprec) : bool :=
  match r_lineage r with
  | Some ((_ :: _) as lineage) =>
      match project_lineage_identity f with Some l => nonempty l && (l =s lineage) | None => false end
  | _ => nonempty (r_identity r) && (r_identity r =s runtime_lock_identity)
  end.

(** The length of the materialized prefix. *)
Fixpoint prefix_length (cs : list classification) : nat :=
  match cs with
  | TARGET_ALREADY_APPLIED :: cs' => S (prefix_length cs')
  | _ => 0
  end.

Fixpoint find_index {A} (P : A → bool) (l : list A) : option nat :=
  match l with
  | [] => None
  | x :: l' => if P x then Some 0 else S <$> find_index P l'
  end.

(** The first target that is a genuine third state, and the first one after the
    prefix [k] that materialized out of order. *)
Definition first_conflict (cs : list classification) : option nat :=
  find_index (λ c, bool_decide (c = TARGET_CONFLICT)) cs.
Definition first_out_of_order (k : nat) (ts : list target) (cs : list classification) : option nat :=
  (λ i, i + k) <$> find_index (λ e : target * classification,
     bool_decide (e.2 = TARGET_ALREADY_APPLIED) && negb (is_noop_target e.1)) (drop k (zip ts cs)).

(** PREPARED with nothing materialized. *)
Definition nothing_materialized (ts : list target) (cs : list classification) : bool :=
  forallb (λ e : classification * target, bool_decide (e.1 = TARGET_PENDING) || is_noop_target e.2) (zip cs ts).

(** Phase 5: apply the targets from [index] on; [k] is the prefix length. A
    result reports the refusal that stopped it. *)
Fixpoint replay (k index : nat) (ts : list target) : M (option report) :=
  match ts with
  | [] => mret None
  | t :: ts' =>
      w ← get;
      let fail c := r ← conflict (refuse_at c index (Z.of_nat k - 1)); mret (Some r) in
      let act content :=
        o ← perform t content;
        match o with
        | Ok _ => mark APPLYING (Some (Z.of_nat index + 1)%Z) (Some (Z.of_nat index)) ;;
                  replay k (S index) ts'
        | Err (OSError _) => fail R_RECOVERY_CONFLICT
        | Err ValueError => raise (Os ValueError)
        end in
      match t_action t with
      | Write =>
          match staged_content index t w with
          | None => fail R_RECOVERY_CONFLICT
          | Some content =>
              if hash_bytes content =s t_after t then act content else fail R_CONFLICT
          end
      | _ => act []
      end
  end.

(** The bookkeeping the journal holds already says [k]. *)
Definition bookkeeping_exact (k : nat) (r : oprec) (prog : dict pystr json) : bool :=
  (r_progress r =? Z.of_nat k)%Z
  && match frontier_of prog with Some z => (z =? Z.of_nat k - 1)%Z | None => false end
  && forallb t_applied (take k (r_targets r)).

(** The byte-replay path of [_recover_locked]: everything after the dispatch on
    a settled status and on release operations. *)
Definition roll_forward (r : oprec) : M report :=
  w ← get;
  let ts := r_targets r in
  let cs := defer_unreached_targets ts (classify (w_fs w) <$> ts) in
  let k := prefix_length cs in
  match first_conflict cs with
  | Some i => conflict (refuse_at R_RECOVERY_CONFLICT i (Z.of_nat k - 1))
  | None =>
  match first_out_of_order k ts cs with
  | Some i => conflict (refuse_at R_RECOVERY_CONFLICT i (Z.of_nat k - 1))
  | None =>
  if bool_decide (r_status r = PREPARED) && nothing_materialized ts cs
  then mark ABORTED None None ;; mret (done R_ABORTED)
  else if negb (forallb (dependency_fresh (w_fs w)) (r_read_preconditions r))
  then conflict (refuse R_CONFLICT)
  else
    prog ← _read_progress_sidecar;
    (if bookkeeping_exact k r prog then mret tt
     else reconcile_progress APPLYING (Z.of_nat k) (Z.of_nat k - 1)) ;;
    stopped ← replay k k (drop k ts);
    match stopped with
    | Some rep => mret rep
    | None => commit ts (r_policy r) (r_metadata r)
    end
  end end.

(** [_recover_locked] of an operation without an append intent. The recovery of
    a release operation, which replays git facts, is an argument. *)
Definition _recover_locked (recover_release : M report) : M report :=
  match validate_op_id op_id with
  | Err _ => mret (refuse R_VALIDATION_FAILED)
  | Ok _ =>
      w ← get;
      match w_manifest w with
      | Absent => mret (refuse R_TICKET_NOT_FOUND)
      | _ =>
      match decode_operation_record root (is_staged w) op_id (w_manifest w) (w_progress w) false with
      | Err e => mret (refuse (refusal_code e))
      | Ok r =>
          if negb (forallb (λ t, bool_decide (is_Some (owned_target_path root (t_path t)))) (r_targets r)
                   && forallb (λ e, bool_decide (is_Some (read_dependency_path e.1)))
                        (r_read_preconditions r))
          then mret (refuse R_VALIDATION_FAILED)
          else if negb (_recovery_identity_binding (w_fs w) r) then mret (refuse R_PROJECT_MISMATCH)
          else match r_status r with
          | COMMITTED => mret (done R_ALREADY_APPLIED)
          | ABORTED => mret (refuse R_ABORTED)
          | RESOLVED => mret (refuse R_RESOLVED)
          | _ => if r_operation r =s py "release" then recover_release else roll_forward r
          end
      end end
  end.
End journal.
