(* ===== verification/JournalApply.v ===== *)
(** * Applying a mutation

    [run_mutation] of journal.py from the point where the request is validated
    and no journal of that id exists: the truthful before and after states, the
    precondition checks, the PREPARED record, the apply loop and the commit. *)

From S2P Require Import Prelude PyStr PyStrFacts PyDict Sha256 JournalFs SafeId JournalRecord Journal.

(** A validated target: [planned_before_hash] is used by directory deletions. *)
Record rtarget : Type := RTarget {
  q_path : pystr;
  q_role : pystr;
  q_action : action;
  q_content : list N;
  q_planned_before : pystr;
}.

Record request : Type := Request {
  q_operation : pystr;
  q_agent : pystr;
  q_identity : pystr;
  q_payload_hash : pystr;
  q_targets : list rtarget;
  q_preconditions : dict pystr pystr;
  q_read_preconditions : dict pystr pystr;
  q_policy : pystr;
  q_metadata : json;
}.

Section apply.
Context `{Host} (op_id : pystr).

(** ** Preparing *)

(** The target with its live state before and its planned state after, and
    the content to stage. *)
Definition prepare (f : fs) (q : rtarget) : target * list N :=
  let p := default [] (owned_target_path root (q_path q)) in
  (Target (q_path q) (q_role q) (q_action q)
     (match q_action q with
      | DeleteDir => q_planned_before q
      | a => live_hash a f p
      end)
     (match q_action q with Write => hash_bytes (q_content q) | _ => [] end)
     false,
   q_content q).

Definition precondition_fresh (f : fs) (ps : list (target * list N)) (e : pystr * pystr) : bool :=
  match find_first (λ tc : target * list N, t_path tc.1 =s e.1) ps with
  | Some tc => _target_live_hash f tc.1 =s e.2
  | None => dependency_fresh f e
  end.

(** ** Starting the journal *)

(** Stage the content of the write targets, each exclusively. *)
Fixpoint stage (index : nat) (ps : list (target * list N)) : M () :=
  match ps with
  | [] => mret tt
  | (t, content) :: ps' =>
      match owned_target_path root (t_path t) with
      | None => raise (Os ValueError)
      | Some p =>
          (match t_action t with
           | Write => step (λ w, set_staged (dset (staged_name index (as_posix p)) content (w_staged w)) w)
           | _ => mret tt
           end) ;;
          stage (S index) ps'
      end
  end.

(** The record of a started operation. *)
Definition prepared_record (q : request) (ps : list (target * list N)) (now : pystr)
    (lineage : option pystr) (metadata : option (dict pystr json)) : oprec :=
  OpRec op_id (q_operation q) now (q_agent q) (q_identity q) lineage (q_payload_hash q)
        (q_preconditions q) (q_read_preconditions q) (q_policy q) PREPARED 0 (ps.*1) metadata.

(** An exception after the directory was made removes it again. *)
Definition or_rmtree (m : M ()) : M () := λ w,
  match m w with
  | (t, (w', Ok a)) => (t, (w', Ok a))
  | (t, (w', Err e)) =>
      let w'' := set_dir NoDir (set_manifest Absent (set_progress Absent (set_staged [] w'))) in
      (t ++ [w''], (w'', Err e))
  end.

(** [Journal.start] *)
Definition start (q : request) (ps : list (target * list N)) (now : pystr) (lineage : option pystr) : M () :=
  if negb (mem (q_policy q) VERIFICATION_POLICIES) then raise (Os ValueError)
  else
    w ← get;
    match w_dir w with
    | NoDir =>
        or_rmtree (
          step (set_dir InOps) ;;
          stage 0 ps ;;
          match _canonical_receipt_metadata (q_metadata q) with
          | Err _ => raise (Os ValueError)
          | Ok m => step (set_manifest (Document (encode_record (prepared_record q ps now lineage m))))
          end)
    | _ => raise (Os (OSError DirectoryNotEmpty))
    end.

(** ** The apply loop *)

Fixpoint apply_targets (index : nat) (ps : list (target * list N)) : M (option report) :=
  match ps with
  | [] => mret None
  | (t, content) :: ps' =>
      w ← get;
      let advance := mark op_id APPLYING (Some (Z.of_nat index + 1)%Z) (Some (Z.of_nat index)) in
      let stop := r ← conflict op_id (refuse R_CONFLICT); mret (Some r) in
      match classify (w_fs w) t with
      | TARGET_ALREADY_APPLIED => advance ;; apply_targets (S index) ps'
      | TARGET_CONFLICT => stop
      | TARGET_PENDING =>
          o ← perform t content;
          match o with
          | Err _ => stop
          | Ok _ =>
              w' ← get;
              if negb (_target_live_hash (w_fs w') t =s t_after t) then stop
              else advance ;; apply_targets (S index) ps'
          end
      end
  end.

(** [run_mutation] after validation, idempotence and preflight, for a caller
    without a metadata finalizer and whose verification is the policy's. [now]
    is the clock and [lineage] the lineage of the project. *)
Definition execute (q : request) (now : pystr) (lineage : option pystr) : M report :=
  w ← get;
  let ps := prepare (w_fs w) <$> q_targets q in
  if negb (forallb (precondition_fresh (w_fs w) ps) (q_preconditions q)) then mret (refuse R_STALE_STATE)
  else if negb (forallb (dependency_fresh (w_fs w)) (q_read_preconditions q))
  then mret (refuse R_STALE_STATE)
  else
    started ← (λ w, match start q ps now lineage w with
                    | (t, (w', Ok _)) => (t, (w', Ok true))
                    | (t, (w', Err (Os _))) => (t, (w', Ok false))
                    | (t, (w', Err e)) => (t, (w', Err e))
                    end) : M bool;
    if negb started then mret (refuse R_CORRUPT_JOURNAL)
    else
      mark op_id APPLYING None None ;;
      stopped ← apply_targets 0 ps;
      match stopped with
      | Some rep => mret rep
      | None =>
          m ← match _canonical_receipt_metadata (q_metadata q) with
              | Ok m => mret m
              | Err _ => raise (Os ValueError)
              end;
          commit op_id (ps.*1) (q_policy q) m
      end.
End apply.
