(* ===== verification/JournalFacts.v ===== *)
(** * Reasoning about journaled computations

    Lemmas the recovery theorems share: what a change of one file does to the
    live hash of a target, the closure of a relation between worlds under the
    operations of the journal, and the bookkeeping its sidecar holds. *)

From S2P Require Import Prelude PyStr PyStrFacts PyDict Sha256 JournalFs SafeId JournalRecord Journal.
From S2P Require Import JournalApply.

(** ** Live hashes *)

Lemma live_hash_lstat a f f' p :
  a ≠ DeleteDir → lstat f' p = lstat f p → live_hash a f' p = live_hash a f p.
Proof.
  intros Ha E. destruct a; try done; simpl; rewrite ?E, (_hash_file_lstat f' f p p E); done.
Qed.

(** A target and another path are independent when neither is the other nor
    above it. *)
Definition independent (p q : path) : Prop := (q ≠ p) ∧ (p ∉ parents q) ∧ (q ∉ parents p).

Lemma live_hash_only a f f' p q :
  a ≠ DeleteDir → only p f f' → independent p q → live_hash a f' q = live_hash a f q.
Proof. intros Ha Ho (? & ? & ?). apply live_hash_lstat; [done|]. by eapply lstat_only. Qed.

Lemma live_hash_absent a f p : lstat f p = Err FileNotFoundError → live_hash a f p = [].
Proof.
  intros E. destruct a; simpl; [by eapply _hash_file_absent|by rewrite E|].
  unfold _hash_delete_tree. by rewrite E.
Qed.

Lemma live_hash_File a f p d :
  a ≠ DeleteDir → lstat f p = Ok (File d) → live_hash a f p = hash_bytes d.
Proof. intros Ha E. destruct a; try done; simpl; rewrite ?E; by apply _hash_file_File. Qed.

(** What the plan intends to leave at a target. *)
Definition planned_hash (a : action) (content : list N) : pystr :=
  match a with Write => hash_bytes content | _ => [] end.

Lemma do_action_spec a p content f f' :
  do_action a p content f = Ok f' →
  p ≠ [] ∧ only p f f' ∧ live_hash a f' p = planned_hash a content ∧
  lstat f' p = match a with Write => Ok (File content) | _ => Err FileNotFoundError end ∧
  (a ≠ Write → ∀ q, q ≠ p → look f' q = look f q) ∧
  (a = Write → ∀ q, q ∈ parents p → look f' q = Some Dir).
Proof.
  destruct a; simpl.
  - intros (-> & Hp & Hb & Hl & Ho & Hpar)%write_spec. split_and!; [done..| |done|done|done].
    by apply _hash_file_File.
  - intros (-> & Hp & (n & Hn & Hd) & Hl & Ho)%unlink_spec. split_and!; [done|done| |done| |done].
    + by rewrite Hl.
    + intros _ q Hq. by rewrite look_delete, bool_decide_false.
  - intros (-> & Hp & Hn & Hd & Hl & Ho)%rmdir_spec. split_and!; [done|done| |done| |done].
    + unfold _hash_delete_tree. by rewrite Hl.
    + intros _ q Hq. by rewrite look_delete, bool_decide_false.
Qed.

(** When the action can be carried out, directories apart. *)
Definition feasible (a : action) (p : path) (f : fs) : Prop :=
  p ≠ [] ∧
  match a with
  | Write => blocked f p = false ∧ (look f p = None ∨ ∃ d, look f p = Some (File d))
  | _ => ∃ d, lstat f p = Ok (File d)
  end.

Lemma feasible_action a p content f :
  a ≠ DeleteDir → feasible a p f → ∃ f', do_action a p content f = Ok f'.
Proof.
  intros Ha [Hp Hf]. destruct a; try done; simpl.
  - destruct Hf as [Hb Hl]. unfold safe_atomic_write_bytes. destruct p as [|c p]; [done|].
    rewrite Hb. simpl in Hl. destruct Hl as [-> |[d ->]]; eauto.
  - destruct Hf as [d Hd]. unfold unlink. rewrite Hd. eauto.
Qed.

Lemma feasible_only a f f' p q :
  only p f f' → independent p q → feasible a q f → feasible a q f'.
Proof.
  intros Ho (Hne & Hpq & Hqp) [Hq Hf]. split; [done|].
  assert (look f' q = look f q) as El by (destruct (Ho q Hne) as [|[? _]]; done).
  pose proof (lstat_only _ _ _ _ Ho Hne Hpq Hqp) as Es.
  destruct a; rewrite ?Es; [|done..]. by rewrite (blocked_only _ _ _ _ Ho Hpq), El.
Qed.

(** Making the directories above a target leaves the target as it is. *)
Lemma lstat_mkdirs f p : blocked f p = false → lstat (mkdirs f p) p = lstat f p.
Proof.
  intros Hb. unfold lstat. rewrite (blocked_only _ _ _ _ (only_mkdirs f p) (parents_irrefl p)), Hb.
  rewrite look_mkdirs, bool_decide_false by apply parents_irrefl. done.
Qed.

(** ** Relations between worlds *)

Definition preserves {A} (R : world → world → Prop) (m : M A) : Prop :=
  ∀ w, Forall (R w) (trace m w) ∧ R w (final m w).

Section preserves.
Context (R : world → world → Prop) `{!PreOrder R}.

Lemma preserves_ret {A} (a : A) : preserves R (mret a).
Proof. by split. Qed.
Lemma preserves_raise {A} e : preserves R (raise (A := A) e).
Proof. by split. Qed.
Lemma preserves_get : preserves R get.
Proof. by split. Qed.
Lemma preserves_step g : (∀ w, R w (g w)) → preserves R (step g).
Proof. intros Hg w. split; [by repeat constructor|apply Hg]. Qed.
Lemma preserves_bind {A B} (m : M A) (k : A → M B) :
  preserves R m → (∀ a, preserves R (k a)) → preserves R (m ≫= k).
Proof.
  intros Hm Hk w. destruct (Hm w) as [Ht Hf]. unfold trace, final, mbind, M_bind in *.
  destruct (m w) as [t1 [w1 [a|e]]]; [|done]. destruct (Hk a w1) as [Ht' Hf'].
  unfold trace, final in *. destruct (k a w1) as [t2 [w2 r]]. simpl in *. split; [|by etrans].
  apply Forall_app. split; [done|]. eapply Forall_impl; [exact Ht'|]. intros. by etrans.
Qed.
End preserves.

(** A bind with [get] runs its continuation on the current world. *)
Lemma get_bind {B} (k : world → M B) w : (get ≫= k) w = k w w.
Proof. unfold mbind, M_bind, get. by destruct (k w w). Qed.

Lemma bind_Ok {A B} (m : M A) (k : A → M B) w t w1 a :
  m w = (t, (w1, Ok a)) → (m ≫= k) w = match k a w1 with (t2, x) => (t ++ t2, x) end.
Proof. intros E. unfold mbind, M_bind. by rewrite E. Qed.

Lemma preserves_get_bind (R : world → world → Prop) {B} (k : world → M B) :
  (∀ w, preserves R (k w)) → preserves R (get ≫= k).
Proof. intros Hk w. unfold trace, final. rewrite get_bind. apply Hk. Qed.

(** The files of the project are the same. *)
Definition same_fs (w w' : world) : Prop := w_fs w' = w_fs w.
Global Instance same_fs_preorder : PreOrder same_fs.
Proof. split; [done|]. intros x y z. unfold same_fs. congruence. Qed.

(** Close the goal by the structure of the computation. *)
Ltac preserves_base := fail.
Ltac preserves_tac :=
  repeat first
    [ preserves_base | apply preserves_ret; [typeclasses eauto]
    | apply preserves_raise; [typeclasses eauto]
    | apply preserves_get; [typeclasses eauto]
    | apply preserves_get_bind; intros ?
    | apply preserves_bind; [typeclasses eauto| |intros ?]
    | progress cbv zeta | case_goal ].

Section journal.
Context `{Host} (op_id : pystr).

Lemma fold_progress_fs : preserves same_fs (fold_progress op_id).
Proof. unfold fold_progress, read. preserves_tac; by apply preserves_step. Qed.

Lemma drop_staged_fs l : preserves same_fs (drop_staged l).
Proof. induction l as [|n l IH]; cbn [drop_staged]; preserves_tac; [by apply preserves_step|done]. Qed.

Lemma mark_fs st pi ti : preserves same_fs (mark op_id st pi ti).
Proof.
  unfold mark, _read_progress_sidecar, with_frontier, _drop_staged_payloads, _settle_journal.
  preserves_tac; try apply fold_progress_fs; try apply drop_staged_fs; by apply preserves_step.
Qed.

Ltac preserves_base ::=
  first [apply mark_fs | apply fold_progress_fs | apply drop_staged_fs | by apply preserves_step].

Lemma conflict_fs r : preserves same_fs (conflict op_id r).
Proof. unfold conflict. preserves_tac. Qed.

Lemma reconcile_fs st i z : preserves same_fs (reconcile_progress st i z).
Proof. unfold reconcile_progress, _read_progress_sidecar. preserves_tac. Qed.

Lemma commit_fs ts policy m : preserves same_fs (commit op_id ts policy m).
Proof. unfold commit. preserves_tac; apply conflict_fs. Qed.
End journal.

(** ** The bookkeeping in the sidecar *)

Definition json_index (o : option Z) : json := match o with Some z => JInt z | None => JNull end.

(** The sidecar file [j] of a plan of [n] targets says [s]. *)
Definition progress_says (n : nat) (j : jfile) (s : sidecar) : Prop :=
  match j with
  | Absent => s = Sidecar None None None
  | Document (JObj d) =>
      jget (py "status") d = match s_status s with Some st => JStr (status_str st) | None => JNull end ∧
      jget (py "progress_index") d = json_index (s_index s) ∧
      dget (py "applied_frontier") d = JInt <$> s_frontier s ∧
      (∀ z, s_index s = Some z → 0 ≤ z ≤ Z.of_nat n)%Z ∧
      (∀ z, s_frontier s = Some z → -1 ≤ z < Z.of_nat n)%Z
  | _ => False
  end.

(** The sidecar claims no terminal status. *)
Definition open_sidecar (s : sidecar) : Prop :=
  match s_status s with Some st => settled st = false | None => True end.

Lemma decode_range_json o lo hi f :
  (∀ z, o = Some z → lo ≤ z ≤ hi)%Z → decode_range (json_index o) lo hi f = Ok o.
Proof.
  destruct o as [z|]; [|done]. intros Hz. specialize (Hz z eq_refl). simpl.
  rewrite check_true; [done|]. apply andb_true_iff. split; apply Z.leb_le; lia.
Qed.

Lemma merge_says r j s fold :
  progress_says (length (r_targets r)) j s →
  open_sidecar s ∨ settled (r_status r) = true ∨ fold = true →
  _merge_progress_sidecar j r fold = Ok (merge_sidecar r s).
Proof.
  destruct j as [| |[| | | | | |d]]; try done; simpl; [intros -> _; by destruct r|].
  intros (Hst & Hix & Hfr & Hi & Hf) Hc.
  assert (decode_sidecar_status (jget (py "status") d) = Ok (s_status s)) as E1.
  { rewrite Hst. destruct (s_status s); simpl; [by rewrite status_of_str|done]. }
  assert (jget (py "applied_frontier") d = json_index (s_frontier s)) as E2.
  { unfold jget. rewrite Hfr. by destruct (s_frontier s). }
  rewrite E1. cbn [mbind res_bind]. rewrite Hix, decode_range_json by done. cbn [mbind res_bind].
  rewrite E2, decode_range_json by (intros z Hz; specialize (Hf z Hz); lia). cbn [mbind res_bind].
  rewrite check_true; [by destruct s|].
  destruct (s_status s) as [st|] eqn:E; [|done].
  destruct Hc as [Ho|[-> | ->]]; [|by rewrite andb_false_r|by rewrite orb_true_r].
  unfold open_sidecar in Ho. rewrite E in Ho. by rewrite Ho.
Qed.

(** A sidecar that claims a terminal status over an unresolved manifest is
    refused by every reader but the fold. *)
Lemma merge_closed r j s st :
  progress_says (length (r_targets r)) j s → s_status s = Some st → settled st = true →
  settled (r_status r) = false → _merge_progress_sidecar j r false = Err RecoveryConflict.
Proof.
  destruct j as [| |[| | | | | |d]]; try done; simpl; [by intros ->|].
  intros (Hst & Hix & Hfr & Hi & Hf) Es Hs Hr.
  assert (jget (py "applied_frontier") d = json_index (s_frontier s)) as E2.
  { unfold jget. rewrite Hfr. by destruct (s_frontier s). }
  rewrite Hst, Es. simpl. rewrite status_of_str. cbn [mbind res_bind].
  rewrite Hix, decode_range_json by done. cbn [mbind res_bind].
  rewrite E2, decode_range_json by (intros z Hz; specialize (Hf z Hz); lia). cbn [mbind res_bind].
  by rewrite Hs, Hr.
Qed.

(** What [mark] makes of the bookkeeping. *)
Definition marked (st : status) (pi ti : option Z) (s : sidecar) : sidecar :=
  Sidecar (Some st) (match pi with Some i => Some i | None => s_index s end)
    (match ti with Some i => Some (Z.max (default (-1) (s_frontier s)) i) | None => s_frontier s end)%Z.

Definition in_plan (n : nat) (pi ti : option Z) : Prop :=
  (∀ z, pi = Some z → 0 ≤ z ≤ Z.of_nat n)%Z ∧ (∀ z, ti = Some z → -1 ≤ z < Z.of_nat n)%Z.

Definition doc_of (j : jfile) : dict pystr json := match j with Document (JObj d) => d | _ => [] end.

Lemma doc_says n j s : progress_says n j s → progress_says n (Document (JObj (doc_of j))) s.
Proof. destruct j as [| |[| | | | | |d]]; try done. by intros ->. Qed.

Lemma doc_read w n s :
  progress_says n (w_progress w) s → _read_progress_sidecar w = ([], (w, Ok (doc_of (w_progress w)))).
Proof.
  unfold _read_progress_sidecar. rewrite get_bind. by destruct (w_progress w) as [| |[| | | | | |d]].
Qed.

Lemma frontier_says n d s : progress_says n (Document (JObj d)) s →
  frontier_of d = Some (default (-1) (s_frontier s))%Z.
Proof. intros (_ & _ & Hf & _). unfold frontier_of. rewrite Hf. by destruct (s_frontier s). Qed.

Ltac dget_tac := unfold jget; rewrite ?dget_dset_eq, ?dget_dset_ne by (intros [=]); try done.

Lemma says_status n d s st :
  progress_says n (Document (JObj d)) s →
  progress_says n (Document (JObj (dset (py "status") (JStr (status_str st)) d)))
    (Sidecar (Some st) (s_index s) (s_frontier s)).
Proof. intros (_ & Hix & Hfr & Hi & Hf). simpl. split_and!; dget_tac. Qed.

Lemma says_index n d s i :
  progress_says n (Document (JObj d)) s → (0 ≤ i ≤ Z.of_nat n)%Z →
  progress_says n (Document (JObj (dset (py "progress_index") (JInt i) d)))
    (Sidecar (s_status s) (Some i) (s_frontier s)).
Proof. intros (Hst & Hix & Hfr & Hi & Hf) ?. simpl. split_and!; dget_tac. by intros ? [= <-]. Qed.

Lemma says_frontier n d s i :
  progress_says n (Document (JObj d)) s → (-1 ≤ i < Z.of_nat n)%Z →
  progress_says n (Document (JObj (dset (py "applied_frontier") (JInt i) d)))
    (Sidecar (s_status s) (s_index s) (Some i)).
Proof. intros (Hst & Hix & Hfr & Hi & Hf) ?. simpl. split_and!; dget_tac. by intros ? [= <-]. Qed.

Section mark.
Context `{Host} (op_id : pystr).

(** The write of the sidecar with which every [mark] starts. *)
Lemma mark_write n w s st pi ti :
  progress_says n (w_progress w) s → in_plan n pi ti →
  ∃ j, progress_says n j (marked st pi ti s) ∧
    mark op_id st pi ti w =
    (let w1 := set_progress j w in
     match (if settled st then
              fold_progress op_id ;;
              (if bool_decide (st = COMMITTED) then _drop_staged_payloads else mret tt) ;;
              _settle_journal
            else mret tt) w1 with (t, x) => (w1 :: t, x) end).
Proof.
  intros Hs [Hpi Hti]. set (d0 := doc_of (w_progress w)).
  pose proof (says_status _ _ _ st (doc_says _ _ _ Hs)) as H1. fold d0 in H1.
  set (d1 := dset (py "status") (JStr (status_str st)) d0) in *.
  set (s1 := Sidecar (Some st) (match pi with Some i => Some i | None => s_index s end) (s_frontier s)).
  assert (progress_says n (Document (JObj (set_index pi d1))) s1) as H2.
  { unfold s1. destruct pi as [i|]; [|done]. eapply says_index in H1; [exact H1|auto]. }
  set (d2 := set_index pi d1) in *.
  set (d3 := match ti with
             | Some i => dset (py "applied_frontier") (JInt (Z.max (default (-1) (s_frontier s)) i)) d2
             | None => d2 end%Z).
  exists (Document (JObj d3)). split.
  - unfold d3. destruct ti as [i|]; [|exact H2].
    eapply says_frontier in H2; [exact H2|]. specialize (Hti i eq_refl).
    destruct H1 as (_ & _ & _ & _ & Hf). simpl in Hf.
    destruct (s_frontier s) as [z|]; simpl; [specialize (Hf z eq_refl)|]; lia.
  - unfold mark. unfold mbind at 1, M_bind at 1. rewrite (doc_read _ _ _ Hs). fold d0 d1 d2.
    assert (with_frontier ti d2 = mret d3) as ->.
    { unfold with_frontier, d3. destruct ti as [i|]; [|done].
      by rewrite (frontier_says _ _ _ H2). }
    unfold mbind at 1, M_bind at 1, mret at 1, M_ret at 1. cbv zeta.
    unfold mbind at 1, M_bind at 1, step at 1. cbv zeta. simpl.
    by destruct (_ (set_progress (Document (JObj d3)) w)).
Qed.

(** A mark that settles nothing is one write of the sidecar. *)
Lemma mark_open n w s st pi ti :
  progress_says n (w_progress w) s → in_plan n pi ti → settled st = false →
  ∃ j, progress_says n j (marked st pi ti s) ∧
    mark op_id st pi ti w = ([set_progress j w], (set_progress j w, Ok tt)).
Proof.
  intros Hs Hp Hst. destruct (mark_write n w s st pi ti Hs Hp) as (j & Hj & E).
  exists j. split; [done|]. by rewrite E, Hst.
Qed.

Lemma reconcile_open n w s st i z :
  progress_says n (w_progress w) s → in_plan n (Some i) (Some z) →
  ∃ j, progress_says n j (Sidecar (Some st) (Some i) (Some z)) ∧
    reconcile_progress st i z w = ([set_progress j w], (set_progress j w, Ok tt)).
Proof.
  intros Hs [Hi Hz]. eexists. split; [|unfold reconcile_progress; unfold mbind at 1, M_bind at 1;
    by rewrite (doc_read _ _ _ Hs)].
  pose proof (says_status _ _ _ st (doc_says _ _ _ Hs)) as H1.
  eapply says_index in H1; [|by apply Hi]. eapply says_frontier in H1; [|by apply Hz]. exact H1.
Qed.
End mark.

(** ** Journals the decoder accepts *)

Section states.
Context `{Host} (op_id : pystr).

Definition targets_owned (r : oprec) : Prop :=
  Forall (λ t, is_Some (owned_target_path root (t_path t))) (r_targets r).
Definition reads_owned (r : oprec) : Prop :=
  Forall (λ e, is_Some (read_dependency_path e.1)) (r_read_preconditions r).

(** The manifest [r] is on disk, well formed and unresolved, with its staged
    evidence; the sidecar says [s] and claims no end. *)
Record ready (r : oprec) (s : sidecar) (w : world) : Prop := Ready {
  ready_manifest : w_manifest w = Document (encode_record r);
  ready_wf : record_wf root (is_staged w) op_id r;
  ready_status : settled (r_status r) = false;
  ready_progress : progress_says (length (r_targets r)) (w_progress w) s;
  ready_open : open_sidecar s;
}.

(** The manifest records the settled status [st]. *)
Definition closed (r : oprec) (st : status) (w : world) : Prop :=
  settled st = true ∧
  ∃ r' s, w_manifest w = Document (encode_record r') ∧ record_wf root (is_staged w) op_id r' ∧
    r_status r' = st ∧ progress_says (length (r_targets r')) (w_progress w) s ∧
    (s_status s = None ∨ s_status s = Some st) ∧
    r_lineage r' = r_lineage r ∧ r_identity r' = r_identity r ∧
    r_read_preconditions r' = r_read_preconditions r ∧
    t_path <$> r_targets r' = t_path <$> r_targets r.

(** A terminal status is in the sidecar and not yet in the manifest. *)
Definition closing (r : oprec) (st : status) (w : world) : Prop :=
  settled st = true ∧ settled (r_status r) = false ∧
  w_manifest w = Document (encode_record r) ∧ record_wf root (is_staged w) op_id r ∧
  ∃ s, progress_says (length (r_targets r)) (w_progress w) s ∧ s_status s = Some st.

Lemma ready_decode r s w fold :
  ready r s w →
  decode_operation_record root (is_staged w) op_id (w_manifest w) (w_progress w) fold
  = Ok (merge_sidecar r s).
Proof.
  intros [Hm Hwf Hst Hp Ho]. unfold decode_operation_record. rewrite Hm, decode_manifest_encode by done.
  cbn [mbind res_bind]. apply merge_says; auto.
Qed.

Lemma closed_decode r st w :
  closed r st w → ∃ r', decode_operation_record root (is_staged w) op_id (w_manifest w) (w_progress w) false
    = Ok r' ∧ r_status r' = st ∧ r_lineage r' = r_lineage r ∧ r_identity r' = r_identity r ∧
    r_read_preconditions r' = r_read_preconditions r ∧ t_path <$> r_targets r' = t_path <$> r_targets r.
Proof.
  intros (Hs & r' & s & Hm & Hwf & Hst & Hp & Hss & Hl & Hi & Hr & Ht).
  exists (merge_sidecar r' s). split.
  - unfold decode_operation_record. rewrite Hm, decode_manifest_encode by done. cbn [mbind res_bind].
    apply merge_says; [done|]. right; left. by rewrite Hst.
  - simpl. split_and!; try done.
    + destruct Hss as [-> | ->]; done.
    + destruct (s_frontier s); [|done]. by rewrite mark_prefix_path.
Qed.

Lemma targets_owned_fmap r r' :
  t_path <$> r_targets r' = t_path <$> r_targets r → targets_owned r → targets_owned r'.
Proof.
  unfold targets_owned. intros E Hr.
  assert (∀ l, Forall (λ t, is_Some (owned_target_path root (t_path t))) l ↔
               Forall (λ p, is_Some (owned_target_path root p)) (t_path <$> l)) as HF.
  { intros l. by rewrite Forall_fmap. }
  apply HF. rewrite E. by apply HF.
Qed.

Lemma merge_paths r s : t_path <$> r_targets (merge_sidecar r s) = t_path <$> r_targets r.
Proof. simpl. destruct (s_frontier s); [apply mark_prefix_path|done]. Qed.

(** ** The front of recovery *)

Definition same_binding (f : fs) (r : oprec) : Prop := _recovery_identity_binding f r = true.

Lemma guards_ok r :
  targets_owned r → reads_owned r →
  forallb (λ t, bool_decide (is_Some (owned_target_path root (t_path t)))) (r_targets r)
  && forallb (λ e, bool_decide (is_Some (read_dependency_path e.1))) (r_read_preconditions r) = true.
Proof.
  unfold targets_owned, reads_owned. rewrite !Forall_forall. intros Ht Hr.
  apply andb_true_iff. split; apply forallb_forall; intros x Hx; apply bool_decide_eq_true.
  - by apply Ht, list_elem_of_In.
  - by apply Hr, list_elem_of_In.
Qed.

Lemma binding_ext f r r' :
  r_lineage r' = r_lineage r → r_identity r' = r_identity r →
  _recovery_identity_binding f r' = _recovery_identity_binding f r.
Proof. unfold _recovery_identity_binding. by intros -> ->. Qed.

(** An unresolved operation of this project reaches the byte-replay path. *)
Lemma recover_ready r s w rel :
  ready r s w → targets_owned r → reads_owned r → same_binding (w_fs w) r →
  r_operation r ≠ py "release" →
  _recover_locked op_id rel w = roll_forward op_id (merge_sidecar r s) w.
Proof.
  intros Hr Ht Hrd Hb Hop. unfold _recover_locked.
  pose proof (wf_op_id_safe _ _ _ _ (ready_wf _ _ _ Hr)) as Hsafe.
  pose proof (wf_op_id _ _ _ _ (ready_wf _ _ _ Hr)) as Hid. rewrite <-Hid in Hsafe.
  destruct (validate_op_id op_id); [|done]. rewrite get_bind.
  rewrite (ready_decode _ _ _ false Hr). rewrite (ready_manifest _ _ _ Hr).
  rewrite guards_ok; [|eapply targets_owned_fmap; [apply merge_paths|done]|done]. cbn [negb].
  rewrite (binding_ext _ r) by done. rewrite Hb. cbn [negb].
  assert ((r_operation (merge_sidecar r s) =s py "release") = false) as ->.
  { by apply bool_decide_eq_false. }
  assert (settled (r_status (merge_sidecar r s)) = false) as Hset.
  { simpl. pose proof (ready_open _ _ _ Hr) as Ho. unfold open_sidecar in Ho.
    destruct (s_status s); [done|apply Hr]. }
  by destruct (r_status (merge_sidecar r s)).
Qed.

(** A committed operation is reported as applied, without any write. *)
Lemma recover_closed r w rel st :
  closed r st w → targets_owned r → reads_owned r → same_binding (w_fs w) r →
  _recover_locked op_id rel w =
  ([], (w, Ok (match st with COMMITTED => done R_ALREADY_APPLIED
               | ABORTED => refuse R_ABORTED | _ => refuse R_RESOLVED end))).
Proof.
  intros Hc Ht Hrd Hb. unfold _recover_locked.
  destruct (closed_decode _ _ _ Hc) as (r' & Hd & Hst & Hl & Hi & Hr & Hp).
  destruct Hc as (Hs & r0 & s & Hm & Hwf & _).
  pose proof (wf_op_id_safe _ _ _ _ Hwf) as Hsafe.
  pose proof (wf_op_id _ _ _ _ Hwf) as Hid. rewrite <-Hid in Hsafe.
  destruct (validate_op_id op_id); [|done]. rewrite get_bind. rewrite Hd, Hm.
  rewrite guards_ok; [|by eapply targets_owned_fmap|by unfold reads_owned; rewrite Hr]. cbn [negb].
  rewrite (binding_ext _ r) by done. rewrite Hb. cbn [negb]. rewrite Hst.
  by destruct st.
Qed.

(** In between, recovery refuses and changes nothing. *)
Lemma recover_closing r w rel st :
  closing r st w → _recover_locked op_id rel w = ([], (w, Ok (refuse R_RECOVERY_CONFLICT))).
Proof.
  intros (Hs & Hr & Hm & Hwf & s & Hp & Hss). unfold _recover_locked.
  pose proof (wf_op_id_safe _ _ _ _ Hwf) as Hsafe.
  pose proof (wf_op_id _ _ _ _ Hwf) as Hid. rewrite <-Hid in Hsafe.
  destruct (validate_op_id op_id); [|done]. rewrite get_bind.
  unfold decode_operation_record. rewrite Hm, decode_manifest_encode by done. cbn [mbind res_bind].
  by rewrite (merge_closed _ _ _ _ Hp Hss Hs Hr).
Qed.

(** ** Settling *)

Lemma targets_wf_settled is1 is2 st st' seen i ts :
  settled st' = true → targets_wf root is1 st seen i ts → targets_wf root is2 st' seen i ts.
Proof.
  intros Hs. induction 1; econstructor; eauto. intros Hu.
  destruct st'; vm_compute in Hu, Hs; discriminate.
Qed.

Lemma record_wf_settled is1 is2 r s :
  record_wf root is1 op_id r → settled (r_status (merge_sidecar r s)) = true →
  record_wf root is2 op_id (merge_sidecar r s).
Proof.
  intros [Hid Hne Hsafe Hop Hcr Hpol Hpre Hread Hmeta Hts] Hs. split; try done.
  - unfold decode_created_at in *. simpl in *. set (st := default (r_status r) (s_status s)) in *.
    apply res_bind_Ok in Hcr as ([] & _ & Hcr).
    rewrite check_true; [done|]. by destruct st.
  - eapply targets_wf_settled; [done|]. simpl. destruct (s_frontier s); [by apply targets_wf_mark|done].
Qed.

Lemma drop_staged_closed r st l w :
  closed r st w → Forall (λ w', closed r st w' ∧ w_fs w' = w_fs w) (trace (drop_staged l) w) ∧
  closed r st (final (drop_staged l) w) ∧ w_fs (final (drop_staged l) w) = w_fs w ∧
  result (drop_staged l) w = Ok tt.
Proof.
  revert w. induction l as [|n l IH]; intros w Hc; [split_and!; [by apply Forall_nil|done..]|].
  set (w1 := set_staged (base.filter (λ e, e.1 ≠ n) (w_staged w)) w).
  assert (closed r st w1) as Hc1.
  { destruct Hc as (Hs & r' & s & Hm & Hwf & Hst & Hrest). split; [done|]. exists r', s.
    split_and!; try done; try apply Hrest. destruct Hwf as [Hid Hne Hsafe Hop Hcr Hpol Hpre Hread Hmeta Hts].
    split; try done. eapply targets_wf_settled; [by rewrite Hst|done]. }
  destruct (IH w1 Hc1) as (H1 & H2 & H3 & H4).
  unfold trace, final, result in *. cbn [drop_staged]. unfold mbind, M_bind, step. fold w1.
  destruct (drop_staged l w1) as [t [w2 x]]. simpl in *. split_and!; [|done..]. constructor; done.
Qed.

(** A terminal [mark]: the sidecar first, then the manifest, and from there on
    the operation is closed. *)
Lemma mark_settled r s w st :
  ready r s w → settled st = true →
  ∃ w1 t w', mark op_id st None None w = (w1 :: t, (w', Ok tt)) ∧
    closing r st w1 ∧ w_fs w1 = w_fs w ∧
    Forall (λ w2, closed r st w2 ∧ w_fs w2 = w_fs w) t ∧ closed r st w' ∧ w_fs w' = w_fs w ∧
    w_dir w' = InSettled ∧ w_progress w' = Absent.
Proof.
  intros [Hm Hwf Hst Hp Ho] Hs.
  destruct (mark_write op_id _ w s st None None Hp) as (j & Hj & E); [by split|].
  rewrite Hs in E. cbv zeta in E. set (w1 := set_progress j w) in *.
  set (s1 := marked st None None s) in *. set (r1 := merge_sidecar r s1).
  assert (closing r st w1) as Hc1 by (split_and!; [done..|exists s1; done]).
  assert (fold_progress op_id w1 =
    ([set_manifest (Document (encode_record r1)) w1;
      set_progress Absent (set_manifest (Document (encode_record r1)) w1)],
     (set_progress Absent (set_manifest (Document (encode_record r1)) w1), Ok tt))) as Ef.
  { unfold fold_progress. rewrite get_bind. assert (w_progress w1 = j) as -> by done.
    assert (read op_id true w1 = ([], (w1, Ok r1))) as Er.
    { unfold read. rewrite get_bind.
      assert (decode_operation_record root (is_staged w1) op_id (w_manifest w1) (w_progress w1) true = Ok r1) as ->; [|done].
      unfold decode_operation_record. unfold w1 at 2. simpl. rewrite Hm, decode_manifest_encode by done.
      cbn [mbind res_bind]. apply merge_says; auto. }
    destruct j as [| |[| | | | | |d]]; try done. by rewrite (bind_Ok _ _ _ _ _ _ Er). }
  set (w2 := set_manifest (Document (encode_record r1)) w1) in *. set (w3 := set_progress Absent w2) in *.
  assert (record_wf root (is_staged w) op_id r1) as Hwf1 by (by eapply record_wf_settled).
  assert (closed r st w2) as Hc2.
  { split; [done|]. exists r1, s1. split_and!; try done; [|by right|apply merge_paths].
    unfold w2, w1. cbn [w_progress set_manifest set_progress]. 
    assert (length (r_targets r1) = length (r_targets r)) as ->; [|done].
    rewrite <-(length_fmap t_path (r_targets r1)), <-(length_fmap t_path (r_targets r)).
    f_equal. apply merge_paths. }
  assert (closed r st w3) as Hc3.
  { destruct Hc2 as (_ & r' & s' & Hm' & Hwf' & Hst' & _ & _ & Hrest). split; [done|].
    exists r', (Sidecar None None None). split_and!; try done; [by left|apply Hrest..]. }
  assert (∃ t w4, ((if bool_decide (st = COMMITTED) then _drop_staged_payloads else mret tt) : M ()) w3
            = (t, (w4, Ok tt)) ∧ Forall (λ w', closed r st w' ∧ w_fs w' = w_fs w) t
            ∧ closed r st w4 ∧ w_fs w4 = w_fs w ∧ w_progress w4 = Absent) as (t & w4 & Ed & Ht & Hc4 & Hf4 & Hp4).
  { case_bool_decide; [|exists [], w3; split_and!; [done|by apply Forall_nil|done..]].
    unfold _drop_staged_payloads. rewrite get_bind.
    destruct (drop_staged_closed r st (dkeys (w_staged w3)) w3 Hc3) as (D1 & D2 & D3 & D4).
    assert (∀ l w, w_progress (final (drop_staged l) w) = w_progress w) as D5.
    { clear. induction l as [|n l IH]; intros w; [done|]. cbn [drop_staged].
      unfold final, mbind, M_bind, step in *.
      specialize (IH (set_staged (base.filter (λ e, e.1 ≠ n) (w_staged w)) w)).
      by destruct (drop_staged l _) as [? [? ?]]. }
    specialize (D5 (dkeys (w_staged w3)) w3).
    unfold trace, final, result in *. destruct (drop_staged _ w3) as [t [w4 x]]. simpl in *. subst x.
    exists t, w4. done. }
  exists w1, ([w2; w3] ++ t ++ [set_dir InSettled w4]), (set_dir InSettled w4).
  assert (closed r st (set_dir InSettled w4)) as Hc5 by exact Hc4.
  split_and!; try done.
  - rewrite E. unfold mbind, M_bind. rewrite Ef. rewrite Ed. unfold _settle_journal, step. done.
  - rewrite !Forall_app, Forall_singleton. split_and!; [|done..]. by repeat (apply Forall_cons; split).
Qed.
End states.
