(* ===== verification/JournalPlan.v ===== *)
(** * Plans and how far they got

    A plan of writes and file deletions whose targets are independent, the
    files it passes through when it is carried out in order, and what the
    classifier of the journal makes of each of them. *)

From S2P Require Import Prelude PyStr PyStrFacts PyDict Sha256 JournalFs SafeId JournalRecord Journal.
From S2P Require Import JournalApply JournalFacts.

Local Arguments classify : simpl never.

(** A plan pairs each target with the content to write. *)
Abbreviation plan := (list (target * list N)).

Section plan.
Context `{Host}.

Definition path_of (x : target * list N) : path := owned x.1.
Definition act_of (x : target * list N) : action := t_action x.1.

Implicit Types (ps : plan) (x y : target * list N) (f : fs).

(** One target of a plan made on the files [f0]. *)
Record target_ok (f0 : fs) x : Prop := TargetOk {
  to_owned : is_Some (owned_target_path root (t_path x.1));
  to_action : act_of x ≠ DeleteDir;
  to_feasible : feasible (act_of x) (path_of x) f0;
  to_before : t_before x.1 = live_hash (act_of x) f0 (path_of x);
  to_after : t_after x.1 = planned_hash (act_of x) x.2;
  to_effective : t_before x.1 ≠ t_after x.1;
}.

(** The plan: no target is another or above another. *)
Record plan_ok (f0 : fs) ps : Prop := PlanOk {
  po_targets : Forall (target_ok f0) ps;
  po_independent : ∀ i j x y, ps !! i = Some x → ps !! j = Some y → i ≠ j →
    independent (path_of x) (path_of y);
}.

Definition planned_node x : res oserror node :=
  match act_of x with Write => Ok (File x.2) | _ => Err FileNotFoundError end.

(** [q] is above a target the plan writes. *)
Definition above ps (q : path) : Prop := ∃ x, x ∈ ps ∧ act_of x = Write ∧ q ∈ parents (path_of x).

(** The files [f] are those of [f0] with the first [k] targets carried out;
    directories above further targets may have been made. *)
Record reached (f0 : fs) ps (k : nat) (f : fs) : Prop := Reached {
  re_done : ∀ i x, ps !! i = Some x → i < k → lstat f (path_of x) = planned_node x;
  re_todo : ∀ i x, ps !! i = Some x → k ≤ i →
    lstat f (path_of x) = lstat f0 (path_of x) ∧ feasible (act_of x) (path_of x) f;
  re_frame : ∀ q, (∀ x, x ∈ ps → q ≠ path_of x) →
    look f q = look f0 q ∨ (above ps q ∧ look f0 q = None ∧ look f q = Some Dir);
  re_dirs : ∀ i x q, ps !! i = Some x → i < k → act_of x = Write → q ∈ parents (path_of x) →
    look f q = Some Dir;
}.

Lemma plan_target f0 ps i x : plan_ok f0 ps → ps !! i = Some x → target_ok f0 x.
Proof. intros [Hf _]. by apply Forall_lookup_1. Qed.

Lemma reached_start f0 ps : plan_ok f0 ps → reached f0 ps 0 f0.
Proof.
  intros Hp. split; intros; try lia; [|by left].
  split; [done|]. by eapply to_feasible, plan_target.
Qed.

(** A change that only concerns the target of index [k] keeps the rest. *)
Lemma reached_only f0 ps k j f f' x :
  plan_ok f0 ps → reached f0 ps k f → ps !! j = Some x → only (path_of x) f f' →
  (∀ q, look f' q = look f q ∨ q = path_of x ∨ act_of x = Write) →
  (∀ i y, ps !! i = Some y → i ≠ j → lstat f' (path_of y) = lstat f (path_of y)) ∧
  (∀ i y, ps !! i = Some y → i ≠ j → k ≤ i → feasible (act_of y) (path_of y) f') ∧
  (∀ q, (∀ y, y ∈ ps → q ≠ path_of y) →
    look f' q = look f0 q ∨ (above ps q ∧ look f0 q = None ∧ look f' q = Some Dir)) ∧
  (∀ i y q, ps !! i = Some y → i < k → i ≠ j → act_of y = Write → q ∈ parents (path_of y) →
    look f' q = Some Dir).
Proof.
  intros Hp Hr Hj Ho Hw.
  assert (∀ i y, ps !! i = Some y → i ≠ j → independent (path_of x) (path_of y)) as Hind.
  { intros i y Hi Hij. eapply po_independent; eauto. }
  split_and!.
  - intros i y Hi Hij. destruct (Hind i y Hi Hij) as (? & ? & ?). by eapply lstat_only.
  - intros i y Hi Hij Hk. eapply feasible_only; [done|by eapply Hind|]. by eapply re_todo.
  - intros q Hq. destruct (Ho q) as [E|(Hin & E1 & E2)].
    + eapply Hq, list_elem_of_lookup_2, Hj.
    + rewrite E. by eapply re_frame.
    + right. destruct (re_frame _ _ _ _ Hr q Hq) as [E|(_ & _ & E)]; [|congruence].
      split_and!; [|congruence|done]. exists x. split_and!; [by eapply list_elem_of_lookup_2| |done].
      destruct (Hw q) as [Hlk|[-> |]]; [congruence| |done]. by apply parents_irrefl in Hin.
  - intros i y q Hi Hik Hij Hy Hq.
    pose proof (re_dirs _ _ _ _ Hr i y q Hi Hik Hy Hq) as Hd.
    destruct (Ho q) as [-> |(_ & _ & ?)]; [|done..].
    intros ->. by destruct (Hind i y Hi Hij) as (_ & ? & _).
Qed.

(** Making the directories above the next target changes nothing that matters. *)
Lemma reached_mkdirs f0 ps k f x :
  plan_ok f0 ps → reached f0 ps k f → ps !! k = Some x → act_of x = Write →
  reached f0 ps k (mkdirs f (path_of x)).
Proof.
  intros Hp Hr Hk Ha.
  destruct (reached_only f0 ps k k f (mkdirs f (path_of x)) x) as (H1 & H2 & H3 & H4);
    try done; [apply only_mkdirs|by auto|].
  destruct (re_todo _ _ _ _ Hr k x Hk) as [Hl [Hne Hfe]]; [done|]. rewrite Ha in Hfe.
  split; [..|done|].
  - intros i y Hi Hik. rewrite (H1 i y) by (done || lia). by eapply re_done.
  - intros i y Hi Hki. destruct (decide (i = k)) as [->|Hik].
    + simplify_eq. rewrite lstat_mkdirs by apply Hfe. split; [done|]. rewrite Ha. split; [done|].
      rewrite (blocked_only _ _ _ _ (only_mkdirs f _) (parents_irrefl _)).
      rewrite look_mkdirs, bool_decide_false by apply parents_irrefl. done.
    + rewrite (H1 i y) by done. split; [by eapply re_todo|by eauto].
  - intros i y q Hi Hik. apply (H4 i y q); [done|done|lia].
Qed.

(** The next action can be carried out, and leads one step further. *)
Lemma reached_step f0 ps k f x :
  plan_ok f0 ps → reached f0 ps k f → ps !! k = Some x →
  ∃ f', do_action (act_of x) (path_of x) x.2 f = Ok f' ∧ reached f0 ps (S k) f'.
Proof.
  intros Hp Hr Hk. pose proof (plan_target _ _ _ _ Hp Hk) as Hx.
  destruct (re_todo _ _ _ _ Hr k x Hk) as [Hl Hfe]; [done|].
  destruct (feasible_action _ _ x.2 f (to_action _ _ Hx) Hfe) as [f' E]. exists f'. split; [done|].
  destruct (do_action_spec _ _ _ _ _ E) as (Hne & Ho & _ & Hst & Hnw & Hw).
  destruct (reached_only f0 ps k k f f' x) as (H1 & H2 & H3 & H4); try done.
  { intros q. destruct (decide (act_of x = Write)) as [|Ha]; [by auto|].
    destruct (decide (q = path_of x)); [by auto|]. left. by apply Hnw. }
  split; [..|done|].
  - intros i y Hi Hik. destruct (decide (i = k)) as [->|]; [by simplify_eq|].
    rewrite (H1 i y) by done. eapply re_done; [done..|lia].
  - intros i y Hi Hki. rewrite (H1 i y) by (done || lia).
    split; [eapply re_todo; [done..|lia]|apply (H2 i y); [done|lia..]].
  - intros i y q Hi Hik Hy Hq. destruct (decide (i = k)) as [->|]; [simplify_eq; by apply Hw|].
    apply (H4 i y q); [done|lia|done..].
Qed.

(** ** Classification *)

Lemma live_done f0 ps k f i x :
  plan_ok f0 ps → reached f0 ps k f → ps !! i = Some x → i < k →
  live_hash (act_of x) f (path_of x) = t_after x.1.
Proof.
  intros Hp Hr Hi Hk. pose proof (plan_target _ _ _ _ Hp Hi) as Hx.
  pose proof (re_done _ _ _ _ Hr i x Hi Hk) as E. rewrite (to_after _ _ Hx). unfold planned_node in E.
  destruct (act_of x); [by apply (live_hash_File Write)|by apply live_hash_absent..].
Qed.

Lemma live_todo f0 ps k f i x :
  plan_ok f0 ps → reached f0 ps k f → ps !! i = Some x → k ≤ i →
  live_hash (act_of x) f (path_of x) = t_before x.1.
Proof.
  intros Hp Hr Hi Hk. pose proof (plan_target _ _ _ _ Hp Hi) as Hx. rewrite (to_before _ _ Hx).
  apply live_hash_lstat; [apply Hx|]. by eapply re_todo.
Qed.

Lemma classify_reached f0 ps k f i x :
  plan_ok f0 ps → reached f0 ps k f → ps !! i = Some x →
  classify f x.1 = if decide (i < k) then TARGET_ALREADY_APPLIED else TARGET_PENDING.
Proof.
  intros Hp Hr Hi. unfold classify, _target_live_hash. change (t_action x.1) with (act_of x).
  change (owned x.1) with (path_of x). unfold classify_target. case_decide.
  - rewrite (live_done f0 ps k f i x) by done. by rewrite eqs_refl.
  - rewrite (live_todo f0 ps k f i x) by (done || lia).
    unfold eqs. rewrite bool_decide_false by (by eapply to_effective, plan_target).
    by rewrite bool_decide_true.
Qed.

Lemma classes_reached f0 ps k f :
  plan_ok f0 ps → reached f0 ps k f → k ≤ length ps →
  classify f <$> ps.*1 =
    replicate k TARGET_ALREADY_APPLIED ++ replicate (length ps - k) TARGET_PENDING.
Proof.
  intros Hp Hr Hk. apply list_eq. intros i. rewrite !list_lookup_fmap.
  destruct (ps !! i) as [x|] eqn:Hi; simpl.
  - rewrite (classify_reached f0 ps k f i x) by done. apply lookup_lt_Some in Hi. case_decide.
    + rewrite lookup_app_l by (by rewrite length_replicate). by rewrite lookup_replicate_2.
    + rewrite lookup_app_r by (rewrite length_replicate; lia).
      rewrite lookup_replicate_2; [done|]. rewrite length_replicate. lia.
  - apply lookup_ge_None in Hi. symmetry. apply lookup_ge_None.
    rewrite length_app, !length_replicate. lia.
Qed.

(** Without a conflict there is nothing to defer. *)
Lemma defer_go_id seen ts cs :
  Forall (λ c, c ≠ TARGET_CONFLICT) cs → length ts = length cs → defer_go seen ts cs = cs.
Proof.
  revert seen cs. induction ts as [|t ts IH]; intros seen [|c cs]; simpl; try done.
  intros [Hc Hcs]%Forall_cons [= Hl]. rewrite bool_decide_false by done. simpl. by rewrite IH.
Qed.

Lemma prefix_length_split k m :
  prefix_length (replicate k TARGET_ALREADY_APPLIED ++ replicate m TARGET_PENDING) = k.
Proof. induction k; simpl; [by destruct m|]. by f_equal. Qed.

Lemma find_index_None {A} (P : A → bool) l : Forall (λ a, P a = false) l → find_index P l = None.
Proof. induction 1 as [|a l Ha _ IH]; simpl; [done|]. by rewrite Ha, IH. Qed.

Lemma elem_of_classes k m c :
  c ∈ replicate k TARGET_ALREADY_APPLIED ++ replicate m TARGET_PENDING → c ≠ TARGET_CONFLICT.
Proof. rewrite elem_of_app, !elem_of_replicate. by intros [[-> _]|[-> _]]. Qed.

(** What recovery computes from the classes of a plan that got to [k]. *)
Lemma classes_summary (ts : list target) k m cs :
  cs = replicate k TARGET_ALREADY_APPLIED ++ replicate m TARGET_PENDING → length ts = k + m →
  Forall (λ t, is_noop_target t = false) ts →
  defer_unreached_targets ts cs = cs ∧ prefix_length cs = k ∧ first_conflict cs = None ∧
  first_out_of_order k ts cs = None ∧ nothing_materialized ts cs = bool_decide (k = 0).
Proof.
  intros -> Hl Hn. split_and!.
  - apply defer_go_id; [|by rewrite length_app, !length_replicate].
    apply Forall_forall. intros c. apply elem_of_classes.
  - apply prefix_length_split.
  - apply find_index_None, Forall_forall. intros c Hc%elem_of_classes. by apply bool_decide_eq_false.
  - unfold first_out_of_order. rewrite find_index_None; [done|].
    apply Forall_forall. intros [t c] Hin. simpl.
    apply list_elem_of_lookup in Hin as [i Hi]. rewrite lookup_drop in Hi.
    apply lookup_zip_Some in Hi as [_ Hi]. rewrite lookup_app_r in Hi by (rewrite length_replicate; lia).
    apply lookup_replicate in Hi as [-> _]. done.
  - unfold nothing_materialized. destruct k as [|k].
    + rewrite bool_decide_true by done. apply forallb_forall. intros [c t] Hin%list_elem_of_In.
      apply list_elem_of_lookup in Hin as [i [Hi _]%lookup_zip_Some].
      by apply lookup_replicate in Hi as [-> _].
    + rewrite bool_decide_false by done. destruct ts as [|t ts]; [done|].
      apply Forall_cons in Hn as [Ht _]. simpl. by rewrite Ht.
Qed.

(** Two complete runs leave the same files. *)
Lemma reached_unique f0 ps f f' :
  plan_ok f0 ps → reached f0 ps (length ps) f → reached f0 ps (length ps) f' →
  ∀ q, look f q = look f' q.
Proof.
  intros Hp Hr Hr' q.
  destruct (decide (Exists (λ x, q = path_of x) ps)) as [Hq|Hq].
  - apply Exists_exists in Hq as (x & [i Hi]%list_elem_of_lookup & ->).
    pose proof (lookup_lt_Some _ _ _ Hi) as Hlt.
    pose proof (re_done _ _ _ _ Hr i x Hi Hlt) as E. pose proof (re_done _ _ _ _ Hr' i x Hi Hlt) as E'.
    unfold planned_node in *. destruct (act_of x).
    + apply lstat_Ok in E as [_ ->]. by apply lstat_Ok in E' as [_ ->].
    + unfold lstat in *. destruct (blocked f _), (look f _), (blocked f' _), (look f' _); done.
    + unfold lstat in *. destruct (blocked f _), (look f _), (blocked f' _), (look f' _); done.
  - assert (∀ x, x ∈ ps → q ≠ path_of x) as Hq'.
    { intros x Hx ->. apply Hq, Exists_exists. eauto. }
    assert (∀ g, reached f0 ps (length ps) g → above ps q → look g q = Some Dir) as Hab.
    { intros g Hg (x & [i Hi]%list_elem_of_lookup & Ha & Hin).
      eapply re_dirs; [done..| |done|done]. by eapply lookup_lt_Some. }
    destruct (re_frame _ _ _ _ Hr q Hq') as [E|(Hin & _ & E)], (re_frame _ _ _ _ Hr' q Hq') as [E'|(Hin' & _ & E')].
    + congruence.
    + rewrite E'. by apply Hab.
    + rewrite E. symmetry. by apply Hab.
    + congruence.
Qed.
End plan.
