(* ===== verification/JournalRecovery.v ===== *)
(** * Recovery brings a plan to its end

    Convergence of [_recover_locked] on a plan of writes and file deletions:
    replay from any point the plan has reached carries it out, the commit that
    follows settles the record, and every durable write on the way leaves a
    world recovery can start from again. *)

From S2P Require Import Prelude PyStr PyStrFacts PyDict Sha256 JournalFs SafeId JournalRecord Journal.
From S2P Require Import JournalApply JournalFacts JournalPlan.

Local Arguments classify : simpl never.

Section recovery.
Context `{Host} (op_id : pystr).

(** A target as the decoder reads it: only [applied] may differ. *)
Definition same_target (t t' : target) : Prop :=
  t_path t' = t_path t ∧ t_action t' = t_action t ∧ t_before t' = t_before t ∧ t_after t' = t_after t.

Lemma same_target_refl ts : Forall2 same_target ts ts.
Proof. apply Forall_Forall2_diag, Forall_true. by intros. Qed.

Lemma same_target_mark k ts : Forall2 same_target ts (mark_prefix k ts).
Proof.
  revert k. induction ts as [|t ts IH]; intros [|k]; simpl; constructor; try done.
  apply same_target_refl.
Qed.

Lemma same_target_merge r s : Forall2 same_target (r_targets r) (r_targets (merge_sidecar r s)).
Proof. simpl. destruct (s_frontier s); [apply same_target_mark|apply same_target_refl]. Qed.

Lemma same_target_classify f ts ts' :
  Forall2 same_target ts ts' → classify f <$> ts' = classify f <$> ts.
Proof.
  induction 1 as [|t t' ts ts' (E1 & E2 & E3 & E4) _ IH]; [done|]. rewrite !fmap_cons, IH. f_equal.
  unfold classify, _target_live_hash, owned. by rewrite E1, E2, E3, E4.
Qed.

(** The staged evidence holds the content of every write. *)
Definition staged_for (ps : plan) (w : world) : Prop :=
  ∀ i x, ps !! i = Some x → act_of x = Write → staged_content i x.1 w = Some x.2.

Lemma staged_content_ext i t t' w w' :
  t_path t' = t_path t → w_staged w' = w_staged w → staged_content i t' w' = staged_content i t w.
Proof. unfold staged_content, owned. by intros -> ->. Qed.

Lemma ready_fs r s w f : ready op_id r s w → ready op_id r s (set_fs f w).
Proof. by intros [? ? ? ? ?]. Qed.

Lemma ready_progress_set r s s' w j :
  ready op_id r s w → progress_says (length (r_targets r)) j s' → open_sidecar s' →
  ready op_id r s' (set_progress j w).
Proof. by intros [? ? ? ? ?]. Qed.

(** The state of an operation in progress on a plan: journal, files, evidence. *)
Definition in_progress (f0 : fs) (ps : plan) (r : oprec) (k : nat) (w : world) : Prop :=
  (∃ s, ready op_id r s w) ∧ reached f0 ps k (w_fs w) ∧ staged_for ps w.

Lemma in_progress_progress f0 ps r k w s' j :
  in_progress f0 ps r k w → progress_says (length (r_targets r)) j s' → open_sidecar s' →
  in_progress f0 ps r k (set_progress j w).
Proof. intros ([s Hs] & Hf & Hst) Hj Ho. split_and!; [|done|done]. exists s'. by eapply ready_progress_set. Qed.

(** ** The action on one target *)

Lemma perform_spec f0 ps r k x t w :
  plan_ok f0 ps → in_progress f0 ps r k w → ps !! k = Some x → same_target x.1 t →
  ∃ tr w', perform t x.2 w = (tr, (w', Ok (Ok tt))) ∧
    Forall (λ w1, in_progress f0 ps r k w1 ∨ in_progress f0 ps r (S k) w1) tr ∧
    in_progress f0 ps r (S k) w' ∧ w_progress w' = w_progress w.
Proof.
  intros Hp (Hs & Hf & Hst) Hk (E1 & E2 & E3 & E4).
  destruct (reached_step f0 ps k (w_fs w) x Hp Hf Hk) as (f' & Ef & Hf').
  assert (owned t = path_of x) as Eo by (unfold path_of, owned; by rewrite E1).
  assert (t_action t = act_of x) as Ea by done.
  assert (in_progress f0 ps r (S k) (set_fs f' w)) as Hnext.
  { destruct Hs as [s Hs]. split_and!; [exists s; by apply ready_fs|done|done]. }
  destruct (decide (act_of x = Write)) as [Hw|Hw].
  - assert (in_progress f0 ps r k (set_fs (mkdirs (w_fs w) (path_of x)) w)) as Hmid.
    { destruct Hs as [s Hs]. split_and!; [exists s; by apply ready_fs| |done]. by apply reached_mkdirs. }
    exists [set_fs (mkdirs (w_fs w) (path_of x)) w; set_fs f' w], (set_fs f' w). split_and!; try done.
    + unfold perform. rewrite get_bind, Ea, Eo, Ef, bool_decide_true by done. done.
    + repeat (apply Forall_cons; split); [by left|by right|done].
  - exists [set_fs f' w], (set_fs f' w). split_and!; try done.
    + unfold perform. rewrite get_bind, Ea, Eo, Ef, bool_decide_false by done. done.
    + repeat (apply Forall_cons; split); [by right|done].
Qed.

Lemma in_progress_says f0 ps r k w :
  in_progress f0 ps r k w → ∃ s, progress_says (length (r_targets r)) (w_progress w) s.
Proof. intros ([s Hs] & _). exists s. apply Hs. Qed.

Lemma mark_applying f0 ps r k w st pi ti :
  in_progress f0 ps r k w → in_plan (length (r_targets r)) pi ti → settled st = false →
  ∃ w', mark op_id st pi ti w = ([w'], (w', Ok tt)) ∧ in_progress f0 ps r k w' ∧ w_fs w' = w_fs w.
Proof.
  intros Hw Hpl Hst. destruct (in_progress_says _ _ _ _ _ Hw) as [s Hs].
  destruct (mark_open op_id _ w s st pi ti Hs Hpl Hst) as (j & Hj & E).
  exists (set_progress j w). split_and!; [done| |done]. by eapply in_progress_progress.
Qed.

(** ** The pending suffix *)

(** Every durable state on the way has the plan in progress. *)
Definition on_the_way (f0 : fs) (ps : plan) (r : oprec) (w : world) : Prop :=
  ∃ k, k ≤ length ps ∧ in_progress f0 ps r k w.

Lemma replay_completes f0 ps r k0 k ts w :
  plan_ok f0 ps → r_targets r = ps.*1 → in_progress f0 ps r k w → k ≤ length ps →
  Forall2 same_target (drop k (ps.*1)) ts →
  ∃ tr w', replay op_id k0 k ts w = (tr, (w', Ok None)) ∧
    Forall (on_the_way f0 ps r) tr ∧ in_progress f0 ps r (length ps) w'.
Proof.
  intros Hp Hr. revert k w. induction ts as [|t ts IH]; intros k w Hw Hk Hts.
  { apply Forall2_nil_inv_r in Hts. exists [], w. split_and!; [done|by apply Forall_nil|].
    apply (f_equal length) in Hts. rewrite length_drop, length_fmap in Hts. simpl in Hts.
    by assert (k = length ps) as <- by lia. }
  apply Forall2_cons_inv_r in Hts as (t0 & ts0 & Ht & Hts & Ed).
  assert (∃ x, ps !! k = Some x ∧ x.1 = t0) as (x & Hx & Ex).
  { assert (ps.*1 !! k = Some t0) as E by (by rewrite <-(Nat.add_0_r k), <-lookup_drop, Ed).
    rewrite list_lookup_fmap in E. destruct (ps !! k) as [x|] eqn:E'; [|done]. exists x. by simplify_eq/=. }
  assert (drop (S k) (ps.*1) = ts0) as Ed'.
  { rewrite <-(Nat.add_1_r k), <-drop_drop, Ed. done. }
  pose proof (lookup_lt_Some _ _ _ Hx) as Hlt. subst t0.
  destruct (perform_spec f0 ps r k x t w Hp Hw Hx Ht) as (tr1 & w1 & E1 & Htr1 & Hw1 & _).
  destruct (mark_applying f0 ps r (S k) w1 APPLYING (Some (Z.of_nat k + 1)%Z) (Some (Z.of_nat k)))
    as (w2 & E2 & Hw2 & _); [done| |done|].
  { rewrite Hr, length_fmap. split; intros ? [= <-]; lia. }
  destruct (IH (S k) w2 Hw2) as (tr3 & w3 & E3 & Htr3 & Hw3); [lia|by rewrite Ed'|].
  assert ((o ← perform t x.2;
           match o with
           | Ok _ => mark op_id APPLYING (Some (Z.of_nat k + 1)%Z) (Some (Z.of_nat k)) ;;
                     replay op_id k0 (S k) ts
           | Err (OSError _) =>
               r' ← conflict op_id (refuse_at R_RECOVERY_CONFLICT k (Z.of_nat k0 - 1)); mret (Some r')
           | Err ValueError => raise (Os ValueError)
           end) w = (tr1 ++ w2 :: tr3, (w3, Ok None))) as Eact.
  { rewrite (bind_Ok _ _ _ _ _ _ E1). cbv iota. rewrite (bind_Ok _ _ _ _ _ _ E2). by rewrite E3. }
  exists (tr1 ++ w2 :: tr3), w3. split_and!; [|apply Forall_app; split;
    [eapply Forall_impl; [exact Htr1|]; intros w' [?|?]; [exists k|exists (S k)]; split; by try lia
    |constructor; [exists (S k); split; [lia|done]|done]]|done].
  cbn [replay]. rewrite get_bind. cbv zeta. destruct Ht as (Ep & Ea & Eb & Eaf).
  rewrite Ea. change (t_action x.1) with (act_of x).
  pose proof (plan_target _ _ _ _ Hp Hx) as Hok.
  destruct (act_of x) eqn:Hact; [..|by destruct (to_action _ _ Hok)].
  - rewrite (staged_content_ext _ x.1 t w w) by done. destruct Hw as (_ & _ & Hst). rewrite (Hst k x Hx Hact).
    rewrite Eaf, (to_after _ _ Hok), Hact. simpl planned_hash. rewrite eqs_refl. exact Eact.
  - pose proof Eact as E. unfold perform in E |- *. rewrite !Ea in *. change (t_action x.1) with (act_of x) in *.
    rewrite Hact in *. exact E.
Qed.

(** ** The end of the operation *)

Lemma verify_reached f0 ps ts f :
  plan_ok f0 ps → reached f0 ps (length ps) f → Forall2 same_target (ps.*1) ts →
  _verify_target_bytes f ts = true.
Proof.
  intros Hp Hr Hts. apply forallb_forall. intros t [i Hi]%list_elem_of_In%list_elem_of_lookup.
  destruct (Forall2_lookup_r _ _ _ _ _ Hts Hi) as (t0 & Ht0 & E1 & E2 & E3 & E4).
  rewrite list_lookup_fmap in Ht0. destruct (ps !! i) as [x|] eqn:Hx; [|done]. simplify_eq/=.
  apply eqs_true. unfold _target_live_hash, owned. rewrite E1, E2, E4.
  by apply (live_done f0 ps (length ps) f i x Hp Hr Hx), (lookup_lt_Some _ _ _ Hx).
Qed.

(** Where the two last marks lead: the status is in the sidecar, and only then in
    the manifest. *)
Definition settling (r : oprec) (st : status) (f : fs) (w : world) : Prop :=
  w_fs w = f ∧ closing op_id r st w.
Definition settled_at (r : oprec) (st : status) (f : fs) (w : world) : Prop :=
  w_fs w = f ∧ closed op_id r st w.

Lemma commit_completes f0 ps r ts policy m w :
  plan_ok f0 ps → in_progress f0 ps r (length ps) w → Forall2 same_target (ps.*1) ts →
  verified (w_fs w) ts policy m = true →
  ∃ before window after w',
    commit op_id ts policy m w = (before ++ window :: after, (w', Ok (done R_COMMITTED))) ∧
    Forall (in_progress f0 ps r (length ps)) before ∧ settling r COMMITTED (w_fs w) window ∧
    Forall (settled_at r COMMITTED (w_fs w)) after ∧
    closed op_id r COMMITTED w' ∧ w_fs w' = w_fs w ∧ w_dir w' = InSettled.
Proof.
  intros Hp Hw Hts Hv. unfold commit. rewrite get_bind.
  rewrite (verify_reached f0 ps) by (done || apply Hw). rewrite Hv. cbn [negb].
  destruct (mark_applying f0 ps r (length ps) w VERIFIED None None) as (w1 & E1 & Hw1 & Hf1); [done..|].
  destruct Hw1 as ([s1 Hs1] & Hre1 & Hst1).
  destruct (mark_settled op_id r s1 w1 COMMITTED Hs1) as (w2 & t & w3 & E2 & Hc2 & Hf2 & Ht & Hc3 & Hf3 & Hd & _); [done|].
  exists [w1], w2, t, w3. split_and!; [|..|done|congruence|done].
  - rewrite (bind_Ok _ _ _ _ _ _ E1). rewrite (bind_Ok _ _ _ _ _ _ E2).
    unfold mret, M_ret. by rewrite app_nil_r.
  - apply Forall_singleton. split_and!; [by exists s1|done..].
  - split; [congruence|done].
  - eapply Forall_impl; [exact Ht|]. intros w' [? ?]. split; [congruence|done].
Qed.

(** ** Roll-forward of an interrupted plan *)

(** What the rest of the project must still say when recovery looks at it:
    the dependencies of the plan are fresh and the verifiers accept its end. *)
Record accepts (f0 : fs) (ps : plan) (r : oprec) : Prop := Accepts {
  ac_targets : r_targets r = ps.*1;
  ac_owned : targets_owned r;
  ac_reads : reads_owned r;
  ac_operation : r_operation r ≠ py "release";
  ac_fresh : ∀ k f, reached f0 ps k f → forallb (dependency_fresh f) (r_read_preconditions r) = true;
  ac_binding : ∀ k f, reached f0 ps k f → same_binding f r;
  ac_verified : ∀ f ts, reached f0 ps (length ps) f → Forall2 same_target (ps.*1) ts →
    verified f ts (r_policy r) (r_metadata r) = true;
}.

Lemma noop_free f0 ps ts :
  plan_ok f0 ps → Forall2 same_target (ps.*1) ts → Forall (λ t, is_noop_target t = false) ts.
Proof.
  intros Hp Hts. apply Forall_lookup. intros i t Hi.
  destruct (Forall2_lookup_r _ _ _ _ _ Hts Hi) as (t0 & Ht0 & E1 & E2 & E3 & E4).
  rewrite list_lookup_fmap in Ht0. destruct (ps !! i) as [x|] eqn:Hx; [|done]. simplify_eq/=.
  apply bool_decide_eq_false. rewrite E3, E4. by eapply to_effective, plan_target.
Qed.

(** The bookkeeping repair publishes the exact frontier. *)
Lemma repair_in_progress f0 ps r k w (b : bool) :
  in_progress f0 ps r k w → r_targets r = ps.*1 → k ≤ length ps →
  ∃ tr w', ((if b then mret tt else reconcile_progress APPLYING (Z.of_nat k) (Z.of_nat k - 1)) : M ()) w
    = (tr, (w', Ok tt)) ∧ Forall (on_the_way f0 ps r) tr ∧ in_progress f0 ps r k w'.
Proof.
  intros Hw Hts Hk. destruct b; [exists [], w; split_and!; [done|by apply Forall_nil|done]|].
  destruct (in_progress_says _ _ _ _ _ Hw) as [s Hs].
  destruct (reconcile_open (length (r_targets r)) w s APPLYING (Z.of_nat k) (Z.of_nat k - 1)%Z Hs) as (j & Hj & E).
  { rewrite Hts, length_fmap. split; intros ? [= <-]; lia. }
  assert (in_progress f0 ps r k (set_progress j w)) by (by eapply in_progress_progress).
  exists [set_progress j w], (set_progress j w). split_and!; [done| |done].
  apply Forall_singleton. by exists k.
Qed.

(** The trace of a plan that is brought to its end: operations in progress, the
    one state whose sidecar alone is settled, and settled states. *)
Definition runs_to_the_end (f0 : fs) (ps : plan) (r : oprec) (before : list world) (window : world)
    (after : list world) : Prop :=
  ∃ f, reached f0 ps (length ps) f ∧ Forall (on_the_way f0 ps r) before ∧
    settling r COMMITTED f window ∧ Forall (settled_at r COMMITTED f) after.

Lemma roll_forward_completes f0 ps r s k w :
  plan_ok f0 ps → accepts f0 ps r → ready op_id r s w → in_progress f0 ps r k w → k ≤ length ps →
  (k ≠ 0 ∨ r_status (merge_sidecar r s) ≠ PREPARED) →
  ∃ before window after w',
    roll_forward op_id (merge_sidecar r s) w = (before ++ window :: after, (w', Ok (done R_COMMITTED))) ∧
    runs_to_the_end f0 ps r before window after ∧
    closed op_id r COMMITTED w' ∧ reached f0 ps (length ps) (w_fs w') ∧ w_dir w' = InSettled.
Proof.
  intros Hp Hacc Hs Hw Hk Hst. pose proof (same_target_merge r s) as Hts. rewrite (ac_targets _ _ _ Hacc) in Hts.
  unfold roll_forward. rewrite get_bind. cbv zeta. set (ts := r_targets (merge_sidecar r s)) in *.
  assert (length ts = k + (length ps - k)) as Hlen.
  { apply Forall2_length in Hts. rewrite length_fmap in Hts. lia. }
  destruct (classes_summary ts k (length ps - k) (classify (w_fs w) <$> ts)) as (D & P & C & O & N).
  { rewrite (same_target_classify _ _ _ Hts). apply (classes_reached f0); [done|apply Hw|done]. }
  { done. } { by eapply noop_free. }
  rewrite D, P, C, O, N.
  assert (bool_decide (r_status (merge_sidecar r s) = PREPARED) && bool_decide (k = 0) = false) as ->.
  { apply andb_false_iff. destruct Hst; [right|left]; by apply bool_decide_eq_false. }
  change (r_read_preconditions (merge_sidecar r s)) with (r_read_preconditions r).
  rewrite (ac_fresh _ _ _ Hacc k) by apply Hw. cbn [negb].
  rewrite (bind_Ok _ _ _ _ _ _ (doc_read _ _ _ (ready_progress _ _ _ _ Hs))).
  destruct (repair_in_progress f0 ps r k w (bookkeeping_exact k (merge_sidecar r s) (doc_of (w_progress w)))
    Hw (ac_targets _ _ _ Hacc) Hk) as (tr1 & w1 & E1 & Htr1 & Hw1).
  rewrite (bind_Ok _ _ _ _ _ _ E1).
  destruct (replay_completes f0 ps r k k (drop k ts) w1 Hp (ac_targets _ _ _ Hacc) Hw1 Hk) as (tr2 & w2 & E2 & Htr2 & Hw2).
  { by apply Forall2_drop. }
  rewrite (bind_Ok _ _ _ _ _ _ E2).
  destruct (commit_completes f0 ps r ts (r_policy r) (r_metadata r) w2 Hp Hw2 Hts) 
    as (tr3 & wc & after & w3 & E3 & Htr3 & Hwc & Haf & Hc & Hf & Hd).
  { eapply ac_verified; [done|apply Hw2|done]. }
  change (r_policy (merge_sidecar r s)) with (r_policy r). change (r_metadata (merge_sidecar r s)) with (r_metadata r).
  rewrite E3. exists (tr1 ++ tr2 ++ tr3), wc, after, w3.
  split_and!; [by rewrite <-!app_assoc| |done|rewrite Hf; apply Hw2|done].
  exists (w_fs w2). split_and!; [apply Hw2| |done|done].
  rewrite !Forall_app. split_and!; [done..|]. eapply Forall_impl; [exact Htr3|]. by exists (length ps).
Qed.

(** PREPARED with nothing materialized is aborted, without touching a file. *)
Lemma roll_forward_aborts f0 ps r s w :
  plan_ok f0 ps → accepts f0 ps r → ready op_id r s w → in_progress f0 ps r 0 w →
  r_status (merge_sidecar r s) = PREPARED →
  ∃ tr w', roll_forward op_id (merge_sidecar r s) w = (tr, (w', Ok (done R_ABORTED))) ∧
    Forall (λ w1, settling r ABORTED (w_fs w) w1 ∨ settled_at r ABORTED (w_fs w) w1) tr ∧ closed op_id r ABORTED w' ∧ w_fs w' = w_fs w.
Proof.
  intros Hp Hacc Hs Hw Hst. pose proof (same_target_merge r s) as Hts. rewrite (ac_targets _ _ _ Hacc) in Hts.
  unfold roll_forward. rewrite get_bind. cbv zeta. set (ts := r_targets (merge_sidecar r s)) in *.
  assert (length ts = 0 + length ps) as Hlen by (apply Forall2_length in Hts; by rewrite length_fmap in Hts).
  destruct (classes_summary ts 0 (length ps) (classify (w_fs w) <$> ts)) as (D & P & C & O & N).
  { rewrite (same_target_classify _ _ _ Hts), (classes_reached f0 ps 0); [by rewrite Nat.sub_0_r|done|apply Hw|lia]. }
  { done. } { by eapply noop_free. }
  rewrite D, P, C, O, N, Hst, !bool_decide_true by done. cbn [andb].
  destruct (mark_settled op_id r s w ABORTED Hs) as (w1 & t & w2 & E & Hc1 & Hf1 & Ht & Hc2 & Hf2 & _); [done|].
  exists (w1 :: t), w2. rewrite (bind_Ok _ _ _ _ _ _ E). unfold mret, M_ret. rewrite app_nil_r.
  split_and!; [done| |done|done]. constructor; [by left|].
  eapply Forall_impl; [exact Ht|]. intros w' [? ?]. by right.
Qed.
End recovery.
