(* ===== verification/JournalCrash.v ===== *)
(** * Crashes

    [execute] journals an operation and applies it. Here its whole trace is
    followed: whatever durable state a crash leaves, recovery settles it as
    committed with the planned files or as aborted with none of them, but for
    one window between two writes of the journal itself. *)

From S2P Require Import Prelude PyStr PyStrFacts PyDict Sha256 JournalFs SafeId JournalRecord Journal.
From S2P Require Import JournalApply JournalFacts JournalPlan JournalRecovery BoardClock.

Local Arguments classify : simpl never.

Lemma staged_name_inj i j c d : staged_name i c = staged_name j d → i = j.
Proof.
  unfold staged_name, cat. change (py "_") with [95%N]. intros E. cbn [app] in E.
  apply app_sep_inj in E as [E _].
  - rewrite <-(Nat2N.id i), <-(Nat2N.id j), <-(int_of_str_of (N.of_nat i)), E. by rewrite int_of_str_of.
  - intros Hin. pose proof (str_of_digits (N.of_nat i)) as Hd. rewrite Forall_forall in Hd.
    by apply Hd in Hin.
  - intros Hin. pose proof (str_of_digits (N.of_nat j)) as Hd. rewrite Forall_forall in Hd.
    by apply Hd in Hin.
Qed.

Section crash.
Context `{Host} (op_id : pystr).

(** ** Staging *)

(** Same project files and same journal files, staged evidence apart. *)
Definition staging_of (w w' : world) : Prop :=
  w_fs w' = w_fs w ∧ w_manifest w' = w_manifest w ∧ w_progress w' = w_progress w ∧ w_dir w' = w_dir w.

Lemma stage_spec i ps w :
  Forall (λ x, is_Some (owned_target_path root (t_path x.1))) ps →
  ∃ tr w', stage i ps w = (tr, (w', Ok tt)) ∧ Forall (staging_of w) tr ∧ staging_of w w' ∧
    (∀ j x, ps !! j = Some x → act_of x = Write →
       dget (staged_name (i + j) (as_posix (path_of x))) (w_staged w') = Some x.2) ∧
    (∀ m c, m < i → dget (staged_name m c) (w_staged w') = dget (staged_name m c) (w_staged w)).
Proof.
  intros Ho. revert i w. induction Ho as [|[t c] ps [p Hp] _ IH]; intros i w.
  { exists [], w. split_and!; [done|by apply Forall_nil|done..]. }
  simpl in Hp. cbn [stage]. rewrite Hp.
  assert (path_of (t, c) = p) as Epath by (unfold path_of, owned; simpl; by rewrite Hp).
  destruct (decide (t_action t = Write)) as [Ha|Ha].
  - set (w1 := set_staged (dset (staged_name i (as_posix p)) c (w_staged w)) w).
    destruct (IH (S i) w1) as (tr & w' & E & Htr & Hw' & Hin & Hout).
    exists (w1 :: tr), w'. split_and!; [|by constructor|done|..].
    + rewrite Ha. by rewrite (bind_Ok _ _ w [w1] w1 tt), E by done.
    + intros [|j] x Hj Hx; [|rewrite <-plus_n_Sm; by apply (Hin j x)]. simplify_eq/=.
      rewrite Nat.add_0_r, (Hout i) by lia. apply dget_dset_eq.
    + intros m d Hm. rewrite (Hout m) by lia. apply dget_dset_ne. intros E'%staged_name_inj. lia.
  - destruct (IH (S i) w) as (tr & w' & E & Htr & Hw' & Hin & Hout).
    exists tr, w'. split_and!; [|done|done|..].
    + destruct (t_action t); [done|..]; by rewrite (bind_Ok _ _ w [] w tt), E by done.
    + intros [|j] x Hj Hx; [by simplify_eq/=|]. rewrite <-plus_n_Sm. by apply (Hin j x).
    + intros m d Hm. apply Hout. lia.
Qed.

(** ** A valid request *)

(** What [validate_mutation_request] and the clock give of a request. *)
Record request_ok (q : request) (now : pystr) (m : option (dict pystr json)) : Prop := RequestOk {
  rq_id : nonempty op_id = true ∧ is_ok (validate_op_id op_id) = true;
  rq_operation : nonempty (q_operation q) = true;
  rq_now : nonempty now = true ∧ strict_iso_utc now = now;
  rq_policy : mem (q_policy q) VERIFICATION_POLICIES = true;
  rq_preconditions : Forall (λ e, nonempty e.1 = true) (q_preconditions q);
  rq_reads : Forall (λ e, nonempty e.1 = true) (q_read_preconditions q);
  rq_metadata : _canonical_receipt_metadata (q_metadata q) = Ok m ∧ metadata_wf m;
  rq_targets : Forall (λ t, nonempty (q_path t) = true ∧ mem (q_role t) ROLES = true) (q_targets q);
  rq_distinct : NoDup ((λ t, canonical_path root (q_path t)) <$> q_targets q);
}.

Lemma prepare_path f q : t_path (prepare f q).1 = q_path q.
Proof. done. Qed.

Lemma evidence_targets_wf staged ps seen i :
  Forall (λ x, nonempty (t_path x.1) = true ∧ mem (t_role x.1) ROLES = true) ps →
  Forall (λ x, is_Some (owned_target_path root (t_path x.1))) ps →
  NoDup ((λ x, canonical_path root (t_path x.1)) <$> ps) →
  (∀ c, c ∈ seen → Some c ∉ (λ x, canonical_path root (t_path x.1)) <$> ps) →
  (∀ j x, ps !! j = Some x → act_of x = Write → staged (staged_name (i + j) (as_posix (path_of x))) = true) →
  targets_wf root staged PREPARED seen i (ps.*1).
Proof.
  revert seen i. induction ps as [|x ps IH]; intros seen i Hr Ho Hnd Hseen Hst; [constructor|].
  apply Forall_cons in Hr as [[Hp Hrole] Hr]. apply Forall_cons in Ho as [[p Hown] Ho].
  rewrite fmap_cons in Hnd, Hseen. apply NoDup_cons in Hnd as [Hx Hnd].
  assert (canonical_path root (t_path x.1) = Some (as_posix p)) as Hc by (unfold canonical_path; by rewrite Hown).
  rewrite Hc in Hx, Hseen. rewrite fmap_cons. econstructor; [done|exact Hc|..|apply IH].
  - apply bool_decide_eq_false. intros Hin. apply (Hseen _ Hin). left.
  - done.
  - intros _ Ha. left. specialize (Hst 0 x eq_refl Ha). rewrite Nat.add_0_r in Hst.
    unfold path_of, owned in Hst. by rewrite Hown in Hst.
  - done.
  - done.
  - done.
  - intros c [->|Hin]%elem_of_cons; [done|]. intros Hin'. apply (Hseen c Hin). by right.
  - intros j y Hj Ha. rewrite Nat.add_succ_comm. by apply (Hst (S j)).
Qed.

(** ** Starting *)

(** No journal of this operation exists. *)
Definition no_journal (w : world) : Prop :=
  w_dir w = NoDir ∧ w_manifest w = Absent ∧ w_progress w = Absent ∧ w_staged w = [].

Lemma start_spec q now lineage m w :
  let f0 := w_fs w in let ps := prepare f0 <$> q_targets q in
  let r := prepared_record op_id q ps now lineage m in
  request_ok q now m → plan_ok f0 ps → no_journal w →
  ∃ tr w', start op_id q ps now lineage w = (tr ++ [w'], (w', Ok tt)) ∧
    Forall (λ w1, w_fs w1 = f0 ∧ w_manifest w1 = Absent) tr ∧
    in_progress op_id f0 ps r 0 w' ∧ w_progress w' = Absent.
Proof.
  intros f0 ps r Hq Hp (Hd & Hm & Hpr & Hs).
  assert (Forall (λ x, is_Some (owned_target_path root (t_path x.1))) ps) as Hown.
  { eapply Forall_impl; [apply Hp|]. intros x Hx. apply Hx. }
  destruct (stage_spec 0 ps (set_dir InOps w) Hown) as (tr & w1 & E & Htr & (Hf1 & Hm1 & Hp1 & Hd1) & Hst & _).
  set (w2 := set_manifest (Document (encode_record r)) w1).
  destruct (rq_metadata _ _ _ Hq) as [Hmeta Hmwf].
  assert (w_progress w2 = Absent) as Epr by (change (w_progress w1 = Absent); rewrite Hp1; exact Hpr).
  exists (set_dir InOps w :: tr), w2. split_and!.
  - unfold start. rewrite (rq_policy _ _ _ Hq). cbn [negb]. rewrite get_bind, Hd. unfold or_rmtree.
    rewrite (bind_Ok _ _ w [set_dir InOps w] (set_dir InOps w) tt) by done.
    rewrite (bind_Ok _ _ _ _ _ _ E), Hmeta. unfold step. fold r. fold w2. done.
  - constructor; [done|]. eapply Forall_impl; [exact Htr|]. intros w3 (-> & -> & _). done.
  - assert (w_fs w2 = f0) as Hf2 by done. split_and!; [|rewrite Hf2; by apply reached_start|].
    + exists (Sidecar None None None). split; try done.
      * destruct Hq as [[Hid1 Hid2] Hop [Hn1 Hn2] Hpol Hpre Hrd _ Htg Hnd]. split; try done.
        -- unfold decode_created_at. simpl. rewrite Hn2, Hn1. done.
        -- simpl. apply evidence_targets_wf; [|done| | |].
           ++ unfold ps. rewrite Forall_fmap. eapply Forall_impl; [exact Htg|]. done.
           ++ unfold ps. rewrite <-list_fmap_compose. exact Hnd.
           ++ by intros c ?%elem_of_nil.
           ++ intros j x Hj Ha. unfold is_staged, dmem. apply bool_decide_eq_true.
              change (w_staged w2) with (w_staged w1). rewrite (Hst j x Hj Ha). eauto.
      * by rewrite Epr.
    + intros i x Hi Ha. unfold staged_content. change (owned x.1) with (path_of x).
      change (w_staged w2) with (w_staged w1). pose proof (Hst i x Hi Ha) as Es. rewrite Nat.add_0_l in Es.
      by rewrite Es.
  - exact Epr.
Qed.

(** ** The apply loop *)

Lemma apply_completes f0 ps r k w :
  plan_ok f0 ps → r_targets r = ps.*1 → in_progress op_id f0 ps r k w → k ≤ length ps →
  ∃ tr w', apply_targets op_id k (drop k ps) w = (tr, (w', Ok None)) ∧
    Forall (on_the_way op_id f0 ps r) tr ∧ in_progress op_id f0 ps r (length ps) w'.
Proof.
  intros Hp Hr. remember (length ps - k) as n eqn:Hn. revert k w Hn. induction n as [|n IH]; intros k w Hn Hw Hk.
  { assert (k = length ps) as -> by lia. rewrite drop_all. exists [], w.
    split_and!; [done|by apply Forall_nil|done]. }
  destruct (lookup_lt_is_Some_2 ps k) as [x Hx]; [lia|].
  rewrite (drop_S _ x) by done. destruct x as [t c] eqn:Ex. rewrite <-Ex in Hx.
  assert (t = x.1 ∧ c = x.2) as [Et Ec] by (by subst).
  destruct (perform_spec op_id f0 ps r k x t w Hp Hw Hx) as (tr1 & w1 & E1 & Htr1 & Hw1 & _); [by subst|].
  destruct (mark_applying op_id f0 ps r (S k) w1 APPLYING (Some (Z.of_nat k + 1)%Z) (Some (Z.of_nat k)))
    as (w2 & E2 & Hw2 & _); [done| |done|].
  { rewrite Hr, length_fmap. split; intros ? [= <-]; lia. }
  destruct (IH (S k) w2) as (tr3 & w3 & E3 & Htr3 & Hw3); [lia|done|lia|].
  exists (tr1 ++ w2 :: tr3), w3. split_and!; [|apply Forall_app; split;
    [eapply Forall_impl; [exact Htr1|]; intros w' [?|?]; [exists k|exists (S k)]; split; by try lia
    |constructor; [exists (S k); split; [lia|done]|done]]|done].
  cbn [apply_targets]. rewrite get_bind. cbv zeta. rewrite Et.
  rewrite (classify_reached f0 ps k) with (i := k) by (done || apply Hw).
  rewrite decide_False by lia. rewrite Ec, <-Et. rewrite (bind_Ok _ _ _ _ _ _ E1). cbv iota.
  rewrite get_bind.
  assert ((_target_live_hash (w_fs w1) t =s t_after t) = true) as ->.
  { apply eqs_true. rewrite Et. apply (live_done f0 ps (S k) (w_fs w1) k x); [done|apply Hw1|done|lia]. }
  cbn [negb]. rewrite (bind_Ok _ _ _ _ _ _ E2), E3. done.
Qed.

(** ** What a crash leaves *)

Context (rel : M report).

(** Recovery of the crashed world [w] of a plan on [f0] ends in one of three
    ways: there is no journal and no file was touched; the operation is aborted
    and none of its targets was carried out; or it is committed, with every
    target carried out. *)
Definition recovered (f0 : fs) (ps : plan) (w : world) : Prop :=
  (_recover_locked op_id rel w = ([], (w, Ok (refuse R_TICKET_NOT_FOUND))) ∧ w_fs w = f0) ∨
  (∃ tr w', _recover_locked op_id rel w = (tr, (w', Ok (done R_ABORTED))) ∧ reached f0 ps 0 (w_fs w')) ∨
  (∃ tr w' c, _recover_locked op_id rel w = (tr, (w', Ok (done c))) ∧
     (c = R_COMMITTED ∨ c = R_ALREADY_APPLIED) ∧ reached f0 ps (length ps) (w_fs w')).

(** The settlement window: every target is carried out, and yet recovery refuses,
    writes nothing, and will refuse again. *)
Definition stuck (f0 : fs) (ps : plan) (w : world) : Prop :=
  _recover_locked op_id rel w = ([], (w, Ok (refuse R_RECOVERY_CONFLICT))) ∧
  reached f0 ps (length ps) (w_fs w).

Lemma on_the_way_outcome f0 ps r w :
  plan_ok f0 ps → accepts f0 ps r → on_the_way op_id f0 ps r w → recovered f0 ps w.
Proof.
  intros Hp Ha (k & Hk & Hw). pose proof Hw as ([s Hs] & Hre & _).
  assert (_recover_locked op_id rel w = roll_forward op_id (merge_sidecar r s) w) as E.
  { apply recover_ready; [done|apply Ha|apply Ha|by eapply ac_binding|apply Ha]. }
  destruct (decide (k = 0 ∧ r_status (merge_sidecar r s) = PREPARED)) as [[-> Hst]|Hst].
  - destruct (roll_forward_aborts op_id f0 ps r s w Hp Ha Hs Hw Hst) as (tr & w' & E' & _ & _ & Hf).
    right; left. exists tr, w'. rewrite E. split; [done|by rewrite Hf].
  - destruct (roll_forward_completes op_id f0 ps r s k w Hp Ha Hs Hw Hk)
      as (before & window & after & w' & E' & _ & _ & Hf & _).
    { destruct (decide (k = 0)); [right|by left]. intros ?; by apply Hst. }
    right; right. exists (before ++ window :: after), w', R_COMMITTED. rewrite E. auto.
Qed.

Lemma run_outcome f0 ps r before window after :
  plan_ok f0 ps → accepts f0 ps r → runs_to_the_end op_id f0 ps r before window after →
  Forall (recovered f0 ps) before ∧ stuck f0 ps window ∧ Forall (recovered f0 ps) after.
Proof.
  intros Hp Ha (f & Hf & Hb & [Hwf Hwc] & Haf). split_and!.
  - eapply Forall_impl; [exact Hb|]. intros w. by apply on_the_way_outcome.
  - split; [by eapply recover_closing|by rewrite Hwf].
  - eapply Forall_impl; [exact Haf|]. intros w [<- Hc]. right; right.
    exists [], w, R_ALREADY_APPLIED. split_and!; [|by right|done].
    rewrite (recover_closed op_id r w rel COMMITTED Hc); [done|apply Ha|apply Ha|by eapply ac_binding].
Qed.

Lemma execute_completes q now lineage m w :
  let f0 := w_fs w in let ps := prepare f0 <$> q_targets q in
  let r := prepared_record op_id q ps now lineage m in
  request_ok q now m → plan_ok f0 ps → accepts f0 ps r → no_journal w →
  forallb (precondition_fresh f0 ps) (q_preconditions q) = true →
  ∃ tr before window after w',
    execute op_id q now lineage w = (tr ++ before ++ window :: after, (w', Ok (done R_COMMITTED))) ∧
    reached f0 ps (length ps) (w_fs w') ∧
    Forall (λ w1, w_fs w1 = f0 ∧ w_manifest w1 = Absent) tr ∧
    runs_to_the_end op_id f0 ps r before window after.
Proof.
  intros f0 ps r Hq Hp Ha Hn Hpre. unfold execute. rewrite get_bind. cbv zeta. fold f0 ps.
  rewrite Hpre. cbn [negb]. pose proof (ac_fresh _ _ _ Ha 0 f0 (reached_start _ _ Hp)) as Hfr.
  change (r_read_preconditions r) with (q_read_preconditions q) in Hfr. rewrite Hfr. cbn [negb].
  destruct (start_spec q now lineage m w Hq Hp Hn) as (tr1 & w1 & E1 & Htr1 & Hw1 & _). fold f0 ps r in E1, Htr1, Hw1.
  rewrite (bind_Ok _ _ w (tr1 ++ [w1]) w1 true) by (by rewrite E1). cbn [negb].
  destruct (mark_applying op_id f0 ps r 0 w1 APPLYING None None) as (w2 & E2 & Hw2 & _); [done..|].
  rewrite (bind_Ok _ _ _ _ _ _ E2).
  destruct (apply_completes f0 ps r 0 w2 Hp eq_refl Hw2) as (tr3 & w3 & E3 & Htr3 & Hw3); [lia|].
  rewrite drop_0 in E3. rewrite (bind_Ok _ _ _ _ _ _ E3).
  rewrite (proj1 (rq_metadata _ _ _ Hq)), (bind_Ok _ _ w3 [] w3 m) by done.
  destruct (commit_completes op_id f0 ps r (ps.*1) (q_policy q) m w3 Hp Hw3 (same_target_refl _))
    as (tr4 & wc & after & w4 & E4 & Htr4 & Hwc & Haf & _ & Hf4 & _).
  { apply (ac_verified _ _ _ Ha); [apply Hw3|apply same_target_refl]. }
  rewrite E4. exists tr1, (w1 :: w2 :: tr3 ++ tr4), wc, after, w4.
  split_and!; [|rewrite Hf4; apply Hw3|done|].
  - rewrite <-!app_assoc. cbn [app]. by rewrite <-!app_assoc.
  - exists (w_fs w3). split_and!; [apply Hw3| |done|done].
    rewrite !Forall_cons, Forall_app. split_and!; [exists 0; split; [lia|done]..|done|].
    eapply Forall_impl; [exact Htr4|]. by exists (length ps).
Qed.

(** ** Properties *)

(** C1: Let a request be valid, its plan consist of writes and file deletions (no
    directory deletion, no release) on independent targets each of which changes
    its file, its preconditions hold, its dependencies and verifiers accept, and
    no journal of it exist. Then [execute] commits it, and a crash after any
    durable write but one is recovered: recovery ends with the very files of the
    uninterrupted run, or with the operation aborted and none of its targets
    carried out, or finds no journal and untouched files. The one exception is
    the state between the two writes that settle the operation, the sidecar
    COMMITTED and the manifest not: there every target is carried out, and
    recovery refuses with RECOVERY_CONFLICT and writes nothing, so that it
    refuses for good. *)
Theorem crash_recovery q now lineage m w :
  let f0 := w_fs w in let ps := prepare f0 <$> q_targets q in
  request_ok q now m → plan_ok f0 ps →
  accepts f0 ps (prepared_record op_id q ps now lineage m) → no_journal w →
  forallb (precondition_fresh f0 ps) (q_preconditions q) = true →
  ∃ before window after w',
    execute op_id q now lineage w = (before ++ window :: after, (w', Ok (done R_COMMITTED))) ∧
    reached f0 ps (length ps) (w_fs w') ∧
    Forall (recovered f0 ps) before ∧ stuck f0 ps window ∧ Forall (recovered f0 ps) after ∧
    (∀ f, reached f0 ps (length ps) f → ∀ p, look f p = look (w_fs w') p).
Proof.
  intros f0 ps Hq Hp Ha Hn Hpre.
  destruct (execute_completes q now lineage m w Hq Hp Ha Hn Hpre) as (tr & before & window & after & w' & E & Hf & Htr & Hrun).
  apply (run_outcome _ _ _ _ _ _ Hp Ha) in Hrun as (Hb & Hwin & Haf).
  exists (tr ++ before), window, after, w'. rewrite <-app_assoc.
  split_and!; [done|done| |done|done|intros f Hf' p; by eapply reached_unique].
  apply Forall_app. split; [|done]. eapply Forall_impl; [exact Htr|]. intros w1 [Hf1 Hm1]. left. split; [|done]. unfold _recover_locked. destruct (rq_id _ _ _ Hq) as [_ Hid].
  destruct (validate_op_id op_id); [|done]. by rewrite get_bind, Hm1.
Qed.

(** C2: Recovery itself may crash. Let a plan of writes and file deletions (no
    directory deletion, no release) on independent targets be in progress, past
    PREPARED or with a target carried out, its dependencies and verifiers
    accepting. Then recovery commits it, and after any durable write of that
    recovery but one, recovering again ends with the files of the plan or with
    none of its targets carried out; once it is through, recovering once more
    reports ALREADY_APPLIED and writes nothing. The one exception is again the
    state between its two settling writes, from which recovery refuses with
    RECOVERY_CONFLICT for good, every target carried out. *)
Theorem recovery_restartable f0 ps r s k w :
  plan_ok f0 ps → accepts f0 ps r → ready op_id r s w → in_progress op_id f0 ps r k w →
  k ≤ length ps → (k ≠ 0 ∨ r_status (merge_sidecar r s) ≠ PREPARED) →
  ∃ before window after w',
    _recover_locked op_id rel w = (before ++ window :: after, (w', Ok (done R_COMMITTED))) ∧
    Forall (recovered f0 ps) before ∧ stuck f0 ps window ∧ Forall (recovered f0 ps) after ∧
    reached f0 ps (length ps) (w_fs w') ∧
    _recover_locked op_id rel w' = ([], (w', Ok (done R_ALREADY_APPLIED))).
Proof.
  intros Hp Ha Hs Hw Hk Hst.
  destruct (roll_forward_completes op_id f0 ps r s k w Hp Ha Hs Hw Hk Hst)
    as (before & window & after & w' & E & Hrun & Hc & Hf & _).
  destruct (run_outcome _ _ _ _ _ _ Hp Ha Hrun) as (Hb & Hwin & Haf).
  exists before, window, after, w'. split_and!; [|done..| |].
  - rewrite (recover_ready op_id r s); [done..|by apply Ha|by apply Ha| |by apply Ha].
    eapply ac_binding; [done|apply Hw].
  - done.
  - rewrite (recover_closed op_id r w' rel COMMITTED Hc); [done|apply Ha|apply Ha|by eapply ac_binding].
Qed.
End crash.

(** ** An instance *)

(** A machine on which the theorems are tried: the project is at [/r], its
    lineage is [lin], and no policy has a verifier that complains. *)
Definition sample_host : Host := {|
  root := [py "r"];
  project_lineage_identity := λ _, Some (py "lin");
  runtime_lock_identity := "rt";
  run_verifier := λ _ _ _ _, [];
  external_hash := λ _ _, [];
|}.

(** Replace [a.md], create [d/b.md] in a new directory, delete [old.md]; the plan
    has read [c.md]. *)
Definition sample_fs : fs :=
  {[ [py "a.md"] := File (utf8 "one"); [py "c.md"] := File (utf8 "dep"); [py "old.md"] := File (utf8 "x") ]}.
Definition sample_request : request := {|
  q_operation := "goal"; q_agent := "agent-a"; q_identity := "rt"; q_payload_hash := "h";
  q_targets := [RTarget "a.md" "board" Write (utf8 "two") [];
                RTarget "d/b.md" "generic" Write (utf8 "new") [];
                RTarget "old.md" "generic" DeleteFile [] []];
  q_preconditions := [(py "a.md", hash_bytes (utf8 "one"))];
  q_read_preconditions := [(py "c.md", hash_bytes (utf8 "dep"))];
  q_policy := "core_fast"; q_metadata := JNull;
|}.
Definition sample_id : pystr := "goal-0123abcd".
Definition sample_now : pystr := "2024-02-29T10:00:00Z".
Definition sample_world : world := World sample_fs NoDir Absent Absent [].
Definition sample_plan : plan := (@prepare sample_host sample_fs <$> q_targets sample_request).
Definition sample_manifest : oprec :=
  prepared_record sample_id sample_request sample_plan sample_now (Some (py "lin")) None.

Ltac by_evaluation := apply (bool_decide_unpack _); vm_compute; exact I.

Lemma sample_request_ok : @request_ok sample_host sample_id sample_request sample_now None.
Proof.
  split; try (by_evaluation); try done; repeat (apply Forall_cons; split); try by_evaluation; done.
Qed.

Lemma sample_plan_ok : @plan_ok sample_host sample_fs sample_plan.
Proof.
  split.
  - repeat (apply Forall_cons; split); [..|done].
    all: split; [by_evaluation|by_evaluation| |vm_compute; reflexivity|vm_compute; reflexivity|by_evaluation].
    + split; [by_evaluation|]. split; [vm_compute; reflexivity|right]. exists (utf8 "one"). vm_compute. reflexivity.
    + split; [by_evaluation|]. split; [vm_compute; reflexivity|left]. vm_compute. reflexivity.
    + split; [by_evaluation|]. exists (utf8 "x"). vm_compute. reflexivity.
  - intros i j x y (q & -> & Hi)%list_lookup_fmap_Some (q' & -> & Hj)%list_lookup_fmap_Some Hij.
    destruct i as [|[|[|i]]]; [..|done]; destruct j as [|[|[|j]]]; try done;
      cbn [q_targets sample_request lookup list_lookup] in Hi, Hj; injection Hi as <-; injection Hj as <-;
      unfold independent; split_and!; by_evaluation.
Qed.

Lemma sample_accepts : @accepts sample_host sample_fs sample_plan sample_manifest.
Proof.
  split; [reflexivity| | |by_evaluation| |intros k f _; vm_compute; reflexivity|by intros].
  - repeat (apply Forall_cons; split); [by_evaluation..|done].
  - repeat (apply Forall_cons; split); [by_evaluation|done].
  - intros k f Hf. change (r_read_preconditions sample_manifest) with [(py "c.md", hash_bytes (utf8 "dep"))].
    cbn [forallb]. rewrite andb_true_r.
    assert (lstat f [py "c.md"] = lstat sample_fs [py "c.md"]) as El.
    { assert (look f [py "c.md"] = look sample_fs [py "c.md"]) as E.
      { destruct (re_frame _ _ _ _ Hf [py "c.md"]) as [|(_ & E & _)]; [|done|by vm_compute in E].
        intros x Hx. repeat (apply elem_of_cons in Hx as [->|Hx]; [by_evaluation|]). by apply elem_of_nil in Hx. }
      unfold lstat. rewrite E. done. }
    assert (hash_file_dependency f [py "c.md"] = hash_file_dependency sample_fs [py "c.md"]) as Eh.
    { unfold hash_file_dependency. by rewrite El. }
    assert (∀ h g, h = hash_bytes (utf8 "dep") →
      @dependency_fresh sample_host g (py "c.md", h) = (hash_file_dependency g [py "c.md"] =s h)) as ->.
    { intros h g Hh. assert (h = py "8ce3e71ef8635d2b") as -> by (rewrite Hh; vm_compute; reflexivity). reflexivity. }
    { rewrite Eh. vm_compute. reflexivity. }
    { reflexivity. }
Qed.

Lemma crash_recovery_witness :
  ∃ before window after w', @execute sample_host sample_id sample_request sample_now (Some (py "lin")) sample_world
    = (before ++ window :: after, (w', Ok (done R_COMMITTED))) ∧
    Forall (@recovered sample_host sample_id (mret (refuse R_RESOLVED)) sample_fs sample_plan) (before ++ after) ∧
    @stuck sample_host sample_id (mret (refuse R_RESOLVED)) sample_fs sample_plan window.
Proof.
  destruct (@crash_recovery sample_host sample_id (mret (refuse R_RESOLVED)) sample_request sample_now
    (Some (py "lin")) None sample_world sample_request_ok sample_plan_ok sample_accepts)
    as (before & window & after & w' & E & _ & Hb & Hw & Ha & _); [done|vm_compute; reflexivity|].
  exists before, window, after, w'. split; [exact E|split; [apply Forall_app; split; [exact Hb|exact Ha]|exact Hw]].
Defined.

Lemma recovery_restartable_witness :
  ∃ w before window after w', @_recover_locked sample_host sample_id (mret (refuse R_RESOLVED)) w
      = (before ++ window :: after, (w', Ok (done R_COMMITTED))) ∧
    Forall (@recovered sample_host sample_id (mret (refuse R_RESOLVED)) sample_fs sample_plan) (before ++ after) ∧
    @stuck sample_host sample_id (mret (refuse R_RESOLVED)) sample_fs sample_plan window.
Proof.
  destruct (@start_spec sample_host sample_id sample_request sample_now (Some (py "lin")) None sample_world
    sample_request_ok sample_plan_ok) as (_ & w1 & _ & _ & Hw & Hp); [done|].
  destruct (@mark_open sample_host sample_id 3 w1 (Sidecar None None None) APPLYING None None)
    as (j & Hj & _); [by rewrite Hp|done|reflexivity|].
  set (s := marked APPLYING None None (Sidecar None None None)) in *.
  assert (@ready sample_host sample_id sample_manifest s (set_progress j w1)) as Hs.
  { destruct Hw as ([s0 Hs0] & _). by apply (ready_progress_set _ _ s0). }
  assert (@in_progress sample_host sample_id sample_fs sample_plan sample_manifest 0 (set_progress j w1)) as Hw'.
  { destruct Hw as (_ & Hf & Hst). split_and!; [by exists s|done|done]. }
  destruct (@recovery_restartable sample_host sample_id (mret (refuse R_RESOLVED)) sample_fs sample_plan
    sample_manifest s 0 _ sample_plan_ok sample_accepts Hs Hw')
    as (before & window & after & w' & E & Hb & Hwin & Ha & _); [lia|by right|].
  exists (set_progress j w1), before, window, after, w'. split; [exact E|split; [apply Forall_app; split; [exact Hb|exact Ha]|exact Hwin]].
Defined.

(** The one window is real: a state of the sample run is refused although all of
    its targets are carried out. *)
Definition settling_world : world :=
  nth 14 (trace (@execute sample_host sample_id sample_request sample_now (Some (py "lin"))) sample_world)
    sample_world.
Example settlement_window :
  let w := settling_world in
  (result (@_recover_locked sample_host sample_id (mret (refuse R_RESOLVED))) w,
   look (w_fs w) [py "a.md"], look (w_fs w) [py "d"; py "b.md"], look (w_fs w) [py "old.md"])
  = (Ok (refuse R_RECOVERY_CONFLICT), Some (File (utf8 "two")), Some (File (utf8 "new")), None).
Proof. vm_compute. reflexivity. Qed.
