(* ===== verification/JournalSafety.v ===== *)
(** * What recovery may and may not do

    Safety of [_recover_locked] for every journal, whatever its plan: the files
    it leaves alone, the refusals that write nothing, and what a report of
    COMMITTED certifies. *)

From S2P Require Import Prelude PyStr PyStrFacts PyDict Sha256 JournalFs SafeId JournalRecord Journal.
From S2P Require Import JournalApply JournalFacts JournalCrash.

Local Arguments classify : simpl never.

Lemma bind_inv {A B} (m : M A) (k : A → M B) w tr w' b :
  (m ≫= k) w = (tr, (w', Ok b)) →
  ∃ t1 w1 a t2, m w = (t1, (w1, Ok a)) ∧ k a w1 = (t2, (w', Ok b)) ∧ tr = t1 ++ t2.
Proof.
  unfold mbind, M_bind. destruct (m w) as [t1 [w1 [a|e]]] eqn:E; [|done].
  destruct (k a w1) as [t2 [w2 r]] eqn:E'. intros; simplify_eq. eauto 10.
Qed.

Lemma run_eta {A} (m : M A) w r : result m w = r → m w = (trace m w, (final m w, r)).
Proof. unfold result, trace, final. intros <-. by destruct (m w) as [? [? ?]]. Qed.

(** ** Deferral *)

(** The target at [i] waits for an earlier one inside it. *)
Definition waits (ts : list target) (cs : list classification) (i : nat) : Prop :=
  ∃ j tj ti cj, j < i ∧ ts !! i = Some ti ∧ ts !! j = Some tj ∧ cs !! j = Some cj ∧
    cj ≠ TARGET_ALREADY_APPLIED ∧ contains_path (t_path ti) (t_path tj) = true.

Lemma defer_go_lookup seen ts cs i c :
  length ts = length cs → cs !! i = Some c →
  ∃ c', defer_go seen ts cs !! i = Some c' ∧
    (c ≠ TARGET_CONFLICT → c' = c) ∧
    (c = TARGET_CONFLICT →
       (c' = TARGET_PENDING ∧
          (waits ts cs i ∨ ∃ e ti, e ∈ seen ∧ ts !! i = Some ti ∧ e.2 ≠ TARGET_ALREADY_APPLIED ∧
             contains_path (t_path ti) (t_path e.1) = true)) ∨
       (c' = TARGET_CONFLICT ∧ ¬ waits ts cs i ∧
          ¬ ∃ e ti, e ∈ seen ∧ ts !! i = Some ti ∧ e.2 ≠ TARGET_ALREADY_APPLIED ∧
             contains_path (t_path ti) (t_path e.1) = true)).
Proof.
  revert seen ts i. induction cs as [|c0 cs IH]; intros seen [|t ts] i Hl Hi; try done.
  injection Hl as Hl. cbn [defer_go]. cbv zeta.
  match goal with |- context [if ?b then TARGET_PENDING else c0] => set (c0' := if b then TARGET_PENDING else c0) end.
  assert (∀ e : target * classification, negb (bool_decide (e.2 = TARGET_ALREADY_APPLIED))
      && contains_path (t_path t) (t_path e.1) = true ↔
      e.2 ≠ TARGET_ALREADY_APPLIED ∧ contains_path (t_path t) (t_path e.1) = true) as Hb.
  { intros e. by rewrite andb_true_iff, negb_true_iff, bool_decide_eq_false. }
  destruct i as [|i]; cbn [lookup list_lookup] in Hi |- *.
  - simplify_eq. exists c0'. split; [done|]. unfold c0'. split.
    + intros Hc. by rewrite bool_decide_false.
    + intros ->. rewrite bool_decide_true by done. cbn [andb].
      assert (¬ waits (t :: ts) (TARGET_CONFLICT :: cs) 0) as Hw by (intros (j & ? & ? & ? & ? & _); lia).
      destruct (existsb _ seen) eqn:E.
      * left. split; [done|]. right. apply existsb_exists in E as (e & He%list_elem_of_In & Hx%Hb).
        by exists e, t.
      * right. split_and!; [done..|]. intros (e & ti & He & [= <-] & Hx).
        apply not_true_iff_false in E. apply E, existsb_exists. exists e.
        split; [by apply list_elem_of_In|by apply Hb].
  - destruct (IH (seen ++ [(t, c0')]) ts i Hl Hi) as (c' & Hc' & Hsame & Hconf).
    exists c'. split; [exact Hc'|]. split; [done|]. intros Hc. specialize (Hconf Hc).
    assert (c0' = TARGET_ALREADY_APPLIED ↔ c0 = TARGET_ALREADY_APPLIED) as Hap.
    { unfold c0'. case_bool_decide; [|done]. subst. simpl. by destruct (existsb _ seen). }
    set (Q := λ s : list (target * classification), ∃ e ti, e ∈ s ∧ ts !! i = Some ti ∧
      e.2 ≠ TARGET_ALREADY_APPLIED ∧ contains_path (t_path ti) (t_path e.1) = true).
    assert ((waits ts cs i ∨ Q (seen ++ [(t, c0')])) ↔ (waits (t :: ts) (c0 :: cs) (S i) ∨ Q seen)) as Heq.
    { split.
      - intros [(j & tj & ti & cj & Hj & H1 & H2 & H3 & H4)|(e & ti & He & H1 & H2 & H3)].
        + left. exists (S j), tj, ti, cj. split_and!; [lia|done..|by apply H4|by apply H4].
        + apply elem_of_app in He as [He| ->%list_elem_of_singleton]; [right; by exists e, ti|].
          left. exists 0, t, ti, c0. split_and!; [lia|done..| |done]. by rewrite <-Hap.
      - intros [(j & tj & ti & cj & Hj & H1 & H2 & H3 & H4 & H5)|(e & ti & He & H1)].
        + destruct j as [|j]; simplify_eq/=.
          * right. exists (tj, c0'), ti. split_and!; [set_solver|done|by rewrite Hap|done].
          * left. exists j, tj, ti, cj. split_and!; [lia|done..].
        + right. exists e, ti. split; [set_solver|done]. }
    fold (Q (seen ++ [(t, c0')])) in Hconf. change (Q seen) with (Q seen).
    destruct Hconf as [[-> Hor]|(-> & Hn1 & Hn2)]; [left; split; [done|by apply Heq]|].
    right. split; [done|]. assert (¬ (waits (t :: ts) (c0 :: cs) (S i) ∨ Q seen)) as Hn.
    { rewrite <-Heq. naive_solver. }
    split; intros ?; apply Hn; [by left|by right].
Qed.

(** Deferral re-reads a conflict as pending exactly when an earlier target that
    has not materialized lies inside the conflicting one, and changes no other
    classification: in particular it never forgives a third state of a file. *)
Theorem deferral_exact ts cs i c :
  length ts = length cs → cs !! i = Some c →
  ∃ c', defer_unreached_targets ts cs !! i = Some c' ∧
    (c' = c ∨ c = TARGET_CONFLICT ∧ c' = TARGET_PENDING) ∧
    (c = TARGET_CONFLICT → c' = TARGET_PENDING ↔ waits ts cs i).
Proof.
  intros Hl Hi. destruct (defer_go_lookup [] ts cs i c Hl Hi) as (c' & Hc' & Hs & Hc).
  assert (∀ e : target * classification, ¬ e ∈ []) as Hnil by (intros e; by apply not_elem_of_nil).
  exists c'. split; [done|]. destruct (decide (c = TARGET_CONFLICT)) as [->|Hne].
  - destruct (Hc eq_refl) as [[-> [Hw|(e & _ & He & _)]]|(-> & Hw & _)]; [| by destruct (Hnil e)|].
    + split; [by right|by split].
    + split; [by left|]. intros _. split; [done|intros Hw'; by destruct Hw].
  - split; [left; by apply Hs|done].
Qed.

Section safety.
Context `{Host} (op_id : pystr).

(** ** The files recovery leaves alone *)

(** Outside the targets [ts], files are as they were, but for directories made
    above targets to write. *)
Definition confined (ts : list target) (w w' : world) : Prop :=
  ∀ q, (∀ t, t ∈ ts → owned t ≠ q) →
    look (w_fs w') q = look (w_fs w) q ∨
    (look (w_fs w) q = None ∧ look (w_fs w') q = Some Dir ∧
     ∃ t, t ∈ ts ∧ t_action t = Write ∧ q ∈ parents (owned t)).

Global Instance confined_preorder ts : PreOrder (confined ts).
Proof.
  split; [by left|]. intros x y z H1 H2 q Hq.
  destruct (H1 q Hq) as [E1|(E1 & E1' & t & Ht)], (H2 q Hq) as [E2|(E2 & E2' & t' & Ht')].
  - left. congruence.
  - right. split_and!; [congruence|done|by exists t'].
  - right. split_and!; [done|congruence|by exists t].
  - congruence.
Qed.

Lemma confined_same ts w w' : same_fs w w' → confined ts w w'.
Proof. unfold same_fs. intros E q _. left. by rewrite E. Qed.

Lemma preserves_weaken {A} (R S : world → world → Prop) (m : M A) :
  (∀ w w', R w w' → S w w') → preserves R m → preserves S m.
Proof.
  intros HRS Hm w. destruct (Hm w) as [Ht Hf]. split; [|by apply HRS].
  eapply Forall_impl; [exact Ht|]. intros. by apply HRS.
Qed.

Lemma same_confined {A} ts (m : M A) : preserves same_fs m → preserves (confined ts) m.
Proof. apply preserves_weaken. intros w w'. apply confined_same. Qed.

Lemma perform_confined ts t content : t ∈ ts → preserves (confined ts) (perform t content).
Proof.
  intros Ht w. unfold trace, final, perform. rewrite get_bind.
  destruct (do_action (t_action t) (owned t) content (w_fs w)) as [f'|e] eqn:E; [|by repeat constructor].
  destruct (do_action_spec _ _ _ _ _ E) as (Hne & Ho & _ & _ & Hnw & _).
  assert (∀ f'', only (owned t) (w_fs w) f'' → (t_action t ≠ Write → ∀ q, q ≠ owned t → look f'' q = look (w_fs w) q) →
    confined ts w (set_fs f'' w)) as Hc.
  { intros f'' Ho' Hnw' q Hq. specialize (Hq t Ht). destruct (Ho' q) as [|(Hin & E1 & E2)]; [done|by left|].
    destruct (decide (t_action t = Write)) as [Ha|Ha].
    - right. split_and!; [done..|by exists t].
    - left. by apply Hnw'. }
  case_bool_decide as Ha; simpl.
  - split; [|by apply Hc]. repeat (apply Forall_cons; split); [|by apply Hc|done].
    apply Hc; [apply only_mkdirs|done].
  - split; [|by apply Hc]. repeat (apply Forall_cons; split); [by apply Hc|done].
Qed.

Ltac preserves_base ::=
  first [apply mark_fs | apply conflict_fs | apply reconcile_fs | apply commit_fs | by apply preserves_step].

Lemma replay_confined all k index ts : ts ⊆ all → preserves (confined all) (replay op_id k index ts).
Proof.
  revert index. induction ts as [|t ts IH]; intros index Hin; cbn [replay].
  { apply preserves_ret. typeclasses eauto. }
  assert (∀ c, preserves (confined all)
    (r ← conflict op_id (refuse_at c index (Z.of_nat k - 1)); mret (Some r))) as Hfail.
  { intros c. apply same_confined. preserves_tac. }
  apply preserves_get_bind. intros w. cbv zeta.
  assert (∀ content, preserves (confined all)
    (o ← perform t content;
     match o with
     | Ok _ => mark op_id APPLYING (Some (Z.of_nat index + 1)%Z) (Some (Z.of_nat index)) ;;
               replay op_id k (S index) ts
     | Err (OSError _) => r ← conflict op_id (refuse_at R_RECOVERY_CONFLICT index (Z.of_nat k - 1)); mret (Some r)
     | Err ValueError => raise (Os ValueError)
     end)) as Hact.
  { intros content. apply preserves_bind; [typeclasses eauto|apply perform_confined; set_solver|].
    intros [u|[e|]]; [|apply Hfail|apply preserves_raise; typeclasses eauto].
    apply preserves_bind; [typeclasses eauto|apply same_confined, mark_fs|]. intros _. apply IH. set_solver. }
  destruct (t_action t); [|apply Hact..]. destruct (staged_content index t w); [|apply Hfail].
  destruct (hash_bytes _ =s _); [apply Hact|apply Hfail].
Qed.

(** The prefix of materialized targets that recovery computes from the files. *)
Definition live_prefix (f : fs) (r : oprec) : nat :=
  prefix_length (defer_unreached_targets (r_targets r) (classify f <$> r_targets r)).

Lemma roll_forward_confined r w :
  let k := live_prefix (w_fs w) r in
  Forall (confined (drop k (r_targets r)) w) (trace (roll_forward op_id r) w) ∧
  confined (drop k (r_targets r)) w (final (roll_forward op_id r) w).
Proof.
  intros k. unfold trace, final. unfold roll_forward. rewrite get_bind. cbv zeta.
  fold (live_prefix (w_fs w) r). fold k.
  match goal with |- Forall _ (?m w).1 ∧ _ => assert (preserves (confined (drop k (r_targets r))) m) as Hp end.
  2: apply (Hp w).
  case_goal; [apply same_confined; preserves_tac|].
  case_goal; [apply same_confined; preserves_tac|].
  case_goal; [apply same_confined; preserves_tac|].
  case_goal; [apply same_confined; preserves_tac|].
  apply preserves_bind; [typeclasses eauto|apply same_confined; unfold _read_progress_sidecar; preserves_tac|].
  intros prog. apply preserves_bind; [typeclasses eauto|apply same_confined; preserves_tac|].
  intros _. apply preserves_bind; [typeclasses eauto|by apply replay_confined|].
  intros []; apply same_confined; preserves_tac.
Qed.

(** ** The front of recovery, for any bytes on disk *)

Context (rel : M report).

Definition decoded (w : world) : res refusal oprec :=
  decode_operation_record root (is_staged w) op_id (w_manifest w) (w_progress w) false.

(** Either recovery returns a report without writing anything, and not that it
    committed, or it is the roll-forward of an unresolved record. *)
Lemma recover_cases w :
  (∀ r, decoded w = Ok r → r_operation r ≠ py "release") →
  (∃ rep, _recover_locked op_id rel w = ([], (w, Ok rep)) ∧ rcode rep ≠ R_COMMITTED) ∨
  (∃ r, decoded w = Ok r ∧ settled (r_status r) = false ∧
     _recover_locked op_id rel w = roll_forward op_id r w).
Proof.
  intros Hrel. unfold _recover_locked.
  destruct (validate_op_id op_id); [|left; by eexists]. rewrite get_bind. fold (decoded w).
  destruct (w_manifest w) as [| |j]; [left; by eexists|..].
  all: destruct (decoded w) as [r|e] eqn:Ed; [|left; eexists; split; [done|by destruct e]].
  all: repeat (case_goal; [left; by eexists|]).
  all: specialize (Hrel r eq_refl).
  all: assert ((r_operation r =s py "release") = false) as -> by (by apply bool_decide_eq_false).
  all: destruct (r_status r) eqn:Es; try (left; eexists; split; [reflexivity|discriminate]).
  all: right; exists r; by rewrite Es.
Qed.

Lemma decoded_doc w r : decoded w = Ok r → w_progress w = Absent ∨ ∃ d, w_progress w = Document (JObj d).
Proof.
  intros (r0 & _ & [[-> _]|(s & Hs & _)])%decode_operation_record_Ok; [by left|].
  destruct (w_progress w) as [| |[| | | | | |d]]; try done; eauto.
Qed.

(** Marking an operation CONFLICT is one write of the sidecar. *)
Lemma conflict_read w rep d :
  _read_progress_sidecar w = ([], (w, Ok d)) →
  ∃ w', conflict op_id rep w = ([w'], (w', Ok rep)) ∧ w_fs w' = w_fs w ∧
    ∃ d, w_progress w' = Document (JObj d) ∧ jget (py "status") d = JStr (py "CONFLICT").
Proof.
  intros E. set (d' := dset (py "status") (JStr (py "CONFLICT")) d).
  exists (set_progress (Document (JObj d')) w). split_and!; [|done|].
  - unfold conflict, mark. unfold mbind at 1, M_bind at 1. rewrite (bind_Ok _ _ _ _ _ _ E). done.
  - exists d'. split; [done|]. unfold jget, d'. by rewrite dget_dset_eq.
Qed.

Lemma conflict_doc w rep d :
  w_progress w = Document (JObj d) →
  ∃ w', conflict op_id rep w = ([w'], (w', Ok rep)) ∧ w_fs w' = w_fs w ∧
    ∃ d, w_progress w' = Document (JObj d) ∧ jget (py "status") d = JStr (py "CONFLICT").
Proof.
  intros E. apply (conflict_read w rep d). unfold _read_progress_sidecar. by rewrite get_bind, E.
Qed.

Lemma conflict_report w r rep :
  decoded w = Ok r → ∃ w', conflict op_id rep w = ([w'], (w', Ok rep)) ∧ w_fs w' = w_fs w ∧
    ∃ d, w_progress w' = Document (JObj d) ∧ jget (py "status") d = JStr (py "CONFLICT").
Proof.
  intros Hd. assert (∃ d, _read_progress_sidecar w = ([], (w, Ok d))) as [d E]; [|by eapply conflict_read].
  unfold _read_progress_sidecar. rewrite get_bind. destruct (decoded_doc w r Hd) as [-> |[d ->]]; eauto.
Qed.

Lemma conflict_inv rep w tr w' rep' : conflict op_id rep w = (tr, (w', Ok rep')) → rep' = rep.
Proof.
  intros E. apply bind_inv in E as (t1 & w1 & a & t2 & _ & E & _). unfold mret, M_ret in E. by simplify_eq.
Qed.

Lemma conflict_some_inv rep w tr w' o :
  (r ← conflict op_id rep; mret (Some r)) w = (tr, (w', Ok o)) → o = Some rep.
Proof.
  intros E. apply bind_inv in E as (t1 & w1 & a & t2 & E & E' & _). apply conflict_inv in E.
  unfold mret, M_ret in E'. by simplify_eq.
Qed.

(** A replay that stops early reports a refusal. *)
Lemma replay_refusal k index ts w tr w' rep :
  replay op_id k index ts w = (tr, (w', Ok (Some rep))) → rcode rep ≠ R_COMMITTED.
Proof.
  revert index w tr. induction ts as [|t ts IH]; intros index w tr E; cbn [replay] in E; [done|].
  rewrite get_bind in E. cbv zeta in E.
  assert (∀ c, c ≠ R_COMMITTED →
    (r ← conflict op_id (refuse_at c index (Z.of_nat k - 1)); mret (Some r)) w = (tr, (w', Ok (Some rep))) →
    rcode rep ≠ R_COMMITTED) as Hfail by (intros c Hc E'%conflict_some_inv; by simplify_eq).
  assert (∀ content,
    (o ← perform t content;
     match o with
     | Ok _ => mark op_id APPLYING (Some (Z.of_nat index + 1)%Z) (Some (Z.of_nat index)) ;;
               replay op_id k (S index) ts
     | Err (OSError _) => r ← conflict op_id (refuse_at R_RECOVERY_CONFLICT index (Z.of_nat k - 1)); mret (Some r)
     | Err ValueError => raise (Os ValueError)
     end) w = (tr, (w', Ok (Some rep))) → rcode rep ≠ R_COMMITTED) as Hact.
  { intros content E'. apply bind_inv in E' as (t1 & w1 & o & t2 & _ & E' & _).
    destruct o as [u|[e|]]; [|apply conflict_some_inv in E'; injection E' as ->; discriminate|done].
    apply bind_inv in E' as (t3 & w2 & ? & t4 & _ & E' & _). by eapply IH. }
  destruct (t_action t); [|by eapply Hact..]. destruct (staged_content index t w); [|by eapply Hfail; [|exact E]].
  destruct (hash_bytes _ =s _); [by eapply Hact|by eapply Hfail; [|exact E]].
Qed.

(** An unresolved record of this project reaches the roll-forward. *)
Lemma recover_unresolved w r :
  decoded w = Ok r → reads_owned r → same_binding (w_fs w) r → settled (r_status r) = false →
  r_operation r ≠ py "release" → _recover_locked op_id rel w = roll_forward op_id r w.
Proof.
  intros Hd Hrd Hb Hst Hop. unfold _recover_locked. fold (decoded w).
  pose proof Hd as (r0 & Hwf & Hr)%decode_operation_record_Ok.
  assert (∃ j, w_manifest w = Document j) as [j Em] by (destruct (w_manifest w); [done..|eauto]).
  apply decode_manifest_wf in Hwf.
  pose proof (wf_op_id_safe _ _ _ _ Hwf) as Hsafe. rewrite <-(wf_op_id _ _ _ _ Hwf) in Hsafe.
  destruct (validate_op_id op_id); [|done]. rewrite get_bind. fold (decoded w). rewrite Hd, Em.
  rewrite guards_ok; [|eapply (targets_owned_fmap r0)|done]; cycle 1.
  { destruct Hr as [[_ ->]|(s & _ & ->)]; [done|apply merge_paths]. }
  { destruct (targets_wf_paths _ _ _ _ _ _ (wf_targets _ _ _ _ Hwf)) as (cs & Hcs & _).
    clear -Hcs. unfold targets_owned. induction Hcs as [|t c ts cs Hc _ IH]; constructor; [|done].
    unfold canonical_path in Hc. by destruct (owned_target_path root (t_path t)). }
  cbn [negb]. rewrite Hb. cbn [negb].
  assert ((r_operation r =s py "release") = false) as -> by (by apply bool_decide_eq_false).
  by destruct (r_status r).
Qed.

(** ** Properties *)

(** C3: Whatever the journal on disk holds, recovery changes no path of the project
    but the targets that have not materialized: at every durable state of its
    trace, every other path is as it was, except that an absent path above a
    file the plan still has to write may have become a directory. The prefix of
    materialized targets is never rewritten. Operations of kind release, which
    recovery hands to their own resolution, are excluded. *)
Theorem recovery_confined w w1 q :
  (∀ r, decoded w = Ok r → r_operation r ≠ py "release") →
  w1 ∈ trace (_recover_locked op_id rel) w →
  (∀ r t, decoded w = Ok r → t ∈ drop (live_prefix (w_fs w) r) (r_targets r) → owned t ≠ q) →
  look (w_fs w1) q = look (w_fs w) q ∨
  (look (w_fs w) q = None ∧ look (w_fs w1) q = Some Dir ∧
   ∃ r t, decoded w = Ok r ∧ t ∈ drop (live_prefix (w_fs w) r) (r_targets r) ∧
     t_action t = Write ∧ q ∈ parents (owned t)).
Proof.
  intros Hrel Hw1 Hq. unfold trace in Hw1.
  destruct (recover_cases w Hrel) as [(rep & E & _)|(r & Hd & _ & E)]; rewrite E in Hw1.
  - by apply not_elem_of_nil in Hw1.
  - destruct (roll_forward_confined r w) as [Hf _]. rewrite Forall_forall in Hf.
    destruct (Hf w1 Hw1 q) as [|(? & ? & t & Ht)]; [by intros t; apply Hq|by left|].
    right. split_and!; [done..|by exists r, t].
Qed.

(** C26: A genuine third state, or a target that materialized out of order, is
    refused: recovery writes nothing but the CONFLICT in the sidecar, and the
    report names the first such target and the materialized frontier. *)
Theorem third_state_refused w r i :
  decoded w = Ok r → reads_owned r → same_binding (w_fs w) r → settled (r_status r) = false →
  r_operation r ≠ py "release" →
  let cs := defer_unreached_targets (r_targets r) (classify (w_fs w) <$> r_targets r) in
  let k := prefix_length cs in
  first_conflict cs = Some i ∨ (first_conflict cs = None ∧ first_out_of_order k (r_targets r) cs = Some i) →
  ∃ w', _recover_locked op_id rel w =
      ([w'], (w', Ok (refuse_at R_RECOVERY_CONFLICT i (Z.of_nat k - 1)))) ∧
    w_fs w' = w_fs w ∧ ∃ d, w_progress w' = Document (JObj d) ∧ jget (py "status") d = JStr (py "CONFLICT").
Proof.
  intros Hd Hrd Hb Hst Hop cs k Hi. rewrite (recover_unresolved w r) by done.
  unfold roll_forward. rewrite get_bind. cbv zeta. fold cs. fold k.
  destruct Hi as [-> |[-> ->]]; by apply (conflict_report w r).
Qed.

(** C4: What COMMITTED certifies of any journal: in the files recovery leaves, every
    target of the plan is at its planned hash and the verifier of the
    operation's policy accepts them, and the dependencies the plan had read
    were unchanged when recovery began. *)
Theorem committed_certifies w r tr w' rep :
  decoded w = Ok r → r_operation r ≠ py "release" →
  _recover_locked op_id rel w = (tr, (w', Ok rep)) → rcode rep = R_COMMITTED →
  Forall (λ t, _target_live_hash (w_fs w') t = t_after t) (r_targets r) ∧
  verified (w_fs w') (r_targets r) (r_policy r) (r_metadata r) = true ∧
  Forall (λ e, dependency_fresh (w_fs w) e = true) (r_read_preconditions r).
Proof.
  intros Hd Hop E Hc.
  destruct (recover_cases w) as [(rep' & E' & Hne)|(r' & Hd' & _ & E')].
  { intros r'. rewrite Hd. by intros [= <-]. }
  { rewrite E' in E. by simplify_eq. }
  rewrite Hd in Hd'. simplify_eq. rewrite E' in E. clear E'. unfold roll_forward in E. rewrite get_bind in E.
  cbv zeta in E.
  do 2 (case_match; [apply conflict_inv in E; by simplify_eq|]).
  case_match; [by apply bind_inv in E as (? & ? & ? & ? & _ & E & _); unfold mret, M_ret in E; simplify_eq|].
  destruct (forallb (dependency_fresh (w_fs w)) (r_read_preconditions r')) eqn:Hfr; cbn [negb] in E;
    [|apply conflict_inv in E; by simplify_eq].
  apply bind_inv in E as (? & ? & prog & ? & _ & E & _). apply bind_inv in E as (? & ? & ? & ? & _ & E & _).
  apply bind_inv in E as (t1 & w1 & stopped & t2 & Er & E & _).
  destruct stopped as [rep'|]; [unfold mret, M_ret in E; simplify_eq; by apply replay_refusal in Er|].
  unfold commit in E. rewrite get_bind in E.
  destruct (_verify_target_bytes (w_fs w1) (r_targets r')) eqn:Hv; cbn [negb] in E;
    [|apply conflict_inv in E; by simplify_eq].
  destruct (verified (w_fs w1) (r_targets r') (r_policy r') (r_metadata r')) eqn:Hs; cbn [negb] in E;
    [|apply conflict_inv in E; by simplify_eq].
  assert (w_fs w' = w_fs w1) as ->.
  { assert (preserves same_fs (mark op_id VERIFIED None None ;; mark op_id COMMITTED None None ;;
      mret (done R_COMMITTED))) as Hp by preserves_tac.
    destruct (Hp w1) as [_ Hf]. unfold final in Hf. by rewrite E in Hf. }
  split_and!; [|done|].
  - apply Forall_forall. intros t Ht. unfold _verify_target_bytes in Hv. rewrite forallb_forall in Hv.
    by apply eqs_true, Hv, list_elem_of_In.
  - apply Forall_forall. intros e He. rewrite forallb_forall in Hfr. by apply Hfr, list_elem_of_In.
Qed.
(** The two loops differ on a deletion that is a no-op, the target being absent
    before and after the plan: the apply loop counts it as applied and goes on,
    while the replay of recovery carries it out, and the failing [unlink] is
    reported as RECOVERY_CONFLICT although no file is in a third state. *)
Theorem noop_deletion_refused k index t content ts ps w d :
  t_action t = DeleteFile → t_after t = [] → lstat (w_fs w) (owned t) = Err FileNotFoundError →
  w_progress w = Document (JObj d) →
  apply_targets op_id index ((t, content) :: ps) w =
    (mark op_id APPLYING (Some (Z.of_nat index + 1)%Z) (Some (Z.of_nat index)) ;;
     apply_targets op_id (S index) ps) w ∧
  result (replay op_id k index (t :: ts)) w =
    Ok (Some (refuse_at R_RECOVERY_CONFLICT index (Z.of_nat k - 1))) ∧
  w_fs (final (replay op_id k index (t :: ts)) w) = w_fs w.
Proof.
  intros Ha Hafter Hl Hd. split.
  - cbn [apply_targets]. rewrite get_bind. cbv zeta.
    assert (classify (w_fs w) t = TARGET_ALREADY_APPLIED) as ->; [|done].
    unfold classify, _target_live_hash, live_hash, classify_target. by rewrite Ha, Hl, Hafter.
  - destruct (conflict_doc w (refuse_at R_RECOVERY_CONFLICT index (Z.of_nat k - 1)) d Hd) as (w' & E & Ef & _).
    assert (replay op_id k index (t :: ts) w =
      ([w'], (w', Ok (Some (refuse_at R_RECOVERY_CONFLICT index (Z.of_nat k - 1)))))) as Er.
    { cbn [replay]. rewrite get_bind. cbv zeta. rewrite Ha.
      rewrite (bind_Ok _ _ w [] w (Err (OSError FileNotFoundError))); [by rewrite (bind_Ok _ _ _ _ _ _ E)|].
      unfold perform. rewrite get_bind, Ha. simpl. unfold unlink. by rewrite Hl. }
    unfold result, final. by rewrite Er.
Qed.

(** They differ on a write below something that is not a directory as well: the
    apply loop turns the [ValueError] of the unsafe write into a CONFLICT, and
    recovery, which catches [OSError] only, lets it escape. *)
Theorem recovery_escapes_value_error k index t content ts ps w d :
  t_action t = Write → t_after t = hash_bytes content → t_before t = [] →
  owned t ≠ [] → blocked (w_fs w) (owned t) = true →
  staged_content index t w = Some content → w_progress w = Document (JObj d) →
  result (apply_targets op_id index ((t, content) :: ps)) w = Ok (Some (refuse R_CONFLICT)) ∧
  result (replay op_id k index (t :: ts)) w = Err (Os ValueError).
Proof.
  intros Ha Hafter Hbefore Hne Hb Hst Hd.
  assert (perform t content w = ([], (w, Ok (Err ValueError)))) as Ep.
  { unfold perform. rewrite get_bind, Ha. simpl. unfold safe_atomic_write_bytes.
    destruct (owned t); [done|]. by rewrite Hb. }
  split.
  - destruct (conflict_doc w (refuse R_CONFLICT) d Hd) as (w' & E & _).
    unfold result. cbn [apply_targets]. rewrite get_bind. cbv zeta.
    assert (classify (w_fs w) t = TARGET_PENDING) as ->.
    { unfold classify, _target_live_hash, live_hash, classify_target. rewrite Ha, Hafter, Hbefore.
      assert (_hash_file (w_fs w) (owned t) = []) as ->.
      { apply (_hash_file_absent _ _ NotADirectoryError). unfold lstat. by rewrite Hb. }
      unfold eqs. rewrite bool_decide_false; [done|]. intros Heq. by apply (hash_bytes_nonempty content). }
    rewrite (bind_Ok _ _ _ _ _ _ Ep). by rewrite (bind_Ok _ _ _ _ _ _ E).
  - unfold result. cbn [replay]. rewrite get_bind. cbv zeta. rewrite Ha, Hst, Hafter, eqs_refl.
    by rewrite (bind_Ok _ _ _ _ _ _ Ep).
Qed.
End safety.

(** ** Instances *)

Definition sample_staging : dict pystr (list N) :=
  [(staged_name 0 "a.md", utf8 "two"); (staged_name 1 "d/b.md", utf8 "new")].
(** The sample operation was prepared, and then someone rewrote [a.md]. *)
Definition third_state_world : world :=
  World (<[[py "a.md"] := File (utf8 "three")]> sample_fs) InOps
    (Document (encode_record sample_manifest)) Absent sample_staging.
(** The sample operation was marked APPLYING and got no further. *)
Definition applying_world : world :=
  World sample_fs InOps (Document (encode_record sample_manifest))
    (Document (JObj [(py "status", JStr (py "APPLYING"))])) sample_staging.
Definition no_release : M report := mret (refuse R_RESOLVED).

Lemma deferral_exact_witness :
  let ts := [Target "d/x" "generic" DeleteFile "h" "" false; Target "d" "generic" DeleteDir "e" "" false] in
  defer_unreached_targets ts [TARGET_PENDING; TARGET_CONFLICT] !! 1 = Some TARGET_PENDING.
Proof.
  intros ts.
  destruct (deferral_exact ts [TARGET_PENDING; TARGET_CONFLICT] 1 TARGET_CONFLICT) as (c' & E & _ & Hw);
    [reflexivity..|]. rewrite E. f_equal. apply Hw; [reflexivity|].
  exists 0, (Target "d/x" "generic" DeleteFile "h" "" false), (Target "d" "generic" DeleteDir "e" "" false),
    TARGET_PENDING. split_and!; [lia|reflexivity..|discriminate|vm_compute; reflexivity].
Defined.

Lemma sample_decoded :
  @decoded sample_host sample_id third_state_world = Ok sample_manifest.
Proof. vm_compute. reflexivity. Qed.

Lemma third_state_refused_witness :
  ∃ w', @_recover_locked sample_host sample_id no_release third_state_world
    = ([w'], (w', Ok (refuse_at R_RECOVERY_CONFLICT 0 (-1)))) ∧ w_fs w' = w_fs third_state_world.
Proof.
  destruct (@third_state_refused sample_host sample_id no_release third_state_world sample_manifest 0)
    as (w' & E & Ef & _).
  - apply sample_decoded.
  - apply sample_accepts.
  - vm_compute. reflexivity.
  - reflexivity.
  - by_evaluation.
  - left. vm_compute. reflexivity.
  - exists w'. split; [|exact Ef]. rewrite E. reflexivity.
Defined.

Definition applying_record : oprec := merge_sidecar sample_manifest (Sidecar (Some APPLYING) None None).

Lemma applying_decoded : @decoded sample_host sample_id applying_world = Ok applying_record.
Proof. vm_compute. reflexivity. Qed.

(** The last world of a trace. *)
Definition last_world (w : world) : world :=
  default w (last (trace (@_recover_locked sample_host sample_id no_release) w)).

(** The durable state after the [n]-th write of its recovery. *)
Definition applying_after (n : nat) : world :=
  nth n (trace (@_recover_locked sample_host sample_id no_release) applying_world) applying_world.

Lemma recovery_confined_witness :
  look (w_fs (applying_after 3)) [py "c.md"] = look sample_fs [py "c.md"].
Proof.
  destruct (@recovery_confined sample_host sample_id no_release applying_world (applying_after 3)
    [py "c.md"]) as [E|[E _]].
  - intros r. rewrite applying_decoded. intros [= <-]. by_evaluation.
  - unfold applying_after. apply list_elem_of_In. apply nth_In. apply (bool_decide_unpack _). vm_compute. exact I.
  - intros r t. rewrite applying_decoded. intros [= <-] Ht.
    assert (Forall (λ t, @owned sample_host t ≠ [py "c.md"]) (r_targets applying_record)) as Hf.
    { repeat (apply Forall_cons; split); [by_evaluation..|done]. }
    rewrite Forall_forall in Hf. apply Hf.
    match type of Ht with _ ∈ drop ?k ?l => rewrite <-(take_drop k l) end. apply elem_of_app. by right.
  - exact E.
  - exfalso. revert E. by_evaluation.
Defined.

Lemma committed_certifies_witness :
  Forall (λ t, @_target_live_hash sample_host
      (w_fs (final (@_recover_locked sample_host sample_id no_release) applying_world)) t = t_after t)
    (r_targets applying_record).
Proof.
  apply (@committed_certifies sample_host sample_id no_release applying_world applying_record
    (trace (@_recover_locked sample_host sample_id no_release) applying_world) _ (done R_COMMITTED)
    applying_decoded).
  - by_evaluation.
  - apply run_eta. vm_compute. reflexivity.
  - reflexivity.
Defined.

(** ** What modelling showed *)

(** A plan that writes [a.md] and deletes a file that is not there. *)
Definition noop_request : request := {|
  q_operation := "goal"; q_agent := "agent-a"; q_identity := "rt"; q_payload_hash := "h";
  q_targets := [RTarget "a.md" "board" Write (utf8 "two") [];
                RTarget "gone.md" "generic" DeleteFile [] []];
  q_preconditions := []; q_read_preconditions := []; q_policy := "none"; q_metadata := JNull;
|}.
(** The durable state after the [n]-th write of a run of [noop_request]. *)
Definition noop_crash (n : nat) : world :=
  nth n (trace (@execute sample_host sample_id noop_request sample_now None) sample_world) sample_world.

(** End to end: a run of [noop_request] that is not interrupted commits; after a
    crash before its first target recovery writes that target and refuses at
    the deletion. A second recovery commits. *)
Example noop_deletion_run :
  result (@execute sample_host sample_id noop_request sample_now None) sample_world = Ok (done R_COMMITTED) ∧
  result (@_recover_locked sample_host sample_id no_release) (noop_crash 3)
    = Ok (refuse_at R_RECOVERY_CONFLICT 1 (-1)) ∧
  result (@_recover_locked sample_host sample_id no_release) (last_world (noop_crash 3))
    = Ok (done R_COMMITTED).
Proof. vm_compute. done. Qed.

(** The sample operation is pending, and a file took the place of the directory
    its second target goes to. *)
Definition occupied_world : world :=
  World (<[[py "d"] := File []]> sample_fs) InOps (Document (encode_record sample_manifest))
    (Document (JObj [(py "status", JStr (py "APPLYING"))])) sample_staging.

(** The exception ends recovery after the first target of the plan. *)
Example value_error_run :
  result (@_recover_locked sample_host sample_id no_release) occupied_world = Err (Os ValueError) ∧
  look (w_fs (last_world occupied_world)) [py "a.md"] = Some (File (utf8 "two")).
Proof. vm_compute. done. Qed.

(** A cleanup that deletes a directory after its file, interrupted at once: the
    directory does not match its planned digest yet, is deferred, and recovery
    completes. *)
Definition cleanup_request : request := {|
  q_operation := "goal"; q_agent := "agent-a"; q_identity := "rt"; q_payload_hash := "h";
  q_targets := [RTarget "d/x" "generic" DeleteFile [] []; RTarget "d" "generic" DeleteDir [] empty_delete_tree_hash];
  q_preconditions := []; q_read_preconditions := []; q_policy := "none"; q_metadata := JNull;
|}.
Definition cleanup_fs : fs := {[ [py "d"] := Dir; [py "d"; py "x"] := File (utf8 "x") ]}.
Definition cleanup_prepared : oprec :=
  prepared_record sample_id cleanup_request (@prepare sample_host cleanup_fs <$> q_targets cleanup_request)
    sample_now None None.

Example cleanup_recovers :
  let w := World cleanup_fs InOps (Document (encode_record cleanup_prepared))
    (Document (JObj [(py "status", JStr (py "APPLYING"))])) [] in
  result (@_recover_locked sample_host sample_id no_release) w = Ok (done R_COMMITTED) ∧
  look (w_fs (last_world w)) [py "d"] = None.
Proof. vm_compute. done. Qed.

Lemma noop_deletion_refused_witness :
  result (@replay sample_host sample_id 0 1 [Target "gone.md" "generic" DeleteFile "" "" false]) applying_world
  = Ok (Some (refuse_at R_RECOVERY_CONFLICT 1 (-1))).
Proof.
  apply (@noop_deletion_refused sample_host sample_id 0 1 (Target "gone.md" "generic" DeleteFile "" "" false)
    [] [] [] applying_world [(py "status", JStr (py "APPLYING"))]); vm_compute; reflexivity.
Defined.

Lemma recovery_escapes_value_error_witness :
  result (@replay sample_host sample_id 0 1
    [Target "d/b.md" "generic" Write "" (hash_bytes (utf8 "new")) false]) occupied_world
  = Err (Os ValueError).
Proof.
  apply (@recovery_escapes_value_error sample_host sample_id 0 1
    (Target "d/b.md" "generic" Write "" (hash_bytes (utf8 "new")) false) (utf8 "new") [] [] occupied_world
    [(py "status", JStr (py "APPLYING"))]); first [by_evaluation|vm_compute; reflexivity].
Defined.
