(* ===== verification/JournalRequest.v ===== *)
(** * The validation of a mutation request

    [validate_mutation_request] of journal.py: the gate every mutation passes
    before a journal exists. The arguments are Python values of any type, so
    each is modelled with the cases the gate tells apart. *)

From S2P Require Import Prelude PyStr PyStrFacts PyDict Sha256 JournalFs SafeId JournalRecord Journal.
From S2P Require Import JournalApply JournalFacts JournalCrash BoardClock.

(** ** Arguments *)

(** A value that is a string, or is not one. *)
Abbreviation anystr := (option pystr).

Inductive pycontent : Type :=
  | CMissing
  | CText (s : pystr)
  | CBytes (b : list N)
  | CWrongType.

(** A mapping of the target list; [role] and [action] are [None] when absent. *)
Record raw_target : Type := RawTarget {
  x_path : anystr;
  x_role : option anystr;
  x_action : option anystr;
  x_content : pycontent;
  x_planned_before : pystr;
}.

(** An optional path-to-hash map: [None], a dict, or another object. *)
Inductive pymap : Type :=
  | MNone
  | MDict (d : list (anystr * anystr))
  | MWrongType.

(** The metadata: [None] or a document, which [json.dumps] may refuse. *)
Record raw_request : Type := RawRequest {
  x_operation : anystr;
  x_agent : anystr;
  x_identity : anystr;
  x_payload_hash : anystr;
  x_policy : pystr;
  x_preconditions : pymap;
  x_read_preconditions : pymap;
  x_metadata : json;
  x_serializable : bool;
  x_targets : option (list (option raw_target));
}.

(** Why a request is refused; the code is always VALIDATION_FAILED. *)
Inductive req_error : Type :=
  | BadOpId | BadField (name : pystr) | BadPolicy | BadMap (name : pystr) | BadMetadata
  | NotSerializable | NotAList | AcceptedDebt (owned : pystr) | NotAMapping | BadPath
  | DuplicatePath (canonical : pystr) | BadRole | BadAction | NoContent | BadContent
  | BadKey (name : pystr) | BadHash (name : pystr) | Escapes | OwnedAndRead (paths : list pystr).

(** ** The accepted-debt guard *)

Definition _ACCEPTED_DEBT_DIR_PREFIX : pystr := ".saipen/recovery/conformance/accepted_debt/".
Definition _ACCEPTED_DEBT_OPERATIONS : list pystr :=
  strs ["accepted_debt.register"; "accepted_debt.rebind"].

(** [while owned.startswith("./"): owned = owned[2:]] *)
Fixpoint strip_dot_slash (fuel : nat) (s : pystr) : pystr :=
  match fuel with
  | O => s
  | S f => if startswith "./" s then strip_dot_slash f (drop 2 s) else s
  end.

Definition guarded_path (t : raw_target) : pystr :=
  let owned := replace "\" "/" (default [] (x_path t)) in strip_dot_slash (length owned) owned.

Definition accepted_debt_hit (ts : list (option raw_target)) : option pystr :=
  find_first (startswith _ACCEPTED_DEBT_DIR_PREFIX)
    (omap (λ t, guarded_path <$> t) ts).

(** ** The gate *)

Definition require (b : bool) (e : req_error) : res req_error () := if b then Ok tt else Err e.

Definition string_arg (name : string) (v : anystr) : res req_error pystr :=
  match v with
  | Some (c :: s) => Ok (c :: s)
  | _ => Err (BadField name)
  end.

Section request.
Context `{Host}.

Definition check_target (seen : list pystr) (t : option raw_target) : res req_error rtarget :=
  match t with
  | None => Err NotAMapping
  | Some t =>
      match x_path t with
      | None | Some [] => Err BadPath
      | Some p =>
          match canonical_path root p with
          | None => Err Escapes
          | Some canonical =>
              require (negb (mem canonical seen)) (DuplicatePath canonical) ;;
              let role := default (Some (py "generic")) (x_role t) in
              match role with
              | Some r =>
                  require (mem r ROLES) BadRole ;;
                  match default (Some (py "write")) (x_action t) ≫= action_of with
                  | None => Err BadAction
                  | Some Write =>
                      match x_content t with
                      | CMissing => Err NoContent
                      | CWrongType => Err BadContent
                      | CText s => Ok (RTarget canonical r Write (utf8 s) (x_planned_before t))
                      | CBytes b => Ok (RTarget canonical r Write b (x_planned_before t))
                      end
                  | Some a => Ok (RTarget canonical r a [] (x_planned_before t))
                  end
              | None => Err BadRole
              end
          end
      end
  end.

Fixpoint check_targets (seen : list pystr) (ts : list (option raw_target)) : res req_error (list rtarget) :=
  match ts with
  | [] => Ok []
  | t :: ts' =>
      q ← check_target seen t;
      qs ← check_targets (q_path q :: seen) ts';
      Ok (q :: qs)
  end.

(** A map of paths to hashes; [canon] gives the stored spelling of a path. *)
Fixpoint check_entries (name : string) (canon : pystr → option pystr)
    (d : list (anystr * anystr)) (acc : dict pystr pystr) : res req_error (dict pystr pystr) :=
  match d with
  | [] => Ok acc
  | (k, v) :: d' =>
      match k with
      | None | Some [] => Err (BadKey name)
      | Some p =>
          match v with
          | None => Err (BadHash name)
          | Some h =>
              match canon p with
              | None => Err Escapes
              | Some c => check_entries name canon d' (dset c h acc)
              end
          end
      end
  end.
Definition entries (m : pymap) : list (anystr * anystr) := match m with MDict d => d | _ => [] end.

(** Only an explicitly absolute read dependency keeps its spelling. *)
Definition canonical_read (p : pystr) : option pystr :=
  if isabs p then Some (py "/" +s join "/" (parts p)) else canonical_path root p.

Definition is_map (m : pymap) : bool := match m with MWrongType => false | _ => true end.

(** [validate_mutation_request] *)
Definition validate_mutation_request (op_id : pystr) (x : raw_request) : res req_error request :=
  require (is_ok (validate_op_id op_id)) BadOpId ;;
  operation ← string_arg "operation" (x_operation x);
  agent ← string_arg "agent" (x_agent x);
  identity ← string_arg "project_identity" (x_identity x);
  payload ← string_arg "semantic_payload_hash" (x_payload_hash x);
  require (mem (x_policy x) VERIFICATION_POLICIES) BadPolicy ;;
  require (is_map (x_preconditions x)) (BadMap "preconditions") ;;
  require (is_map (x_read_preconditions x)) (BadMap "read_preconditions") ;;
  match _canonical_receipt_metadata (x_metadata x) with
  | Err _ => Err BadMetadata
  | Ok m =>
      require (x_serializable x) NotSerializable ;;
      match x_targets x with
      | None => Err NotAList
      | Some ts =>
          match (if mem operation _ACCEPTED_DEBT_OPERATIONS then None else accepted_debt_hit ts) with
          | Some owned => Err (AcceptedDebt owned)
          | None =>
              targets ← check_targets [] ts;
              pre ← check_entries "precondition" (canonical_path root) (entries (x_preconditions x)) [];
              read ← check_entries "read_preconditions" canonical_read (entries (x_read_preconditions x)) [];
              let overlap := base.filter (λ p, p ∈ dkeys read) (q_path <$> targets) in
              match overlap with
              | _ :: _ => Err (OwnedAndRead overlap)
              | [] =>
                  Ok (Request operation agent identity payload targets pre read (x_policy x)
                        (match m with Some d => JObj d | None => JNull end))
              end
          end
      end
  end.

(** ** What an accepted request satisfies *)

Lemma require_Ok b e u : require b e = Ok u → b = true.
Proof. by destruct b. Qed.

Ltac inv_req H :=
  repeat match type of H with
  | (_ ≫= _) = Ok _ =>
      let a := fresh "a" in let Ha := fresh "Hstep" in
      apply res_bind_Ok in H as (a & Ha & H);
      first [apply require_Ok in Ha; clear a | idtac]
  end.

Lemma check_target_Ok seen t q :
  check_target seen t = Ok q →
  ∃ raw p, t = Some raw ∧ x_path raw = Some p ∧ nonempty p = true ∧
    canonical_path root p = Some (q_path q) ∧ mem (q_path q) seen = false ∧ mem (q_role q) ROLES = true.
Proof.
  destruct t as [t|]; [|done]. cbn [check_target].
  destruct (x_path t) as [[|c p]|] eqn:Ep; [done| |done]. set (P := c :: p).
  destruct (canonical_path root P) as [canonical|] eqn:Ec; [|done]. intros E. inv_req E. cbv zeta in E.
  destruct (default (Some (py "generic")) (x_role t)) as [r|]; [|done]. inv_req E.
  assert (q_path q = canonical ∧ q_role q = r) as [-> ->].
  { destruct (_ ≫= action_of) as [[]|]; [destruct (x_content t)|..]; by simplify_eq. }
  exists t, P. split_and!; try done. by apply negb_true_iff.
Qed.

Lemma check_targets_Ok seen ts qs :
  check_targets seen ts = Ok qs →
  Forall2 (λ t q, ∃ raw p, t = Some raw ∧ x_path raw = Some p ∧ nonempty p = true ∧
    canonical_path root p = Some (q_path q)) ts qs ∧
  Forall (λ q, mem (q_role q) ROLES = true) qs ∧ NoDup (q_path <$> qs) ∧
  (∀ q, q ∈ qs → q_path q ∉ seen).
Proof.
  revert seen qs. induction ts as [|t ts IH]; intros seen qs E; cbn [check_targets] in E.
  { simplify_eq. split_and!; [constructor|constructor|constructor|by intros q ?%elem_of_nil]. }
  apply res_bind_Ok in E as (q & Hq & E). apply res_bind_Ok in E as (qs' & Hqs & E). simplify_eq.
  apply check_target_Ok in Hq as (raw & p & -> & Hp & Hne & Hc & Hs & Hr).
  destruct (IH _ _ Hqs) as (H2 & HR & HN & HS). apply bool_decide_eq_false in Hs. split_and!.
  - constructor; [by exists raw, p|done].
  - by constructor.
  - rewrite fmap_cons. constructor; [|done]. intros (q' & E & Hin)%list_elem_of_fmap.
    specialize (HS q' Hin). rewrite <-E in HS. set_solver.
  - intros q' [->|Hin]%elem_of_cons; [done|]. specialize (HS q' Hin). set_solver.
Qed.

Lemma check_entries_Ok name canon d acc m :
  check_entries name canon d acc = Ok m →
  ∀ k, k ∈ dkeys m → k ∈ dkeys acc ∨ ∃ p, canon p = Some k ∧ nonempty p = true.
Proof.
  revert acc. induction d as [|[k v] d IH]; intros acc E x Hx; cbn [check_entries] in E; [simplify_eq; by left|].
  destruct k as [[|c p]|]; [done| |done]. destruct v as [h|]; [|done].
  destruct (canon (c :: p)) as [y|] eqn:Ey; [|done].
  destruct (IH _ E x Hx) as [Hin|?]; [|by right].
  apply elem_of_dkeys_dset in Hin as [->|Hin]; [right; by exists (c :: p)|by left].
Qed.

Lemma canonical_nonempty p c : Forall clean root → canonical_path root p = Some c → nonempty c = true.
Proof.
  intros Hr. unfold canonical_path. destruct (owned_target_path root p) as [q|] eqn:E; [|done].
  intros [= <-]. apply owned_clean in E; [|done]. by destruct (as_posix_head q E) as (x & t & -> & _).
Qed.

Lemma canonical_fixed p c :
  Forall clean root → canonical_path root p = Some c → is_drive c = false → canonical_path root c = Some c.
Proof.
  intros Hr. unfold canonical_path. destruct (owned_target_path root p) as [q|] eqn:E; [|done].
  intros [= <-] Hd. by rewrite (owned_fixed root p q).
Qed.

(** The steps of a successful validation. *)
Lemma validate_Ok op_id x q :
  validate_mutation_request op_id x = Ok q →
  is_ok (validate_op_id op_id) = true ∧ nonempty (q_operation q) = true ∧
  mem (q_policy q) VERIFICATION_POLICIES = true ∧
  (∃ m, _canonical_receipt_metadata (x_metadata x) = Ok m ∧
        q_metadata q = match m with Some d => JObj d | None => JNull end) ∧
  (∃ ts, x_targets x = Some ts ∧ check_targets [] ts = Ok (q_targets q) ∧
     (mem (q_operation q) _ACCEPTED_DEBT_OPERATIONS = false → accepted_debt_hit ts = None)) ∧
  (∀ k, k ∈ dkeys (q_preconditions q) → ∃ p, canonical_path root p = Some k) ∧
  (∀ k, k ∈ dkeys (q_read_preconditions q) → ∃ p, canonical_read p = Some k) ∧
  (∀ t, t ∈ q_targets q → q_path t ∉ dkeys (q_read_preconditions q)).
Proof.
  intros E. unfold validate_mutation_request in E. inv_req E.
  destruct (_canonical_receipt_metadata (x_metadata x)) as [m|] eqn:Em; [|done]. inv_req E.
  destruct (x_targets x) as [ts|] eqn:Ets; [|done].
  destruct (if mem a _ACCEPTED_DEBT_OPERATIONS then None else accepted_debt_hit ts) as [o|] eqn:Eg; [done|].
  inv_req E. cbv zeta in E.
  match type of E with context [match ?f with _ => _ end] => destruct f eqn:Eo; [|done] end.
  simplify_eq.
  cbn [q_operation q_policy q_metadata q_targets q_preconditions q_read_preconditions].
  split_and!; try done.
  - unfold string_arg in Hstep0. by destruct (x_operation x) as [[]|]; simplify_eq.
  - exists m. by split.
  - exists ts. split_and!; [done..|]. intros Hn. destruct (mem a _ACCEPTED_DEBT_OPERATIONS); [discriminate Hn|done].
  - intros k Hk. eapply check_entries_Ok in Hk; [|done]. destruct Hk as [Hk|(p & ? & _)]; [by apply elem_of_nil in Hk|eauto].
  - intros k Hk. eapply check_entries_Ok in Hk; [|done]. destruct Hk as [Hk|(p & ? & _)]; [by apply elem_of_nil in Hk|eauto].
  - intros t Ht Hin. assert (q_path t ∈ base.filter (λ p, p ∈ dkeys a5) (q_path <$> a3)) as Hf.
    { apply list_elem_of_filter. split; [done|]. by apply list_elem_of_fmap_2. }
    rewrite Eo in Hf. by apply elem_of_nil in Hf.
Qed.

Lemma read_nonempty p c : Forall clean root → canonical_read p = Some c → nonempty c = true.
Proof.
  intros Hr. unfold canonical_read. destruct (isabs p); [|by apply canonical_nonempty]. by intros [= <-].
Qed.

(** ** Properties *)

(** A validated request is one [run_mutation] can journal: each target is stored
    under the canonical spelling of a path inside the project, no two targets
    share it, none is also a read dependency, and the record that is written
    for it meets the strict decoder, if its metadata has the types the decoder
    asks for and no target looks like a drive. *)
Theorem validated_request_ok op_id x q now m :
  validate_mutation_request op_id x = Ok q →
  Forall clean root → Forall (λ t, is_drive (q_path t) = false) (q_targets q) →
  _canonical_receipt_metadata (q_metadata q) = Ok m → metadata_wf m →
  nonempty now = true → strict_iso_utc now = now →
  request_ok op_id q now m ∧ NoDup (q_path <$> q_targets q) ∧
  (∀ t, t ∈ q_targets q → canonical_path root (q_path t) = Some (q_path t) ∧
                          q_path t ∉ dkeys (q_read_preconditions q)).
Proof.
  intros E Hroot Hdrive Hm Hmwf Hn1 Hn2.
  destruct (validate_Ok _ _ _ E) as (Hid & Hop & Hpol & _ & (ts & _ & Hts & _) & Hpre & Hrd & Hov).
  destruct (check_targets_Ok _ _ _ Hts) as (H2 & HR & HN & _).
  assert (Forall (λ t, canonical_path root (q_path t) = Some (q_path t)) (q_targets q)) as Hfix.
  { clear -H2 Hroot Hdrive. induction H2 as [|t r ts qs (raw & p & _ & _ & _ & Hc) _ IH]; [constructor|].
    apply Forall_cons in Hdrive as [Hd Hdrive]. constructor; [by eapply canonical_fixed|auto]. }
  rewrite Forall_forall in Hfix. split; [split|split; [done|]]; try done.
  - split; [|done]. by destruct op_id.
  - apply Forall_forall. intros [k v] Hk. destruct (Hpre k) as [p Hp]; [by apply (list_elem_of_fmap_2 fst _ (k, v))|].
    by eapply canonical_nonempty.
  - apply Forall_forall. intros [k v] Hk. destruct (Hrd k) as [p Hp]; [by apply (list_elem_of_fmap_2 fst _ (k, v))|].
    by eapply read_nonempty.
  - apply Forall_forall. intros t Ht. rewrite Forall_forall in HR. split; [|by apply HR].
    eapply canonical_nonempty; [done|by apply Hfix].
  - assert ((λ t, canonical_path root (q_path t)) <$> q_targets q = Some <$> (q_path <$> q_targets q)) as ->.
    { clear -Hfix. induction (q_targets q) as [|t l IH]; [done|]. rewrite !fmap_cons.
      f_equal; [apply Hfix; left|apply IH; intros; apply Hfix; by right]. }
    apply NoDup_fmap_2; [|done]. by intros ?? [= ->].
  - intros t Ht. split; [by apply Hfix|by apply Hov].
Qed.
End request.

(** ** What modelling showed *)

Definition plain_target (p : string) : option raw_target :=
  Some (RawTarget (Some (py p)) None None (CText "forged") []).
Definition plain_request (policy : string) (m : json) (ps : list string) : raw_request :=
  RawRequest (Some (py "goal")) (Some (py "agent-a")) (Some (py "rt")) (Some (py "h")) (py policy) MNone MNone
    m true (Some (plain_target <$> ps)).

(** The guard on accepted-debt records refuses an operation outside the closed
    set every spelling that starts, after [./]s, with their directory. But it
    reads the path as the caller spelled it, while the target is stored under
    its canonical path, so that a detour to the same file is accepted. *)
Theorem accepted_debt_detour :
  (∀ `{Host} op_id x q ts t,
     validate_mutation_request op_id x = Ok q → mem (q_operation q) _ACCEPTED_DEBT_OPERATIONS = false →
     x_targets x = Some ts → Some t ∈ ts →
     startswith _ACCEPTED_DEBT_DIR_PREFIX (guarded_path t) = false) ∧
  ∃ q, @validate_mutation_request sample_host sample_id
      (plain_request "none" JNull ["x/../.saipen/recovery/conformance/accepted_debt/AD-000002.json"]) = Ok q ∧
    mem (q_operation q) _ACCEPTED_DEBT_OPERATIONS = false ∧
    q_path <$> q_targets q = [_ACCEPTED_DEBT_DIR_PREFIX +s py "AD-000002.json"].
Proof.
  split.
  - intros ? op_id x q ts t E Hop Hts Ht.
    destruct (validate_Ok _ _ _ E) as (_ & _ & _ & _ & (ts' & Hts' & _ & Hg) & _).
    rewrite Hts in Hts'. simplify_eq. specialize (Hg Hop). unfold accepted_debt_hit in Hg.
    eapply find_first_None in Hg; [exact Hg|]. apply list_elem_of_omap. by exists (Some t).
  - eexists. split; [vm_compute; reflexivity|]. split; vm_compute; reflexivity.
Qed.

(** The gate accepts metadata whose fields have types the strict decoder
    refuses. The operation is then carried out and verified, and the fold that
    should settle it raises: the files are written, and every later recovery
    refuses the record as invalid. *)
Theorem untyped_metadata_strands :
  match @validate_mutation_request sample_host sample_id
      (plain_request "none" (JObj [(py "role", JInt 5)]) ["a.md"]) with
  | Ok q =>
      let run := @execute sample_host sample_id q sample_now None in
      result run sample_world = Err (Refused (ValidationFailed "receipt_metadata.role")) ∧
      look (w_fs (final run sample_world)) [py "a.md"] = Some (File (utf8 "forged")) ∧
      result (@_recover_locked sample_host sample_id (mret (refuse R_RESOLVED))) (final run sample_world)
      = Ok (refuse R_VALIDATION_FAILED)
  | Err _ => False
  end.
Proof. vm_compute. done. Qed.

Lemma validated_request_ok_witness :
  match @validate_mutation_request sample_host sample_id (plain_request "none" JNull ["./a.md"; "d/../b.md"]) with
  | Ok q => @request_ok sample_host sample_id q sample_now None
  | Err _ => False
  end.
Proof.
  destruct (@validate_mutation_request sample_host sample_id (plain_request "none" JNull ["./a.md"; "d/../b.md"]))
    as [q|e] eqn:E; [|vm_compute in E; discriminate].
  assert (q_path <$> q_targets q = [py "a.md"; py "b.md"] ∧ q_metadata q = JNull) as [Hp Hm].
  { vm_compute in E. injection E as <-. split; vm_compute; reflexivity. }
  apply (@validated_request_ok sample_host sample_id _ q sample_now None E).
  - repeat (apply Forall_cons; split); [|done]. repeat split; by_evaluation.
  - assert (Forall (λ p, is_drive p = false) (q_path <$> q_targets q)) as Hf; [|by rewrite Forall_fmap in Hf].
    rewrite Hp. repeat (apply Forall_cons; split); try done; vm_compute; reflexivity.
  - by rewrite Hm.
  - exact I.
  - vm_compute; reflexivity.
  - vm_compute; reflexivity.
Defined.

Lemma accepted_debt_detour_witness :
  startswith _ACCEPTED_DEBT_DIR_PREFIX (guarded_path (RawTarget (Some (py "./a.md")) None None (CText "forged") []))
  = false.
Proof.
  destruct (@validate_mutation_request sample_host sample_id (plain_request "none" JNull ["./a.md"]))
    as [q|e] eqn:E; [|vm_compute in E; discriminate].
  apply (proj1 accepted_debt_detour sample_host sample_id (plain_request "none" JNull ["./a.md"]) q
    [plain_target "./a.md"]).
  - exact E.
  - vm_compute in E. injection E as <-. vm_compute. reflexivity.
  - reflexivity.
  - left.
Defined.
