(* ===== verification/Codec.v ===== *)
(** * Credential redaction

    [redact_credentials] of [tools/saipen_engine/codec.py]: what every text
    passes before it is written to the ledger. *)

From S2P Require Import Prelude PyStr PyUnicode PyRegex.

Definition is_alnum (c : N) : bool := is_AZ c || is_az c || is_ascii_digit c.

(** [[a-z]] and [[a-z0-9_]] under [re.IGNORECASE]: the letters outside ASCII that
    fold to one of them belong to the class too. *)
Definition ci_letter (c : N) : bool :=
  is_AZ c || is_az c || bool_decide (c ∈ [304; 305; 383; 8490]%N).
Definition ci_word (c : N) : bool := ci_letter c || is_ascii_digit c || (c =? 95)%N.
Definition ci_hex (c : N) : bool := is_hex c || in_range 65 70 c.

(** [P{n,}] *)
Definition at_least (n : nat) (P : N → bool) : re := Seq (rep n P) (Star P).

Definition GITHUB_RE : re := Seq (lit "ghp_") (rep 36 is_alnum).
Definition AWS_RE : re := Seq (lit "AKIA") (rep 16 (λ c, is_ascii_digit c || is_AZ c)).
Definition SK_RE : re := Seq (lit "sk-") (at_least 32 is_alnum).
Definition POSTGRES_RE : re :=
  seqs [Grp 1 (seqs [lit "postgres"; Opt (lit "ql"); lit "://"; plus (λ c, negb (c =? 58)%N)]);
        lit ":"; plus (λ c, negb (c =? 64)%N); Grp 2 (lit "@")].
Definition BEARER_RE : re :=
  Seq (Grp 1 (Seq (lit_ci "bearer") (plus is_space)))
      (at_least 30 (λ c, ci_word c || (c =? 45)%N || (c =? 46)%N)).

Definition is_quote (c : N) : bool := (c =? 34)%N || (c =? 39)%N.
Definition quoted (q : N) : re :=
  seqs [Chr (N.eqb q); at_least 8 (λ c, negb (c =? q)%N); Chr (N.eqb q)].
Definition PRIVATE_KEY_RE : re :=
  seqs [NotBehind ci_word;
        Grp 1 (seqs [Opt (Chr is_quote); Star ci_word; lit_ci "private_key"; Opt (Chr is_quote);
                     Star is_space; Chr (λ c, (c =? 58)%N || (c =? 61)%N); Star is_space]);
        Grp 2 (Alt (Alt (quoted 34) (quoted 39)) (at_least 16 ci_hex))].

(** A template made of groups and the placeholder. *)
Definition keep_group (n : nat) (placeholder : pystr) (c : caps) : pystr :=
  default [] (group n c) +s placeholder.

Definition redact_credentials (text : pystr) : pystr :=
  let text := re_sub GITHUB_RE "ghp_***" text in
  let text := re_sub AWS_RE "AKIA***" text in
  let text := re_sub SK_RE "sk-***" text in
  let text := re_sub_with POSTGRES_RE
                (λ c, keep_group 1 ":***" c +s default [] (group 2 c)) text in
  let text := re_sub_with BEARER_RE (keep_group 1 "***") text in
  if contains "private_key" (lower text) then re_sub_with PRIVATE_KEY_RE (keep_group 1 "***") text
  else text.

Example redact_pg :
  redact_credentials "see postgresql://me:secret@db and My_PRIVATE_KEY: '0123456789' done"
  = py "see postgresql://me:***@db and My_PRIVATE_KEY: *** done".
Proof. vm_compute. reflexivity. Qed.

(** ** Canonical encoding *)

Definition is_cont (b : N) : bool := in_range 128 191 b.

(** [raw.decode("utf-8")] under [errors="strict"]: overlong forms, surrogates and
    code points above the last are refused. *)
Fixpoint utf8_decode (bs : list N) : option pystr :=
  match bs with
  | [] => Some []
  | b0 :: bs1 =>
      if (b0 <? 128)%N then cons b0 <$> utf8_decode bs1
      else match bs1 with
      | [] => None
      | b1 :: bs2 =>
          if in_range 194 223 b0
          then if is_cont b1 then cons ((b0 - 192) * 64 + (b1 - 128))%N <$> utf8_decode bs2 else None
          else match bs2 with
          | [] => None
          | b2 :: bs3 =>
              if in_range 224 239 b0
              then if is_cont b1 && is_cont b2
                      && negb ((b0 =? 224) && (b1 <? 160))%N && negb ((b0 =? 237) && (159 <? b1))%N
                   then cons ((b0 - 224) * 4096 + (b1 - 128) * 64 + (b2 - 128))%N <$> utf8_decode bs3
                   else None
              else match bs3 with
              | [] => None
              | b3 :: bs4 =>
                  if in_range 240 244 b0 && is_cont b1 && is_cont b2 && is_cont b3
                     && negb ((b0 =? 240) && (b1 <? 144))%N && negb ((b0 =? 244) && (143 <? b1))%N
                  then cons ((b0 - 240) * 262144 + (b1 - 128) * 4096 + (b2 - 128) * 64 + (b3 - 128))%N
                         <$> utf8_decode bs4
                  else None
              end
          end
      end
  end.

Definition is_canonical_encoding (raw : list N) : bool :=
  if bool_decide (take 3 raw = [239; 187; 191]%N) then false else bool_decide (is_Some (utf8_decode raw)).
