(* ===== verification/Oracle.v ===== *)
(** * The regression oracle

    [tools/saipen_engine/oracle.py]: the identity of a verifier, the anchored
    evidence records, and when a red run followed by a green one proves that the
    subject is what changed. *)

From S2P Require Import Prelude PyStr PyStrFacts PyUnicode PyRegex PyDict Sha256 JournalFs BoardBlockers.

(** ** Identities *)

Definition _MISSING : pystr := "(none)".

(** The paths are relative to the root. *)
Definition oracle_digest (f : fs) (paths : list pystr) : pystr :=
  let part rel :=
    let target := parts rel in
    let body := match look f target with Some (File d) => hash_bytes d | _ => _MISSING end in
    rel +s "=" +s body in
  hash_bytes (utf8 (join [10%N] (part <$> sorted (fromkeys (replace "\" "/" <$> paths))))).

Definition verifier_identity (f : fs) (command : pystr) (oracle_paths : list pystr) : pystr :=
  hash_bytes (utf8 (join [10%N] [py "command=" ++ strip command; py "oracle=" ++ oracle_digest f oracle_paths])).

(** [\b(verifier|oracle|subject):([0-9a-f]{8,64})\b] *)
Definition _TOKEN : re :=
  seqs [Wordb; Grp 1 (alts (strs ["verifier"; "oracle"; "subject"])); lit ":"; Grp 2 (reps 8 56 is_hex); Wordb].
Definition _TOKEN_KEY (token : pystr) : pystr := if token =s py "subject" then py "subject" else py "verifier".

Fixpoint identity_go (found : dict pystr pystr) (tokens : list caps) : dict pystr pystr :=
  match tokens with
  | [] => found
  | c :: tokens' =>
      let key := _TOKEN_KEY (default [] (group 1 c)) in
      let value := default [] (group 2 c) in
      match dget key found with
      | Some v => if v =s value then identity_go (dset key value found) tokens' else []
      | None => identity_go (dset key value found) tokens'
      end
  end.
Definition parse_identity (text : pystr) : dict pystr pystr := identity_go [] (snd <$> re_finditer _TOKEN text).

(** ** Records *)

(** [^REGRESSION-EVIDENCE\s+(FAIL|PASS)\b(?P<rest>.* )$] under [re.DOTALL] *)
Definition _EVIDENCE_RE : re :=
  seqs [lit "REGRESSION-EVIDENCE"; plus is_space; Grp 1 (alts (strs ["FAIL"; "PASS"])); Wordb;
        Grp 2 (Star any_char); Eol].

Record evidence : Type := Evidence {
  ev_result : pystr;
  ev_verifier : option pystr;
  ev_subject : option pystr;
}.

Definition parse_evidence (text : pystr) : option evidence :=
  m ← re_match _EVIDENCE_RE (strip text);
  let identity := parse_identity (default [] (group 2 m)) in
  Some (Evidence (default [] (group 1 m)) (dget (py "verifier") identity) (dget (py "subject") identity)).

(** ** Verdicts *)

Inductive verdict : Type :=
  | ADMISSIBLE
  | ORACLE_CHANGED
  | SUBJECT_UNCHANGED
  | SUBJECT_UNRECORDED
  | NOT_A_REGRESSION_PAIR
  | NO_EVIDENCE.
Global Instance verdict_eq_dec : EqDecision verdict.
Proof. solve_decision. Defined.

Definition admissible (v : verdict) : bool := bool_decide (v = ADMISSIBLE).

Definition given (o : option pystr) : bool := nonempty (default [] o).

Definition regression_pair_verdict (before after : evidence) : verdict :=
  if negb (upper (ev_result before) =s py "FAIL") || negb (upper (ev_result after) =s py "PASS")
  then NOT_A_REGRESSION_PAIR
  else if negb (given (ev_verifier before)) || negb (given (ev_verifier after)) then ORACLE_CHANGED
  else if negb (bool_decide (ev_verifier before = ev_verifier after)) then ORACLE_CHANGED
  else if given (ev_subject before) && given (ev_subject after)
          && bool_decide (ev_subject before = ev_subject after) then SUBJECT_UNCHANGED
  else if negb (given (ev_subject before)) || negb (given (ev_subject after)) then SUBJECT_UNRECORDED
  else ADMISSIBLE.

(** The latest red and the latest green record, with their positions. *)
Fixpoint latest_pair (index : nat) (before after : option (nat * evidence)) (records : list evidence)
    : option (nat * evidence) * option (nat * evidence) :=
  match records with
  | [] => (before, after)
  | r :: records' =>
      if ev_result r =s py "FAIL" then latest_pair (S index) (Some (index, r)) after records'
      else if ev_result r =s py "PASS" then latest_pair (S index) before (Some (index, r)) records'
      else latest_pair (S index) before after records'
  end.

Definition regression_evidence_verdict (records : list evidence) : verdict :=
  match latest_pair 0 None None records with
  | (Some (i, before), Some (j, after)) =>
      if (j <=? i)%nat then NOT_A_REGRESSION_PAIR else regression_pair_verdict before after
  | _ => NO_EVIDENCE
  end.

(** ** What an admissible pair is *)

Definition red (r : evidence) : Prop := ev_result r = py "FAIL".
Definition green (r : evidence) : Prop := ev_result r = py "PASS".

(** One verifier, two subjects, all of them named. *)
Definition proves_the_fix (before after : evidence) : Prop :=
  ∃ v s s', ev_verifier before = Some v ∧ ev_verifier after = Some v ∧
    ev_subject before = Some s ∧ ev_subject after = Some s' ∧ v ≠ [] ∧ s ≠ [] ∧ s' ≠ [] ∧ s ≠ s'.

Lemma given_true o : given o = true ↔ ∃ s, o = Some s ∧ s ≠ [].
Proof. unfold given. rewrite nonempty_true. destruct o as [s|]; simpl; naive_solver. Qed.

Lemma pair_admissible before after :
  red before → green after → regression_pair_verdict before after = ADMISSIBLE ↔ proves_the_fix before after.
Proof.
  intros Hr Hg. unfold regression_pair_verdict. rewrite Hr, Hg.
  change (upper "FAIL" =s py "FAIL") with true. change (upper "PASS" =s py "PASS") with true. simpl.
  destruct (given (ev_verifier before)) eqn:E1, (given (ev_verifier after)) eqn:E2; simpl;
    try (split; [done|intros (v & s & s' & H1 & H2 & _ & _ & Hv & _);
         rewrite ?H1, ?H2 in *; unfold given in *; simpl in *; by destruct v]).
  apply given_true in E1 as (v & E1 & Hv), E2 as (v' & E2 & Hv'). rewrite E1, E2.
  case_bool_decide as Ev; simpl; [|split; [done|intros (? & ? & ? & ? & ? & _); congruence]].
  destruct (given (ev_subject before)) eqn:E3, (given (ev_subject after)) eqn:E4; simpl;
    try (split; [done|intros (w & s & s' & _ & _ & H1 & H2 & _ & Hs & Hs' & _);
         rewrite ?H1, ?H2 in *; unfold given in *; simpl in *; by destruct s, s']).
  apply given_true in E3 as (s & E3 & Hs), E4 as (s' & E4 & Hs'). rewrite E3, E4.
  case_bool_decide as Es; simpl.
  - split; [done|]. intros (? & ? & ? & _ & _ & ? & ? & _ & _ & _ & ?). congruence.
  - split; [|done]. intros _. exists v, s, s'. rewrite E1, E2, E3, E4. split_and!; congruence.
Qed.

(** No record of the list satisfies [P]. *)
Definition no_later (P : evidence → Prop) (l : list evidence) : Prop := Forall (λ r, ¬ P r) l.

Lemma red_green r : red r → green r → False.
Proof. unfold red, green. intros -> E. by vm_compute in E. Qed.

Lemma latest_pair_app k b a l1 l2 :
  latest_pair k b a (l1 ++ l2) =
  let '(b', a') := latest_pair k b a l1 in latest_pair (k + length l1) b' a' l2.
Proof.
  revert k b a. induction l1 as [|r l1 IH]; intros k b a; simpl; [by rewrite Nat.add_0_r|].
  rewrite <-!Nat.add_succ_comm. destruct (eqs _ _); [by rewrite IH|]. destruct (eqs _ _); by rewrite IH.
Qed.

Lemma latest_pair_red k b a l :
  ∃ b' a', latest_pair k b a l = (b', a') ∧
    (b' = b ∧ no_later red l ∨ ∃ l1 r l2, l = l1 ++ r :: l2 ∧ red r ∧ no_later red l2 ∧ b' = Some (k + length l1, r)) ∧
    (a' = a ∧ no_later green l ∨ ∃ l1 r l2, l = l1 ++ r :: l2 ∧ green r ∧ no_later green l2 ∧ a' = Some (k + length l1, r)).
Proof.
  induction l as [|r l IH] using rev_ind.
  { exists b, a. split_and!; [done|left; split; [done|constructor]..]. }
  destruct IH as (b' & a' & E & Hb & Ha). rewrite latest_pair_app, E. simpl.
  assert (∀ (P : evidence → Prop) x x', ¬ P r →
    (x' = x ∧ no_later P l ∨ ∃ l1 r' l2, l = l1 ++ r' :: l2 ∧ P r' ∧ no_later P l2 ∧ x' = Some (k + length l1, r')) →
    (x' = x ∧ no_later P (l ++ [r]) ∨
     ∃ l1 r' l2, l ++ [r] = l1 ++ r' :: l2 ∧ P r' ∧ no_later P l2 ∧ x' = Some (k + length l1, r'))) as Hskip.
  { intros P x x' HP [[-> Hl]|(l1 & r' & l2 & -> & Hr' & Hl2 & ->)]; [left|right].
    - split; [done|]. apply Forall_app. split; [done|by constructor].
    - exists l1, r', (l2 ++ [r]). split_and!; [by rewrite <-(assoc_L (++))|done| |done].
      apply Forall_app. split; [done|by constructor]. }
  destruct (eqs (ev_result r) (py "FAIL")) eqn:E1; [apply eqs_true in E1|].
  - eexists _, _. split; [reflexivity|]. split; [|apply Hskip; [intros ?; by eapply red_green|done]].
    right. exists l, r, []. split_and!; [done|done|constructor|done].
  - assert (¬ red r) by (intros H; apply eqs_true in H; congruence).
    destruct (eqs (ev_result r) (py "PASS")) eqn:E2; [apply eqs_true in E2|].
    + eexists _, _. split; [reflexivity|]. split; [by apply Hskip|].
      right. exists l, r, []. split_and!; [done|done|constructor|done].
    + assert (¬ green r) by (intros H'; apply eqs_true in H'; congruence).
      eexists _, _. split; [reflexivity|]. split; by apply Hskip.
Qed.

Lemma last_split_unique (P : evidence → Prop) l1 r l2 k1 s k2 :
  l1 ++ r :: l2 = k1 ++ s :: k2 → P r → P s → no_later P l2 → no_later P k2 → l1 = k1 ∧ r = s ∧ l2 = k2.
Proof.
  intros E Hr Hs Hl Hk. apply app_eq_inv in E as [(m & -> & E)|(m & -> & E)].
  - destruct m as [|x m]; simplify_eq/=; [by rewrite app_nil_r|].
    exfalso. unfold no_later in Hk. rewrite Forall_app, Forall_cons in Hk. by destruct Hk as (_ & ? & _).
  - destruct m as [|x m]; simplify_eq/=; [by rewrite app_nil_r|].
    exfalso. unfold no_later in Hl. rewrite Forall_app, Forall_cons in Hl. by destruct Hl as (_ & ? & _).
Qed.

Lemma admissible_pair records :
  admissible (regression_evidence_verdict records) = true ↔
  ∃ l1 before l2 after l3, records = l1 ++ before :: l2 ++ after :: l3 ∧
    red before ∧ green after ∧ no_later red (l2 ++ after :: l3) ∧ no_later green l3 ∧
    proves_the_fix before after.
Proof.
  unfold admissible. rewrite bool_decide_eq_true. unfold regression_evidence_verdict.
  destruct (latest_pair_red 0 None None records) as (b & a & -> & Hb & Ha).
  destruct Hb as [[-> Hb]|(l1 & r & l2 & El & Hr & Hb & ->)].
  { split; [by destruct a|]. intros (k1 & x & k2 & y & k3 & -> & Hx & _). exfalso.
    apply Forall_app in Hb as [_ Hb]. by apply Forall_cons in Hb as [? _]. }
  destruct Ha as [[-> Ha]|(m1 & s & m2 & Em & Hs & Ha & ->)].
  { split; [done|]. intros (k1 & x & k2 & y & k3 & -> & _ & Hy & _). exfalso.
    unfold no_later in Ha. rewrite Forall_app, Forall_cons, Forall_app, Forall_cons in Ha. naive_solver. }
  simpl. destruct (Nat.leb_spec (length m1) (length l1)) as [Hle|Hlt].
  - split; [done|]. intros (k1 & x & k2 & y & k3 & E & Hx & Hy & Hnr & Hng & _).
    rewrite El in E. apply (last_split_unique red) in E as (-> & -> & ->); [|done..].
    assert (m1 ++ s :: m2 = (k1 ++ x :: k2) ++ y :: k3) as E by (rewrite <-Em, El; by rewrite <-(assoc_L (++))).
    apply (last_split_unique green) in E as (-> & _ & _); [|done..]. rewrite length_app in Hle. simpl in Hle. lia.
  - rewrite (pair_admissible r s) by done. split.
    + intros Hp. assert (∃ k, m1 = l1 ++ r :: k ∧ l2 = k ++ s :: m2) as (k & -> & ->).
      { rewrite El in Em. apply app_eq_inv in Em as [(k & -> & E)|(k & -> & E)].
        - destruct k as [|z k]; simplify_eq/=; [rewrite app_nil_r in Hlt; lia|]. rewrite length_app in Hlt. simpl in Hlt. lia.
        - destruct k as [|z k]; simplify_eq/=; [rewrite app_nil_r in Hlt; lia|]. eauto. }
      exists l1, r, k, s, m2. split_and!; done.
    + intros (k1 & x & k2 & y & k3 & E & Hx & Hy & Hnr & Hng & Hp).
      assert (l1 ++ r :: l2 = k1 ++ x :: (k2 ++ y :: k3)) as E1 by congruence.
      apply (last_split_unique red) in E1 as (-> & -> & ->); [|done..].
      assert (m1 ++ s :: m2 = (k1 ++ x :: k2) ++ y :: k3) as E2 by (rewrite <-Em, E; by rewrite <-(assoc_L (++))).
      by apply (last_split_unique green) in E2 as (_ & -> & _).
Qed.

(** A ticket's records are admissible exactly when the last red record precedes
    the last green one, and the same named verifier went from red to green over two
    named subjects that differ. *)
Theorem regression_evidence_exact records :
  admissible (regression_evidence_verdict records) = true ↔
  ∃ l1 before l2 after l3, records = l1 ++ before :: l2 ++ after :: l3 ∧
    red before ∧ green after ∧ no_later red (l2 ++ after :: l3) ∧ no_later green l3 ∧
    proves_the_fix before after.
Proof. apply admissible_pair. Qed.

Definition sample_records : list evidence :=
  omap parse_evidence [py "REGRESSION-EVIDENCE FAIL verifier:0123456789abcdef subject:aaaaaaaa";
                       py "prose about REGRESSION-EVIDENCE PASS";
                       py "REGRESSION-EVIDENCE PASS oracle:0123456789abcdef subject:bbbbbbbb -- green"].

Example sample_admissible : regression_evidence_verdict sample_records = ADMISSIBLE.
Proof. vm_compute. reflexivity. Qed.
Example sample_contradiction :
  parse_identity "verifier:0123456789abcdef oracle:fedcba9876543210" = [].
Proof. vm_compute. reflexivity. Qed.
