(* ===== verification/LogLine.v ===== *)
(** * One line of the event log

    The grammar of [LOG.md] and its writers: [parse_log_line], [render_event],
    [build_event] and [prepare_bounded_event] of [tools/saipen_engine/log.py],
    with [prepare_event] of [log_compaction.py], which moves an oversized event
    to a detail file. *)

From S2P Require Import Prelude PyStr PyStrFacts PyRegex PyDict Sha256 JournalFs JournalRecord Codec.

(** ** Parsing *)

Record event : Type := Event {
  e_date : option pystr;
  e_event : N;
  e_parent : option N;
  e_ticket : option pystr;
  e_agent : option pystr;
  e_op_id : option pystr;
  e_taxonomy : pystr;
  e_text : pystr;
}.

Definition is_dot_slash (c : N) : bool := (c =? 46)%N || (c =? 47)%N.
Definition not_bracket (c : N) : bool := negb (c =? 93)%N.
Definition two_digits : re := rep 2 is_digit.

(** [\d{2}[./]\d{2}[./]\d{2} \d{2}:\d{2}] *)
Definition date_re : re :=
  seqs [two_digits; Chr is_dot_slash; two_digits; Chr is_dot_slash; two_digits; lit " ";
        two_digits; lit ":"; two_digits].

(** [(?: \[<name><value>\])?] *)
Definition tag_re (open : pystr) (n : nat) (value : re) : re :=
  Opt (seqs [lit open; Grp n value; lit "]"]).

Definition LOG_RE : re :=
  seqs [lit "- "; Opt (Grp 1 (Seq date_re (lit " ")));
        lit "[E-"; Grp 2 (plus is_digit); lit "]";
        tag_re " [parent: E-" 3 (plus is_digit);
        tag_re " [" 4 (Seq (lit "T-") (Star not_bracket));
        tag_re " [agent: " 5 (plus not_bracket);
        tag_re " [op: " 6 (plus not_bracket);
        lit " "; Grp 7 (plus is_AZ); lit ": "; Grp 8 (Star not_nl); Eol].

Definition parse_log_line (line : pystr) : option event :=
  m ← re_match LOG_RE line;
  Some (Event (rstrip <$> group 1 m) (int_of (default [] (group 2 m))) (int_of <$> group 3 m)
              (group 4 m) (group 5 m) (group 6 m) (default [] (group 7 m)) (default [] (group 8 m))).

(** [\[E-(\d+)\]] *)
Definition _DECLARED_EVENT_RE : re := seqs [lit "[E-"; Grp 1 (plus is_digit); lit "]"].

(** The id a line claims, whether it is legal or not. *)
Definition declared_event_id (line : pystr) : option N :=
  m ← re_search _DECLARED_EVENT_RE line; int_of <$> group 1 m.

(** ** Rendering *)

Definition VALID_TAXONOMIES : list pystr := strs ["DEC"; "RUN"; "WAIT"; "REVERT"; "NOTE"; "OPS"].
Definition MAX_NEW_EVENT_BYTES : nat := 1024.

Inductive log_error : Type :=
  | BadTaxonomy (taxonomy : pystr)
  | EventOversize (size : nat)
  | IllegalCharacter (field : pystr) (c : N) (position : nat)
  | BadNow
  | BadTicket
  | NotGrammar
  | BadDependency
  | DetailEscapes.

(** [if value: parts.append(...)] *)
Definition part (value : option pystr) (render : pystr → pystr) : list pystr :=
  match value with Some ((_ :: _) as v) => [render v] | _ => [] end.
Definition next_event (tail : option N) : N := (default 0 tail + 1)%N.

Definition render_line (tail : option N) (taxonomy message : pystr)
    (ticket agent : option pystr) (now : pystr) (op_id : option pystr) : pystr :=
  join " "
    (("- " +s now +s " [E-" +s str_of (next_event tail) +s "]")
     :: match tail with
        | Some n => if (n =? 0)%N then [] else [py "[parent: E-" +s str_of n +s py "]"]
        | None => []
        end
     ++ part ticket (λ v, "[" +s v +s "]")
     ++ part agent (λ v, "[agent: " +s v +s "]")
     ++ part op_id (λ v, "[op: " +s v +s "]")
     ++ [taxonomy +s ": " +s message]).

Definition render_event (tail : option N) (taxonomy message : pystr)
    (ticket agent : option pystr) (now : pystr) (op_id : option pystr) : res log_error pystr :=
  if negb (mem taxonomy VALID_TAXONOMIES) then Err (BadTaxonomy taxonomy)
  else Ok (render_line tail taxonomy message ticket agent now op_id).

Definition build_event (tail : option N) (taxonomy message : pystr)
    (ticket agent : option pystr) (now : pystr) (op_id : option pystr) : res log_error (N * pystr) :=
  line ← render_event tail taxonomy message ticket agent now op_id;
  let size := length (utf8 line) in
  if (MAX_NEW_EVENT_BYTES <? size)%nat then Err (EventOversize size)
  else Ok (next_event tail, line).

(** ** The diagnosis of an illegal event *)

Definition separators : list N := [10; 13; 11; 12; 28; 29; 30; 133; 8232; 8233]%N.

Fixpoint illegal_at (delimited : bool) (offset : nat) (value : pystr) : option (N * nat) :=
  match value with
  | [] => None
  | c :: value' =>
      if bool_decide (c ∈ separators) || (delimited && (c =? 93)%N) then Some (c, S offset)
      else illegal_at delimited (S offset) value'
  end.

Fixpoint illegal_field (fields : list (string * bool * option pystr)) : option log_error :=
  match fields with
  | [] => None
  | (name, delimited, value) :: fields' =>
      match value ≫= illegal_at delimited 0 with
      | Some (c, i) => Some (IllegalCharacter name c i)
      | None => illegal_field fields'
      end
  end.

Definition _event_input_error (message : pystr) (ticket agent : option pystr) (now : pystr)
    (op_id : option pystr) : log_error :=
  match illegal_field [("ticket", true, ticket); ("agent", true, agent); ("op_id", true, op_id);
                       ("now", false, Some now); ("message", false, Some message)] with
  | Some e => e
  | None =>
      if negb (is_full date_re now) then BadNow
      else match ticket with
           | Some ((_ :: _) as t) => if startswith "T-" t then NotGrammar else BadTicket
           | _ => NotGrammar
           end
  end.

(** ** The structure of an active-ticket block *)

Definition ACTIVE_TICKET_BLOCK_MARKER : pystr := "ticket block via SAIOPS (active)".
Definition STRUCTURAL_DETAIL_TAG : pystr := "structural_event: ticket-block-active".

(** An [ActiveTicketBlockStructure] is its [dependency_ticket]. *)
Definition structure : Type := option pystr.

Definition active_ticket_block_structure (dependency_ticket : option pystr) : res log_error structure :=
  match dependency_ticket with
  | Some t => if is_full ticket_id_re t then Ok (Some t) else Err BadDependency
  | None => Ok None
  end.

Definition structural_event_prefix (s : structure) : res log_error pystr :=
  s ← active_ticket_block_structure s;
  Ok (ACTIVE_TICKET_BLOCK_MARKER
      +s match s with Some t => " -- dependency " +s t | None => [] end).

Definition structural_event_record (s : structure) : res log_error json :=
  s ← active_ticket_block_structure s;
  Ok (JObj [(py "kind", JStr "ticket_block"); (py "active", JBool true);
            (py "dependency_ticket", match s with Some t => JStr t | None => JNull end)]).

Definition is_not_space (c : N) : bool := negb (is_space c).

(** [_STRUCTURAL_DETAIL_MESSAGE], with groups 1 [prefix], 2 [dependency] and 3
    [reference]. *)
Definition _STRUCTURAL_DETAIL_MESSAGE : re :=
  seqs [Grp 1 (Seq (lit ACTIVE_TICKET_BLOCK_MARKER)
                   (Opt (Seq (lit " -- dependency ") (Grp 2 ticket_id_re))));
        lit " -- "; lit STRUCTURAL_DETAIL_TAG; lit " -- detail_ref:"; Star is_space;
        Grp 3 (plus is_not_space); Eol].
Definition _PLAIN_DETAIL_MESSAGE : re :=
  seqs [lit "detail_ref:"; Star is_space; Grp 1 (plus is_not_space); Eol].

(** The reference of a canonical compact-detail message, with the structure of
    a structural one; no other text has any. *)
Definition compact_detail_reference (text : pystr) : option (pystr * option structure) :=
  let text := strip text in
  match re_fullmatch _STRUCTURAL_DETAIL_MESSAGE text with
  | Some m =>
      match structural_event_prefix (group 2 m) with
      | Ok p => if default [] (group 1 m) =s p then Some (default [] (group 3 m), Some (group 2 m))
                else None
      | Err _ => None
      end
  | None =>
      m ← re_fullmatch _PLAIN_DETAIL_MESSAGE text; Some (default [] (group 1 m), None)
  end.

(** ** Bounded events *)

Definition LOG_DETAIL_ROOT : pystr := ".saipen/recovery/log-detail".

(** The content of a [TargetPlan]: bytes, or a document written as JSON with
    sorted keys. *)
Inductive payload : Type := Bytes (b : list N) | JsonDocument (j : json).
Record target_plan : Type := TargetPlan { tp_path : pystr; tp_role : pystr; tp_content : payload }.
Record log_event_result : Type := LogEventResult {
  le_event : N;
  le_line : pystr;
  le_targets : list target_plan;
  le_detail_ref : pystr;
}.

Section prepare.
(** The resolved root with its [project_identity] and
    [project_lineage_identity]. *)
Context (root : path) (project_identity project_lineage_identity : option pystr).

Definition json_of (o : option pystr) : json := from_option JStr JNull o.

Definition detail_metadata (event : N) (ticket op_id : option pystr) (detail_ref metadata_ref digest : pystr)
    (size : nat) : list (pystr * json) :=
  [(py "schema_version", JInt 1); (py "operation", JStr "log_event_externalization");
   (py "status", JStr "COMMITTED"); (py "event_id", JStr ("E-" +s str_of event));
   (py "ticket_id", json_of ticket); (py "project_identity", json_of project_identity);
   (py "project_lineage", json_of project_lineage_identity); (py "source", JStr ".saipen/LOG.md");
   (py "original_event_path", JStr detail_ref); (py "original_event_sha256", JStr digest);
   (py "original_event_bytes", JInt (Z.of_nat size)); (py "metadata_path", JStr metadata_ref);
   (py "externalization_event",
    JObj [(py "operation_id", json_of op_id);
          (py "reason", JStr "new LOG event exceeds the live cap; canonical detail externalization")]);
   (py "lossless", JBool true)].

Definition prepare_event (tail : option N) (taxonomy message : pystr) (ticket agent : option pystr)
    (now : pystr) (op_id : option pystr) (s : option structure) : res log_error log_event_result :=
  let event := next_event tail in
  full_line ← render_event tail taxonomy message ticket agent now op_id;
  let full := utf8 full_line ++ [10%N] in
  let force := match s with
               | Some _ => contains "detail_ref:" message || contains "structural_event:" message
               | None => false
               end in
  if (length (utf8 full_line) <=? MAX_NEW_EVENT_BYTES)%nat && negb force
  then Ok (LogEventResult event full_line [] [])
  else
    let digest := Sha256.hexdigest full in
    let stem := "E-" +s str_of event +s "-" +s take 24 digest in
    let detail_ref := LOG_DETAIL_ROOT +s "/" +s stem +s ".LOG.md" in
    let metadata_ref := LOG_DETAIL_ROOT +s "/" +s stem +s ".json" in
    match owned_target_path root detail_ref, owned_target_path root metadata_ref with
    | Some _, Some _ =>
        structural ← match s with
                     | Some s => j ← structural_event_record s; Ok [(py "structural_event", j)]
                     | None => Ok []
                     end;
        let metadata := detail_metadata event ticket op_id detail_ref metadata_ref digest (length full)
                        ++ structural in
        compact_message ← match s with
                          | Some s => p ← structural_event_prefix s;
                                      Ok (p +s " -- " +s STRUCTURAL_DETAIL_TAG +s " -- detail_ref: " +s metadata_ref)
                          | None => Ok ("detail_ref: " +s metadata_ref)
                          end;
        compact ← render_event tail taxonomy compact_message ticket agent now op_id;
        let size := length (utf8 compact) in
        if (MAX_NEW_EVENT_BYTES <? size)%nat then Err (EventOversize size)
        else Ok (LogEventResult event compact
                   [TargetPlan detail_ref "generic" (Bytes full);
                    TargetPlan metadata_ref "generic" (JsonDocument (JObj metadata))]
                   metadata_ref)
    | _, _ => Err DetailEscapes
    end.

(** A writer passes the message redacted, and gets a line that is one record. *)
Definition prepare_bounded_event (tail : option N) (taxonomy message : pystr)
    (ticket agent : option pystr) (now : pystr) (op_id : option pystr) (s : option structure)
    : res log_error (N * pystr * list target_plan) :=
  prepared ← prepare_event tail taxonomy (Codec.redact_credentials message) ticket agent now op_id s;
  if negb (length (splitlines (le_line prepared)) =? 1)%nat
     || negb (bool_decide (is_Some (parse_log_line (le_line prepared))))
  then Err (_event_input_error message ticket agent now op_id)
  else Ok (le_event prepared, le_line prepared, le_targets prepared).
End prepare.

(** ** Reading back a rendered event *)

Definition truthy (o : option pystr) : option pystr :=
  match o with Some ((_ :: _) as v) => Some v | _ => None end.
Definition parent_of_tail (tail : option N) : option N :=
  match tail with Some n => if (n =? 0)%N then None else Some n | None => None end.

(** A tag with its value, as the line carries it. *)
Definition tag (open : pystr) (value : option pystr) : pystr :=
  match value with Some v => open ++ v ++ py "]" | None => [] end.

Lemma join_space h l : join (py " ") (h :: l) = h ++ (l ≫= λ x, py " " ++ x).
Proof.
  revert h. induction l as [|x l IH]; intros h; [simpl; by rewrite app_nil_r|].
  rewrite bind_cons, join_cons, IH by done. by rewrite <-(assoc_L (++) (py " ") x).
Qed.

Lemma render_line_eq tail taxonomy message ticket agent now op_id :
  render_line tail taxonomy message ticket agent now op_id =
  py "- " ++ (now ++ py " ") ++ py "[E-" ++ str_of (next_event tail) ++ py "]"
  ++ tag (py " [parent: E-") (str_of <$> parent_of_tail tail)
  ++ tag (py " [") (truthy ticket) ++ tag (py " [agent: ") (truthy agent)
  ++ tag (py " [op: ") (truthy op_id) ++ py " " ++ taxonomy ++ py ": " ++ message.
Proof.
  unfold render_line. rewrite join_space. unfold cat. rewrite !bind_app.
  change (py " [E-") with (py " " ++ py "[E-").
  rewrite <-!(assoc_L (++)). do 6 f_equal.
  f_equal; [destruct tail as [n|]; [simpl; destruct (n =? 0)%N|]; simpl; rewrite ?app_nil_r; done|].
  f_equal; [destruct ticket as [[|c t]|]; simpl; rewrite ?app_nil_r; done|].
  f_equal; [destruct agent as [[|c t]|]; simpl; rewrite ?app_nil_r; done|].
  f_equal; [destruct op_id as [[|c t]|]; simpl; rewrite ?app_nil_r; done|].
  simpl. by rewrite app_nil_r.
Qed.

Lemma first_tag (open : pystr) n value v c b s :
  (∀ c b s', first value c b (v ++ py "]" ++ s') (c, lastb b v, py "]" ++ s')) →
  first (tag_re open n value) c b (open ++ v ++ py "]" ++ s) ((n, v) :: c, Some 93%N, s).
Proof.
  intros Hv. apply first_Opt. eapply first_Seq; [apply first_lit|].
  eapply first_Seq; [apply first_Grp, Hv|]. apply (first_lit (py "]")).
Qed.

(** A literal other than the start of the subject has no match. *)
Lemma outcomes_lit_miss (p : pystr) r c b s : startswith p s = false → outcomes (Seq (lit p) r) c b s = [].
Proof.
  revert b s. induction p as [|d p IH]; intros b s H; [done|].
  destruct s as [|e s]; [done|]. simpl in *. destruct (N.eqb_spec d e) as [->|Hne]; simpl in H.
  - rewrite bind_singleton. by apply (IH (Some e)).
  - done.
Qed.

Definition tagged (n : nat) (v : option pystr) (c : caps) : caps :=
  match v with Some w => (n, w) :: c | None => c end.
Definition tagb (b : option N) (v : option pystr) : option N :=
  match v with Some _ => Some 93%N | None => b end.

Lemma first_tag_or_not (open : pystr) n value v c b s :
  (∀ w, v = Some w → ∀ c b s', first value c b (w ++ py "]" ++ s') (c, lastb b w, py "]" ++ s')) →
  (v = None → outcomes (seqs [lit open; Grp n value; lit "]"]) c b s = []) →
  first (tag_re open n value) c b (tag open v ++ s) (tagged n v c, tagb b v, s).
Proof.
  intros Hv Hs. destruct v as [w|]; simpl.
  - rewrite <-!(assoc_L (++)). by apply first_tag, Hv.
  - by apply first_Opt_none, Hs.
Qed.


(** A pattern of characters only has one outcome at most. *)
Fixpoint rigid (r : re) : bool :=
  match r with
  | Eps | Chr _ => true
  | Seq r1 r2 => rigid r1 && rigid r2
  | _ => false
  end.

Lemma lastb_app b p q : lastb b (p ++ q) = lastb (lastb b p) q.
Proof. revert b. induction p as [|d p IH]; intros b; [done|]. simpl. by rewrite !lastb_cons, IH. Qed.

Lemma outcomes_rigid r c b p s :
  rigid r = true → lang r p → outcomes r c b (p ++ s) = [(c, lastb b p, s)].
Proof.
  revert c b p s. induction r as [|P|P|P|r1 IH1 r2 IH2| | | | | | | | |]; intros c b p s Hr Hp;
    simpl in *; bool_tac; try done.
  - by subst.
  - destruct Hp as (d & -> & Hd). simpl. by rewrite Hd.
  - destruct Hp as (p1 & p2 & -> & H1 & H2). rewrite <-(assoc_L (++)), IH1, bind_singleton, lastb_app by done.
    by apply IH2.
Qed.

Lemma first_rigid r c b p s : rigid r = true → lang r p → first r c b (p ++ s) (c, lastb b p, s).
Proof. intros Hr Hp. unfold first. by rewrite outcomes_rigid. Qed.

Lemma first_date now c b s :
  is_full date_re now = true → first (Seq date_re (lit " ")) c b ((now ++ py " ") ++ s) (c, Some 32%N, s).
Proof.
  intros Hn%is_full_spec; [|done]. rewrite <-(assoc_L (++)).
  eapply first_Seq; [by apply first_rigid|]. apply (first_lit (py " ")).
Qed.

Lemma rstrip_snoc q d : is_space d = false → rstrip ((q ++ [d]) ++ py " ") = q ++ [d].
Proof.
  intros Hd. unfold rstrip. rewrite !reverse_app. change (reverse (py " ")) with [32%N].
  simpl. rewrite Hd. by rewrite reverse_cons, reverse_involutive.
Qed.

Lemma lang_Seq_assoc r1 r2 r3 p : lang (Seq r1 (Seq r2 r3)) p → lang (Seq (Seq r1 r2) r3) p.
Proof.
  intros (p1 & ? & -> & H1 & p2 & p3 & -> & H2 & H3). exists (p1 ++ p2), p3.
  rewrite (assoc_L (++)). split_and!; [done| |done]. by exists p1, p2.
Qed.

(** A date ends in a digit. *)
Lemma date_digit now : is_full date_re now = true → ∃ q d, now = q ++ [d] ∧ is_digit d = true.
Proof.
  intros Hn%is_full_spec; [|done]. revert now Hn.
  assert (∀ r now, lang (Seq r two_digits) now → ∃ q d, now = q ++ [d] ∧ is_digit d = true) as Hr.
  { intros r now (p & t & -> & _ & [Hl Ht]%lang_rep).
    destruct t as [|x [|y [|]]]; try done. exists (p ++ [x]), y.
    rewrite <-(assoc_L (++)). split; [done|]. apply Forall_cons in Ht as [_ Ht]. by apply Forall_cons in Ht as [? _]. }
  intros now Hn. unfold date_re in Hn. cbn [seqs] in Hn.
  do 7 apply lang_Seq_assoc in Hn. by eapply Hr.
Qed.

(** The inputs of a legal event. *)
Record event_ok (taxonomy message : pystr) (ticket agent : option pystr) (now : pystr)
    (op_id : option pystr) : Prop := {
  ok_now : is_full date_re now = true;
  ok_taxonomy : taxonomy ∈ VALID_TAXONOMIES;
  ok_ticket : ∀ t, truthy ticket = Some t → startswith "T-" t = true ∧ Forall (λ c, not_bracket c = true) t;
  ok_agent : ∀ a, truthy agent = Some a → Forall (λ c, not_bracket c = true) a;
  ok_op_id : ∀ o, truthy op_id = Some o → Forall (λ c, not_bracket c = true) o;
  ok_message : Forall (λ c, not_nl c = true) message;
}.

Lemma truthy_nonempty o v : truthy o = Some v → v ≠ [].
Proof. destruct o as [[|]|]; simpl; [done| |done]. by intros [= <-]. Qed.

Lemma taxonomy_AZ t : t ∈ VALID_TAXONOMIES → t ≠ [] ∧ Forall (λ c, is_AZ c = true) t.
Proof.
  intros Ht. unfold VALID_TAXONOMIES, strs in Ht. simpl in Ht. rewrite !elem_of_cons in Ht.
  destruct_or! Ht; try (subst; split; [done|repeat constructor]). by apply elem_of_nil in Ht.
Qed.

Lemma first_Grp_end n r c b p c' b' :
  first r c b (p ++ []) (c', b', []) → first (Grp n r) c b p ((n, p) :: c', b', []).
Proof. intros H%(first_Grp n). by rewrite app_nil_r in H. Qed.

(** What may follow a tag: the tags after it, then a blank and the taxonomy. None
    of it opens the tag. *)
Definition ending (taxonomy message : pystr) : pystr := py " " ++ taxonomy ++ py ": " ++ message.

Section absent_tags.
Context (taxonomy message : pystr) (Hne : taxonomy ≠ []) (Ht : Forall (λ c, is_AZ c = true) taxonomy).

Lemma ending_no_bracket (s : pystr) : startswith (py " [" ++ s) (ending taxonomy message) = false.
Proof.
  destruct taxonomy as [|x t]; [done|]. apply Forall_cons in Ht as [Hx _].
  change (startswith _ _) with ((91 =? x)%N && startswith s (t ++ py ": " ++ message)).
  by destruct (N.eqb_spec 91 x) as [<-|].
Qed.

Lemma no_op c b r : outcomes (Seq (lit " [op: ") r) c b (ending taxonomy message) = [].
Proof. apply outcomes_lit_miss, (ending_no_bracket "op: "). Qed.

Lemma no_agent op_id c b r :
  outcomes (Seq (lit " [agent: ") r) c b (tag " [op: " op_id ++ ending taxonomy message) = [].
Proof. apply outcomes_lit_miss. destruct op_id; [done|]. apply (ending_no_bracket "agent: "). Qed.

Lemma no_ticket agent op_id c b r r' :
  outcomes (Seq (lit " [") (Seq (Grp 4 (Seq (lit "T-") r)) r')) c b
    (tag " [agent: " agent ++ tag " [op: " op_id ++ ending taxonomy message) = [].
Proof.
  destruct agent; [done|]. destruct op_id; [done|].
  apply outcomes_lit_miss, (ending_no_bracket []).
Qed.

Lemma no_parent ticket agent op_id c b r :
  (∀ t, ticket = Some t → startswith "T-" t = true) →
  outcomes (Seq (lit " [parent: E-") r) c b
    (tag " [" ticket ++ tag " [agent: " agent ++ tag " [op: " op_id ++ ending taxonomy message) = [].
Proof.
  intros Hticket. apply outcomes_lit_miss. destruct ticket as [t|].
  - specialize (Hticket _ eq_refl). apply startswith_spec in Hticket as [t' ->]. done.
  - destruct agent; [done|]. destruct op_id; [done|]. apply (ending_no_bracket "parent: E-").
Qed.
End absent_tags.

Lemma first_value P v c b s :
  v ≠ [] → Forall (λ d, P d = true) v → P 93%N = false →
  first (plus P) c b (v ++ py "]" ++ s) (c, lastb b v, py "]" ++ s).
Proof. intros. by apply first_plus. Qed.

Lemma first_ticket t c b s :
  startswith "T-" t = true → Forall (λ c, not_bracket c = true) t →
  first (Seq (lit "T-") (Star not_bracket)) c b (t ++ py "]" ++ s) (c, lastb b t, py "]" ++ s).
Proof.
  intros [t' ->]%startswith_spec [_ Ht]%Forall_app. rewrite <-(assoc_L (++)), lastb_app.
  eapply first_Seq; [apply first_lit|]. by apply first_Star.
Qed.

Lemma parse_rendered tail taxonomy message ticket agent now op_id :
  event_ok taxonomy message ticket agent now op_id →
  parse_log_line (render_line tail taxonomy message ticket agent now op_id) =
  Some (Event (Some now) (next_event tail) (parent_of_tail tail) (truthy ticket) (truthy agent)
              (truthy op_id) taxonomy message).
Proof.
  intros [Hn Ht Hticket Hagent Hop Hm]. apply taxonomy_AZ in Ht as [Hne Ht].
  rewrite render_line_eq. unfold parse_log_line.
  set (n := str_of (next_event tail)). set (p := str_of <$> parent_of_tail tail).
  assert (re_match LOG_RE (py "- " ++ (now ++ py " ") ++ py "[E-" ++ n ++ py "]"
      ++ tag " [parent: E-" p ++ tag " [" (truthy ticket) ++ tag " [agent: " (truthy agent)
      ++ tag " [op: " (truthy op_id) ++ ending taxonomy message)
    = Some ((8, message) :: (7, taxonomy) :: tagged 6 (truthy op_id) (tagged 5 (truthy agent)
        (tagged 4 (truthy ticket) (tagged 3 p [(2, n); (1, now ++ py " ")]))))) as E.
  { eapply first_match. unfold LOG_RE. cbn [seqs].
    eapply first_Seq; [apply first_lit|].
    eapply first_Seq; [apply first_Opt, first_Grp, first_date, Hn|].
    eapply first_Seq; [apply first_lit|].
    eapply first_Seq; [apply first_Grp, first_plus; [apply str_of_nonempty|apply digits_of|done]|].
    eapply first_Seq; [apply (first_lit "]")|].
    eapply first_Seq.
    { apply first_tag_or_not.
      - intros w Hw. subst p. destruct (parent_of_tail tail); simplify_eq/=.
        intros. apply first_value; [apply str_of_nonempty|apply digits_of|done].
      - intros _. apply no_parent; [done..|]. intros t Ht'. by apply (Hticket t). }
    eapply first_Seq.
    { apply first_tag_or_not.
      - intros w Hw ???. by apply first_ticket; apply Hticket.
      - intros _. by apply no_ticket. }
    eapply first_Seq.
    { apply first_tag_or_not; [|intros _; by apply no_agent].
      intros w Hw ???. apply first_value; [by eapply truthy_nonempty|by apply Hagent|done]. }
    eapply first_Seq.
    { apply first_tag_or_not; [|intros _; by apply no_op].
      intros w Hw ???. apply first_value; [by eapply truthy_nonempty|by apply Hop|done]. }
    eapply first_Seq; [apply (first_lit " ")|].
    eapply first_Seq; [apply first_Grp, first_plus; [done|done|done]|].
    eapply first_Seq; [apply (first_lit ": ")|].
    eapply first_Seq; [|apply first_Eol].
    eapply (first_Grp_end 8), (first_Star _ _ _ _ [] Hm I). }
  change (py " " ++ taxonomy ++ py ": " ++ message) with (ending taxonomy message).
  rewrite E. clear E. destruct (date_digit _ Hn) as (q & d & -> & Hd). apply digit_not_space in Hd.
  subst n p.
  destruct (truthy op_id), (truthy agent), (truthy ticket), (parent_of_tail tail);
    simpl; rewrite ?int_of_str_of, (rstrip_snoc q d Hd); done.
Qed.

(** ** Detail references *)

Lemma is_hex_not_space c : is_hex c = true → is_space c = false.
Proof.
  intros Hc. destruct (is_space c) eqn:Hs; [|done]. by rewrite (is_space_elem is_hex c) in Hc.
Qed.

Definition detail_stem (event : N) (digest : pystr) : pystr :=
  "E-" +s str_of event +s "-" +s take 24 digest.
Definition metadata_ref_of (event : N) (digest : pystr) : pystr :=
  LOG_DETAIL_ROOT +s "/" +s detail_stem event digest +s ".json".

Ltac evaluate_Forall := apply (bool_decide_unpack _); vm_compute; exact I.

Lemma metadata_ref_solid event bs :
  metadata_ref_of event (hexdigest bs) ≠ [] ∧
  Forall (λ c, is_not_space c = true) (metadata_ref_of event (hexdigest bs)).
Proof.
  split; [done|]. unfold metadata_ref_of, detail_stem, cat. rewrite !Forall_app.
  split_and!; [evaluate_Forall|evaluate_Forall|evaluate_Forall| |evaluate_Forall| |evaluate_Forall].
  - eapply Forall_impl; [apply str_of_digits|]. intros c Hc. unfold is_not_space.
    by rewrite ascii_digit_not_space.
  - apply Forall_take. eapply Forall_impl; [apply hexdigest_hex|]. intros c Hc. unfold is_not_space.
    by rewrite is_hex_not_space.
Qed.

Lemma solid_last s : s ≠ [] → Forall (λ c, is_not_space c = true) s →
  ∃ q d, s = q ++ [d] ∧ is_space d = false.
Proof.
  intros Hne Hs. destruct (exists_last Hne) as (q & d & ->). exists q, d. split; [done|].
  apply Forall_app in Hs as [_ Hd%Forall_cons]. destruct Hd as [Hd _]. by apply negb_true_iff.
Qed.

(** A text that starts with a letter and ends with a reference is trimmed. *)
Lemma strip_reference q a s :
  head q = Some a → is_space a = false → s ≠ [] → Forall (λ c, is_not_space c = true) s →
  strip (q ++ s) = q ++ s.
Proof.
  intros Hq Ha Hne Hs. apply strip_trimmed. destruct q as [|x q]; [done|]. injection Hq as ->.
  split; [by intros c [= <-]|]. destruct (solid_last s Hne Hs) as (q' & d & -> & Hd).
  rewrite (assoc_L (++)), last_snoc. by intros c [= <-].
Qed.

Lemma first_reference n c b s :
  s ≠ [] → Forall (λ c, is_not_space c = true) s →
  first (Seq (Star is_space) (Seq (Grp n (plus is_not_space)) Eol)) c b (py " " ++ s)
    ((n, s) :: c, lastb (Some 32%N) s, []).
Proof.
  intros Hne Hs. eapply first_Seq.
  - apply first_Star; [by repeat constructor|]. destruct s as [|d s]; [done|].
    apply Forall_cons in Hs as [Hd _]. by apply negb_true_iff in Hd.
  - eapply first_Seq; [|apply first_Eol]. eapply first_Grp_end, first_plus; done.
Qed.

Lemma full_of_first r s c b : first r [] None s (c, b, []) → re_fullmatch r s = Some c.
Proof. intros H. eapply first_match, first_Seq; [exact H|]. done. Qed.

Lemma plain_reference_read_back s :
  s ≠ [] → Forall (λ c, is_not_space c = true) s →
  compact_detail_reference (py "detail_ref: " ++ s) = Some (s, None).
Proof.
  intros Hne Hs. unfold compact_detail_reference.
  assert (strip (py "detail_ref: " ++ s) = py "detail_ref: " ++ s) as ->.
  { by apply (strip_reference _ 100). }
  assert (re_fullmatch _STRUCTURAL_DETAIL_MESSAGE (py "detail_ref: " ++ s) = None) as -> by done.
  rewrite (full_of_first _PLAIN_DETAIL_MESSAGE (py "detail_ref: " ++ s) [(1, s)] (lastb (Some 32%N) s)); [done|].
  change (py "detail_ref: " ++ s) with (py "detail_ref:" ++ py " " ++ s).
  eapply first_Seq; [apply first_lit|]. by apply first_reference.
Qed.

(** A structure as [active_ticket_block_structure] builds it. *)
Definition structure_ok (s : structure) : Prop := ∀ t, s = Some t → is_full ticket_id_re t = true.

Lemma structural_prefix_ok s :
  structure_ok s →
  structural_event_prefix s =
    Ok (ACTIVE_TICKET_BLOCK_MARKER +s match s with Some t => py " -- dependency " +s t | None => [] end).
Proof.
  intros Hs. unfold structural_event_prefix, active_ticket_block_structure.
  destruct s as [t|]; [|done]. by rewrite (Hs t eq_refl).
Qed.

Lemma first_ticket_id t c b s :
  is_full ticket_id_re t = true → head_fails is_digit s →
  first ticket_id_re c b (t ++ s) (c, lastb b t, s).
Proof.
  intros (ds & -> & Hne & Hds)%is_full_ident Hs. rewrite <-(assoc_L (++)), lastb_app.
  eapply first_Seq; [apply first_lit|]. by apply first_plus.
Qed.

(** The prefix of a structure, and the groups it captures. *)
Definition block_prefix (s : structure) : pystr :=
  ACTIVE_TICKET_BLOCK_MARKER +s match s with Some t => py " -- dependency " +s t | None => [] end.
Definition block_caps (s : structure) : caps :=
  (1, block_prefix s) :: match s with Some t => [(2, t)] | None => [] end.

Lemma first_block_prefix s b rest :
  structure_ok s → head rest = Some 32%N →
  outcomes (Seq (lit " -- dependency ") (Grp 2 ticket_id_re)) [] (lastb b ACTIVE_TICKET_BLOCK_MARKER) rest = [] →
  first (Grp 1 (Seq (lit ACTIVE_TICKET_BLOCK_MARKER)
                    (Opt (Seq (lit " -- dependency ") (Grp 2 ticket_id_re))))) [] b
    (block_prefix s ++ rest) (block_caps s, lastb b (block_prefix s), rest).
Proof.
  intros Hs Hr Hno. apply first_Grp. unfold block_prefix, cat. destruct s as [t|].
  - rewrite <-!(assoc_L (++)), !lastb_app. eapply first_Seq; [apply first_lit|].
    apply first_Opt. eapply first_Seq; [apply first_lit|].
    apply first_Grp, first_ticket_id; [by apply Hs|]. destruct rest; [done|]. by injection Hr as ->.
  - rewrite app_nil_r. eapply first_Seq; [apply first_lit|]. by apply first_Opt_none.
Qed.

Lemma structural_reference_read_back s r :
  structure_ok s → r ≠ [] → Forall (λ c, is_not_space c = true) r →
  compact_detail_reference
    (block_prefix s ++ py " -- " ++ STRUCTURAL_DETAIL_TAG ++ py " -- detail_ref:" ++ py " " ++ r)
  = Some (r, Some s).
Proof.
  intros Hs Hne Hr. unfold compact_detail_reference. set (text := block_prefix s ++ _).
  assert (strip text = text) as ->.
  { subst text. rewrite !(assoc_L (++)). by apply (strip_reference _ 116). }
  rewrite (full_of_first _ text ((3, r) :: block_caps s) (lastb (Some 32%N) r)).
  - set (m := (3, r) :: _). assert (group 2 m = s) as -> by (by destruct s).
    assert (group 1 m = Some (block_prefix s)) as -> by done. assert (group 3 m = Some r) as -> by done.
    rewrite structural_prefix_ok by done. cbn [from_option default id]. fold (block_prefix s).
    by rewrite eqs_refl.
  - unfold _STRUCTURAL_DETAIL_MESSAGE. cbn [seqs]. subst text.
    eapply first_Seq; [by apply first_block_prefix|].
    eapply first_Seq; [apply (first_lit " -- ")|]. eapply first_Seq; [apply first_lit|].
    eapply first_Seq; [apply (first_lit " -- detail_ref:")|]. by apply first_reference.
Qed.

(** ** Properties *)

Lemma not_space_not_nl s : Forall (λ c, is_not_space c = true) s → Forall (λ c, not_nl c = true) s.
Proof.
  intros Hs. eapply Forall_impl; [exact Hs|]. intros c Hc. unfold not_nl. by destruct (N.eqb_spec c 10) as [->|].
Qed.
Lemma digit_not_nl c : is_digit c = true → not_nl c = true.
Proof. intros Hc. unfold not_nl. by destruct (N.eqb_spec c 10) as [->|]. Qed.

Lemma block_prefix_not_nl s : structure_ok s → Forall (λ c, not_nl c = true) (block_prefix s).
Proof.
  intros Hs. unfold block_prefix, cat. apply Forall_app. split; [evaluate_Forall|].
  destruct s as [t|]; [|constructor]. apply Forall_app. split; [evaluate_Forall|].
  destruct (proj1 (is_full_ident _ _) (Hs t eq_refl)) as (ds & -> & _ & Hds).
  apply Forall_app. split; [evaluate_Forall|]. eapply Forall_impl; [exact Hds|]. apply digit_not_nl.
Qed.

(** The message of a compact event. *)
Definition compact_message (s : option structure) (r : pystr) : pystr :=
  match s with
  | Some s => block_prefix s ++ py " -- " ++ STRUCTURAL_DETAIL_TAG ++ py " -- detail_ref:" ++ py " " ++ r
  | None => py "detail_ref: " ++ r
  end.

Lemma compact_message_ok s r :
  (∀ s', s = Some s' → structure_ok s') → r ≠ [] → Forall (λ c, is_not_space c = true) r →
  Forall (λ c, not_nl c = true) (compact_message s r) ∧
  compact_detail_reference (compact_message s r) = Some (r, s).
Proof.
  intros Hs Hne Hr. destruct s as [s|]; cbn [compact_message].
  - split; [|by apply structural_reference_read_back; [apply Hs|..]]. rewrite !Forall_app.
    split_and!; [by apply block_prefix_not_nl, Hs|evaluate_Forall..|by apply not_space_not_nl].
  - split; [|by apply plain_reference_read_back]. apply Forall_app.
    split; [evaluate_Forall|by apply not_space_not_nl].
Qed.

(** What [prepare_event] makes of a message: the line itself, or a compact line
    with the line kept in a detail file. *)
Lemma prepare_event_cases root pid plid tail taxonomy message ticket agent now op_id s p :
  prepare_event root pid plid tail taxonomy message ticket agent now op_id s = Ok p →
  let line := render_line tail taxonomy message ticket agent now op_id in
  le_event p = next_event tail ∧ taxonomy ∈ VALID_TAXONOMIES ∧
  length (utf8 (le_line p)) ≤ MAX_NEW_EVENT_BYTES ∧
  ((le_line p = line ∧ le_targets p = []) ∨
   ∃ r d m, le_line p = render_line tail taxonomy (compact_message s r) ticket agent now op_id ∧
     le_targets p = [TargetPlan d "generic" (Bytes (utf8 line ++ [10%N]));
                     TargetPlan r "generic" (JsonDocument (JObj m))] ∧
     (∀ s', s = Some s' → structure_ok s') ∧ r ≠ [] ∧ Forall (λ c, is_not_space c = true) r ∧
     dget (py "original_event_path") m = Some (JStr d)).
Proof.
  intros E line. unfold prepare_event, render_event in E.
  destruct (mem taxonomy VALID_TAXONOMIES) eqn:Ht; [|done]. apply mem_true in Ht.
  cbn [negb mbind res_bind] in E. fold line in E.
  destruct ((length (utf8 line) <=? MAX_NEW_EVENT_BYTES)%nat && _) eqn:Hc.
  { injection E as <-. apply andb_true_iff in Hc as [Hc%Nat.leb_le _].
    split_and!; [done..|by left]. }
  do 2 (case_match; [|done]). apply res_bind_Ok in E as (st & Hst & E).
  apply res_bind_Ok in E as (cm & Hcm & E). simpl in E.
  destruct (MAX_NEW_EVENT_BYTES <? _)%nat eqn:Hsz in E; [done|]. injection E as <-. apply Nat.ltb_ge in Hsz.
  simpl. split_and!; [done..|right].
  set (bs := utf8 line ++ [10%N]) in *. change (LOG_DETAIL_ROOT +s _ +s _ +s ".json") with
    (metadata_ref_of (next_event tail) (hexdigest bs)) in *.
  destruct (metadata_ref_solid (next_event tail) bs) as [Hne Hsolid].
  set (r := metadata_ref_of _ _) in *.
  assert (cm = compact_message s r ∧ ∀ s', s = Some s' → structure_ok s') as [-> Hs].
  { clear -Hcm. destruct s as [s|]; [|by injection Hcm as <-].
    unfold structural_event_prefix, active_ticket_block_structure in Hcm.
    destruct s as [t|]; [destruct (is_full ticket_id_re t) eqn:Ht; [|done]|]; injection Hcm as <-.
    - split; [|by intros s' [= <-] t' [= <-]]. unfold compact_message, block_prefix, cat.
      by rewrite <-!(assoc_L (++)).
    - split; [|by intros s' [= <-]]. unfold compact_message, block_prefix, cat. by rewrite app_nil_r. }
  eexists r, _, _. split_and!; [reflexivity|reflexivity|exact Hs|exact Hne|exact Hsolid|reflexivity].
Qed.

(** The tags of an event have no closing bracket, and the ticket looks like one. *)
Record tags_ok (ticket agent op_id : option pystr) : Prop := {
  tags_ticket : ∀ t, truthy ticket = Some t → startswith "T-" t = true ∧ Forall (λ c, not_bracket c = true) t;
  tags_agent : ∀ a, truthy agent = Some a → Forall (λ c, not_bracket c = true) a;
  tags_op_id : ∀ o, truthy op_id = Some o → Forall (λ c, not_bracket c = true) o;
}.

(** C38: The bounded writer: let it accept a message that is one line once redacted, for a
    well-formed date, a ticket that looks like one, and a ticket, agent and operation
    id free of closing brackets (a bracket may forge a tag:
    [bracketed_agent_forges_op_id]). Then, whatever the length of the message, the line
    it returns is within the byte cap and reads back as the next event with that date,
    parent, ticket, agent, operation id and taxonomy; and the text it reads back with
    is the message with its credentials redacted, or, for a line beyond the cap, a
    reference to a detail file that holds the whole line. *)
Theorem prepared_event_reads_back root pid plid tail taxonomy message ticket agent now op_id s n line targets :
  prepare_bounded_event root pid plid tail taxonomy message ticket agent now op_id s = Ok (n, line, targets) →
  is_full date_re now = true → tags_ok ticket agent op_id →
  Forall (λ c, not_nl c = true) (redact_credentials message) →
  n = next_event tail ∧ length (utf8 line) ≤ MAX_NEW_EVENT_BYTES ∧
  ∃ text, parse_log_line line = Some (Event (Some now) n (parent_of_tail tail) (truthy ticket)
                                        (truthy agent) (truthy op_id) taxonomy text) ∧
    (text = redact_credentials message ∧ targets = [] ∨
     ∃ r d m, compact_detail_reference text = Some (r, s) ∧
       targets = [TargetPlan d "generic"
                    (Bytes (utf8 (render_line tail taxonomy (redact_credentials message) ticket agent now op_id)
                            ++ [10%N]));
                  TargetPlan r "generic" (JsonDocument (JObj m))] ∧
       dget (py "original_event_path") m = Some (JStr d)).
Proof.
  intros (p & Hp & E)%res_bind_Ok Hn [H1 H2 H3] Hm. case_match; [done|]. injection E as <- <- <-.
  destruct (prepare_event_cases _ _ _ _ _ _ _ _ _ _ _ _ Hp) as (-> & Ht & Hl & [[El Et]|(r & d & m & El & Et & Hs & Hne & Hr & Hd)]).
  - split_and!; [done..|]. exists (redact_credentials message). rewrite El.
    split; [by apply parse_rendered|]. by left.
  - destruct (compact_message_ok s r Hs Hne Hr) as [Hc Href].
    split_and!; [done..|]. exists (compact_message s r). rewrite El.
    split; [by apply parse_rendered|]. right. by exists r, d, m.
Qed.

Definition sample_prepared : res log_error (N * pystr * list target_plan) :=
  prepare_bounded_event [py "r"] None None (Some 7%N) "RUN" "tests are green" (Some (py "T-1")) (Some (py "a"))
    "01.02.26 10:00" (Some (py "finish-0123abcd")) None.

Lemma prepared_event_reads_back_witness :
  ∃ line, parse_log_line line =
    Some (Event (Some (py "01.02.26 10:00")) 8%N (Some 7%N) (Some (py "T-1")) (Some (py "a"))
            (Some (py "finish-0123abcd")) "RUN" "tests are green").
Proof.
  set (line := py "- 01.02.26 10:00 [E-8] [parent: E-7] [T-1] [agent: a] [op: finish-0123abcd] RUN: tests are green").
  assert (sample_prepared = Ok (8%N, line, [])) as E by (vm_compute; reflexivity).
  exists line.
  destruct (prepared_event_reads_back _ _ _ _ _ _ _ _ _ _ _ _ _ _ E)
    as (_ & _ & text & Hp & [[-> _]|(r & d & m & _ & [=] & _)]).
  - vm_compute. reflexivity.
  - split; intros t [= <-]; [split; [vm_compute; reflexivity|]| |]; evaluate_Forall.
  - evaluate_Forall.
  - rewrite Hp. vm_compute. reflexivity.
Defined.

(** The check of the tags is not implied: a seat name with a closing bracket
    passes the bounded writer, and its line reads back with another agent and
    with an operation id nobody issued. *)
Theorem bracketed_agent_forges_op_id :
  let line := py "- 01.02.26 10:00 [E-8] [parent: E-7] [T-1] [agent: a] [op: finish-0123abcd] RUN: x" in
  prepare_bounded_event [py "r"] None None (Some 7%N) "RUN" "x" (Some (py "T-1"))
    (Some (py "a] [op: finish-0123abcd")) "01.02.26 10:00" None None = Ok (8%N, line, []) ∧
  (e_agent <$> parse_log_line line) = Some (Some (py "a")) ∧
  (e_op_id <$> parse_log_line line) = Some (Some (py "finish-0123abcd")).
Proof. split_and!; vm_compute; reflexivity. Qed.
