(* ===== verification/LogHistory.v ===== *)
(** * The event history

    The sealed segments [.saipen/logs/LOG-n.md] and the active [.saipen/LOG.md]
    as one ledger ([tools/saipen_engine/log.py]): the proof that the nodes are the
    project's own, the snapshot and its bounded summary, the contract of the
    ledger, and the cut of a foreign tail. *)

From stdpp Require Import sorting.
From S2P Require Import Prelude PyStr PyStrFacts PyRegex PyDict Sha256 JournalFs JournalRecord Codec LogLine.


(** ** Segments *)

Definition SEGMENT_RE : re := seqs [lit "LOG-"; Grp 1 (plus is_digit); lit ".md"; Eol].
Definition _segment_number (name : pystr) : Z :=
  match re_match SEGMENT_RE name with
  | Some m => Z.of_N (int_of (default [] (group 1 m)))
  | None => -1
  end.

Definition LOGS_DIR : path := [py ".saipen"; py "logs"].
Definition ACTIVE_LOG : path := [py ".saipen"; py "LOG.md"].
Definition path_name (p : path) : pystr := default [] (last p).

Definition seg_le (a b : pystr) : Prop := (_segment_number a <= _segment_number b)%Z.
Global Instance seg_le_dec a b : Decision (seg_le a b).
Proof. unfold seg_le. apply _. Defined.

Inductive history_error : Type :=
  | LogsUnreadable (e : oserror)
  | LogsNotDirectory
  | NodeUnreadable (name : pystr) (e : oserror)
  | NodeNotRegular (name : pystr)
  | ActiveNotCanonical.

(** [sealed] of [_validate_history_ownership]: the segments in numeric order. *)
Definition sealed_names (f : fs) : list pystr :=
  merge_sort seg_le (base.filter (λ n, (0 <= _segment_number n)%Z) (names f LOGS_DIR)).

Fixpoint check_nodes (f : fs) (ps : list path) : res history_error () :=
  match ps with
  | [] => Ok tt
  | p :: ps' =>
      match lstat f p with
      | Err FileNotFoundError => check_nodes f ps'
      | Err e => Err (NodeUnreadable (path_name p) e)
      | Ok (File _) => check_nodes f ps'
      | Ok _ => Err (NodeNotRegular (path_name p))
      end
  end.

Definition _validate_history_ownership (f : fs) : res history_error (list path) :=
  let finish sealed :=
    let ps := ((λ n, LOGS_DIR ++ [n]) <$> sealed) ++ [ACTIVE_LOG] in
    check_nodes f ps ≫= λ _, Ok ps in
  match lstat f LOGS_DIR with
  | Err FileNotFoundError => finish []
  | Err e => Err (LogsUnreadable e)
  | Ok Dir => finish (sealed_names f)
  | Ok _ => Err LogsNotDirectory
  end.

(** The nodes that are there, with their bytes. *)
Fixpoint read_nodes (f : fs) (ps : list path) : res history_error (list (path * list N)) :=
  match ps with
  | [] => Ok []
  | p :: ps' =>
      match read_bytes f p with
      | Err FileNotFoundError => read_nodes f ps'
      | Err e => Err (NodeUnreadable (path_name p) e)
      | Ok raw =>
          if (path_name p =s py "LOG.md") && negb (is_canonical_encoding raw) then Err ActiveNotCanonical
          else read_nodes f ps' ≫= λ rest, Ok ((p, raw) :: rest)
      end
  end.

Definition history_nodes (f : fs) : res history_error (list (path * list N)) :=
  _validate_history_ownership f ≫= read_nodes f.

(** ** The cap of the active segment *)

Definition ACTIVE_LOG_MAX_LINES : Z := 300.
Definition ACTIVE_LOG_MAX_BYTES : Z := 64 * 1024.
Definition seal_due (line_count byte_count : Z) : bool :=
  (ACTIVE_LOG_MAX_LINES <? line_count)%Z || (ACTIVE_LOG_MAX_BYTES <? byte_count)%Z.

(** [str(n).rjust(3, "0")] is [f"{n:03d}"] of a number that is not negative. *)
Definition pad3 (n : N) : pystr := replicate (3 - length (str_of n)) 48%N ++ str_of n.
Definition history_names (f : fs) : list pystr :=
  merge_sort seg_le (base.filter (λ n, (0 <= _segment_number n)%Z ∧ is_file (look f (LOGS_DIR ++ [n])) = true)
                       (names f LOGS_DIR)) ++ [py "LOG.md"].
Definition next_segment_rel (f : fs) : pystr :=
  let newest := foldr Z.max 0%Z (_segment_number <$> history_names f) in
  ".saipen/logs/LOG-" +s pad3 (Z.to_N newest + 1) +s ".md".

(** ** Detail files *)

(** An event of the history; [h_detail] is [detail_ref] with whether
    [detail_integrity] is ["valid"]. *)
Record hevent : Type := HEvent { h_event : event; h_detail : option (pystr * bool) }.

Definition _DETAIL_ROOT : pystr := ".saipen/recovery/log-detail/".

Fixpoint lstrip_slash (s : pystr) : pystr :=
  match s with
  | c :: s' => if (c =? 47)%N then lstrip_slash s' else s
  | [] => []
  end.

Definition _owned_detail_bytes (f : fs) (reference : pystr) : option (list N) :=
  let normalized := lstrip_slash (replace "\" "/" reference) in
  if mem (py "..") (split (py "/") normalized) || negb (startswith _DETAIL_ROOT normalized) then None
  else match read_bytes f (parts normalized) with Ok raw => Some raw | Err _ => None end.

(** Python's [==] between a JSON value and an integer or a string. *)
Definition eq_int (j : json) (z : Z) : bool :=
  match j with
  | JInt x => (x =? z)%Z
  | JBool b => ((if b then 1 else 0) =? z)%Z
  | JFloat r => (0 <=? z)%Z && (r =s str_of (Z.to_N z) +s ".0")
  | _ => false
  end.
Definition eq_str (j : json) (s : pystr) : bool := match j with JStr x => x =s s | _ => false end.
Definition eq_opt_str (j : json) (o : option pystr) : bool :=
  match j, o with JNull, None => true | JStr x, Some s => x =s s | _, _ => false end.

Definition _structure_from_record (j : json) : option structure :=
  match j with
  | JObj d =>
      if bool_decide (list_to_set (dkeys d) =@{gset pystr} list_to_set (strs ["kind"; "active"; "dependency_ticket"]))
         && eq_str (jget "kind" d) "ticket_block"
      then match jget "active" d, jget "dependency_ticket" d with
           | JBool true, JNull => Some None
           | JBool true, JStr t => if is_full ticket_id_re t then Some (Some t) else None
           | _, _ => None
           end
      else None
  | _ => None
  end.

(** [_normalised_doc_text], after the decoding. *)
Definition lf_normalised (text : pystr) : pystr :=
  replace [13%N] [10%N] (replace [13%N; 10%N] [10%N] text).

Section history.
(** The decoder [codec._decode] of a document, [json.loads] on the text of a detail
    file that is UTF-8, and the lineage and identity of the project. *)
Context (decode : list N → pystr) (json_loads : pystr → option json).
Context (lineage : option pystr) (identity : pystr).

Definition _normalised_doc_text (raw : list N) : pystr := lf_normalised (decode raw).

Definition history_bound_here (recorded_identity recorded_lineage : json) : bool :=
  match lineage with
  | Some l => eq_str recorded_lineage l
  | None => match recorded_lineage with JNull => eq_str recorded_identity identity | _ => false end
  end.

(** The fields [_read_detail_text] expects of the metadata. *)
Definition metadata_expected (e : event) (reference : pystr) (d : dict pystr json) : bool :=
  forallb (λ k, dmem k d)
    (strs ["schema_version"; "operation"; "status"; "event_id"; "ticket_id"; "source"; "metadata_path";
           "lossless"; "project_identity"; "project_lineage"])
  && eq_int (jget "schema_version" d) 1
  && eq_str (jget "operation" d) "log_event_externalization"
  && eq_str (jget "status" d) "COMMITTED"
  && eq_str (jget "event_id" d) ("E-" +s str_of (e_event e))
  && eq_opt_str (jget "ticket_id" d) (e_ticket e)
  && eq_str (jget "source" d) ".saipen/LOG.md"
  && eq_str (jget "metadata_path" d) reference
  && eq_int (jget "lossless" d) 1.

(** The restored line must be the event itself, but for its text. *)
Definition same_fields (full parsed : event) : bool :=
  bool_decide (e_date full = e_date parsed ∧ e_event full = e_event parsed
    ∧ e_parent full = e_parent parsed ∧ e_ticket full = e_ticket parsed
    ∧ e_agent full = e_agent parsed ∧ e_op_id full = e_op_id parsed
    ∧ e_taxonomy full = e_taxonomy parsed).

(** [str(metadata.get("original_event_path") or "")]: only a string names a path
    under the detail root. *)
Definition original_path (d : dict pystr json) : pystr :=
  match jget "original_event_path" d with JStr s => s | _ => [] end.

(** The recorded operation and block structure are the event's own. *)
Definition detail_recorded (parsed : event) (s : option structure) (d : dict pystr json) : bool :=
  match jget "externalization_event" d with
  | JObj x => eq_opt_str (jget "operation_id" x) (e_op_id parsed)
  | _ => false
  end
  && match s with
     | None => negb (dmem (py "structural_event") d)
     | Some _ => bool_decide (_structure_from_record (jget "structural_event" d) = s)
     end.

Definition detail_bytes_proved (d : dict pystr json) (raw : list N) : bool :=
  eq_int (jget "original_event_bytes" d) (Z.of_nat (length raw))
  && eq_str (jget "original_event_sha256" d) (hexdigest raw).

Definition structure_text (s : option structure) (text : pystr) : bool :=
  match s with
  | None => true
  | Some s => match structural_event_prefix s with Ok p => startswith (p +s " -- ") text | Err _ => false end
  end.

Definition _read_detail_text (f : fs) (reference : pystr) (parsed : event) (s : option structure)
    : option pystr :=
  metadata_raw ← _owned_detail_bytes f reference;
  text ← utf8_decode metadata_raw;
  metadata ← json_loads text;
  match metadata with
  | JObj d =>
      if metadata_expected parsed reference d
         && history_bound_here (jget "project_identity" d) (jget "project_lineage" d)
         && detail_recorded parsed s d
      then
        raw ← _owned_detail_bytes f (original_path d);
        if detail_bytes_proved d raw then
          match splitlines (_normalised_doc_text raw) with
          | [line] =>
              full ← parse_log_line line;
              if same_fields full parsed && structure_text s (e_text full) then Some (e_text full) else None
          | _ => None
          end
        else None
      else None
  | _ => None
  end.

(** [_restored_detail_text]: the reference, and the text when it is proved. *)
Definition _restored_detail_text (f : fs) (parsed : event) : option pystr * option pystr :=
  match compact_detail_reference (e_text parsed) with
  | None => (None, None)
  | Some (reference, s) => (Some reference, _read_detail_text f reference parsed s)
  end.

Definition set_text (e : event) (text : pystr) : event :=
  Event (e_date e) (e_event e) (e_parent e) (e_ticket e) (e_agent e) (e_op_id e) (e_taxonomy e) text.

Definition restore (f : fs) (parsed : event) : hevent :=
  let '(reference, restored) := _restored_detail_text f parsed in
  HEvent (match restored with Some t => set_text parsed t | None => parsed end)
         ((λ r, (r, bool_decide (is_Some restored))) <$> reference).
End history.
