(* ===== verification/LogVerdict.v ===== *)
(** * The verdict of a line

    What one event of the ledger says about a verification cycle
    ([tools/saipen_engine/log.py]): whether its text claims a failure, and whether
    it opens, decides or closes the cycle of a ticket. *)

From S2P Require Import Prelude PyStr PyStrFacts PyUnicode PyRegex PyDict Codec SafeId LogLine Oracle.

(** ** Words *)

Definition alt_ci (l : list string) : re :=
  match l with
  | [] => Eps
  | s :: l' => foldl (λ r (t : string), Alt r (lit_ci t)) (lit_ci s) l'
  end.
Definition spaces : re := plus is_space.
Definition space0 : re := Star is_space.
Definition digits : re := plus is_digit.
Definition one_of (s : pystr) : re := Chr (λ c, bool_decide (c ∈ s)).

(** [FAIL(?:S|ED|URE|URES)?] *)
Definition FAIL_WORD : re := Seq (lit_ci "fail") (Opt (alt_ci ["s"; "ed"; "ure"; "ures"])).
(** [(?!\s*[=:]\s*\d)] *)
Definition _NOT_A_FIELD_KEY : re := Ahead true (seqs [space0; one_of "=:"; space0; Chr is_digit]).
(** [(?!0+\b)] *)
Definition not_zero : re := Ahead true (Seq (plus (N.eqb 48)) Wordb).
(** [\d+\s+FAIL...\b] *)
Definition counted : re := seqs [digits; spaces; FAIL_WORD; Wordb].

Definition _NEGATION_RE : re :=
  seqs [Wordb; lit_ci "not"; spaces; alt_ci ["pass"; "manual-verify"]; Wordb].
Definition _PASS_TOKEN_RE : re := seqs [Wordb; lit "PASS"; Wordb].
Definition _MANUAL_RESULT_RE : re :=
  seqs [lit "MANUAL-VERIFY RESULT:"; space0; Grp 1 (alts (strs ["PASS"; "FAIL"])); Wordb].

Definition _ZERO_FAIL_RE : re :=
  seqs [Wordb; Alt (Alt (lit "0") (lit_ci "no")) (lit_ci "zero"); spaces; FAIL_WORD; Wordb; _NOT_A_FIELD_KEY].
Definition _FAIL_TOKEN_RE : re := seqs [Wordb; FAIL_WORD; Wordb].
Definition _FAIL_FIELD_RE : re :=
  seqs [Wordb; FAIL_WORD; space0; one_of "=:"; space0; not_zero; digits].
Definition _ZERO_FIELD_RE : re :=
  seqs [Wordb; FAIL_WORD; space0; one_of "=:"; space0; plus (N.eqb 48); Wordb].

(** [_FAIL_COUNTED_RE] without its lookbehinds, which [counted_go] decides from
    the two characters before the position. *)
Definition counted_re : re := seqs [Wordb; not_zero; counted; _NOT_A_FIELD_KEY].
Definition identifier_tail (b2 b1 : option N) : bool :=
  match b2, b1 with
  | Some c, Some d => ((d =? 45)%N && ci_letter c) || ((d =? 58)%N && ci_word c)
  | _, _ => false
  end.
Fixpoint counted_go (b2 b1 : option N) (s : pystr) : bool :=
  (negb (identifier_tail b2 b1) && bool_decide (is_Some (match_at counted_re b1 s)))
  || match s with
     | [] => false
     | d :: s' => counted_go b1 (Some d) s'
     end.

(** ** Counts that belong to another run *)

Definition _FOREIGN_SCOPE : re := alt_ci ["inherited"; "unrelated"; "pre-existing"; "carried"; "foreign"].
(** [(?:\s*/?\s*\d*\s*WARN(?:ING|INGS)?\b)?\s*] *)
Definition warnings : re :=
  Seq (Opt (seqs [space0; Opt (lit "/"); space0; Star is_digit; space0; lit_ci "warn";
                  Opt (alt_ci ["ing"; "ings"]); Wordb])) space0.
Definition _FOREIGN_FAIL_RE : re :=
  Alt (Alt (seqs [Wordb; _FOREIGN_SCOPE; spaces; counted])
           (seqs [Wordb; digits; spaces; _FOREIGN_SCOPE; spaces; FAIL_WORD; Wordb]))
      (seqs [Wordb; counted; warnings;
             Alt (seqs [lit "("; space0; _FOREIGN_SCOPE; space0; lit ")"]) (seqs [Wordb; _FOREIGN_SCOPE; Wordb])]).

Definition _HISTORICAL_SCOPE : re := alt_ci ["previous"; "prior"; "last"; "earlier"].
Definition _HISTORICAL_RUN : re :=
  Alt (Alt (Seq (lit_ci "run") (Opt (lit_ci "s"))) (Seq (lit_ci "result") (Opt (lit_ci "s"))))
      (Seq (lit_ci "attempt") (Opt (lit_ci "s"))).
(** [(?:had|showed|with|of\s+)?] *)
Definition had : re := Opt (Alt (alt_ci ["had"; "showed"; "with"]) (Seq (lit_ci "of") spaces)).
Definition _HIST_FAIL_RE : re :=
  Alt (seqs [Wordb; _HISTORICAL_SCOPE; spaces; _HISTORICAL_RUN; space0; Opt (one_of ":;,"); space0; had; space0;
             Wordb; counted])
      (seqs [Wordb; counted; spaces; alt_ci ["in"; "on"; "during"; "for"]; spaces; lit_ci "the"; spaces;
             _HISTORICAL_SCOPE; spaces; _HISTORICAL_RUN; Wordb]).

Definition _CONTROL_SCOPE : re :=
  Alt (seqs [lit_ci "red"; Opt (one_of "- "); lit_ci "control"; Opt (lit_ci "s")])
      (seqs [lit_ci "pre"; one_of "- "; lit_ci "fix"]).
Definition _CONTROL_RUN : re :=
  foldl (λ r w, Alt r (Seq (lit_ci w) (Opt (lit_ci "s")))) (Seq (lit_ci "run") (Opt (lit_ci "s")))
    (strs ["measure"; "measurement"; "baseline"; "state"]).
Definition not_paren (c : N) : bool := negb ((c =? 40)%N || (c =? 41)%N).
Definition _CONTROL_FAIL_RE : re :=
  Alt (seqs [Wordb; _CONTROL_SCOPE; Opt (Seq spaces _CONTROL_RUN); space0; Opt (one_of ":;,"); space0; had; space0;
             Wordb; counted])
      (seqs [Wordb; counted; warnings;
             Alt (seqs [lit "("; space0; _CONTROL_SCOPE; Opt (seqs [space0; one_of ",;"; rep_upto 40 not_paren]);
                        space0; lit ")"])
                 (seqs [Wordb; _CONTROL_SCOPE; Wordb])]).

Definition _PAIR_OTHER_COUNT : re := seqs [digits; spaces; alt_ci ["ran"; "passed"; "skipped"]].
(** [\s*:?\s*exit\s*(?:code\s* )?[:=]?\s*] *)
Definition _PAIR_EXIT : re :=
  seqs [space0; Opt (lit ":"); space0; lit_ci "exit"; space0; Opt (Seq (lit_ci "code") space0);
        Opt (one_of ":="); space0].
(** [n] bounds the two repetitions; the length of the subject is enough. *)
Definition _PAIR_RED_HALF_RE (n : nat) : re :=
  let comma := seqs [space0; lit ","; space0] in
  let others := many n (seqs [_PAIR_OTHER_COUNT; comma]) in
  seqs [Wordb; lit_ci "before"; _PAIR_EXIT; lit "1"; Wordb; space0;
        Alt (seqs [lit "("; space0; others; counted; many n (Seq comma _PAIR_OTHER_COUNT); space0; lit ")"])
            (seqs [lit ","; space0; others; counted]);
        Ahead false (seqs [space0; Opt (one_of "/;,"); space0;
                           Opt (Alt (Seq (lit_ci "and") spaces) (Seq (lit_ci "then") spaces));
                           lit_ci "after"; _PAIR_EXIT; lit "0"; Wordb])].

(** ** The claim of a failure *)

Definition _VERDICT_SEPARATOR : pystr := " -- ".

Definition scoped (text : pystr) : pystr :=
  let s := re_sub _FOREIGN_FAIL_RE " " text in
  let s := re_sub _HIST_FAIL_RE " " s in
  let s := re_sub _CONTROL_FAIL_RE " " s in
  re_sub (_PAIR_RED_HALF_RE (length s)) " " s.

Definition count_of (r : re) (s : pystr) : nat := length (re_finditer r s).

Definition _claims_failure (text : pystr) : bool :=
  if is_found _NEGATION_RE text then true
  else
    let s := scoped text in
    if counted_go None None s || is_found _FAIL_FIELD_RE s then true
    else
      let verdict := split1_head _VERDICT_SEPARATOR s in
      let total := count_of _FAIL_TOKEN_RE verdict in
      if (total =? 0)%nat then false
      else (count_of _ZERO_FAIL_RE verdict + count_of _ZERO_FIELD_RE verdict <? total)%nat.

Definition claims (s : pystr) : bool := _claims_failure s.

Example claims_examples :
  claims <$> strs
    ["validate.py --gate core 0 FAIL"; "PASS -- a failed atomic write leaves no orphan"; "0 FAIL on core, 3 FAIL on ship";
     "PASS -- E-12503 FAIL / E-12504 PASS"; "PASS -- tests: 3 failed"; "PASS conf: high -- inherited 4 FAIL";
     "PASS conf: high -- 4 FAIL / 22 WARN (inherited)"; "PASS -- previous run: 5 failed / 23 passed";
     "PASS -- 2 failed now"; "PASS -- pre-fix 4 failed (red control), post-fix 0 failed"; "passed=0 failed=3";
     "passed=52 failed=0"; "PASS -- before exit 1 (28 ran, 7 failed) / after exit 0 (28 passed)";
     "PASS -- before exit 1 (28 ran, 7 failed)"; "NOT PASS"]
  = [false; false; true; false; true; false; false; false; true; false; true; false; false; true; true].
Proof. vm_compute. reflexivity. Qed.

(** A count is read up to its last separator: the nonzero count of a narrative does
    not claim a failure when its last group of digits is zero. *)
Theorem grouped_count_talks_past :
  _claims_failure "PASS conf: high -- 2000 failed" = true ∧
  _claims_failure "PASS conf: high -- 2,001 failed" = true ∧
  _claims_failure "PASS conf: high -- 2,000 failed" = false.
Proof. split_and!; vm_compute; reflexivity. Qed.

(** ** The events of a cycle *)

Definition _is_regression_evidence (text : pystr) : bool := bool_decide (is_Some (parse_evidence text)).

Definition _VERIFY_BOUNDARY_PREFIX : pystr := "transition to VERIFY -- ".
Definition boundary_text (text : pystr) : bool :=
  (text =s py "transition to VERIFY") || startswith _VERIFY_BOUNDARY_PREFIX text.
Definition _is_verify_boundary (e : event) : bool := boundary_text (e_text e).

Global Instance provenance_eq_dec : EqDecision provenance.
Proof. solve_decision. Defined.
Definition _hand_authored (e : event) : bool := bool_decide (op_id_provenance (e_op_id e) = HandAuthored).

Definition about (ticket_id : pystr) (e : event) : bool := bool_decide (e_ticket e = Some ticket_id).
Definition is_run (e : event) : bool := e_taxonomy e =s py "RUN".

Definition _closes_the_cycle (e : event) (ticket_id : pystr) : bool :=
  about ticket_id e && (e_taxonomy e =s py "DEC") && startswith "finish-" (default [] (e_op_id e))
  && startswith "ticket finished via SAIOPS" (e_text e) && negb (_hand_authored e).

(** The machine-owned entry of a ticket into its cycle. *)
Definition opens_the_cycle (ticket_id : pystr) (e : event) : bool :=
  about ticket_id e && is_run e && negb (_hand_authored e) && _is_verify_boundary e.

(** What a text decides: nothing, or a verdict with the text as its reason. *)
Definition decisive (text : pystr) : option bool :=
  if _claims_failure text then Some false
  else match re_match _MANUAL_RESULT_RE (strip text) with
       | Some m => Some (default [] (group 1 m) =s py "PASS")
       | None =>
           if is_found _PASS_TOKEN_RE text then
             if contains "conf: low" text || contains "conf: med" text then Some false
             else if contains "conf: high" text then Some true
             else None
           else None
       end.
