(* ===== verification/LogEvidence.v ===== *)
(** * The evidence of a verification cycle

    [verification_evidence] and [bulk_verification_evidence] of
    [tools/saipen_engine/log.py], and the proof that the single pass gives every
    ticket the verdict of its own scan; the legacy classifier and the structural
    markers. *)

From S2P Require Import Prelude PyStr PyStrFacts PyUnicode PyRegex PyDict Codec SafeId LogLine Oracle LogVerdict.

Definition NO_TICKET : pystr := "no ticket id provided".
Definition NO_VERIFY_BOUNDARY : pystr := "no current-cycle VERIFY boundary".
Definition UNPROVEN : pystr := "unproven/failed".

(** ** One ticket *)

(** The index of the last, and of the first element that satisfies [P]. *)
Fixpoint last_index {A} (P : A → bool) (l : list A) : option nat :=
  match l with
  | [] => None
  | x :: l' => match last_index P l' with
               | Some i => Some (S i)
               | None => if P x then Some 0 else None
               end
  end.
Fixpoint first_index {A} (P : A → bool) (l : list A) : option nat :=
  match l with
  | [] => None
  | x :: l' => if P x then Some 0 else S <$> first_index P l'
  end.

(** An event the classifiers read for the ticket. *)
Definition counts (tid : pystr) (e : event) : bool :=
  about tid e && is_run e && negb (_hand_authored e) && negb (_is_regression_evidence (e_text e)).

(** The scan, newest event first. *)
Fixpoint scan_back (tid : pystr) (l : list event) : bool * pystr :=
  match l with
  | [] => (false, UNPROVEN)
  | e :: l' =>
      if counts tid e then
        match decisive (e_text e) with
        | Some b => (b, e_text e)
        | None => scan_back tid l'
        end
      else scan_back tid l'
  end.

Definition verification_evidence (tid : pystr) (events : list event) : bool * pystr :=
  if negb (nonempty tid) then (false, NO_TICKET)
  else match last_index (opens_the_cycle tid) events with
       | None => (false, NO_VERIFY_BOUNDARY)
       | Some start =>
           let cycle := drop start events in
           let cycle_end := match first_index (λ e, _closes_the_cycle e tid) cycle with
                            | Some i => S i
                            | None => length cycle
                            end in
           scan_back tid (reverse (take cycle_end cycle))
       end.

(** ** Every ticket in one pass *)

Record bulk : Type := Bulk {
  bk_verdicts : gmap pystr (bool * pystr);
  bk_boundary_seen : gset pystr;
  bk_pending : gmap pystr (bool * pystr);
}.

Definition bulk_step (wanted : gset pystr) (s : bulk) (e : event) : bulk :=
  match e_ticket e with
  | None => s
  | Some tid =>
      let open := bool_decide (tid ∈ wanted) && bool_decide (bk_verdicts s !! tid = None)
                  && bool_decide (tid ∉ bk_boundary_seen s) in
      if open && _closes_the_cycle e tid
      then Bulk (bk_verdicts s) (bk_boundary_seen s) (delete tid (bk_pending s))
      else if negb (is_run e) then s
      else if negb (bool_decide (tid ∈ wanted)) || negb (bool_decide (bk_verdicts s !! tid = None)) then s
      else if bool_decide (tid ∈ bk_boundary_seen s) then s
      else if _hand_authored e then s
      else if _is_regression_evidence (e_text e) then s
      else
        let pending := match decisive (e_text e), bk_pending s !! tid with
                       | Some b, None => <[tid := (b, e_text e)]> (bk_pending s)
                       | _, _ => bk_pending s
                       end in
        if _is_verify_boundary e
        then Bulk (<[tid := default (false, UNPROVEN) (pending !! tid)]> (bk_verdicts s))
                  ({[tid]} ∪ bk_boundary_seen s) pending
        else Bulk (bk_verdicts s) (bk_boundary_seen s) pending
  end.

Definition bulk_verification_evidence (events : list event) (wanted : gset pystr) : gmap pystr (bool * pystr) :=
  let s := foldl (bulk_step wanted) (Bulk ∅ ∅ ∅) (reverse events) in
  set_fold (λ tid m, match m !! tid with
                     | Some _ => m
                     | None => <[tid := (false, if bool_decide (tid ∈ bk_boundary_seen s)
                                                then UNPROVEN else NO_VERIFY_BOUNDARY)]> m
                     end) (bk_verdicts s) wanted.

(** ** The pass, seen from one ticket *)

(** What the pass holds of one ticket: the final verdict, or the pending one. *)
Inductive view : Type :=
  | Open (pending : option (bool * pystr))
  | Closed (v : bool * pystr).

Definition view_of (s : bulk) (tid : pystr) : view :=
  match bk_verdicts s !! tid with Some v => Closed v | None => Open (bk_pending s !! tid) end.

Definition keep (p : option (bool * pystr)) (e : event) : option (bool * pystr) :=
  match p, decisive (e_text e) with
  | None, Some b => Some (b, e_text e)
  | _, _ => p
  end.

Definition view_step (tid : pystr) (v : view) (e : event) : view :=
  match v with
  | Closed _ => v
  | Open p =>
      if _closes_the_cycle e tid then Open None
      else if counts tid e then
        if _is_verify_boundary e then Closed (default (false, UNPROVEN) (keep p e)) else Open (keep p e)
      else v
  end.

(** The tickets whose boundary was met are those with a verdict. *)
Definition bulk_ok (s : bulk) : Prop := ∀ tid, tid ∈ bk_boundary_seen s ↔ is_Some (bk_verdicts s !! tid).

Lemma about_true tid e : about tid e = true ↔ e_ticket e = Some tid.
Proof. unfold about. by rewrite bool_decide_eq_true. Qed.

Lemma about_other tid e : e_ticket e ≠ Some tid → about tid e = false.
Proof. intros H. unfold about. by apply bool_decide_eq_false. Qed.

Lemma bulk_step_view wanted s e tid :
  tid ∈ wanted → bulk_ok s → bulk_ok (bulk_step wanted s e) ∧
  view_of (bulk_step wanted s e) tid = view_step tid (view_of s tid) e.
Proof.
  intros Hw Hok. unfold bulk_step. destruct (e_ticket e) as [t|] eqn:Et.
  2: { split; [done|]. unfold view_step, counts, _closes_the_cycle. rewrite about_other by congruence. simpl.
       by destruct (view_of s tid). }
  assert (about t e = true) as Hat by (by apply about_true).
  assert (∀ p, bulk_ok (Bulk (bk_verdicts s) (bk_boundary_seen s) p)) as Hok1 by done.
  assert (∀ v p, bulk_ok (Bulk (<[t := v]> (bk_verdicts s)) ({[t]} ∪ bk_boundary_seen s) p)) as Hok2.
  { intros v p t'. simpl. destruct (decide (t' = t)) as [->|Hne].
    - rewrite lookup_insert_eq. set_solver.
    - rewrite lookup_insert_ne by done. rewrite <-(Hok t'). set_solver. }
  destruct (decide (t = tid)) as [->|Hne].
  - unfold view_step, counts. rewrite Hat. rewrite (bool_decide_eq_true_2 _ Hw). cbn [andb orb negb].
    unfold view_of. destruct (bk_verdicts s !! tid) as [v|] eqn:Ev.
    { rewrite (bool_decide_eq_false_2 (Some v = None)) by done. simpl.
      destruct (negb (is_run e)); (split; [done|]); by rewrite Ev. }
    rewrite (bool_decide_eq_true_2 (None = None)) by done.
    assert (tid ∉ bk_boundary_seen s) as Hns by (rewrite (Hok tid); intros [? ?]; congruence).
    rewrite (bool_decide_eq_true_2 _ Hns), (bool_decide_eq_false_2 (tid ∈ bk_boundary_seen s)) by done. cbn [andb orb negb].
    destruct (_closes_the_cycle e tid); [split; [apply Hok1|]; simpl; by rewrite Ev, lookup_delete_eq|].
    destruct (is_run e); simpl; [|split; [done|by rewrite Ev]]. destruct (_hand_authored e); simpl; [split; [done|by rewrite Ev]|].
    destruct (_is_regression_evidence _); simpl; [split; [done|by rewrite Ev]|].
    unfold keep. destruct (_is_verify_boundary e); simpl; (split; [auto|]).
    + rewrite lookup_insert_eq. destruct (bk_pending s !! tid) eqn:Ep, (decisive (e_text e)) eqn:Ed;
        rewrite ?lookup_insert_eq, ?Ep; done.
    + rewrite Ev. destruct (bk_pending s !! tid) eqn:Ep, (decisive (e_text e)) eqn:Ed;
        rewrite ?lookup_insert_eq, ?Ep; done.
  - assert (view_step tid (view_of s tid) e = view_of s tid) as ->.
    { unfold view_step, counts, _closes_the_cycle. rewrite about_other by congruence. by destruct (view_of s tid). }
    unfold view_of. repeat case_match; simpl in *; (split; [auto|]);
      rewrite ?lookup_insert_ne, ?lookup_delete_ne in * by done; congruence.
Qed.

(** ** The two classifiers agree *)

(** The verdict of the newest deciding event, if one decides. *)
Fixpoint scan_opt (tid : pystr) (l : list event) : option (bool * pystr) :=
  match l with
  | [] => None
  | e :: l' => if counts tid e then
                 match decisive (e_text e) with Some b => Some (b, e_text e) | None => scan_opt tid l' end
               else scan_opt tid l'
  end.

Lemma scan_back_opt tid l : scan_back tid l = default (false, UNPROVEN) (scan_opt tid l).
Proof. induction l as [|e l IH]; simpl; [done|]. destruct (counts tid e); [|done]. by destruct (decisive _). Qed.

Lemma scan_opt_snoc tid l e :
  scan_opt tid (l ++ [e]) = if counts tid e then keep (scan_opt tid l) e else scan_opt tid l.
Proof.
  unfold keep. induction l as [|x l IH]; simpl; [by destruct (counts tid e), (decisive (e_text e))|].
  rewrite IH. destruct (counts tid x); [|done]. destruct (decisive (e_text x)); [|done]. by destruct (counts tid e).
Qed.

Lemma last_index_Some {A} (P : A → bool) l i :
  last_index P l = Some i → ∃ l1 x l2, l = l1 ++ x :: l2 ∧ length l1 = i ∧ P x = true ∧ Forall (λ y, P y = false) l2.
Proof.
  revert i. induction l as [|x l IH]; intros i; simpl; [done|]. destruct (last_index P l) as [j|] eqn:Ej.
  - intros [= <-]. destruct (IH j eq_refl) as (l1 & y & l2 & -> & <- & ? & ?). by exists (x :: l1), y, l2.
  - destruct (P x) eqn:Ex; [|done]. intros [= <-]. exists [], x, l. split_and!; [done..|].
    clear -Ej. induction l as [|y l IH]; [done|]. simpl in Ej. destruct (last_index P l); [done|].
    destruct (P y) eqn:Ey; [done|]. constructor; auto.
Qed.

Lemma last_index_None {A} (P : A → bool) l : last_index P l = None → Forall (λ y, P y = false) l.
Proof.
  induction l as [|x l IH]; simpl; [done|]. destruct (last_index P l); [done|].
  destruct (P x) eqn:Ex; [done|]. intros _. constructor; auto.
Qed.

(** A boundary is never regression evidence. *)
Lemma boundary_not_evidence text : boundary_text text = true → _is_regression_evidence text = false.
Proof.
  intros H. unfold _is_regression_evidence. apply bool_decide_eq_false.
  assert (∃ s, text = 116%N :: s) as [s ->].
  { unfold boundary_text in H. apply orb_true_iff in H as [->%eqs_true|[s' ->]%startswith_spec]; by eexists. }
  unfold parse_evidence, strip, lstrip. cbn [drop_while]. change (is_space 116) with false. cbv iota.
  pose proof (rstrip_head 116 s eq_refl) as Hh. destruct (rstrip (116%N :: s)) as [|c t]; [done|]. injection Hh as ->.
  unfold re_match, match_at, _EVIDENCE_RE. cbn [seqs]. rewrite outcomes_lit_miss by done. intros [? [=]].
Qed.

Lemma opens_facts tid e :
  opens_the_cycle tid e = true →
  counts tid e = true ∧ _is_verify_boundary e = true ∧ _closes_the_cycle e tid = false.
Proof.
  unfold opens_the_cycle, counts, _closes_the_cycle. intros H. bool_tac. rewrite H, H2, H1, H0.
  rewrite (boundary_not_evidence _ H0). split_and!; [done..|].
  unfold is_run in H2. apply eqs_true in H2 as ->. by rewrite andb_false_r.
Qed.

Lemma not_opens_not_boundary tid e :
  opens_the_cycle tid e = false → counts tid e = true → _is_verify_boundary e = false.
Proof. unfold opens_the_cycle, counts. intros H Hc. bool_tac. rewrite H0, H3, H2 in H. by simpl in H. Qed.

Lemma closes_not_counts tid e : _closes_the_cycle e tid = true → counts tid e = false.
Proof.
  unfold _closes_the_cycle, counts, is_run. intros H. bool_tac.
  match goal with H : (_ =s py "DEC") = true |- _ => apply eqs_true in H as -> end. by rewrite andb_false_r.
Qed.

Lemma view_closed tid v l : foldl (view_step tid) (Closed v) l = Closed v.
Proof. by induction l. Qed.

Definition cycle_end (tid : pystr) (l : list event) : nat :=
  match first_index (λ e, _closes_the_cycle e tid) l with Some i => S i | None => length l end.

(** Before the boundary is met the view holds what the scan of the events between
    the boundary and the finish would find. *)
Lemma view_before_boundary tid post :
  Forall (λ e, opens_the_cycle tid e = false) post →
  foldl (view_step tid) (Open None) (reverse post) = Open (scan_opt tid (reverse (take (cycle_end tid post) post))).
Proof.
  induction 1 as [|e post He Hpost IH]; [done|].
  rewrite reverse_cons, foldl_app, IH. cbn [foldl view_step]. unfold cycle_end. cbn [first_index].
  destruct (_closes_the_cycle e tid) eqn:Ec.
  - simpl. rewrite ?take_0. simpl. by rewrite closes_not_counts.
  - assert (take (match S <$> first_index (λ e, _closes_the_cycle e tid) post with
                  | Some i => S i | None => length (e :: post) end) (e :: post)
            = e :: take (cycle_end tid post) post) as ->.
    { unfold cycle_end. by destruct (first_index _ post). }
    rewrite reverse_cons, scan_opt_snoc. destruct (counts tid e) eqn:Ect; [|done].
    by rewrite (not_opens_not_boundary _ _ He Ect).
Qed.

Lemma view_of_events tid events :
  nonempty tid = true →
  match foldl (view_step tid) (Open None) (reverse events) with
  | Closed v => v
  | Open _ => (false, NO_VERIFY_BOUNDARY)
  end = verification_evidence tid events.
Proof.
  intros Ht. unfold verification_evidence. rewrite Ht. simpl.
  destruct (last_index (opens_the_cycle tid) events) as [i|] eqn:Ei.
  - apply last_index_Some in Ei as (pre & b & post & -> & <- & Hb & Hpost). apply opens_facts in Hb as (Hc & Hv & Hcl).
    rewrite drop_app_length. rewrite reverse_app, reverse_cons, <-(assoc_L (++)), foldl_app, view_before_boundary by done.
    cbn [app foldl view_step]. rewrite Hcl, Hc, Hv, view_closed. cbn [first_index]. rewrite Hcl.
    assert (take (match S <$> first_index (λ e, _closes_the_cycle e tid) post with
                  | Some i => S i | None => length (b :: post) end) (b :: post)
            = b :: take (cycle_end tid post) post) as ->.
    { unfold cycle_end. by destruct (first_index _ post). }
    by rewrite reverse_cons, scan_back_opt, scan_opt_snoc, Hc.
  - apply last_index_None in Ei. by rewrite view_before_boundary.
Qed.

Lemma bulk_views (wanted : gset pystr) (tid : pystr) (events : list event) :
  tid ∈ wanted →
  let s := foldl (bulk_step wanted) (Bulk ∅ ∅ ∅) events in
  bulk_ok s ∧ view_of s tid = foldl (view_step tid) (Open None) events.
Proof.
  intros Hw. induction events as [|e events IH] using rev_ind.
  - simpl. split; [|done]. intros t. simpl. rewrite lookup_empty. split; [set_solver|by intros [? ?]].
  - rewrite !foldl_app. destruct IH as [Hok Hv]. simpl. rewrite <-Hv. by apply bulk_step_view.
Qed.

(** The single pass gives every requested ticket, whatever else is requested, the
    verdict and the reason of that ticket's own scan. *)
Theorem bulk_agrees (events : list event) (wanted : gset pystr) (tid : pystr) :
  tid ∈ wanted → tid ≠ [] →
  bulk_verification_evidence events wanted !! tid = Some (verification_evidence tid events).
Proof.
  intros Hw Hne. destruct (bulk_views wanted tid (reverse events) Hw) as [Hok Hv].
  rewrite <-view_of_events, <-Hv by (by apply nonempty_true).
  unfold bulk_verification_evidence. set (s := foldl _ _ _) in *. clearbody s.
  set (f := λ (tid : pystr) (m : gmap pystr (bool * pystr)), _).
  set (P := λ (m : gmap pystr (bool * pystr)) (X : gset pystr), m !! tid =
    if bool_decide (tid ∈ X) then Some (match view_of s tid with Closed v => v | Open _ => (false, NO_VERIFY_BOUNDARY) end)
    else bk_verdicts s !! tid).
  enough (P (set_fold f (bk_verdicts s) wanted) wanted) as H by (by rewrite H, bool_decide_eq_true_2).
  apply (set_fold_ind_L P); unfold P.
  - rewrite bool_decide_eq_false_2; [done|set_solver].
  - intros t Y m Ht IH. unfold f. destruct (decide (t = tid)) as [->|Hn].
    + rewrite (bool_decide_eq_false_2 (tid ∈ Y)) in IH by done. rewrite (bool_decide_eq_true_2 (tid ∈ {[tid]} ∪ Y)) by set_solver.
      rewrite IH. unfold view_of. specialize (Hok tid). destruct (bk_verdicts s !! tid) as [v|] eqn:Ev; [done|].
      rewrite lookup_insert_eq, bool_decide_eq_false_2; [done|]. rewrite Hok. by intros [? ?].
    + rewrite (bool_decide_ext (tid ∈ {[t]} ∪ Y) (tid ∈ Y)) by set_solver.
      destruct (m !! t); [done|]. by rewrite lookup_insert_ne.
Qed.

(** A ticket is proven only by an event of its current cycle: after the newest
    machine-owned boundary and not after the finish, not hand authored, whose text
    passes; and no event of the cycle newer than it decides otherwise. *)
Theorem proven_by_the_cycle tid events reason :
  verification_evidence tid events = (true, reason) →
  ∃ pre b post, events = pre ++ b :: post ∧ opens_the_cycle tid b = true ∧
    Forall (λ e, opens_the_cycle tid e = false) post ∧
    ∃ older e newer, b :: take (cycle_end tid post) post = older ++ e :: newer ∧
      counts tid e = true ∧ decisive (e_text e) = Some true ∧ reason = e_text e ∧
      Forall (λ x, counts tid x = true → decisive (e_text x) = None) newer.
Proof.
  unfold verification_evidence. destruct (nonempty tid); [|done]. simpl.
  destruct (last_index _ _) as [i|] eqn:Ei; [|done].
  apply last_index_Some in Ei as (pre & b & post & -> & <- & Hb & Hpost).
  rewrite drop_app_length. cbn [first_index]. pose proof (opens_facts _ _ Hb) as (_ & _ & ->).
  assert (take (match S <$> first_index (λ e, _closes_the_cycle e tid) post with
                | Some i => S i | None => length (b :: post) end) (b :: post)
          = b :: take (cycle_end tid post) post) as ->.
  { unfold cycle_end. by destruct (first_index _ post). }
  intros Hs. exists pre, b, post. split_and!; [done..|]. revert Hs.
  generalize (b :: take (cycle_end tid post) post). intros l.
  induction l as [|x l IH] using rev_ind; [done|]. rewrite reverse_snoc. simpl.
  assert (∀ (Hx : counts tid x = true → decisive (e_text x) = None),
    (∃ older e newer, l = older ++ e :: newer ∧ counts tid e = true ∧ decisive (e_text e) = Some true ∧
      reason = e_text e ∧ Forall (λ x, counts tid x = true → decisive (e_text x) = None) newer) →
    ∃ older e newer, l ++ [x] = older ++ e :: newer ∧ counts tid e = true ∧ decisive (e_text e) = Some true ∧
      reason = e_text e ∧ Forall (λ x, counts tid x = true → decisive (e_text x) = None) newer) as Hskip.
  { intros Hx (older & e & newer & -> & ? & ? & ? & ?). exists older, e, (newer ++ [x]).
    split_and!; [by rewrite <-(assoc_L (++))|done..|]. apply Forall_app. split; [done|by constructor]. }
  destruct (counts tid x) eqn:Ec; [|intros; by apply Hskip, IH].
  destruct (decisive (e_text x)) as [v|] eqn:Ed; [|intros; by apply Hskip, IH].
  intros [= -> <-]. exists l, x, []. done.
Qed.

(** ** Witnesses *)

Definition sample_event (id : N) (ticket taxonomy text : pystr) (op : option pystr) : event :=
  Event None id None (Some ticket) None op taxonomy text.

(** A cycle that fails, passes, and is finished before a late failure is noted. *)
Definition sample_cycle : list event :=
  [sample_event 1 "T-1" "RUN" "PASS conf: high" None;
   sample_event 2 "T-1" "RUN" "transition to VERIFY" None;
   sample_event 3 "T-1" "RUN" "suite: 3 failed" None;
   sample_event 4 "T-2" "RUN" "NOT PASS" None;
   sample_event 5 "T-1" "RUN" "PASS -- 12 tests green -- conf: high" None;
   sample_event 6 "T-1" "DEC" "ticket finished via SAIOPS" (Some (py "finish-0123abcd"));
   sample_event 7 "T-1" "RUN" "2 FAIL elsewhere" None].
Definition green_text : pystr := "PASS -- 12 tests green -- conf: high".

Lemma bulk_agrees_witness :
  bulk_verification_evidence sample_cycle {[py "T-1"; py "T-2"]} !! py "T-1" = Some (true, green_text).
Proof.
  rewrite (bulk_agrees sample_cycle {[py "T-1"; py "T-2"]} "T-1"); [vm_compute; reflexivity|set_solver|done].
Defined.

Lemma proven_by_the_cycle_witness :
  ∃ pre b post, sample_cycle = pre ++ b :: post ∧ opens_the_cycle "T-1" b = true.
Proof.
  destruct (proven_by_the_cycle "T-1" sample_cycle green_text) as (pre & b & post & E & Hb & _);
    [vm_compute; reflexivity|by exists pre, b, post].
Defined.

(** ** Markers and the legacy generation *)

Definition structural_marker_events (events : list event) (marker : pystr) (taxonomies : list pystr)
    (after_event : N) : list N :=
  if negb (nonempty marker) then []
  else omap (λ e, if mem (e_taxonomy e) taxonomies && (after_event <=? e_event e)%N && startswith marker (e_text e)
                  then Some (e_event e) else None) events.

Definition LEGACY_DONE_ATTESTATION : pystr := "legacy completion attested".
Definition NO_LEGACY_EVIDENCE : pystr := "no historical execution evidence in the complete history".
Definition _LEGACY_EXECUTION_RE : re :=
  seqs [Wordb; Grp 1 (alts (strs ["BUILD"; "SHIP"; "VERIFY"; "PASS"])); Wordb].

(** A run of a ticket allocated above the end of the legacy generation; its number
    is written in decimal digits. *)
Definition newer_run (generation_end : N) (e : event) : bool :=
  let tid := default [] (e_ticket e) in
  let num := drop 2 tid in
  is_run e && startswith "T-" tid && nonempty num && forallb is_digit num && (generation_end <? int_of num)%N.

Definition legacy_cutoff (generation_end : option N) (events : list event) : nat :=
  match generation_end with
  | None => length events
  | Some g => default (length events) (first_index (newer_run g) events)
  end.

(** What one event decides of its ticket, at its position. *)
Definition legacy_decides (cutoff pos : nat) (e : event) : option bool :=
  if contains LEGACY_DONE_ATTESTATION (e_text e) then Some true
  else if (cutoff <=? pos)%nat || negb (is_run e) || _is_regression_evidence (e_text e) then None
  else if _claims_failure (e_text e) then Some false
  else if is_found _LEGACY_EXECUTION_RE (e_text e) then Some true
  else None.

Definition legacy_step (wanted : gset pystr) (cutoff : nat) (m : gmap pystr (bool * pystr)) (x : nat * event)
    : gmap pystr (bool * pystr) :=
  match e_ticket x.2 with
  | None => m
  | Some tid =>
      if negb (bool_decide (tid ∈ wanted)) || bool_decide (is_Some (m !! tid)) then m
      else match legacy_decides cutoff x.1 x.2 with
           | Some b => <[tid := (b, e_text x.2)]> m
           | None => m
           end
  end.

Definition bulk_legacy_completion_evidence (events : list event) (wanted : gset pystr) (generation_end : option N)
    : gmap pystr (bool * pystr) :=
  let found := foldl (legacy_step wanted (legacy_cutoff generation_end events)) ∅ (reverse (imap pair events)) in
  found ∪ set_to_map (λ tid, (tid, (false, NO_LEGACY_EVIDENCE))) wanted.

(** The newest event of the ticket that decides. *)
Fixpoint legacy_newest (cutoff : nat) (tid : pystr) (l : list (nat * event)) : option (bool * pystr) :=
  match l with
  | [] => None
  | x :: l' =>
      match (if about tid x.2 then legacy_decides cutoff x.1 x.2 else None) with
      | Some b => Some (b, e_text x.2)
      | None => legacy_newest cutoff tid l'
      end
  end.

Lemma legacy_fold (wanted : gset pystr) (cutoff : nat) (tid : pystr) (m : gmap pystr (bool * pystr)) l :
  tid ∈ wanted →
  foldl (legacy_step wanted cutoff) m l !! tid =
  match m !! tid with Some v => Some v | None => legacy_newest cutoff tid l end.
Proof.
  intros Hw. revert m. induction l as [|[pos e] l IH]; intros m; [simpl; by destruct (m !! tid)|].
  cbn [foldl]. rewrite IH. unfold legacy_step. cbn [fst snd legacy_newest].
  destruct (e_ticket e) as [t|] eqn:Et; [|rewrite about_other by congruence; done].
  destruct (decide (t = tid)) as [->|Hne].
  - rewrite (proj2 (about_true tid e) Et), (bool_decide_eq_true_2 _ Hw). simpl.
    case_bool_decide as Hs; [destruct Hs as [v ->]; done|].
    apply eq_None_not_Some in Hs. rewrite Hs. destruct (legacy_decides cutoff pos e); [by rewrite lookup_insert_eq|by rewrite Hs].
  - rewrite about_other by congruence. destruct (negb _ || _); [done|].
    destruct (legacy_decides cutoff pos e); [|done]. by rewrite lookup_insert_ne.
Qed.

(** A record of the legacy generation is judged by the newest of its own events
    that decides: an attestation at any position, a run only before the newer
    generation starts to run. *)
Theorem legacy_verdict_exact (events : list event) (wanted : gset pystr) generation_end (tid : pystr) :
  tid ∈ wanted →
  bulk_legacy_completion_evidence events wanted generation_end !! tid =
  Some (default (false, NO_LEGACY_EVIDENCE)
          (legacy_newest (legacy_cutoff generation_end events) tid (reverse (imap pair events)))).
Proof.
  intros Hw. unfold bulk_legacy_completion_evidence. rewrite lookup_union, legacy_fold by done. rewrite lookup_empty.
  assert ((set_to_map (λ tid, (tid, (false, NO_LEGACY_EVIDENCE))) wanted : gmap pystr (bool * pystr)) !! tid
    = Some (false, NO_LEGACY_EVIDENCE)) as ->.
  { apply lookup_set_to_map; [done|]. exists tid. done. }
  by destruct (legacy_newest _ _ _).
Qed.

Lemma legacy_verdict_exact_witness :
  bulk_legacy_completion_evidence sample_cycle {[py "T-2"]} None !! py "T-2" = Some (false, py "NOT PASS").
Proof. rewrite (legacy_verdict_exact sample_cycle {[py "T-2"]} None "T-2"); [vm_compute; reflexivity|set_solver]. Defined.
