(* ===== verification/LogLedger.v ===== *)
(** * The ledger read from the history

    One pass over the segments gives the snapshot ([read_history_snapshot]) or its
    bounded summary ([read_history_routing_summary]) of
    [tools/saipen_engine/log.py]; the contract of the ledger is judged from the
    snapshot ([snapshot_contract_errors]), and a foreign tail is cut from it
    ([foreign_tail_cut]). *)

From stdpp Require Import sorting.
From S2P Require Import Prelude PyStr PyStrFacts PyRegex PyDict Sha256 JournalFs JournalRecord Codec LogLine LogHistory.

(** ** Lines *)

(** [f"{p.name}:{idx + 1}: not a legal LOG event: {stripped[:80]!r}"] *)
Record illegal_line : Type := IllegalLine { il_file : pystr; il_line : nat; il_excerpt : pystr }.
Global Instance illegal_line_eq_dec : EqDecision illegal_line.
Proof. solve_decision. Defined.

(** The only id in the diagnostic is the one the excerpt holds. *)
Definition claimed_id (x : illegal_line) : option N := declared_event_id (il_excerpt x).

(** What one line of a segment is: an event with where it stands and its
    rendering, a line that is refused, or a blank or a heading. *)
Inductive item : Type :=
  | IEvent (e : hevent) (file : pystr) (line_no : nat) (line : pystr)
  | IIllegal (x : illegal_line)
  | IQuiet.

Definition quiet (line : pystr) : bool := negb (nonempty (strip line)) || startswith "#" (strip line).

Definition event_of (i : item) : option hevent := match i with IEvent e _ _ _ => Some e | _ => None end.
Definition raw_line_of (i : item) : option pystr := match i with IEvent _ _ _ l => Some l | _ => None end.
Definition illegal_of (i : item) : option illegal_line := match i with IIllegal x => Some x | _ => None end.

Definition id_of (e : hevent) : N := e_event (h_event e).
Definition parent_of (e : hevent) : option N := e_parent (h_event e).

(** [re.match(r"T-(\d+)$", t)] *)
Definition TICKET_REF_RE : re := seqs [lit "T-"; Grp 1 (plus is_digit); Eol].
Definition ticket_number (e : hevent) : N :=
  match e_ticket (h_event e) with
  | Some t => match re_match TICKET_REF_RE t with
              | Some m => int_of (default [] (group 1 m))
              | None => 0
              end
  | None => 0
  end.

(** ** The snapshot *)

Record snapshot : Type := Snapshot {
  s_hash : pystr;
  s_text : pystr;
  s_tail : option N;
  s_events : list hevent;
  s_illegal : list illegal_line;
  s_event_lines : list pystr;
  s_max_ticket : N;
}.

(** Each node enters the digest as its relative path, its length and its bytes. *)
Definition history_frame (node : path * list N) : list N :=
  utf8 (as_posix node.1) ++ utf8 (str_of (N.of_nat (length node.2))) ++ node.2.
Definition history_digest (nodes : list (path * list N)) : pystr := hash_bytes (nodes ≫= history_frame).

Definition raise_tail (tail : option N) (n : N) : option N :=
  match tail with
  | None => Some n
  | Some t => if (t <? n)%N then Some n else Some t
  end.

(** The tail: the highest event, or the highest id a damaged line claims. *)
Definition tail_of (ids : list N) (illegal : list illegal_line) : option N :=
  foldl raise_tail (foldl raise_tail None ids) (omap claimed_id illegal).

Definition max_of (l : list N) : N := foldl (λ m n, if (m <? n)%N then n else m) 0%N l.

(** [re.findall(r"\[T-(\d+)\]", line)] *)
Definition mentioned_tickets (line : pystr) : list N :=
  (λ m, int_of (default [] (group 1 m.2))) <$>
  re_finditer (seqs [lit "[T-"; Grp 1 (plus is_digit); lit "]"]) line.

(** ** The routing summary *)

Definition ROUTING_TAIL_EVENTS : nat := 16.
Definition ROUTING_DIAGNOSTIC_CAP : nat := 32.

(** [f"{p.name}:{idx + 1}: E-{number} declares parent E-{parent}, ..."] *)
Record bad_parent : Type := BadParent { bp_file : pystr; bp_line : nat; bp_event : N; bp_parent : N }.

(** The variables of the pass. *)
Record routing_pass : Type := RoutingPass {
  rp_illegal : list illegal_line;
  rp_routing : list hevent;
  rp_duplicates : list N;
  rp_ordering : list bad_parent;
  rp_max_ticket : N;
  rp_count : nat;
  rp_highest : N;
  rp_seen : gset N;
}.
Definition routing_start : routing_pass := RoutingPass [] [] [] [] 0 0 0 ∅.

(** [deque(maxlen=k).append(x)] *)
Definition deque_append {A} (k : nat) (x : A) (l : list A) : list A :=
  drop (length (l ++ [x]) - k) (l ++ [x]).
(** [if len(l) < k: l.append(x)] *)
Definition append_capped {A} (k : nat) (x : A) (l : list A) : list A :=
  if (length l <? k)%nat then l ++ [x] else l.

Definition routing_step (r : routing_pass) (i : item) : routing_pass :=
  match i with
  | IEvent e file n _ =>
      let number := id_of e in
      RoutingPass (rp_illegal r)
        (deque_append ROUTING_TAIL_EVENTS e (rp_routing r))
        (if bool_decide (number ∈ rp_seen r)
         then append_capped ROUTING_DIAGNOSTIC_CAP number (rp_duplicates r) else rp_duplicates r)
        (match parent_of e with
         | Some parent =>
             if (number <=? parent)%N
             then append_capped ROUTING_DIAGNOSTIC_CAP (BadParent file n number parent) (rp_ordering r)
             else rp_ordering r
         | None => rp_ordering r
         end)
        (if (rp_max_ticket r <? ticket_number e)%N then ticket_number e else rp_max_ticket r)
        (S (rp_count r))
        (if (rp_highest r <? number)%N then number else rp_highest r)
        ({[ number ]} ∪ rp_seen r)
  | IIllegal x =>
      RoutingPass (rp_illegal r ++ [x]) (rp_routing r) (rp_duplicates r) (rp_ordering r)
        (rp_max_ticket r) (rp_count r) (rp_highest r) (rp_seen r)
  | IQuiet => r
  end.

Record routing_summary : Type := RoutingSummary {
  rs_hash : pystr;
  rs_tail : option N;
  rs_illegal : list illegal_line;
  rs_max_ticket : N;
  rs_event_count : nat;
  rs_duplicates : list N;
  rs_ordering : list bad_parent;
  rs_routing : list hevent;
}.

(** [tuple(sorted(set(l)))] *)
Definition sorted_set (l : list N) : list N := merge_sort N.le (remove_dups l).

Definition summary_of (digest : pystr) (r : routing_pass) : routing_summary :=
  RoutingSummary digest
    (foldl raise_tail (if (rp_highest r =? 0)%N then None else Some (rp_highest r))
       (omap claimed_id (rp_illegal r)))
    (rp_illegal r) (rp_max_ticket r) (rp_count r) (sorted_set (rp_duplicates r)) (rp_ordering r) (rp_routing r).

(** ** The contract of the ledger *)

Inductive ledger_error : Type :=
  | IllegalSyntax (x : illegal_line)
  | DuplicateIds (ids : list N)
  | ParentMissing (event parent : N)
  | ParentNotOlder (event parent : N)
  | OutOfOrder (event previous : N).

(** The ids that are counted more than once, sorted. *)
Definition duplicated (ids : list N) : list N :=
  sorted_set (base.filter (λ n, 1 < length (base.filter (λ m, m = n) ids)) ids).

(** The errors of each event after the previous one. *)
Fixpoint event_errors (seen claimed : list N) (prev : option N) (evs : list hevent) : list ledger_error :=
  match evs with
  | [] => []
  | e :: evs' =>
      let eid := id_of e in
      match parent_of e with
      | Some parent =>
          if negb (bool_decide (parent ∈ seen)) && negb (bool_decide (parent ∈ claimed))
          then [ParentMissing eid parent]
          else if (eid <=? parent)%N then [ParentNotOlder eid parent] else []
      | None => []
      end
      ++ match prev with
         | Some p => if (eid <=? p)%N then [OutOfOrder eid p] else []
         | None => []
         end
      ++ event_errors seen claimed (Some eid) evs'
  end.

Definition snapshot_contract_errors (s : snapshot) : list ledger_error :=
  let seen := id_of <$> s_events s in
  (IllegalSyntax <$> take 4 (s_illegal s))
  ++ match duplicated seen with [] => [] | d => [DuplicateIds (take 10 d)] end
  ++ event_errors seen (omap claimed_id (s_illegal s)) None (s_events s).

(** [log_tail_event] *)
Definition log_tail_event (text : pystr) : option N :=
  foldl raise_tail None (e_event <$> omap parse_log_line (splitlines text)).

(** ** The cut of a foreign tail *)

Record foreign_tail : Type := ForeignTail {
  ft_anchor_line : nat;
  ft_kept_text : pystr;
  ft_suffix : list pystr;
  ft_claimed : list N;
  ft_non_event_lines : nat;
  ft_snapshot : snapshot;
  ft_journal_floor : option N;
}.

Inductive cut_refusal : Type :=
  | NoBoundary
  | AnchorMissing (last_event : N)
  | NothingForeign (last_event : N)
  | ClaimsAbove (line : nat) (declared last_event : N)
  | NotTheEnd
  | TextNotTheEnd
  | StillDamaged (errors : list ledger_error).

(** [next((index for index, line in enumerate(lines) if ...), None)] *)
Fixpoint anchor_at (last_event : N) (lines : list pystr) : option nat :=
  match lines with
  | [] => None
  | line :: lines' =>
      if bool_decide (e_event <$> parse_log_line line = Some last_event) then Some 0
      else S <$> anchor_at last_event lines'
  end.

(** The loop over the suffix: the ids it claims and the number of its events. *)
Fixpoint scan_suffix (journal : bool) (last_event : N) (offset : nat) (suffix : list pystr)
    : res cut_refusal (list N * nat) :=
  match suffix with
  | [] => Ok ([], 0)
  | line :: suffix' =>
      if quiet line then scan_suffix journal last_event (S offset) suffix'
      else match declared_event_id line with
           | None => scan_suffix journal last_event (S offset) suffix'
           | Some declared =>
               if (last_event <? declared)%N && negb journal then Err (ClaimsAbove offset declared last_event)
               else
                 rest ← scan_suffix journal last_event (S offset) suffix';
                 Ok (declared :: rest.1,
                     match parse_log_line line with Some _ => S rest.2 | None => rest.2 end)
           end
  end.

Definition last_n {A} (n : nat) (l : list A) : list A := drop (length l - n) l.
Definition but_last_n {A} (n : nat) (l : list A) : list A := take (length l - n) l.
Definition endswith (suffix s : pystr) : bool := startswith (reverse suffix) (reverse s).

(** [re.findall(r"T-(\d+)", f"[{ticket or ''}] {text}")] *)
Definition event_tickets (e : hevent) : list N :=
  (λ m, int_of (default [] (group 1 m.2))) <$>
  re_finditer (Seq (lit "T-") (Grp 1 (plus is_digit)))
    ("[" +s default [] (truthy (e_ticket (h_event e))) +s "] " +s e_text (h_event e)).

(** [_ACTIVE_ILLEGAL_RE]: the names of segments hold no colon. *)
Definition beyond_anchor (anchor : nat) (x : illegal_line) : bool :=
  (il_file x =s py "LOG.md") && (S anchor <? il_line x)%nat.

Definition cut_snapshot (s : snapshot) (anchor n : nat) (text : pystr) : snapshot :=
  let events := but_last_n n (s_events s) in
  let illegal := base.filter (λ x, beyond_anchor anchor x = false) (s_illegal s) in
  Snapshot (s_hash s) text (tail_of (id_of <$> events) illegal) events illegal
    (but_last_n n (s_event_lines s))
    (if (n =? 0)%nat then s_max_ticket s else max_of (events ≫= event_tickets)).

Definition foreign_tail_cut (s : snapshot) (active_text : pystr) (last_event journal_floor : option N)
    : res cut_refusal foreign_tail :=
  let journal := match journal_floor, last_event with
                 | Some _, None => true
                 | Some fl, Some l => (fl <? l)%N
                 | None, _ => false
                 end in
  match (if journal then journal_floor else last_event) with
  | None => Err NoBoundary
  | Some last_event =>
      let lines := splitlines active_text in
      match anchor_at last_event lines with
      | None => Err (AnchorMissing last_event)
      | Some anchor =>
          let suffix := drop (S anchor) lines in
          let foreign := base.filter (λ l, quiet l = false) suffix in
          if bool_decide (foreign = []) then Err (NothingForeign last_event) else
          scanned ← scan_suffix journal last_event (anchor + 2) suffix;
          let '(claimed, n) := scanned in
          if negb (n =? 0)%nat && negb (bool_decide
               ((id_of <$> last_n n (s_events s)) = (e_event <$> omap parse_log_line suffix)))
          then Err NotTheEnd
          else
            let kept_text := join [10%N] (take (S anchor) lines) +s [10%N] in
            text ← (if nonempty (s_text s) then
                      if endswith active_text (s_text s)
                      then Ok (take (length (s_text s) - length active_text) (s_text s) ++ kept_text)
                      else Err TextNotTheEnd
                    else Ok (s_text s));
            let clean := cut_snapshot s anchor n text in
            match snapshot_contract_errors clean with
            | [] => Ok (ForeignTail (S anchor) kept_text suffix claimed
                          (length foreign - length claimed) clean
                          (if journal then journal_floor else None))
            | errors => Err (StillDamaged errors)
            end
      end
  end.

Section snapshot.
(** The parameters of the readers of detail files. *)
Context (decode : list N → pystr) (json_loads : pystr → option json).
Context (lineage : option pystr) (identity : pystr).

Definition scan_line (f : fs) (file : pystr) (line_no : nat) (line : pystr) : item :=
  match parse_log_line line with
  | Some parsed => IEvent (restore decode json_loads lineage identity f parsed) file line_no line
  | None => if quiet line then IQuiet else IIllegal (IllegalLine file line_no (take 80 (strip line)))
  end.

Definition scan_text (f : fs) (file : pystr) (text : pystr) : list item :=
  imap (λ idx line, scan_line f file (S idx) line) (splitlines text).

Definition scan_nodes (f : fs) (nodes : list (path * list N)) : list item :=
  nodes ≫= λ node, scan_text f (path_name node.1) (_normalised_doc_text decode node.2).

(** The loop of the snapshot, with the ids of tickets a reader takes from an event. *)
Definition snapshot_of (f : fs) (lean : bool) (nodes : list (path * list N)) (tickets : item → N) : snapshot :=
  let items := scan_nodes f nodes in
  let events := omap event_of items in
  let illegal := omap illegal_of items in
  Snapshot (history_digest nodes)
    (if lean then [] else join [10%N] ((λ node, _normalised_doc_text decode node.2) <$> nodes))
    (tail_of (id_of <$> events) illegal) events illegal
    (if lean then [] else omap raw_line_of items)
    (max_of (tickets <$> items)).

Definition own_ticket (i : item) : N := match i with IEvent e _ _ _ => ticket_number e | _ => 0 end.
Definition mentioned_ticket (i : item) : N :=
  match i with IEvent _ _ _ line => max_of (mentioned_tickets line) | _ => 0 end.

Definition read_history_snapshot (f : fs) (lean : bool) : res history_error snapshot :=
  nodes ← history_nodes f; Ok (snapshot_of f lean nodes own_ticket).

(** The pass that also gives the digest of the sealed segments; [retain_text] off
    drops the combined text only. *)
Definition read_history_snapshot_and_logs_digest (f : fs) (retain_text : bool)
    : res history_error (snapshot * pystr) :=
  nodes ← history_nodes f;
  let s := snapshot_of f false nodes mentioned_ticket in
  Ok (Snapshot (s_hash s) (if retain_text then s_text s else []) (s_tail s) (s_events s) (s_illegal s)
        (s_event_lines s) (s_max_ticket s),
      hash_tree_dependency f LOGS_DIR).

Definition read_history_routing_summary (f : fs) : res history_error routing_summary :=
  nodes ← history_nodes f;
  Ok (summary_of (history_digest nodes) (foldl routing_step routing_start (scan_nodes f nodes))).

Definition history_contract_errors (f : fs) : res history_error (list ledger_error) :=
  s ← read_history_snapshot f false; Ok (snapshot_contract_errors s).
End snapshot.
