(* ===== verification/LogLedgerFacts.v ===== *)
(** * Facts about the ledger

    The summary against the snapshot, the contract of the ledger spelled out, the
    event that is appended next, and the cut of a foreign tail. *)

From stdpp Require Import sorting.
From S2P Require Import Prelude PyStr PyStrFacts PyRegex PyDict Sha256 JournalFs JournalRecord Codec LogLine LogHistory LogLedger.

(** ** Tails and maxima *)

Lemma raise_tail_default t n : default 0%N (raise_tail t n) = N.max (default 0%N t) n.
Proof. destruct t as [t|]; simpl; [|lia]. destruct (t <? n)%N eqn:E; simpl; [apply N.ltb_lt in E|apply N.ltb_ge in E]; lia. Qed.

Lemma foldl_raise_default l t :
  default 0%N (foldl raise_tail t l) = foldl N.max (default 0%N t) l.
Proof. revert t. induction l as [|n l IH]; intros t; simpl; [done|]. by rewrite IH, raise_tail_default. Qed.

Lemma max_of_foldl l : max_of l = foldl N.max 0%N l.
Proof.
  unfold max_of. generalize 0%N. induction l as [|n l IH]; intros m; simpl; [done|]. rewrite IH. f_equal.
  destruct (m <? n)%N eqn:E; [apply N.ltb_lt in E|apply N.ltb_ge in E]; lia.
Qed.

Lemma foldl_max_le l m : (m ≤ foldl N.max m l)%N ∧ ∀ n, n ∈ l → (n ≤ foldl N.max m l)%N.
Proof.
  revert m. induction l as [|x l IH]; intros m; simpl; [split; [done|by intros n ?%elem_of_nil]|].
  destruct (IH (N.max m x)) as [H1 H2]. split; [lia|]. intros n [->|H]%elem_of_cons; [lia|auto].
Qed.

Lemma raise_some t l : foldl raise_tail (Some t) l = Some (foldl N.max t l).
Proof.
  revert t. induction l as [|n l IH]; intros t; simpl; [done|].
  destruct (t <? n)%N eqn:E; rewrite IH; do 2 f_equal; [apply N.ltb_lt in E|apply N.ltb_ge in E]; lia.
Qed.

Lemma raise_none l : foldl raise_tail None l = match l with [] => None | _ => Some (foldl N.max 0%N l) end.
Proof. destruct l as [|n l]; simpl; [done|]. by rewrite raise_some, N.max_0_l. Qed.

Lemma max_of_snoc l n : max_of (l ++ [n]) = N.max (max_of l) n.
Proof. rewrite !max_of_foldl, foldl_app. done. Qed.

(** The tail of a list of ids in increasing order is its last id. *)
Lemma tail_increasing ids : Sorted N.lt ids → foldl raise_tail None ids = last ids.
Proof.
  induction ids as [|n ids IH] using rev_ind; intros H; [done|].
  rewrite foldl_app, last_snoc. simpl.
  apply Sorted_StronglySorted, StronglySorted_app in H as (H & Hs & _); [|intros ???; lia].
  rewrite IH by by apply StronglySorted_Sorted.
  destruct (last ids) as [m|] eqn:E; [|done]. simpl.
  assert (m < n)%N by (apply H; [by apply last_Some_elem_of|set_solver]).
  by destruct (N.ltb_spec m n); [|lia].
Qed.

(** ** The last elements of a list *)

Lemma last_n_snoc {A} k (x : A) l : deque_append k x (last_n k l) = last_n k (l ++ [x]).
Proof.
  unfold deque_append, last_n.
  replace (drop (length l - k) l ++ [x]) with (drop (length l - k) (l ++ [x]))
    by (rewrite drop_app_le by lia; done).
  rewrite drop_drop, !length_drop, !length_app. f_equal. simpl. lia.
Qed.

Lemma last_n_app {A} (l k : list A) : last_n (length k) (l ++ k) = k.
Proof. unfold last_n. rewrite length_app. by replace (_ + _ - _) with (length l) by lia; rewrite drop_app_length. Qed.

Lemma but_last_n_app {A} (l k : list A) : but_last_n (length k) (l ++ k) = l.
Proof. unfold but_last_n. rewrite length_app. by replace (_ + _ - _) with (length l) by lia; rewrite take_app_length. Qed.

Lemma append_capped_le {A} k (x : A) l : length l ≤ k → length (append_capped k x l) ≤ k.
Proof. unfold append_capped. case_match; [|done]. rewrite length_app. simpl. intros _. apply Nat.ltb_lt in H. lia. Qed.

Lemma append_capped_nil {A} k (x : A) l : 0 < k → append_capped k x l ≠ [].
Proof.
  unfold append_capped. intros Hk. case_match eqn:E; [by destruct l|].
  apply Nat.ltb_ge in E. destruct l; simpl in *; [lia|done].
Qed.

(** ** The pass of the summary *)

Definition older_parent (e : hevent) : Prop := ∀ p, parent_of e = Some p → (p < id_of e)%N.

Record pass_of (items : list item) (r : routing_pass) : Prop := {
  po_illegal : rp_illegal r = omap illegal_of items;
  po_routing : rp_routing r = last_n ROUTING_TAIL_EVENTS (omap event_of items);
  po_count : rp_count r = length (omap event_of items);
  po_highest : rp_highest r = max_of (id_of <$> omap event_of items);
  po_max : rp_max_ticket r = max_of (own_ticket <$> items);
  po_seen : rp_seen r = list_to_set (id_of <$> omap event_of items);
  po_cap : length (rp_duplicates r) ≤ ROUTING_DIAGNOSTIC_CAP ∧ length (rp_ordering r) ≤ ROUTING_DIAGNOSTIC_CAP;
  po_dup : rp_duplicates r = [] ↔ NoDup (id_of <$> omap event_of items);
  po_dup_in : ∀ n, n ∈ rp_duplicates r → n ∈ id_of <$> omap event_of items;
  po_order : rp_ordering r = [] ↔ Forall older_parent (omap event_of items);
}.

Lemma NoDup_snoc_iff {A} (l : list A) x : NoDup (l ++ [x]) ↔ (x ∉ l) ∧ NoDup l.
Proof. rewrite NoDup_app. split; [|set_solver by auto using NoDup_singleton]. intros (H & Hx & _). set_solver. Qed.

Lemma routing_pass_of items : pass_of items (foldl routing_step routing_start items).
Proof.
  induction items as [|i items IH] using rev_ind; [by split; simpl; split_and?; try (split; constructor); auto with lia; set_solver|].
  rewrite foldl_app. simpl. set (r := foldl _ _ items) in *. destruct IH.
  assert (omap event_of (items ++ [i]) = omap event_of items ++ omap event_of [i]) as E1 by apply omap_app.
  assert (omap illegal_of (items ++ [i]) = omap illegal_of items ++ omap illegal_of [i]) as E2 by apply omap_app.
  destruct i as [e file n line|x|]; simpl in E1, E2; try rewrite app_nil_r in E1; try rewrite app_nil_r in E2;
    (split; rewrite ?E1, ?E2, ?fmap_app; simpl; rewrite ?max_of_snoc; simpl; rewrite ?N.max_0_r; try assumption; try by f_equal).
  - rewrite po_routing0. apply last_n_snoc.
  - rewrite length_app, po_count0. simpl. lia.
  - rewrite <-po_highest0. destruct (N.ltb_spec (rp_highest r) (id_of e)); lia.
  - rewrite <-po_max0. destruct (N.ltb_spec (rp_max_ticket r) (ticket_number e)); lia.
  - rewrite list_to_set_app_L, po_seen0. set_solver.
  - destruct po_cap0. split; repeat case_match; auto using append_capped_le.
  - rewrite NoDup_snoc_iff, po_seen0, <-po_dup0. case_bool_decide as Hin; rewrite elem_of_list_to_set in Hin.
    + split; [intros H; exfalso; revert H; apply append_capped_nil; compute; lia|tauto].
    + tauto.
  - intros m. case_bool_decide as Hin; [|set_solver]. unfold append_capped. case_match; [|set_solver].
    rewrite !elem_of_app, list_elem_of_singleton. intros [?| ->]; [left; by apply po_dup_in0|].
    by right.
  - rewrite Forall_app, Forall_singleton, <-po_order0. unfold older_parent at 1. destruct (parent_of e) as [p|]; [|naive_solver].
    destruct (N.leb_spec (id_of e) p).
    + split; [intros H'; exfalso; revert H'; apply append_capped_nil; compute; lia|].
      intros [_ H']. specialize (H' p eq_refl). lia.
    + split; [|tauto]. intros ?. split; [done|]. by intros ? [= <-].
Qed.

Lemma elem_of_sorted_set l n : n ∈ sorted_set l ↔ n ∈ l.
Proof. unfold sorted_set. by rewrite merge_sort_Permutation, elem_of_remove_dups. Qed.

Lemma sorted_set_nil l : sorted_set l = [] ↔ l = [].
Proof.
  split; [|by intros ->]. intros H. destruct l as [|n l]; [done|]. exfalso.
  apply (not_elem_of_nil n). rewrite <-H, elem_of_sorted_set. left.
Qed.

Lemma length_sorted_set l : length (sorted_set l) ≤ length l.
Proof.
  unfold sorted_set. rewrite merge_sort_Permutation. apply submseteq_length, NoDup_submseteq; [apply NoDup_remove_dups|].
  intros x. by rewrite elem_of_remove_dups.
Qed.

Lemma length_last_n {A} k (l : list A) : length (last_n k l) ≤ k.
Proof. unfold last_n. rewrite length_drop. lia. Qed.

(** The tails of the two readers differ when [E-0] is all the history claims. *)
Lemma summary_tail ids claims :
  foldl raise_tail (if (max_of ids =? 0)%N then None else Some (max_of ids)) claims
  = foldl raise_tail (foldl raise_tail None ids) claims ∨
  foldl raise_tail (if (max_of ids =? 0)%N then None else Some (max_of ids)) claims = None ∧
  foldl raise_tail (foldl raise_tail None ids) claims = Some 0%N.
Proof.
  rewrite max_of_foldl, (raise_none ids). destruct ids as [|i ids]; [by left|].
  destruct (N.eqb_spec (foldl N.max 0%N (i :: ids)) 0) as [->|]; [|by left].
  rewrite raise_none, raise_some. destruct claims; [by right|by left].
Qed.

Section readers.
Context (decode : list N → pystr) (json_loads : pystr → option json).
Context (lineage : option pystr) (identity : pystr).
Abbreviation scan_nodes := (scan_nodes decode json_loads lineage identity).
Abbreviation scan_text := (scan_text decode json_loads lineage identity).
Abbreviation snapshot_of := (snapshot_of decode json_loads lineage identity).
Abbreviation read_snapshot := (read_history_snapshot decode json_loads lineage identity).
Abbreviation read_summary := (read_history_routing_summary decode json_loads lineage identity).

(** The bounded summary keeps what the snapshot proves: the same digest, illegal
    lines, ticket numbers and number of events, the newest sixteen events, and
    diagnostics that are empty exactly when no id repeats and every parent is
    older; it holds at most sixteen events and thirty-two of each diagnostic,
    whatever the length of the history. *)
Theorem routing_summary_agrees f lean s :
  read_snapshot f lean = Ok s →
  ∃ r, read_summary f = Ok r ∧
    rs_hash r = s_hash s ∧ rs_illegal r = s_illegal s ∧ rs_max_ticket r = s_max_ticket s ∧
    rs_event_count r = length (s_events s) ∧
    rs_routing r = last_n ROUTING_TAIL_EVENTS (s_events s) ∧
    (rs_tail r = s_tail s ∨ rs_tail r = None ∧ s_tail s = Some 0%N) ∧
    (rs_duplicates r = [] ↔ NoDup (id_of <$> s_events s)) ∧
    (rs_ordering r = [] ↔ Forall older_parent (s_events s)) ∧
    length (rs_routing r) ≤ 16 ∧ length (rs_duplicates r) ≤ 32 ∧ length (rs_ordering r) ≤ 32.
Proof.
  intros (nodes & Hn & [= <-])%res_bind_Ok. unfold read_summary. rewrite Hn. simpl.
  eexists; split; [reflexivity|]. destruct (routing_pass_of (scan_nodes f nodes)). destruct po_cap0.
  unfold summary_of, snapshot_of, tail_of. cbn [rs_hash rs_illegal rs_max_ticket rs_event_count rs_routing rs_tail
    rs_duplicates rs_ordering s_hash s_illegal s_max_ticket s_events s_tail].
  rewrite sorted_set_nil, po_highest0, po_illegal0, po_routing0.
  split_and!; try done; [apply summary_tail|apply length_last_n|].
  etrans; [apply length_sorted_set|done].
Qed.
End readers.

(** ** The contract of the ledger *)

(** What the contract demands of the events. *)
Definition ledger_ok (evs : list hevent) : Prop :=
  Sorted N.lt (id_of <$> evs) ∧
  Forall (λ e, ∀ p, parent_of e = Some p → p ∈ id_of <$> evs ∧ (p < id_of e)%N) evs.

Lemma event_errors_nil seen prev evs :
  event_errors seen [] prev evs = [] ↔
  (∀ p, prev = Some p → HdRel N.lt p (id_of <$> evs)) ∧ Sorted N.lt (id_of <$> evs) ∧
  Forall (λ e, ∀ p, parent_of e = Some p → p ∈ seen ∧ (p < id_of e)%N) evs.
Proof.
  revert prev. induction evs as [|e evs IH]; intros prev; simpl.
  - split; [intros _|done]. split_and!; [by constructor|constructor|constructor].
  - rewrite !app_nil, IH, Forall_cons. split.
    + intros (Hp & Hprev & Hhd & Hs & Hf). split_and!; [|constructor; eauto| |done].
      * intros p ->. constructor. destruct (N.leb_spec (id_of e) p); [done|lia].
      * intros p E. rewrite E, andb_true_r in Hp. case_bool_decide; [|done]. split; [done|].
        simpl in Hp. destruct (N.leb_spec (id_of e) p); [done|lia].
    + intros (Hhd & Hs & Hp & Hf). apply Sorted_inv in Hs as [Hs Hr]. split_and!; [| |by intros ? [= <-]|done..].
      * destruct (parent_of e) as [p|]; [|done]. destruct (Hp p eq_refl) as [Hin Hlt].
        rewrite (bool_decide_eq_true_2 _ Hin). simpl. by destruct (N.leb_spec (id_of e) p); [lia|].
      * destruct prev as [p|]; [|done]. specialize (Hhd p eq_refl). apply HdRel_inv in Hhd.
        by destruct (N.leb_spec (id_of e) p); [lia|].
Qed.

Lemma filter_eq_le (ids : list N) n : NoDup ids → length (base.filter (λ m, m = n) ids) ≤ 1.
Proof.
  induction 1 as [|m ids Hm Hids IH]; [simpl; lia|]. rewrite filter_cons. case_decide as E; [|done].
  subst m. enough (base.filter (λ m, m = n) ids = []) as -> by (simpl; lia).
  destruct (base.filter (λ m, m = n) ids) as [|x l] eqn:E; [done|].
  assert (x ∈ base.filter (λ m, m = n) ids) as [-> Hx]%list_elem_of_filter by (rewrite E; left). done.
Qed.

Lemma duplicated_nil ids : NoDup ids → duplicated ids = [].
Proof.
  intros H. unfold duplicated. apply sorted_set_nil.
  destruct (base.filter (λ n, 1 < length (base.filter (λ m, m = n) ids)) ids) as [|x l] eqn:E; [done|].
  assert (x ∈ base.filter (λ n, 1 < length (base.filter (λ m, m = n) ids)) ids) as [Hx _]%list_elem_of_filter
    by (rewrite E; left). pose proof (filter_eq_le ids x H). lia.
Qed.

Lemma Sorted_lt_NoDup l : Sorted N.lt l → NoDup l.
Proof.
  intros H. apply Sorted_StronglySorted in H; [|intros ???; lia].
  induction H as [|x l H IH Hx]; constructor; [|done]. rewrite Forall_forall in Hx. intros E%Hx. lia.
Qed.

(** The contract reports nothing exactly when every line is legal, the ids
    strictly increase, and every parent is an event of the ledger that is older. *)
Theorem ledger_contract_exact s :
  snapshot_contract_errors s = [] ↔ s_illegal s = [] ∧ ledger_ok (s_events s).
Proof.
  unfold snapshot_contract_errors. rewrite !app_nil. split.
  - intros (Hi & _ & He). assert (s_illegal s = []) as Hn by (by destruct (s_illegal s)).
    rewrite Hn in He. simpl in He. apply event_errors_nil in He as (_ & ? & ?). done.
  - intros (Hn & Hs & Hf). rewrite Hn. split_and!; [done| |by apply event_errors_nil].
    by rewrite duplicated_nil by (by apply Sorted_lt_NoDup).
Qed.

(** ** The events of a scan *)

Section scan.
Context (decode : list N → pystr) (json_loads : pystr → option json).
Context (lineage : option pystr) (identity : pystr).
Abbreviation scan_nodes := (scan_nodes decode json_loads lineage identity).
Abbreviation scan_text := (scan_text decode json_loads lineage identity).
Abbreviation scan_line := (scan_line decode json_loads lineage identity).
Abbreviation restore := (restore decode json_loads lineage identity).
Abbreviation doc := (_normalised_doc_text decode).

Lemma restore_id f e : id_of (restore f e) = e_event e.
Proof. unfold LogHistory.restore, id_of. destruct (_restored_detail_text _ _ _ _ _ _) as [r [t|]]; done. Qed.
Lemma restore_parent f e : parent_of (restore f e) = e_parent e.
Proof. unfold LogHistory.restore, parent_of. destruct (_restored_detail_text _ _ _ _ _ _) as [r [t|]]; done. Qed.

Lemma restored_ids f (l : list event) : id_of <$> (restore f <$> l) = e_event <$> l.
Proof. rewrite <-list_fmap_compose. apply list_fmap_ext. intros i e _. apply restore_id. Qed.

Definition events_in (text : pystr) : list event := omap parse_log_line (splitlines text).

Lemma scan_text_app f file t l :
  ends_line t → line_clean l →
  scan_text f file (t ++ l ++ [10%N]) = scan_text f file t ++ [scan_line f file (S (length (splitlines t))) l].
Proof.
  intros Ht Hl. unfold LogLedger.scan_text. rewrite splitlines_append, imap_app by done.
  simpl. by rewrite Nat.add_0_r.
Qed.

Lemma scan_lines_events f file k lines :
  omap event_of (imap (λ i line, scan_line f file (k + i) line) lines) = restore f <$> omap parse_log_line lines.
Proof.
  revert k. induction lines as [|line lines IH]; intros k; [done|]. rewrite imap_cons. simpl.
  unfold LogLedger.scan_line at 1. specialize (IH (S k)).
  assert (imap (compose (λ i line, scan_line f file (k + i) line) S) lines
          = imap (λ i line, scan_line f file (S k + i) line) lines) as E
    by (apply imap_ext; intros; simpl; by rewrite Nat.add_succ_r).
  rewrite E. destruct (parse_log_line line); [simpl; f_equal; exact IH|]. destruct (quiet line); exact IH.
Qed.

Lemma scan_text_events f file text : omap event_of (scan_text f file text) = restore f <$> events_in text.
Proof. apply (scan_lines_events f file 1). Qed.

Lemma scan_nodes_app f n1 n2 : scan_nodes f (n1 ++ n2) = scan_nodes f n1 ++ scan_nodes f n2.
Proof. apply bind_app. Qed.

Lemma scan_nodes_one f p raw : scan_nodes f [(p, raw)] = scan_text f (path_name p) (doc raw).
Proof. unfold LogLedger.scan_nodes. simpl. by rewrite app_nil_r. Qed.

Lemma scan_nodes_events f nodes :
  omap event_of (scan_nodes f nodes) = restore f <$> (nodes ≫= λ n, events_in (doc n.2)).
Proof.
  induction nodes as [|n nodes IH]; [done|].
  unfold LogLedger.scan_nodes in *. rewrite !bind_cons, omap_app, IH, scan_text_events. by rewrite fmap_app.
Qed.

(** What is illegal does not depend on the detail files. *)
Lemma scan_text_illegal f f' file text :
  omap illegal_of (scan_text f file text) = omap illegal_of (scan_text f' file text).
Proof.
  unfold LogLedger.scan_text. generalize (splitlines text). intros lines.
  enough (∀ k, omap illegal_of (imap (λ i line, scan_line f file (k i) line) lines)
     = omap illegal_of (imap (λ i line, scan_line f' file (k i) line) lines)) as H by apply (H S).
  induction lines as [|line lines IH]; intros k; [done|]. rewrite !imap_cons. simpl.
  specialize (IH (λ i, k (S i))). unfold LogLedger.scan_line in IH |- *.
  destruct (parse_log_line line), (quiet line); try exact IH. simpl. f_equal. exact IH.
Qed.

Lemma scan_nodes_illegal f f' nodes :
  omap illegal_of (scan_nodes f nodes) = omap illegal_of (scan_nodes f' nodes).
Proof.
  induction nodes as [|n nodes IH]; [done|]. unfold LogLedger.scan_nodes in *.
  rewrite !bind_cons, !omap_app, IH. f_equal. apply scan_text_illegal.
Qed.

(** The contract on the parsed events. *)
Definition ledger_of (l : list event) : Prop :=
  Sorted N.lt (e_event <$> l) ∧
  Forall (λ e, ∀ p, e_parent e = Some p → p ∈ e_event <$> l ∧ (p < e_event e)%N) l.

Lemma ledger_ok_restore f l : ledger_ok (restore f <$> l) ↔ ledger_of l.
Proof.
  unfold ledger_ok, ledger_of. rewrite restored_ids, Forall_fmap. apply and_iff_compat_l.
  apply Forall_iff. intros e. simpl. by rewrite restore_parent, restore_id.
Qed.

(** The event allocated after the tail extends a ledger that is well formed. *)
Lemma ledger_of_next l e :
  ledger_of l → e_event e = next_event (foldl raise_tail None (e_event <$> l)) →
  e_parent e = parent_of_tail (foldl raise_tail None (e_event <$> l)) → ledger_of (l ++ [e]).
Proof.
  intros [Hs Hf] He Hp. rewrite tail_increasing in He, Hp by done.
  assert (Hlt : ∀ n, n ∈ e_event <$> l → (n < e_event e)%N).
  { intros n Hn. rewrite He. apply Sorted_StronglySorted in Hs; [|intros ???; lia].
    destruct (last (e_event <$> l)) as [m|] eqn:El.
    - apply last_Some in El as [l' El]. rewrite El in Hs, Hn. apply StronglySorted_app in Hs as (Hs & _).
      unfold next_event. simpl. apply elem_of_app in Hn as [Hn| ->%list_elem_of_singleton]; [|lia].
      assert (n < m)%N by (apply Hs; [done|by left]). lia.
    - apply last_None in El. rewrite El in Hn. by apply elem_of_nil in Hn. }
  split.
  - rewrite fmap_app. simpl. apply StronglySorted_Sorted, StronglySorted_app. split_and!.
    + intros x y Hx ->%list_elem_of_singleton. auto.
    + apply Sorted_StronglySorted; [intros ???; lia|done].
    + repeat constructor.
  - rewrite fmap_app. apply Forall_app. split.
    + eapply Forall_impl; [exact Hf|]. intros x Hx p Ep. destruct (Hx p Ep). split; [apply elem_of_app; by left|done].
    + apply Forall_singleton. intros p Ep. rewrite Hp in Ep.
      assert (p ∈ e_event <$> l) as Hin; [|split; [apply elem_of_app; by left|auto]].
      destruct (last (e_event <$> l)) as [m|] eqn:El; [|done]. simpl in Ep.
      destruct (m =? 0)%N; [done|]. injection Ep as <-. by apply last_Some_elem_of.
Qed.
End scan.

Section writing.
Context (decode : list N → pystr) (json_loads : pystr → option json).
Context (lineage : option pystr) (identity : pystr).
Abbreviation doc := (_normalised_doc_text decode).
Abbreviation read_snapshot := (read_history_snapshot decode json_loads lineage identity).

(** The parsed events of the history, detail files left aside. *)
Definition parsed_events (nodes : list (path * list N)) : list event := nodes ≫= λ n, events_in (doc n.2).

Lemma parsed_events_snoc nodes p raw : parsed_events (nodes ++ [(p, raw)]) = parsed_events nodes ++ events_in (doc raw).
Proof. unfold parsed_events. rewrite bind_app. simpl. by rewrite app_nil_r. Qed.

Lemma read_snapshot_parts f lean nodes s :
  history_nodes f = Ok nodes → read_snapshot f lean = Ok s →
  s_events s = restore decode json_loads lineage identity f <$> parsed_events nodes ∧
  s_illegal s = omap illegal_of (scan_nodes decode json_loads lineage identity f nodes) ∧
  s_tail s = tail_of (e_event <$> parsed_events nodes) (s_illegal s).
Proof.
  intros Hn (nodes' & Hn' & [= <-])%res_bind_Ok. assert (nodes' = nodes) as -> by congruence.
  unfold snapshot_of. cbn [s_events s_illegal s_tail]. rewrite scan_nodes_events, restored_ids. done.
Qed.

(** C31: A ledger that meets the contract meets it after the next event is appended:
    the event that [build_event] allocates from the tail of the snapshot, written
    as a line of its own at the end of the active segment, is read back as the new
    tail, and no contract error appears. *)
Theorem appended_event_extends_ledger f f' sealed raw raw' lean s taxonomy message ticket agent now op_id n line :
  history_nodes f = Ok (sealed ++ [(ACTIVE_LOG, raw)]) →
  read_snapshot f lean = Ok s → snapshot_contract_errors s = [] →
  build_event (s_tail s) taxonomy message ticket agent now op_id = Ok (n, line) →
  event_ok taxonomy message ticket agent now op_id → line_clean line → ends_line (doc raw) →
  history_nodes f' = Ok (sealed ++ [(ACTIVE_LOG, raw')]) → doc raw' = doc raw ++ line ++ [10%N] →
  ∃ s', read_snapshot f' lean = Ok s' ∧ snapshot_contract_errors s' = [] ∧ s_tail s' = Some n ∧
    id_of <$> s_events s' = (id_of <$> s_events s) ++ [n].
Proof.
  intros Hn Hs Hok Hb He Hl Ht Hn' Hd.
  destruct (read_snapshot_parts f lean _ s Hn Hs) as (Hev & Hill & Htail).
  apply ledger_contract_exact in Hok as [Hi Hok]. rewrite Hi in Htail, Hill. rewrite Hev in Hok.
  apply ledger_ok_restore in Hok. unfold tail_of in Htail. simpl in Htail.
  apply res_bind_Ok in Hb as (l & Hl' & Hb). cbv beta zeta in Hb. case_match; [done|]. injection Hb as <- <-.
  unfold render_event in Hl'. case_match; [done|]. injection Hl' as <-.
  pose proof (parse_rendered (s_tail s) taxonomy message ticket agent now op_id He) as Hp.
  set (line := render_line _ _ _ _ _ _ _) in *. set (e := Event _ _ _ _ _ _ _ _) in Hp.
  assert (parsed_events (sealed ++ [(ACTIVE_LOG, raw')]) = parsed_events (sealed ++ [(ACTIVE_LOG, raw)]) ++ [e]) as Eev.
  { rewrite !parsed_events_snoc, <-(assoc_L (++)). f_equal. unfold events_in. rewrite Hd, splitlines_append by done.
    rewrite omap_app. simpl. by rewrite Hp. }
  assert (ledger_of (parsed_events (sealed ++ [(ACTIVE_LOG, raw)]) ++ [e])) as Hnext.
  { apply ledger_of_next; [done|..]; rewrite <-Htail; done. }
  destruct (read_snapshot f' lean) as [s'|] eqn:Hs'; [|unfold read_history_snapshot in Hs'; by rewrite Hn' in Hs'].
  destruct (read_snapshot_parts f' lean _ s' Hn' Hs') as (Hev' & Hill' & Htail').
  assert (s_illegal s' = []) as Hi'.
  { rewrite Hill', (scan_nodes_illegal _ _ _ _ f' f), scan_nodes_app, scan_nodes_one, omap_app, Hd, scan_text_app by done.
    rewrite scan_nodes_app, scan_nodes_one, omap_app in Hill. symmetry in Hill. apply app_nil in Hill as [-> Hill].
    rewrite omap_app, Hill. simpl. unfold scan_line. by rewrite Hp. }
  exists s'. split_and!; [done|..].
  - apply ledger_contract_exact. split; [done|]. rewrite Hev', Eev. by apply ledger_ok_restore.
  - rewrite Htail', Hi', Eev. unfold tail_of. simpl. rewrite tail_increasing by apply Hnext.
    rewrite fmap_app. by apply last_snoc.
  - by rewrite Hev', Hev, !restored_ids, Eev, fmap_app.
Qed.
End writing.
