(* ===== verification/LogCut.v ===== *)
(** * The cut of a foreign tail

    What [foreign_tail_cut] proves before it cuts, and that the snapshot it returns
    is the one the reader gives of the active segment without the suffix. *)

From stdpp Require Import sorting.
From S2P Require Import Prelude PyStr PyStrFacts PyRegex PyDict Sha256 JournalFs JournalRecord Codec LogLine LogHistory LogLedger LogLedgerFacts.

(** ** A legal line is neither blank nor silent about its id *)

Lemma parsed_shape line e :
  parse_log_line line = Some e →
  ∃ pre digits rest, line = 45%N :: pre ++ (py "[E-" ++ digits ++ py "]") ++ rest ∧ lang (plus is_digit) digits.
Proof.
  unfold parse_log_line. intros (m & Hm & _)%bind_Some. apply fmap_Some in Hm as ([c rest] & Hm & _).
  apply match_at_lang in Hm as (p & -> & Hp). unfold LOG_RE in Hp. cbn [seqs] in Hp.
  destruct Hp as (p0 & q0 & -> & H0 & p1 & q1 & -> & _ & p2 & q2 & -> & H2 & p3 & q3 & -> & H3 & p4 & q4 & -> & H4 & _).
  apply lang_lit in H0 as ->, H2 as ->, H4 as ->. exists (32%N :: p1), p3, (q4 ++ rest). split; [|exact H3].
  cbn [py app]. by rewrite <-!(assoc_L (++)).
Qed.

Lemma parsed_not_quiet line e : parse_log_line line = Some e → quiet line = false.
Proof.
  intros (pre & d & rest & -> & _)%parsed_shape. unfold quiet, strip, lstrip. cbn [drop_while].
  change (is_space 45) with false. cbv iota. pose proof (rstrip_head 45 (pre ++ (py "[E-" ++ d ++ py "]") ++ rest) eq_refl) as H.
  by destruct (rstrip _) as [|x l]; simplify_eq/=.
Qed.

Lemma parsed_declares line e : parse_log_line line = Some e → is_Some (declared_event_id line).
Proof.
  intros (pre & d & rest & -> & Hd)%parsed_shape. unfold declared_event_id, re_search.
  destruct (search_complete _DECLARED_EVENT_RE (45%N :: pre) (py "[E-" ++ d ++ py "]") rest None) as [m Hm].
  - done.
  - unfold _DECLARED_EVENT_RE. cbn [seqs]. eexists _, _. split_and!; [reflexivity|by apply lang_lit|].
    eexists _, _. split_and!; [reflexivity|exact Hd|by apply lang_lit].
  - cbn [app] in Hm. rewrite Hm. cbn [mbind option_bind]. apply fmap_is_Some. by eapply search_binds; [|exact Hm].
Qed.

(** ** The suffix *)

Lemma scan_suffix_spec journal last_event k suffix claimed n :
  scan_suffix journal last_event k suffix = Ok (claimed, n) →
  n = length (omap parse_log_line suffix) ∧
  (journal = false → Forall (λ c, (c ≤ last_event)%N) claimed) ∧
  (∀ line e, line ∈ suffix → parse_log_line line = Some e → journal = false →
     ∃ c, declared_event_id line = Some c ∧ (c ≤ last_event)%N).
Proof.
  revert k claimed n. induction suffix as [|line suffix IH]; intros k claimed n; cbn [scan_suffix].
  { intros [= <- <-]. split_and!; [done|constructor|by intros ?? ?%elem_of_nil]. }
  assert (∀ claimed n, parse_log_line line = None → scan_suffix journal last_event (S k) suffix = Ok (claimed, n) →
    n = length (omap parse_log_line (line :: suffix)) ∧ (journal = false → Forall (λ c, (c ≤ last_event)%N) claimed) ∧
    (∀ l e, l ∈ line :: suffix → parse_log_line l = Some e → journal = false →
       ∃ c, declared_event_id l = Some c ∧ (c ≤ last_event)%N)) as Hskip.
  { intros cl n' Hp (-> & ? & Hall)%IH. split_and!; [simpl; by rewrite Hp|done|].
    intros l e [->|Hin]%elem_of_cons; [congruence|eauto]. }
  destruct (quiet line) eqn:Eq.
  { apply Hskip. destruct (parse_log_line line) eqn:E; [|done]. apply parsed_not_quiet in E. congruence. }
  destruct (declared_event_id line) as [d|] eqn:Ed.
  2: { apply Hskip. destruct (parse_log_line line) eqn:E; [|done]. apply parsed_declares in E as [? ?]. congruence. }
  destruct ((last_event <? d)%N && negb journal) eqn:Ec; [done|]. intros ([cl n'] & Hr & [= <- <-])%res_bind_Ok.
  apply IH in Hr as (-> & Hcl & Hall).
  assert (journal = false → (d ≤ last_event)%N) as Hd.
  { intros ->. rewrite andb_true_r in Ec. by apply N.ltb_ge. }
  split_and!.
  - simpl. by destruct (parse_log_line line).
  - intros Hj. constructor; auto.
  - intros l e [->|Hin]%elem_of_cons Hl Hj; [eauto|]. by eapply Hall.
Qed.

Lemma anchor_at_spec last_event lines a :
  anchor_at last_event lines = Some a →
  ∃ line, lines !! a = Some line ∧ e_event <$> parse_log_line line = Some last_event.
Proof.
  revert a. induction lines as [|line lines IH]; intros a; simpl; [done|].
  case_bool_decide as E; [intros [= <-]; eauto|]. intros (b & Hb & ->)%fmap_Some. by apply IH.
Qed.

(** The boundary of a cut: the journal's floor when it lies below the checkpoint,
    else the checkpoint. *)
Definition boundary (last_event journal_floor : option N) (c : foreign_tail) (b : N) : Prop :=
  ft_journal_floor c = Some b ∧ journal_floor = Some b ∧ (∀ l, last_event = Some l → (b < l)%N) ∨
  ft_journal_floor c = None ∧ last_event = Some b.

Lemma last_n_split {A} n (l : list A) : l = but_last_n n l ++ last_n n l.
Proof. unfold but_last_n, last_n. by rewrite take_drop. Qed.

(** A cut that is returned, taken apart. *)
Lemma foreign_tail_cut_inv s active_text last_event journal_floor c :
  foreign_tail_cut s active_text last_event journal_floor = Ok c →
  ∃ b a claimed n text,
    let lines := splitlines active_text in
    let suffix := drop (S a) lines in
    boundary last_event journal_floor c b ∧ anchor_at b lines = Some a ∧
    scan_suffix (bool_decide (is_Some (ft_journal_floor c))) b (a + 2) suffix = Ok (claimed, n) ∧
    Exists (λ l, quiet l = false) suffix ∧
    (n ≠ 0 → id_of <$> last_n n (s_events s) = e_event <$> omap parse_log_line suffix) ∧
    (s_text s = [] ∧ text = [] ∨
     s_text s ≠ [] ∧ endswith active_text (s_text s) = true ∧
     text = take (length (s_text s) - length active_text) (s_text s) ++ ft_kept_text c) ∧
    snapshot_contract_errors (cut_snapshot s a n text) = [] ∧
    ft_anchor_line c = S a ∧ ft_kept_text c = join [10%N] (take (S a) lines) ++ [10%N] ∧ ft_suffix c = suffix ∧
    ft_claimed c = claimed ∧ ft_snapshot c = cut_snapshot s a n text.
Proof.
  unfold foreign_tail_cut. set (journal := match journal_floor with Some _ => _ | None => _ end).
  destruct (if journal then journal_floor else last_event) as [b|] eqn:Eb; [|done].
  destruct (anchor_at b (splitlines active_text)) as [a|] eqn:Ea; [|done]. cbv zeta.
  case_bool_decide as Ef; [done|]. intros ([claimed n] & Hscan & H)%res_bind_Ok.
  destruct (negb (n =? 0)%nat && _) eqn:En; [done|]. apply res_bind_Ok in H as (text & Ht & H).
  destruct (snapshot_contract_errors _) eqn:Ec; [|done]. injection H as <-.
  exists b, a, claimed, n, text. cbn [ft_journal_floor ft_anchor_line ft_kept_text ft_suffix ft_claimed ft_snapshot].
  split_and!; try done.
  - unfold boundary. cbn [ft_journal_floor]. destruct journal eqn:Ej; [left|by right].
    split_and!; [done..|]. intros l ->. subst journal. rewrite Eb in Ej. by apply N.ltb_lt.
  - destruct journal eqn:Ej; [by rewrite Eb|done].
  - destruct (base.filter _ _) as [|l ls] eqn:Efl in Ef; [done|]. apply Exists_exists. exists l.
    assert (l ∈ base.filter (λ l, quiet l = false) (drop (S a) (splitlines active_text))) as [? ?]%list_elem_of_filter; [|done].
    rewrite Efl. left.
  - intros Hn. destruct (Nat.eqb_spec n 0); [done|]. simpl in En. by apply negb_false_iff, bool_decide_eq_true in En.
  - destruct (s_text s) as [|x t] eqn:Es; simpl in Ht; [left; by injection Ht|right].
    destruct (endswith _ _) eqn:Ee; [|done]. injection Ht as <-. done.
Qed.

(** C32: A cut is returned only when what it removes is foreign: the kept lines end with
    the legal event of the boundary, the suffix holds something, no line of it
    claims an id above a checkpointed boundary, the removed events are the last
    ones of the history, and the ledger without them meets the whole contract. *)
Theorem foreign_tail_cut_sound s active_text last_event journal_floor c :
  foreign_tail_cut s active_text last_event journal_floor = Ok c →
  ∃ b kept line, boundary last_event journal_floor c b ∧
    splitlines active_text = (kept ++ [line]) ++ ft_suffix c ∧
    e_event <$> parse_log_line line = Some b ∧
    splitlines (ft_kept_text c) = kept ++ [line] ∧
    Exists (λ l, quiet l = false) (ft_suffix c) ∧
    (ft_journal_floor c = None → Forall (λ i, (i ≤ b)%N) (ft_claimed c)) ∧
    (∃ dropped, s_events s = s_events (ft_snapshot c) ++ dropped ∧
       id_of <$> dropped = e_event <$> omap parse_log_line (ft_suffix c)) ∧
    s_illegal (ft_snapshot c) = [] ∧ ledger_ok (s_events (ft_snapshot c)).
Proof.
  intros (b & a & claimed & n & text & Hb & Ha & Hscan & Hex & Hn & _ & Hok & _ & Hk & Hsuf & Hcl & Hs)%foreign_tail_cut_inv.
  apply anchor_at_spec in Ha as (line & Hline & He). apply scan_suffix_spec in Hscan as (Hlen & Hle & _).
  rewrite <-Hs in Hok. apply ledger_contract_exact in Hok as [Hi Hl].
  pose proof (take_S_r _ _ _ Hline) as Et. exists b, (take a (splitlines active_text)), line.
  rewrite Hsuf, Hcl. split_and!; try done.
  - by rewrite <-Et, take_drop.
  - rewrite Hk, Et. apply splitlines_join; [by destruct (take a _)|]. rewrite <-Et.
    apply Forall_forall. intros l Hl'. apply (splitlines_lines active_text). rewrite <-(take_drop (S a)). set_solver.
  - intros E. apply Hle. by rewrite E.
  - exists (last_n n (s_events s)). rewrite Hs. split; [apply last_n_split|].
    destruct (decide (n = 0)) as [->|Hne]; [|by apply Hn].
    destruct (omap parse_log_line _); [|done]. unfold last_n. by rewrite Nat.sub_0_r, drop_all.
Qed.

(** ** The cut and the reader *)

Section reread.
Context (decode : list N → pystr) (json_loads : pystr → option json).
Context (lineage : option pystr) (identity : pystr).
Abbreviation doc := (_normalised_doc_text decode).
Abbreviation scan_nodes := (scan_nodes decode json_loads lineage identity).
Abbreviation scan_line := (scan_line decode json_loads lineage identity).
Abbreviation read_snapshot := (read_history_snapshot decode json_loads lineage identity).
Abbreviation restore := (restore decode json_loads lineage identity).

(** Detail files are all the readers of an event take from the project. *)
Lemma restore_same f f' e :
  (∀ r, _owned_detail_bytes f' r = _owned_detail_bytes f r) → restore f' e = restore f e.
Proof.
  intros H. unfold LogHistory.restore, _restored_detail_text. destruct (compact_detail_reference _) as [[r s]|]; [|done].
  unfold _read_detail_text. rewrite H. destruct (_owned_detail_bytes f r); [|done]. simpl.
  destruct (utf8_decode _) as [t|]; [|done]. simpl. destruct (json_loads t) as [[]|]; try done. simpl. by rewrite H.
Qed.

Lemma scan_line_same f f' file n line :
  (∀ r, _owned_detail_bytes f' r = _owned_detail_bytes f r) → scan_line f' file n line = scan_line f file n line.
Proof. intros H. unfold LogLedger.scan_line. destruct (parse_log_line line); [by rewrite (restore_same f f')|done]. Qed.

Lemma scan_nodes_same f f' nodes :
  (∀ r, _owned_detail_bytes f' r = _owned_detail_bytes f r) → scan_nodes f' nodes = scan_nodes f nodes.
Proof.
  intros H. unfold LogLedger.scan_nodes. induction nodes as [|n nodes IH]; [done|]. rewrite !bind_cons, IH. f_equal.
  unfold scan_text. apply imap_ext. intros. by apply scan_line_same.
Qed.

(** The lines of a scan stand where they are numbered. *)
Lemma scan_illegal_at f file k lines x :
  x ∈ omap illegal_of (imap (λ i line, scan_line f file (k + i) line) lines) →
  il_file x = file ∧ k ≤ il_line x < k + length lines.
Proof.
  intros (it & Hit & Hx)%list_elem_of_omap. apply elem_of_lookup_imap in Hit as (i & line & -> & Hi).
  apply lookup_lt_Some in Hi. unfold LogLedger.scan_line in Hx. destruct (parse_log_line line); [done|].
  destruct (quiet line); [done|]. injection Hx as <-. simpl. split; [done|lia].
Qed.

Lemma scan_raw_lines f file k lines :
  length (omap raw_line_of (imap (λ i line, scan_line f file (k + i) line) lines)) = length (omap parse_log_line lines).
Proof.
  revert k. induction lines as [|line lines IH]; intros k; [done|]. rewrite imap_cons. specialize (IH (S k)).
  assert (imap (compose (λ i line, scan_line f file (k + i) line) S) lines
          = imap (λ i line, scan_line f file (S k + i) line) lines) as E
    by (apply imap_ext; intros; simpl; by rewrite Nat.add_succ_r).
  rewrite E. cbn [omap list_omap]. unfold LogLedger.scan_line at 1.
  destruct (parse_log_line line); [simpl; f_equal; exact IH|]. by destruct (quiet line).
Qed.
Lemma scan_lines_split f file a lines :
  a ≤ length lines →
  imap (λ i line, scan_line f file (S i) line) lines
  = imap (λ i line, scan_line f file (1 + i) line) (take a lines)
    ++ imap (λ i line, scan_line f file (S a + i) line) (drop a lines).
Proof.
  intros Ha. rewrite <-(take_drop a lines) at 1. rewrite imap_app. f_equal.
  apply imap_ext. intros i line _. simpl. by rewrite length_take_le.
Qed.

Lemma filter_keeps {A} (P : A → Prop) `{!∀ x, Decision (P x)} l : Forall P l → base.filter P l = l.
Proof. induction 1; [done|]. rewrite filter_cons_True by done. by f_equal. Qed.
Lemma filter_drops {A} (P : A → Prop) `{!∀ x, Decision (P x)} l : Forall (λ x, ¬ P x) l → base.filter P l = [].
Proof. induction 1; [done|]. by rewrite filter_cons_False by done. Qed.

Lemma join_snoc (l : list pystr) : ∃ q, ∀ x, join [10%N] (l ++ [x]) = q ++ x.
Proof.
  destruct l as [|y l]; [by exists []|]. exists (join [10%N] (y :: l) ++ [10%N]).
  intros x. by rewrite join_app, <-(assoc_L (++)).
Qed.

(** The sealed nodes are not the active one. *)
Lemma read_nodes_snoc f ps q nodes :
  read_nodes f (ps ++ [q]) = Ok nodes →
  ∃ n1 n2, nodes = n1 ++ n2 ∧ Forall (λ nd, nd.1 ∈ ps) n1 ∧ length n2 ≤ 1.
Proof.
  revert nodes. induction ps as [|p ps IH]; intros nodes; simpl.
  - destruct (read_bytes f q) as [raw|[]]; try done; [|intros [= <-]; exists [], []; split_and!; [done|constructor|simpl; lia]].
    case_match; [done|]. simpl. intros [= <-]. exists [], [(q, raw)]. split_and!; [done|constructor|simpl; lia].
  - assert (∀ nodes, read_nodes f (ps ++ [q]) = Ok nodes → ∃ n1 n2, nodes = n1 ++ n2 ∧
      Forall (λ nd : path * list N, nd.1 ∈ p :: ps) n1 ∧ length n2 ≤ 1) as IH'.
    { intros nds (n1 & n2 & -> & H & ?)%IH. exists n1, n2. split_and!; [done| |done].
      eapply Forall_impl; [exact H|]. intros nd ?. by right. }
    destruct (read_bytes f p) as [raw|[]]; try done; [|by apply IH'].
    case_match; [done|]. intros (rest & (n1 & n2 & -> & ? & ?)%IH' & [= <-])%res_bind_Ok.
    exists ((p, raw) :: n1), n2. split_and!; [done| |done]. constructor; [by left|done].
Qed.

Lemma sealed_not_active f sealed x :
  history_nodes f = Ok (sealed ++ [x]) → Forall (λ nd, path_name nd.1 ≠ py "LOG.md") sealed.
Proof.
  intros (ps & Hps & Hr)%res_bind_Ok.
  assert (∃ l, ps = l ++ [ACTIVE_LOG] ∧ Forall (λ p, path_name p ≠ py "LOG.md") l) as (l & -> & Hl).
  { unfold _validate_history_ownership in Hps. destruct (lstat f LOGS_DIR) as [[]|[]]; try done;
      apply res_bind_Ok in Hps as (? & _ & [= <-]); [|by exists []].
    eexists; split; [reflexivity|]. apply Forall_fmap, Forall_forall. intros n Hn.
    unfold sealed_names in Hn. rewrite merge_sort_Permutation in Hn. apply list_elem_of_filter in Hn as [Hn _].
    intros E. change (n = py "LOG.md") in E. subst n. vm_compute in Hn. by apply Hn. }
  apply read_nodes_snoc in Hr as (n1 & n2 & E & Hn1 & Hlen).
  assert (Forall (λ nd, nd.1 ∈ l) sealed) as H.
  { destruct n2 as [|y []]; [|apply app_inj_tail in E as [-> _]; done|simpl in Hlen; lia].
    rewrite app_nil_r in E. rewrite <-E in Hn1. by apply Forall_app in Hn1 as [? _]. }
  eapply Forall_impl; [exact H|]. intros nd Hnd. rewrite Forall_forall in Hl. by apply Hl.
Qed.

Lemma sealed_kept f a sealed x :
  Forall (λ nd, path_name nd.1 ≠ py "LOG.md") sealed →
  x ∈ omap illegal_of (scan_nodes f sealed) → beyond_anchor a x = false.
Proof.
  intros Hs (it & Hit & Hx)%list_elem_of_omap. apply list_elem_of_bind in Hit as (nd & Hit & Hnd).
  rewrite Forall_forall in Hs. specialize (Hs nd Hnd).
  assert (il_file x = path_name nd.1) as E.
  { eapply (scan_illegal_at f _ 1). apply list_elem_of_omap. eauto. }
  unfold beyond_anchor. rewrite E. destruct (eqs _ _) eqn:Ee; [|done]. by apply eqs_true in Ee.
Qed.

(** Rewriting the active segment leaves every detail file as it is. *)
Lemma detail_not_active rest : parts (_DETAIL_ROOT ++ rest) ≠ ACTIVE_LOG.
Proof. intros E. vm_compute in E. discriminate E. Qed.

Lemma read_nodes_read f ps nodes nd : read_nodes f ps = Ok nodes → nd ∈ nodes → read_bytes f nd.1 = Ok nd.2.
Proof.
  revert nodes. induction ps as [|p ps IH]; intros nodes; simpl; [intros [= <-] H; by apply elem_of_nil in H|].
  destruct (read_bytes f p) as [raw|[]] eqn:E; try done; [|apply IH].
  case_match; [done|]. intros (rest & Hr & [= <-])%res_bind_Ok [->|H']%elem_of_cons; [done|by eapply IH].
Qed.

Lemma detail_bytes_kept f raw raw' r :
  f !! ACTIVE_LOG = Some (File raw) →
  _owned_detail_bytes (<[ACTIVE_LOG := File raw']> f) r = _owned_detail_bytes f r.
Proof.
  intros Hf. unfold _owned_detail_bytes. cbv zeta. case_match eqn:E; [done|].
  apply orb_false_iff in E as [_ E]. apply negb_false_iff, startswith_spec in E as [rest ->].
  pose proof (detail_not_active rest) as Hne. unfold read_bytes, lstat.
  assert (∀ p, blocked (<[ACTIVE_LOG := File raw']> f) p = blocked f p) as Hb.
  { intros p. unfold blocked. induction (parents p) as [|q qs IHq]; [done|]. cbn [existsb]. rewrite IHq. f_equal.
    rewrite look_insert by done. case_bool_decide as Eq; [|done]. subst q. simpl. by rewrite Hf. }
  rewrite Hb, look_insert, bool_decide_eq_false_2 by done. done.
Qed.

(** The snapshot of a cut is what the reader gives of the history once the active
    segment holds the kept text alone, but for the digest and the ticket maximum. *)
Theorem cut_snapshot_is_reread f sealed raw raw' lean s last_event journal_floor c :
  history_nodes f = Ok (sealed ++ [(ACTIVE_LOG, raw)]) → read_snapshot f lean = Ok s →
  foreign_tail_cut s (doc raw) last_event journal_floor = Ok c →
  let f' := <[ACTIVE_LOG := File raw']> f in
  history_nodes f' = Ok (sealed ++ [(ACTIVE_LOG, raw')]) → doc raw' = ft_kept_text c →
  ∃ s', read_snapshot f' lean = Ok s' ∧ snapshot_contract_errors s' = [] ∧
    s_events s' = s_events (ft_snapshot c) ∧ s_illegal s' = s_illegal (ft_snapshot c) ∧
    s_event_lines s' = s_event_lines (ft_snapshot c) ∧ s_text s' = s_text (ft_snapshot c) ∧
    s_tail s' = s_tail (ft_snapshot c).
Proof.
  intros Hn Hs Hc f' Hn' Hd. pose proof (sealed_not_active _ _ _ Hn) as Hsealed.
  assert (∀ r, _owned_detail_bytes f' r = _owned_detail_bytes f r) as Hsame.
  { intros r. apply detail_bytes_kept with raw. pose proof Hn as (ps & _ & Hr)%res_bind_Ok.
    apply read_nodes_read with (nd := (ACTIVE_LOG, raw)) in Hr; [|apply elem_of_app; right; by left].
    apply res_bind_Ok in Hr as ([] & Hl & Hr); try done. injection Hr as ->. by apply lstat_Ok in Hl as [_ Hl]. }
  apply foreign_tail_cut_inv in Hc as (b & a & claimed & n & text & _ & Ha & Hscan & _ & _ & Htext & Hok & _ & Hk & _ & _ & Hcs).
  apply scan_suffix_spec in Hscan as [Hlen _]. apply anchor_at_spec in Ha as (line & Hline & _).
  assert (S a ≤ length (splitlines (doc raw))) as Hle by (by apply lookup_lt_Some in Hline).
  assert (splitlines (doc raw') = take (S a) (splitlines (doc raw))) as Elines.
  { rewrite Hd, Hk. apply splitlines_join; [rewrite (take_S_r _ _ _ Hline); by destruct (take a _)|].
    apply Forall_forall. intros l Hl. apply (splitlines_lines (doc raw)). rewrite <-(take_drop (S a)). set_solver. }
  unfold read_history_snapshot in Hs |- *. rewrite Hn in Hs. rewrite Hn'. simpl in Hs |- *. injection Hs as <-.
  set (kept := imap (λ i line, scan_line f "LOG.md" (1 + i) line) (take (S a) (splitlines (doc raw)))).
  set (suffix := imap (λ i line, scan_line f "LOG.md" (S (S a) + i) line) (drop (S a) (splitlines (doc raw)))).
  assert (scan_nodes f (sealed ++ [(ACTIVE_LOG, raw)]) = (scan_nodes f sealed ++ kept) ++ suffix) as E1.
  { rewrite scan_nodes_app, scan_nodes_one, <-(assoc_L (++)). f_equal. by apply scan_lines_split. }
  assert (scan_nodes f' (sealed ++ [(ACTIVE_LOG, raw')]) = scan_nodes f sealed ++ kept) as E2.
  { rewrite (scan_nodes_same f f') by done. rewrite scan_nodes_app, scan_nodes_one. f_equal.
    unfold scan_text. by rewrite Elines. }
  assert (n = length (omap event_of suffix)) as Hev.
  { unfold suffix. by rewrite scan_lines_events, length_fmap. }
  assert (n = length (omap raw_line_of suffix)) as Hraw by (unfold suffix; by rewrite scan_raw_lines).
  set (s' := snapshot_of _ _ _ _ f' lean _ own_ticket).
  assert (s_events s' = s_events (ft_snapshot c)) as Eevents.
  { rewrite Hcs. unfold s'. unfold snapshot_of, cut_snapshot. cbn [s_events]. rewrite E1, E2, (omap_app _ _ suffix), Hev.
    by rewrite but_last_n_app. }
  assert (s_illegal s' = s_illegal (ft_snapshot c)) as Eillegal.
  { rewrite Hcs. unfold s'. unfold snapshot_of, cut_snapshot. cbn [s_illegal]. rewrite E1, E2, (omap_app _ _ suffix), filter_app.
    rewrite filter_keeps, (filter_drops _ (omap illegal_of suffix)), app_nil_r; [done|..]; apply Forall_forall; intros x Hx.
    - apply scan_illegal_at in Hx as [E Hx]. unfold beyond_anchor. rewrite E, eqs_refl. simpl. destruct (Nat.ltb_spec (S a) (il_line x)); [done|lia].
    - rewrite omap_app in Hx. apply elem_of_app in Hx as [Hx|Hx]; [by eapply sealed_kept|].
      apply scan_illegal_at in Hx as [_ Hx]. rewrite length_take_le in Hx by done.
      unfold beyond_anchor. destruct (Nat.ltb_spec (S a) (il_line x)); [lia|]. apply andb_false_r. }
  exists s'. split_and!; try done.
  - apply ledger_contract_exact. rewrite Eevents, Eillegal, Hcs. by apply ledger_contract_exact.
  - rewrite Hcs. unfold s'. unfold snapshot_of, cut_snapshot. cbn [s_event_lines]. destruct lean; [by destruct n|].
    rewrite E1, E2, (omap_app _ _ suffix), Hraw. by rewrite but_last_n_app.
  - rewrite Hcs. unfold s'. unfold snapshot_of, cut_snapshot in *. cbn [s_text] in *. destruct lean.
    { by destruct Htext as [[_ ->]|[? _]]. }
    rewrite fmap_app in Htext |- *. cbn [fmap list_fmap snd] in Htext |- *.
    destruct (join_snoc ((λ node, doc node.2) <$> sealed)) as [q Hq]. rewrite Hq in Htext |- *.
    destruct Htext as [[E _]|(_ & _ & ->)].
    + apply app_nil in E as [_ E]. rewrite E in Hline. done.
    + rewrite length_app. replace (length q + length (doc raw) - length (doc raw)) with (length q) by lia.
      by rewrite take_app_length, Hd.
  - change (s_tail s') with (tail_of (id_of <$> s_events s') (s_illegal s')). by rewrite Eevents, Eillegal, Hcs.
Qed.
End reread.
