(* ===== verification/LogDigest.v ===== *)
(** * The framed digest of the history

    Where the framing of [read_history_snapshot] tells layouts apart and where it
    does not, and the readers that do not agree on the highest ticket. *)

From S2P Require Import Prelude PyStr PyStrFacts PyRegex PyDict Sha256 JournalFs JournalRecord Codec LogLine LogHistory LogLedger LogLedgerFacts.

(** ** A digit run ends where the next byte is no digit *)

Lemma digit_run_inj a b x y :
  Forall (λ c, is_ascii_digit c = true) a → Forall (λ c, is_ascii_digit c = true) b →
  head_fails is_ascii_digit x → head_fails is_ascii_digit y → a ++ x = b ++ y → a = b ∧ x = y.
Proof.
  intros Ha. revert b. induction Ha as [|c a Hc Ha IH]; intros b Hb Hx Hy E.
  - destruct Hb as [|d b Hd Hb]; [done|]. cbn [app] in E. subst x. simpl in Hx. congruence.
  - destruct Hb as [|d b Hd Hb]; cbn [app] in E; [subst y; simpl in Hy; congruence|].
    injection E as <- E. by destruct (IH b Hb Hx Hy E) as [-> ->].
Qed.

(** The names and first bytes of the segments of an ordinary history. *)
Definition segment_path (p : path) : Prop :=
  p = ACTIVE_LOG ∨ ∃ d, p = LOGS_DIR ++ [py "LOG-" ++ d ++ py ".md"] ∧ Forall (λ c, is_ascii_digit c = true) d.
Definition framed_apart (node : path * list N) : Prop :=
  segment_path node.1 ∧ head_fails is_ascii_digit node.2.

Lemma utf8_ascii s : Forall (λ c, (c < 128)%N) s → utf8 s = s.
Proof.
  induction 1 as [|c s Hc Hs IH]; [done|]. unfold utf8 in *. rewrite bind_cons, IH. unfold utf8_char.
  by apply N.ltb_lt in Hc as ->.
Qed.

Lemma digits_ascii d : Forall (λ c, is_ascii_digit c = true) d → Forall (λ c, (c < 128)%N) d.
Proof. intros Hd. eapply Forall_impl; [exact Hd|]. intros c H. unfold is_ascii_digit, in_range in H. bool_tac. N_bounds. lia. Qed.

Lemma segment_rel p :
  segment_path p →
  utf8 (as_posix p) = py ".saipen/LOG.md" ∨
  ∃ d, utf8 (as_posix p) = py ".saipen/logs/LOG-" ++ d ++ py ".md" ∧ Forall (λ c, is_ascii_digit c = true) d ∧
       p = LOGS_DIR ++ [py "LOG-" ++ d ++ py ".md"].
Proof.
  intros [->|(d & -> & Hd)]; [by left|right]. exists d. split_and!; [|done..].
  change (as_posix (LOGS_DIR ++ [py "LOG-" ++ d ++ py ".md"])) with (py ".saipen/logs/LOG-" ++ d ++ py ".md").
  apply utf8_ascii. rewrite !Forall_app. split_and!; [|by apply digits_ascii|]; by repeat constructor.
Qed.

(** A frame starts with a dot, so the byte after a segment is no digit. *)
Lemma frames_head nodes : Forall framed_apart nodes → head_fails is_ascii_digit (nodes ≫= history_frame).
Proof.
  destruct 1 as [|n nodes [Hp _] _]; [done|]. rewrite bind_cons. unfold history_frame.
  by destruct (segment_rel _ Hp) as [->|(d & -> & _ & _)].
Qed.

Lemma segment_prefix_inj p q x y :
  segment_path p → segment_path q → utf8 (as_posix p) ++ x = utf8 (as_posix q) ++ y → p = q ∧ x = y.
Proof.
  intros Hp Hq E.
  destruct (segment_rel p Hp) as [Ep|(d & Ep & Hd & Epp)], (segment_rel q Hq) as [Eq|(d' & Eq & Hd' & Eqq)];
    rewrite Ep, Eq in E.
  - destruct Hp as [->|(d & -> & _)]; [|done]. destruct Hq as [->|(d & -> & _)]; [|done]. by apply app_inv_head in E.
  - done.
  - done.
  - rewrite <-!(assoc_L (++)) in E. apply app_inv_head in E.
    apply digit_run_inj in E as [-> E]; [|done..]. apply app_inv_head in E as ->. by rewrite Epp, Eqq.
Qed.

(** When no segment starts with a digit the framing tells every two histories
    apart: the bytes that are hashed determine the segments, their names and
    their contents. *)
Theorem history_framing_injective nodes nodes' :
  Forall framed_apart nodes → Forall framed_apart nodes' →
  (nodes ≫= history_frame) = (nodes' ≫= history_frame) → nodes = nodes'.
Proof.
  intros H. revert nodes'. induction H as [|[p raw] nodes [Hp Hraw] H IH]; intros nodes' H' E.
  - destruct H' as [|[q raw'] nodes' [Hq _] _]; [done|]. rewrite bind_cons in E. unfold history_frame in E. cbn [fst snd] in *.
    by destruct (segment_rel _ Hq) as [Eq|(d & Eq & _ & _)]; rewrite Eq in E.
  - destruct H' as [|[q raw'] nodes' [Hq Hraw'] H'].
    { rewrite bind_cons in E. unfold history_frame in E. cbn [fst snd] in *.
      by destruct (segment_rel _ Hp) as [Eq|(d & Eq & _ & _)]; rewrite Eq in E. }
    rewrite !bind_cons in E. unfold history_frame at 1 3 in E. cbn [fst snd] in *.
    rewrite <-!(assoc_L (++)) in E. apply segment_prefix_inj in E as [<- E]; [|done..].
    rewrite !utf8_ascii in E by apply digits_ascii, str_of_digits.
    assert (∀ r ns, head_fails is_ascii_digit r → Forall framed_apart ns →
      head_fails is_ascii_digit (r ++ (ns ≫= history_frame))) as Hhead.
    { intros [|c r] ns Hr Hns; [by apply frames_head|done]. }
    apply digit_run_inj in E as [El E]; [|apply str_of_digits|apply str_of_digits|auto..].
    assert (length raw = length raw') as Elen.
    { apply Nat2N.inj. by rewrite <-(int_of_str_of (N.of_nat (length raw))), El, int_of_str_of. }
    apply app_inj_1 in E as [-> E]; [|done]. f_equal. by apply IH.
Qed.

Definition two_segments : list (path * list N) :=
  [(LOGS_DIR ++ [py "LOG-001.md"], utf8 "- [E-1] RUN: x"); (ACTIVE_LOG, utf8 "- [E-2] RUN: y")].

Lemma history_framing_injective_witness : (two_segments ++ []) = two_segments.
Proof.
  assert (Forall framed_apart two_segments).
  { constructor; [|constructor; [|constructor]]; (split; [|reflexivity]); [right|by left].
    exists (py "001"). split; [done|by repeat constructor]. }
  by apply (history_framing_injective (two_segments ++ []) two_segments).
Defined.

(** Nothing keeps a segment from starting with a digit, and then two layouts that
    hold different bytes have one digest. *)
Definition sealed_alone : list (path * list N) :=
  [(LOGS_DIR ++ [py "LOG-1.md"], utf8 ".saipen/LOG.md2ab")].
Definition sealed_and_active : list (path * list N) :=
  [(LOGS_DIR ++ [py "LOG-1.md"], utf8 "7"); (ACTIVE_LOG, utf8 "ab")].

Theorem history_digest_collides :
  sealed_alone ≠ sealed_and_active ∧ history_digest sealed_alone = history_digest sealed_and_active.
Proof. split; [intros E; apply (f_equal length) in E; vm_compute in E; lia|vm_compute; reflexivity]. Qed.
