(* ===== verification/LogSamples.v ===== *)
(** * A small history

    The theorems of the ledger applied to a history of two events and to the same
    history with a foreign tail, and the readers that disagree on it. *)

From S2P Require Import Prelude PyStr PyStrFacts PyRegex PyDict Sha256 JournalFs JournalRecord Codec LogLine LogHistory LogLedger LogLedgerFacts LogCut.

Definition ascii_decode (bs : list N) : pystr := default [] (utf8_decode bs).
Definition no_json (text : pystr) : option json := None.

Definition line1 : pystr := "- 01.02.26 10:00 [E-1] RUN: start".
Definition line2 : pystr := "- 01.02.26 10:05 [E-2] [parent: E-1] [T-1] NOTE: follows [T-9]".
Definition line3 : pystr := "- 01.02.26 10:10 [E-3] [parent: E-2] [T-1] RUN: done".
Definition text_of (ls : list pystr) : pystr := join [10%N] ls ++ [10%N].
Definition world (ls : list pystr) : fs :=
  {[ [py ".saipen"] := Dir; ACTIVE_LOG := File (utf8 (text_of ls)) ]}.
Definition nodes_of (ls : list pystr) : list (path * list N) := [(ACTIVE_LOG, utf8 (text_of ls))].

Abbreviation sample_snapshot := (read_history_snapshot ascii_decode no_json None (py "id")).
Abbreviation sample_summary := (read_history_routing_summary ascii_decode no_json None (py "id")).
Abbreviation sample_digest := (read_history_snapshot_and_logs_digest ascii_decode no_json None (py "id")).

(** The history before and after the foreign tail is cut. *)
Definition clean_lines : list pystr := [line1; line2].
Definition stray_lines : list pystr := [line1; line2; py "--help"; py "- [E-1] RUN: elsewhere"].
Definition clean : snapshot :=
  Snapshot (history_digest (nodes_of clean_lines)) (text_of clean_lines) (Some 2%N)
    [HEvent (Event (Some (py "01.02.26 10:00")) 1 None None None None "RUN" "start") None;
     HEvent (Event (Some (py "01.02.26 10:05")) 2 (Some 1%N) (Some (py "T-1")) None None "NOTE" "follows [T-9]") None]
    [] clean_lines 1.
Definition stray : snapshot := 
  match sample_snapshot (world stray_lines) false with Ok s => s | Err _ => clean end.
Definition cut : res cut_refusal foreign_tail := foreign_tail_cut stray (text_of stray_lines) (Some 2%N) None.

Lemma nodes_clean : history_nodes (world clean_lines) = Ok (nodes_of clean_lines).
Proof. vm_compute. reflexivity. Qed.
Lemma nodes_stray : history_nodes (world stray_lines) = Ok (nodes_of stray_lines).
Proof. vm_compute. reflexivity. Qed.
Lemma doc_of_stray : _normalised_doc_text ascii_decode (utf8 (text_of stray_lines)) = text_of stray_lines.
Proof. vm_compute. reflexivity. Qed.
Lemma cut_stray : <[ACTIVE_LOG := File (utf8 (text_of clean_lines))]> (world stray_lines) = world clean_lines.
Proof. vm_compute. reflexivity. Qed.
Lemma read_clean : sample_snapshot (world clean_lines) false = Ok clean.
Proof. vm_compute. reflexivity. Qed.
Lemma read_stray : sample_snapshot (world stray_lines) false = Ok stray.
Proof. vm_compute. reflexivity. Qed.

Lemma routing_summary_agrees_witness :
  ∃ r, sample_summary (world clean_lines) = Ok r ∧ rs_event_count r = 2 ∧ rs_duplicates r = [].
Proof.
  destruct (routing_summary_agrees ascii_decode no_json None (py "id") (world clean_lines) false clean read_clean)
    as (r & Hr & _ & _ & _ & Hc & _ & _ & Hd & _).
  exists r. split_and!; [exact Hr|rewrite Hc; reflexivity|]. apply Hd. simpl.
  repeat (constructor; [vm_compute; set_solver|]). constructor.
Defined.

Lemma appended_event_extends_ledger_witness :
  ∃ s', sample_snapshot (world [line1; line2; line3]) false = Ok s' ∧ s_tail s' = Some 3%N.
Proof.
  destruct (appended_event_extends_ledger ascii_decode no_json None (py "id")
    (world clean_lines) (world [line1; line2; line3]) [] (utf8 (text_of clean_lines)) (utf8 (text_of [line1; line2; line3]))
    false clean "RUN" "done" (Some (py "T-1")) None "01.02.26 10:10" None 3%N line3) as (s' & Hs & _ & Ht & _).
  - apply nodes_clean.
  - apply read_clean.
  - vm_compute. reflexivity.
  - vm_compute. reflexivity.
  - split; [vm_compute; reflexivity|vm_compute; set_solver| | |by intros ?|]; [intros t [= <-]|done|evaluate_Forall].
    split; [vm_compute; reflexivity|evaluate_Forall].
  - unfold line_clean. evaluate_Forall.
  - right. exists (join [10%N] clean_lines). vm_compute. reflexivity.
  - vm_compute. reflexivity.
  - vm_compute. reflexivity.
  - by exists s'.
Defined.

Lemma foreign_tail_cut_sound_witness :
  ∃ c b, cut = Ok c ∧ boundary (Some 2%N) None c b ∧ ft_claimed c = [1%N].
Proof.
  destruct cut as [c|] eqn:E; [|by vm_compute in E].
  destruct (foreign_tail_cut_sound _ _ _ _ _ E) as (b & _ & _ & Hb & _). exists c, b. split_and!; [done|done|].
  vm_compute in E. by injection E as <-.
Defined.

Lemma cut_snapshot_is_reread_witness :
  ∃ c s', cut = Ok c ∧ sample_snapshot (world clean_lines) false = Ok s' ∧ s_events s' = s_events (ft_snapshot c).
Proof.
  destruct cut as [c|] eqn:E; [|by vm_compute in E].
  rewrite <-cut_stray.
  destruct (cut_snapshot_is_reread ascii_decode no_json None (py "id") (world stray_lines)
    [] (utf8 (text_of stray_lines)) (utf8 (text_of clean_lines)) false stray (Some 2%N) None c) as (s' & Hs & _ & He & _).
  - apply nodes_stray.
  - apply read_stray.
  - rewrite doc_of_stray. exact E.
  - rewrite cut_stray. apply nodes_clean.
  - vm_compute in E. injection E as <-. vm_compute. reflexivity.
  - exists c, s'. split; [reflexivity|split; [exact Hs|exact He]].
Defined.

(** The three readers of one ledger name three different highest tickets: the
    ticket of an event, every mention in brackets, every mention. *)
Theorem readers_disagree_on_tickets :
  s_max_ticket clean = 1%N ∧
  (∃ s digest, sample_digest (world clean_lines) true = Ok (s, digest) ∧ s_max_ticket s = 9%N) ∧
  (∃ c, cut = Ok c ∧ s_max_ticket (ft_snapshot c) = 9%N).
Proof.
  split_and!; [done| |].
  - eexists _, _. split; [vm_compute; reflexivity|reflexivity].
  - eexists. split; [vm_compute; reflexivity|reflexivity].
Qed.

(** [E-0] is a tail to the snapshot and none to the summary. *)
Theorem summary_tail_of_zero :
  (s_tail <$> (match sample_snapshot (world [py "- [E-0] RUN: x"]) false with Ok s => Some s | Err _ => None end)) = Some (Some 0%N) ∧
  (rs_tail <$> (match sample_summary (world [py "- [E-0] RUN: x"]) with Ok s => Some s | Err _ => None end)) = Some None.
Proof. split; vm_compute; reflexivity. Qed.
