(* ===== verification/Attempt.v ===== *)
(** * Attempts

    [tools/saipen_engine/attempt.py]: the grammar of attempt events, the fold of
    the history into attempt records, the contract with the pointer of the state
    document, and the admission of a producer's claim. *)

From S2P Require Import Prelude PyStr PyStrFacts PyUnicode PyRegex PyDict JournalFs LogLine LogHistory LogVerdict.

(** ** Vocabulary *)

Definition RESULTS : list pystr := strs ["candidate"; "failed"; "interrupted"; "yielded"; "superseded"].
Definition STOP_REASONS : list pystr :=
  strs ["completed_execution"; "context_limit"; "provider_limit"; "provider_failure"; "process_crash"; "user_stop";
        "capability_missing"; "validation_failure"; "deliberate_handoff"; "unknown"].
Definition RESULT_STOP_MATRIX : dict pystr (list pystr) :=
  [(py "candidate", strs ["completed_execution"]);
   (py "failed", strs ["validation_failure"; "capability_missing"]);
   (py "interrupted", strs ["context_limit"; "provider_limit"; "provider_failure"; "process_crash"; "unknown"]);
   (py "yielded", strs ["user_stop"; "deliberate_handoff"]);
   (py "superseded", strs ["deliberate_handoff"; "unknown"])].
Definition MAX_EVIDENCE_REFS : nat := 8.
Definition MAX_UNKNOWN_CHARS : nat := 200.

(** [A-\d{3,}] *)
Definition _ATTEMPT_ID : re := seqs [lit "A-"; rep 3 is_digit; Star is_digit].
Definition is_token_char (c : N) : bool := is_AZ c || is_az c || is_ascii_digit c || (c =? 95)%N || (c =? 45)%N.
Definition OPEN_RE : re :=
  seqs [lit "attempt "; Grp 1 _ATTEMPT_ID; lit " open"; Opt (Seq (lit "; supersedes ") (Grp 2 _ATTEMPT_ID));
        Opt (Seq (lit "; provenance ") (Grp 3 (seqs [plus is_token_char; lit "."; rep 64 is_hex]))); Eol].
Definition is_word_az (c : N) : bool := is_az c || (c =? 95)%N.
Definition _CLOSE_HEAD_RE : re :=
  seqs [lit "attempt "; Grp 1 _ATTEMPT_ID; lit " close result "; Grp 2 (plus is_word_az); lit " stop ";
        Grp 3 (plus is_word_az)].
Definition _EVIDENCE_ITEM_RE : re := seqs [lit "E-"; plus is_digit; Eol].

(** ** One event *)

Inductive attempt_text : Type :=
  | Opening (aid : pystr) (supersedes : option pystr) (provenance : option pystr)
  | Closing (aid result stop : pystr) (evidence : list pystr) (unknown : option pystr).

Inductive text_error : Type :=
  | MalformedEvent
  | BadProvenance (reason : pystr)
  | UnknownBroken
  | UnknownTooLong (n : nat)
  | MalformedTail (body : pystr)
  | TooManyRefs (n : nat)
  | BadRef (ref : pystr)
  | SeatMismatch (aid : pystr).

Fixpoint check_refs (refs : list pystr) : res text_error () :=
  match refs with
  | [] => Ok tt
  | r :: refs' => if is_match _EVIDENCE_ITEM_RE r then check_refs refs' else Err (BadRef r)
  end.

(** The part of a close after its stop reason: the evidence and the unknown clause. *)
Definition parse_close_tail (rest : pystr) : res text_error (list pystr * option pystr) :=
  let '(body, clause) := partition "; unknown:" rest in
  unknown ← match clause with
            | Some u =>
                let u := strip u in
                if contains [10%N] u then Err UnknownBroken
                else if (MAX_UNKNOWN_CHARS <? length u)%nat then Err (UnknownTooLong (length u))
                else Ok (Some u)
            | None => Ok None
            end;
  let body := strip body in
  if negb (nonempty body) then Ok ([], unknown)
  else
    let prefix := py "-- evidence " in
    if negb (startswith prefix body) then Err (MalformedTail (take 80 body))
    else
      let refs := strip <$> split (py ",") (drop (length prefix) body) in
      if (MAX_EVIDENCE_REFS <? length refs)%nat then Err (TooManyRefs (length refs))
      else check_refs refs ≫= λ _, Ok (refs, unknown).

Section attempts.
(** [parse_runtime_provenance]: the seat a provenance token was issued to, or why
    the token is refused. *)
Context (parse_runtime_provenance : pystr → res pystr pystr).

Definition parse_attempt_text (text : pystr) : res text_error (option attempt_text) :=
  let stripped := strip text in
  if negb (startswith "attempt " stripped) then Ok None
  else if negb (is_full (ident_re "A-") (default [] (words stripped !! 1))) then Ok None
  else match re_match OPEN_RE stripped with
       | Some m =>
           let aid := default [] (group 1 m) in
           match group 3 m with
           | Some token =>
               match parse_runtime_provenance token with
               | Ok seat => Ok (Some (Opening aid (group 2 m) (Some seat)))
               | Err reason => Err (BadProvenance reason)
               end
           | None => Ok (Some (Opening aid (group 2 m) None))
           end
       | None =>
           match match_at _CLOSE_HEAD_RE None stripped with
           | None => Err MalformedEvent
           | Some (m, rest) =>
               tail ← parse_close_tail rest;
               Ok (Some (Closing (default [] (group 1 m)) (default [] (group 2 m)) (default [] (group 3 m))
                           tail.1 tail.2))
           end
       end.

(** [(record, error)] as a result: [Ok None] is an event of another kind. *)
Definition parse_attempt_event (e : event) : res text_error (option attempt_text) :=
  if negb (e_taxonomy e =s py "DEC") then Ok None
  else
    record ← parse_attempt_text (e_text e);
    match record with
    | Some (Opening aid s (Some seat)) =>
        if bool_decide (e_agent e = Some seat) then Ok record else Err (SeatMismatch aid)
    | _ => Ok record
    end.

(** ** The records of a history *)

Record attempt : Type := Attempt {
  at_id : pystr;
  at_ticket : option pystr;
  at_agent : option pystr;
  at_open_event : N;
  at_close_event : option N;
  at_result : option pystr;
  at_stop : option pystr;
  at_evidence : list pystr;
  at_unknown : option pystr;
  at_supersedes : option pystr;
  at_provenance : option pystr;
  at_close_agent : option pystr;
}.
Abbreviation attempts := (dict pystr attempt).

Inductive attempt_error : Type :=
  | BadText (event : N) (e : text_error)
  | DuplicateAttempt (event : N) (aid : pystr)
  | NoPredecessor (event : N) (aid supersedes : pystr)
  | CloseWithoutOpen (event : N) (aid : pystr)
  | ClosedTwice (event : N) (aid : pystr)
  | OtherTicket (event : N) (aid : pystr)
  | BadResult (event : N) (aid result : pystr)
  | BadStop (event : N) (aid stop : pystr)
  | BadPair (event : N) (aid result stop : pystr)
  | LineageCycle (through aid : pystr).

Definition opened (e : event) (aid : pystr) (supersedes seat : option pystr) : attempt :=
  Attempt aid (e_ticket e) (e_agent e) (e_event e) None None None [] None supersedes seat None.

(** [a or b] on the agents of the log, which are never empty strings. *)
Definition or_else (a b : option pystr) : option pystr := match a with Some _ => a | None => b end.

Definition closed (e : event) (a : attempt) (result stop : pystr) (evidence : list pystr) (unknown : option pystr)
    : attempt :=
  Attempt (at_id a) (at_ticket a) (or_else (at_agent a) (e_agent e)) (at_open_event a)
    (Some (e_event e)) (Some result) (Some stop) evidence unknown (at_supersedes a) (at_provenance a)
    (or_else (e_agent e) (at_close_agent a)).

(** Why a close is refused, in the order of the checks. *)
Definition close_error (e : event) (a : attempt) (result stop : pystr) : option attempt_error :=
  let aid := at_id a in
  if bool_decide (at_close_event a ≠ None) then Some (ClosedTwice (e_event e) aid)
  else if bool_decide (e_ticket e ≠ at_ticket a) then Some (OtherTicket (e_event e) aid)
  else if negb (mem result RESULTS) then Some (BadResult (e_event e) aid result)
  else if negb (mem stop STOP_REASONS) then Some (BadStop (e_event e) aid stop)
  else if negb (mem stop (default [] (dget result RESULT_STOP_MATRIX))) then Some (BadPair (e_event e) aid result stop)
  else None.

(** One event of the fold. *)
Definition attempt_step (s : attempts * list attempt_error) (e : event) : attempts * list attempt_error :=
  let '(records, errors) := s in
  match parse_attempt_event e with
  | Err err => (records, errors ++ [BadText (e_event e) err])
  | Ok None => s
  | Ok (Some (Opening aid supersedes seat)) =>
      if dmem aid records then (records, errors ++ [DuplicateAttempt (e_event e) aid])
      else (dset aid (opened e aid supersedes seat) records,
            match supersedes with
            | Some p => if dmem p records then errors else errors ++ [NoPredecessor (e_event e) aid p]
            | None => errors
            end)
  | Ok (Some (Closing aid result stop evidence unknown)) =>
      match dget aid records with
      | None => (records, errors ++ [CloseWithoutOpen (e_event e) aid])
      | Some a =>
          match close_error e a result stop with
          | Some err => (records, errors ++ [err])
          | None => (dset aid (closed e a result stop evidence unknown) records, errors)
          end
      end
  end.

(** The walk to the predecessors; the fuel exceeds the number of records. *)
Fixpoint lineage_walk (fuel : nat) (records : attempts) (aid : pystr) (seen : list pystr) (cur : option pystr)
    : list attempt_error :=
  match fuel with
  | O => []
  | S fuel' =>
      match cur with
      | None => []
      | Some c =>
          if mem c seen then [LineageCycle c aid]
          else match dget c records with
               | None => []
               | Some a => lineage_walk fuel' records aid (c :: seen) (at_supersedes a)
               end
      end
  end.

Definition lineage_errors (records : attempts) : list attempt_error :=
  records ≫= λ r, lineage_walk (S (length records)) records r.1 [r.1] (at_supersedes r.2).

Definition build_attempts (events : list event) : attempts * list attempt_error :=
  let '(records, errors) := foldl attempt_step ([], []) events in
  (records, errors ++ lineage_errors records).

(** [sorted(l, key=...)] on numbers: stable insertion. *)
Fixpoint insert_by {A} (key : A → N) (x : A) (l : list A) : list A :=
  match l with
  | [] => [x]
  | y :: l' => if (key x <=? key y)%N then x :: l else y :: insert_by key x l'
  end.
Definition sort_by {A} (key : A → N) (l : list A) : list A := foldr (insert_by key) [] l.

Definition is_open (a : attempt) : bool := bool_decide (at_close_event a = None).
Definition active_attempts (records : attempts) : list pystr :=
  fst <$> base.filter (λ r, is_open r.2 = true) (sort_by (λ r, at_open_event r.2) records).

(** ** The next identifier *)

Definition record_id (t : attempt_text) : pystr :=
  match t with Opening aid _ _ | Closing aid _ _ _ _ => aid end.

(** [re.match(r"^A-(\d{3,})$", id)] *)
Definition attempt_number (aid : pystr) : N :=
  match re_match (seqs [lit "A-"; Grp 1 (Seq (rep 3 is_digit) (Star is_digit)); Eol]) aid with
  | Some m => int_of (default [] (group 1 m))
  | None => 0
  end.
Definition event_number (e : event) : N :=
  match parse_attempt_event e with Ok (Some t) => attempt_number (record_id t) | _ => 0 end.
Definition next_attempt_id (events : list event) : pystr :=
  "A-" +s pad3 (foldl N.max 0%N (event_number <$> events) + 1).

(** ** The contract *)

Inductive contract_error : Type :=
  | FoldError (e : attempt_error)
  | SeveralOpen (aids : list pystr)
  | NoWork (aid : pystr)
  | NoSuchWork (aid ticket : pystr)
  | DanglingEvidence (aid ref : pystr)
  | PointerWithoutTask (pointer : pystr)
  | PointerUnknown (pointer : pystr)
  | PointerClosed (pointer : pystr)
  | PointerOtherTask (pointer : pystr)
  | SeveralOnTask (n : nat)
  | OpenWithoutPointer (aid : pystr)
  | PointerMismatch (pointer aid : pystr).

(** The two fields of the state document the contract reads. *)
Record state_view : Type := StateView { sv_task : option pystr; sv_attempt : option pystr }.

Definition task_is_none (s : state_view) : bool :=
  match sv_task s with None => true | Some t => mem t (strs [""; "none"]) end.

Definition known_errors (known : option (list pystr)) (records : attempts) : list contract_error :=
  match known with
  | None => []
  | Some known => records ≫= λ r,
      match at_ticket r.2 with
      | Some t => if t =s py "T-none" then [NoWork r.1]
                  else if nonempty t && negb (mem t known) then [NoSuchWork r.1 t] else []
      | None => []
      end
  end.

Definition evidence_errors (events : list event) (records : attempts) : list contract_error :=
  records ≫= λ r, at_evidence r.2 ≫= λ ref,
    if bool_decide (int_of (drop 2 ref) ∈ (e_event <$> events)) then [] else [DanglingEvidence r.1 ref].

Definition pointer_errors (s : state_view) (records : attempts) : list contract_error :=
  match sv_attempt s with
  | None => []
  | Some p =>
      if task_is_none s then [PointerWithoutTask p]
      else match dget p records with
           | None => [PointerUnknown p]
           | Some a =>
               if negb (is_open a) then [PointerClosed p]
               else if bool_decide (sv_task s = at_ticket a) then [] else [PointerOtherTask p]
           end
  end.

Definition on_task (s : state_view) (records : attempts) : list pystr :=
  base.filter (λ aid, (at_ticket <$> dget aid records) = Some (sv_task s)) (active_attempts records).

Definition open_errors (s : state_view) (records : attempts) : list contract_error :=
  match on_task s records with
  | [] => []
  | [aid] => match sv_attempt s with
             | None => [OpenWithoutPointer aid]
             | Some p => if p =s aid then [] else [PointerMismatch p aid]
             end
  | l => [SeveralOnTask (length l)]
  end.

Definition contract_errors (events : list event) (s : state_view) (known : option (list pystr)) : list contract_error :=
  let '(records, fold_errors) := build_attempts events in
  (FoldError <$> fold_errors)
  ++ (let opens := active_attempts records in if (1 <? length opens)%nat then [SeveralOpen opens] else [])
  ++ known_errors known records ++ evidence_errors events records
  ++ pointer_errors s records ++ open_errors s records.

(** ** Admission *)

(** A machine boundary of the ticket after the event; who typed it is not asked. *)
Definition boundary_after (ticket_id : pystr) (close_eid : N) (events : list event) : bool :=
  existsb (λ e, about ticket_id e && is_run e && _is_verify_boundary e && (close_eid <? e_event e)%N) events.

Definition admission_error (a : attempt) (done_ticket_id : pystr) (events : list event) : option pystr :=
  if negb (bool_decide (at_result a = Some (py "candidate"))) then None
  else match at_close_event a with
       | None => None
       | Some c => if boundary_after done_ticket_id c events then None else Some (at_id a)
       end.

Definition is_candidate (ticket_id : pystr) (a : attempt) : bool :=
  bool_decide (at_ticket a = Some ticket_id) && bool_decide (at_result a = Some (py "candidate"))
  && bool_decide (at_close_event a ≠ None).

Definition ticket_admission_error (ticket_id : pystr) (records : attempts) (events : list event) : option pystr :=
  let candidates := sort_by at_open_event (base.filter (λ a, is_candidate ticket_id a = true) (dvalues records)) in
  at_id <$> find_first (λ a, negb (boundary_after ticket_id (default 0%N (at_close_event a)) events)) candidates.
End attempts.
