(* ===== verification/AttemptFacts.v ===== *)
(** * Facts about attempts

    The records of every history are well formed, a lineage that loops names a
    predecessor that was never opened, identifiers are not reused, and the pointer
    of the state document agrees with the open attempt. *)

From S2P Require Import Prelude PyStr PyStrFacts PyUnicode PyRegex PyDict JournalFs LogLine LogHistory Oracle LogVerdict LogEvidence Attempt.

Abbreviation attempts := (dict pystr attempt).

Section facts.
Context (parse_runtime_provenance : pystr → res pystr pystr).
Abbreviation parse_event := (parse_attempt_event parse_runtime_provenance).
Abbreviation step := (attempt_step parse_runtime_provenance).
Abbreviation build := (build_attempts parse_runtime_provenance).

(** ** The records of a history *)

(** A record is open, with nothing of a close, or closed by a later step of the
    history under a pairing of the matrix. *)
Record attempt_ok (events : list event) (aid : pystr) (a : attempt) : Prop := {
  ao_id : at_id a = aid;
  ao_opened : ∃ e, e ∈ events ∧ e_event e = at_open_event a ∧ e_ticket e = at_ticket a;
  ao_state : at_close_event a = None ∧ at_result a = None ∧ at_stop a = None ∧ at_evidence a = [] ∨
    ∃ e result stop, e ∈ events ∧ at_close_event a = Some (e_event e) ∧ e_ticket e = at_ticket a ∧
      at_result a = Some result ∧ at_stop a = Some stop ∧ result ∈ RESULTS ∧ stop ∈ STOP_REASONS ∧
      stop ∈ default [] (dget result RESULT_STOP_MATRIX) ∧ length (at_evidence a) ≤ MAX_EVIDENCE_REFS;
}.

Lemma attempt_ok_mono events e aid a : attempt_ok events aid a → attempt_ok (events ++ [e]) aid a.
Proof.
  intros [H1 (x & Hx & H2) H3]. split; [done|exists x; set_solver|].
  destruct H3 as [H3|(y & r & s & Hy & H3)]; [by left|right]. exists y, r, s. split; [set_solver|done].
Qed.

Definition records_ok (events : list event) (records : attempts) : Prop :=
  wf_dict records ∧ ∀ aid a, dget aid records = Some a → attempt_ok events aid a.

Lemma close_tail_bound rest ev unknown : parse_close_tail rest = Ok (ev, unknown) → length ev ≤ MAX_EVIDENCE_REFS.
Proof.
  unfold parse_close_tail. destruct (partition _ rest) as [body clause].
  intros (u & _ & H)%res_bind_Ok. destruct (negb (nonempty _)); [injection H as <- <-; simpl; lia|].
  cbv zeta in H. destruct (negb (startswith _ _)); [done|]. destruct (_ <? _)%nat eqn:El; [done|].
  apply res_bind_Ok in H as (? & _ & [= <- <-]). by apply Nat.ltb_ge in El.
Qed.

Lemma closing_bound e aid result stop ev unknown :
  parse_event e = Ok (Some (Closing aid result stop ev unknown)) → length ev ≤ MAX_EVIDENCE_REFS.
Proof.
  unfold parse_attempt_event. destruct (negb _); [done|].
  intros (t & Ht & H)%res_bind_Ok. assert (t = Some (Closing aid result stop ev unknown)) as ->.
  { destruct t as [[? ? [s|]|]|]; simplify_eq/=; try done. by destruct (bool_decide _). }
  clear H. unfold parse_attempt_text in Ht. cbv zeta in Ht. destruct (negb _); [done|]. destruct (negb _); [done|].
  destruct (re_match OPEN_RE _); [by repeat case_match|]. destruct (match_at _ _ _) as [[m rest]|]; [|done].
  apply res_bind_Ok in Ht as ([ev' u] & Ht & [= _ _ _ <- _]). by eapply close_tail_bound.
Qed.

Lemma close_error_None e a result stop :
  close_error e a result stop = None →
  at_close_event a = None ∧ e_ticket e = at_ticket a ∧ result ∈ RESULTS ∧ stop ∈ STOP_REASONS ∧
  stop ∈ default [] (dget result RESULT_STOP_MATRIX).
Proof.
  unfold close_error. case_bool_decide as E1; [done|]. case_bool_decide as E2; [done|].
  destruct (mem result RESULTS) eqn:E3; [|done]. destruct (mem stop STOP_REASONS) eqn:E4; [|done].
  destruct (mem stop (default _ _)) eqn:E5; [|done]. intros _. apply mem_true in E3, E4, E5.
  done.
Qed.

Lemma step_ok events s e : records_ok events s.1 → records_ok (events ++ [e]) (step s e).1.
Proof.
  destruct s as [records errors]. intros [Hwf Hok]. unfold attempt_step.
  assert (records_ok (events ++ [e]) records) as Hsame.
  { split; [done|]. intros aid a Ha. by apply attempt_ok_mono, Hok. }
  destruct (parse_event e) as [[[aid sup seat|aid result stop ev unknown]|]|err] eqn:Ep; simpl; try done.
  - destruct (dmem aid records); [done|]. simpl. split; [by apply wf_dset|]. intros aid' a.
    destruct (decide (aid = aid')) as [->|Hne]; [rewrite dget_dset_eq|rewrite dget_dset_ne by done; apply Hsame].
    intros [= <-]. split; [done| |by left]. exists e. split_and!; [set_solver|done..].
  - destruct (dget aid records) as [a|] eqn:Ea; [|done].
    destruct (close_error e a result stop) eqn:Ec; [done|]. apply close_error_None in Ec as (E1 & E2 & E3 & E4 & E5).
    simpl. split; [by apply wf_dset|]. intros aid' a'.
    destruct (decide (aid = aid')) as [->|Hne]; [rewrite dget_dset_eq|rewrite dget_dset_ne by done; apply Hsame].
    intros [= <-]. apply Hsame in Ea as [H1 H2 _]. split; [done..|right].
    exists e, result, stop. split_and!; [set_solver|done..|]. simpl. by eapply closing_bound.
Qed.

Lemma fold_ok events : records_ok events (foldl step ([], []) events).1.
Proof.
  induction events as [|e events IH] using rev_ind; [split; [constructor|done]|].
  rewrite foldl_app. by apply step_ok.
Qed.

Lemma build_ok events : records_ok events (build events).1.
Proof. unfold build_attempts. pose proof (fold_ok events). by destruct (foldl _ _ _). Qed.

(** Whatever the history holds, forged lines included, every record of the fold is
    opened by one of its events and is either open or closed by one of them, on
    the same work, under a pairing the matrix allows. *)
Theorem attempts_well_formed events : records_ok events (build events).1.
Proof. apply build_ok. Qed.

(** ** Lineages *)

Definition links (records : attempts) : list (pystr * option pystr) := (λ r, (r.1, at_supersedes r.2)) <$> records.
(** Every predecessor stands before its successor. *)
Definition backward (l : list (pystr * option pystr)) : Prop :=
  ∀ l1 x p l2, l = l1 ++ (x, Some p) :: l2 → p ∈ l1.*1.

Lemma links_keys records : (links records).*1 = dkeys records.
Proof. unfold links, dkeys. rewrite <-list_fmap_compose. by apply list_fmap_ext. Qed.

Lemma links_dset records aid a a' :
  dget aid records = Some a → at_supersedes a' = at_supersedes a → links (dset aid a' records) = links records.
Proof.
  induction records as [|[k v] records IH]; [done|]. simpl. case_bool_decide as E; intros H Es.
  - subst k. injection H as ->. unfold links. simpl. by rewrite Es.
  - unfold links in *. simpl. f_equal. by apply IH.
Qed.

Lemma backward_snoc l x s : backward l → (∀ p, s = Some p → p ∈ l.*1) → backward (l ++ [(x, s)]).
Proof.
  intros Hl Hs l1 y p l2 E. destruct l2 as [|z l2 _] using rev_ind.
  - apply app_inj_tail in E as [-> [= -> ->]]. by apply Hs.
  - rewrite app_comm_cons, (assoc_L (++)) in E. apply app_inj_tail in E as [E _]. by eapply Hl.
Qed.

Lemma step_backward events s e :
  records_ok events s.1 → (backward (links s.1) ∨ ∃ n x p, NoPredecessor n x p ∈ s.2) →
  backward (links (step s e).1) ∨ ∃ n x p, NoPredecessor n x p ∈ (step s e).2.
Proof.
  destruct s as [records errors]. intros Hok [Hb|(n & x & p & Hin)].
  - unfold attempt_step. destruct (parse_event e) as [[[aid sup seat|aid result stop ev unknown]|]|err]; simpl; try by left.
    + destruct (dmem aid records) eqn:Em; [by left|]. simpl.
      assert (dget aid records = None) as Hn by (unfold dmem in Em; bool_tac; by apply eq_None_not_Some).
      rewrite dset_new by done. destruct sup as [p|]; [destruct (dmem p records) eqn:Ep|].
      * left. unfold links. rewrite fmap_app. apply backward_snoc; [done|]. intros q [= <-].
        change (p ∈ (links records).*1). rewrite links_keys. by apply dmem_spec.
      * right. exists (e_event e), aid, p. set_solver.
      * left. unfold links. rewrite fmap_app. by apply backward_snoc.
    + destruct (dget aid records) as [a|] eqn:Ea; [|by left]. destruct (close_error e a result stop); [by left|].
      left. simpl. by erewrite links_dset.
  - right. exists n, x, p. unfold attempt_step.
    destruct (parse_event e) as [[[aid sup seat|aid result stop ev unknown]|]|err]; simpl; [| |done|set_solver].
    + destruct (dmem aid records); [set_solver|]. destruct sup as [q|]; [destruct (dmem q records)|]; set_solver.
    + destruct (dget aid records) as [a|]; [destruct (close_error e a result stop)|]; set_solver.
Qed.

Lemma walk_backward records fuel aid seen cur pre post :
  wf_dict records → backward (links records) → records = pre ++ post →
  (∀ c, cur = Some c → c ∈ dkeys pre) → (∀ x, x ∈ seen → x ∉ dkeys pre) →
  lineage_walk fuel records aid seen cur = [].
Proof.
  intros Hwf Hb. revert seen cur pre post. induction fuel as [|fuel IH]; intros seen cur pre post E Hc Hs; [done|].
  simpl. destruct cur as [c|]; [|done]. specialize (Hc c eq_refl).
  destruct (mem c seen) eqn:Em; [apply mem_true in Em; by apply Hs in Em|].
  destruct (dget c records) as [a|] eqn:Ea; [|done].
  apply dmem_spec in Hc. unfold dmem in Hc. bool_tac. destruct Hc as [a' Ha'].
  apply dget_Some_elem, list_elem_of_split in Ha' as (l1 & l2 & ->).
  assert (c ∉ dkeys l1) as Hnd.
  { unfold wf_dict in Hwf. rewrite E in Hwf. unfold dkeys in *. rewrite !fmap_app in Hwf. simpl in Hwf.
    apply NoDup_app in Hwf as (Hwf & _). apply NoDup_app in Hwf as (_ & Hwf & _). intros Hin. apply (Hwf c Hin). left. }
  assert (dget c records = Some a') as Ea'.
  { apply dget_elem; [done|]. rewrite E. set_solver. }
  assert (a' = a) as -> by congruence.
  apply (IH _ _ l1 ((c, a) :: l2 ++ post)); [by rewrite E, <-(assoc_L (++))| |].
  - intros p Ep. rewrite <-(links_keys l1). apply (Hb (links l1) c p (links (l2 ++ post))).
    rewrite E. unfold links. rewrite <-(assoc_L (++)), fmap_app. cbn [fmap list_fmap app fst snd]. by rewrite Ep.
  - intros x [->|Hx]%elem_of_cons; [done|]. specialize (Hs x Hx). unfold dkeys in *. rewrite fmap_app in Hs. set_solver.
Qed.

(** A cycle of predecessors is never reported on its own: whenever the walk finds
    one, the fold has already reported an attempt opened over a predecessor that
    no earlier event opened. *)
Theorem cycle_needs_forward_reference events :
  (∀ n x p, NoPredecessor n x p ∉ (build events).2) → lineage_errors (build events).1 = [].
Proof.
  intros Hno. pose proof (build_ok events) as [Hwf _]. unfold build_attempts in *.
  assert (backward (links (foldl step ([], []) events).1) ∨
    ∃ n x p, NoPredecessor n x p ∈ (foldl step ([], []) events).2) as [Hb|(n & x & p & H)].
  { clear. induction events as [|e events IH] using rev_ind; [left; intros [|??] ???; done|].
    rewrite foldl_app. eapply step_backward; [apply fold_ok|done]. }
  - destruct (foldl step ([], []) events) as [records errors]. simpl in *. unfold lineage_errors.
    assert (∀ r, r ∈ records → lineage_walk (S (length records)) records r.1 [r.1] (at_supersedes r.2) = []) as Hw.
    { intros [aid a] Hr. apply list_elem_of_split in Hr as (l1 & l2 & E).
      apply (walk_backward _ _ _ _ _ l1 ((aid, a) :: l2)); [done..| |].
      - intros p Ep. rewrite <-(links_keys l1). apply (Hb (links l1) aid p (links l2)).
        rewrite E. unfold links. rewrite fmap_app. cbn [fmap list_fmap fst snd]. by rewrite <-Ep.
      - intros x ->%list_elem_of_singleton. unfold wf_dict, dkeys in Hwf. rewrite E, fmap_app in Hwf.
        apply NoDup_app in Hwf as (_ & Hwf & _). intros Hin. apply (Hwf aid Hin). left. }
    revert Hw. generalize (S (length records)). intros fuel. set (f := λ r, _). intros Hw.
    assert (∀ l, (∀ r, r ∈ l → f r = []) → l ≫= f = []) as H.
    { induction l as [|r l IH]; [done|]. intros Hl. rewrite bind_cons, IH, (Hl r); [done|left|]. intros. apply Hl. by right. }
    by apply H.
  - exfalso. apply (Hno n x p). destruct (foldl step ([], []) events) as [records errors]. simpl in *. set_solver.
Qed.

(** The fuel of the walk is enough: more of it finds nothing else. *)
Lemma lineage_walk_enough records fuel k aid seen cur :
  NoDup seen → (∀ x, x ∈ seen → x ∈ dkeys records) → length records < fuel + length seen →
  lineage_walk (fuel + k) records aid seen cur = lineage_walk fuel records aid seen cur.
Proof.
  revert seen cur. induction fuel as [|fuel IH]; intros seen cur Hnd Hin Hlen.
  - exfalso. assert (length seen ≤ length (dkeys records)) as H.
    { apply submseteq_length, NoDup_submseteq; done. }
    unfold dkeys in H. rewrite length_fmap in H. lia.
  - simpl. destruct cur as [c|]; [|done]. destruct (mem c seen) eqn:Em; [done|].
    destruct (dget c records) as [a|] eqn:Ea; [|done]. apply IH; [|intros x|simpl; lia].
    + constructor; [|done]. intros H. apply mem_true in H. congruence.
    + intros [->|?]%elem_of_cons; [|auto]. apply dmem_spec. unfold dmem. rewrite Ea. by apply bool_decide_eq_true_2.
Qed.

Theorem lineage_terminates records aid a k :
  (aid, a) ∈ records →
  lineage_walk (S (length records) + k) records aid [aid] (at_supersedes a)
  = lineage_walk (S (length records)) records aid [aid] (at_supersedes a).
Proof.
  intros H. apply lineage_walk_enough; [apply NoDup_singleton| |simpl; lia].
  intros x ->%list_elem_of_singleton. by apply (list_elem_of_fmap_2 fst _ (aid, a)).
Qed.

(** ** Identifiers are not reused *)

Lemma foldl_max_in (l : list N) m n : n ∈ l → (n ≤ foldl N.max m l)%N.
Proof.
  revert m. induction l as [|x l IH]; intros m; [by intros ?%elem_of_nil|]. simpl. intros [->|H]%elem_of_cons; [|auto].
  clear IH. revert m. induction l as [|y l IH]; intros m; simpl; [lia|]. replace (N.max (N.max m x) y) with (N.max (N.max m y) x) by lia. apply IH.
Qed.

Lemma int_of_zeros n s : int_of (replicate n 48%N ++ s) = int_of s.
Proof. induction n as [|n IH]; [done|]. by rewrite <-IH. Qed.

Lemma pad3_ok n : Forall (λ c, is_digit c = true) (pad3 n) ∧ 3 ≤ length (pad3 n) ∧ int_of (pad3 n) = n.
Proof.
  unfold pad3. split_and!.
  - apply Forall_app. split; [by apply Forall_replicate|apply digits_of].
  - rewrite length_app, length_replicate. lia.
  - rewrite int_of_zeros. apply int_of_str_of.
Qed.

Lemma attempt_number_pad3 n : attempt_number ("A-" +s pad3 n) = n.
Proof.
  destruct (pad3_ok n) as (Hd & Hl & Hn). unfold attempt_number.
  assert (re_match (seqs [lit "A-"; Grp 1 (Seq (rep 3 is_digit) (Star is_digit)); Eol]) (py "A-" ++ pad3 n)
    = Some [(1, pad3 n)]) as E.
  { cbn [seqs]. rewrite <-(app_nil_r (pad3 n)) at 1. eapply first_match.
    eapply first_Seq; [apply first_lit|]. eapply first_Seq; [|apply first_Eol]. apply first_Grp.
    rewrite <-(take_drop 3 (pad3 n)) in Hd |- * at 1. apply Forall_app in Hd as [Hd1 Hd2].
    rewrite <-(assoc_L (++)). eapply first_Seq; [apply first_rigid; [done|]|by apply first_Star].
    apply lang_rep. split; [by rewrite length_take_le|done]. }
  unfold cat. rewrite E. by simpl.
Qed.

(** The next identifier is above every identifier the history names in a legal
    attempt event, so it is not one of them and opens no duplicate. *)
Theorem next_attempt_is_fresh events :
  (∀ e t, e ∈ events → parse_event e = Ok (Some t) → record_id t ≠ next_attempt_id parse_runtime_provenance events) ∧
  next_attempt_id parse_runtime_provenance events ∉ dkeys (build events).1.
Proof.
  assert (∀ e t, e ∈ events → parse_event e = Ok (Some t) →
    record_id t ≠ next_attempt_id parse_runtime_provenance events) as H.
  { intros e t He Ht E. unfold next_attempt_id in E. set (m := foldl _ _ _) in E.
    apply (f_equal attempt_number) in E. rewrite attempt_number_pad3 in E.
    assert (event_number parse_runtime_provenance e ≤ m)%N as Hle.
    { apply foldl_max_in. apply list_elem_of_fmap. by exists e. }
    unfold event_number in Hle. rewrite Ht, E in Hle. lia. }
  split; [done|].
  enough (∀ aid, aid ∈ dkeys (build events).1 → ∃ e t, e ∈ events ∧ parse_event e = Ok (Some t) ∧ record_id t = aid) as H'.
  { intros (e & t & He & Ht & Et)%H'. by eapply H. }
  unfold build_attempts.
  assert (∀ aid, aid ∈ dkeys (foldl step ([], []) events).1 →
    ∃ e t, e ∈ events ∧ parse_event e = Ok (Some t) ∧ record_id t = aid) as H'; [|by destruct (foldl _ _ _)].
  clear H. induction events as [|e events IH] using rev_ind; [by intros ? ?%elem_of_nil|].
  rewrite foldl_app. cbn [foldl]. destruct (foldl step ([], []) events) as [records errors]. unfold attempt_step.
  assert (∀ aid, aid ∈ dkeys records → ∃ e' t, e' ∈ events ++ [e] ∧ parse_event e' = Ok (Some t) ∧ record_id t = aid) as Hold.
  { intros aid (e' & t & ? & ? & ?)%IH. exists e', t. set_solver. }
  destruct (parse_event e) as [[[aid sup seat|aid result stop ev unknown]|]|err] eqn:Ep; simpl; try done.
  - destruct (dmem aid records); [done|]. simpl. intros x [->|?]%elem_of_dkeys_dset; [|auto].
    exists e, (Opening aid sup seat). set_solver.
  - destruct (dget aid records) as [a|]; [|done]. destruct (close_error _ _ _ _); [done|].
    simpl. intros x [->|?]%elem_of_dkeys_dset; [|auto]. exists e, (Closing aid result stop ev unknown). set_solver.
Qed.

(** ** The contract *)

Lemma insert_by_perm {A} (key : A → N) x l : insert_by key x l ≡ₚ x :: l.
Proof. induction l as [|y l IH]; [done|]. simpl. destruct (key x <=? key y)%N; [done|]. rewrite IH. by constructor. Qed.
Lemma sort_by_perm {A} (key : A → N) l : sort_by key l ≡ₚ l.
Proof. induction l as [|x l IH]; [done|]. simpl. by rewrite insert_by_perm, IH. Qed.

Lemma elem_of_active records aid :
  wf_dict records → aid ∈ active_attempts records ↔ ∃ a, dget aid records = Some a ∧ is_open a = true.
Proof.
  intros Hwf. unfold active_attempts. rewrite list_elem_of_fmap. split.
  - intros ([k a] & -> & [Ho H]%list_elem_of_filter). rewrite sort_by_perm in H. exists a. split; [|done]. by apply dget_elem.
  - intros (a & Ha & Ho). exists (aid, a). split; [done|]. apply list_elem_of_filter. split; [done|].
    rewrite sort_by_perm. by apply dget_Some_elem.
Qed.

(** The pointer of the state document and the open attempt on its task. *)
Definition pointer_agrees (s : state_view) (records : attempts) : Prop :=
  (∀ p, sv_attempt s = Some p →
     task_is_none s = false ∧ ∃ a, dget p records = Some a ∧ is_open a = true ∧ at_ticket a = sv_task s) ∧
  (∀ aid a, dget aid records = Some a → is_open a = true → at_ticket a = sv_task s → sv_attempt s = Some aid).

Lemma elem_of_on_task s records aid :
  wf_dict records →
  aid ∈ on_task s records ↔ ∃ a, dget aid records = Some a ∧ is_open a = true ∧ at_ticket a = sv_task s.
Proof.
  intros Hwf. unfold on_task. rewrite list_elem_of_filter, elem_of_active by done. split.
  - intros [E (a & Ha & Ho)]. rewrite Ha in E. exists a. split_and!; [done..|]. by injection E.
  - intros (a & Ha & Ho & Et). rewrite Ha. simpl. rewrite Et. eauto.
Qed.

Lemma pointer_errors_nil s records :
  pointer_errors s records = [] ↔
  ∀ p, sv_attempt s = Some p →
    task_is_none s = false ∧ ∃ a, dget p records = Some a ∧ is_open a = true ∧ at_ticket a = sv_task s.
Proof.
  unfold pointer_errors. destruct (sv_attempt s) as [p|]; [|split; [intros _ ? [=]|done]]. split.
  - destruct (task_is_none s); [done|]. destruct (dget p records) as [a|] eqn:Ea; [|done].
    destruct (is_open a) eqn:Eo; [|done]. simpl. case_bool_decide as Et; [|done]. intros _ q [= <-]. eauto.
  - intros H. destruct (H p eq_refl) as (-> & a & -> & -> & Et). simpl. by rewrite bool_decide_eq_true_2.
Qed.

(** The contract is silent only on a history whose fold reports nothing, with at
    most one open attempt, whose pointer and open attempt name each other, and
    whose evidence exists. *)
Theorem contract_silent events s known :
  contract_errors parse_runtime_provenance events s known = [] →
  let records := (build events).1 in
  (build events).2 = [] ∧ length (active_attempts records) ≤ 1 ∧ pointer_agrees s records ∧
  (∀ aid a ref, dget aid records = Some a → ref ∈ at_evidence a → int_of (drop 2 ref) ∈ e_event <$> events) ∧
  (∀ aid a, known ≠ None → dget aid records = Some a → at_ticket a ≠ Some (py "T-none")).
Proof.
  pose proof (build_ok events) as [Hwf _]. unfold contract_errors.
  destruct (build events) as [records errors]. cbv zeta. cbn [fst snd] in *. rewrite !app_nil.
  intros (Hf & Hopen & Hknown & Hev & Hp & Ho).
  assert (length (active_attempts records) ≤ 1) as Hle.
  { destruct (Nat.ltb_spec 1 (length (active_attempts records))); [done|lia]. }
  split_and!; [by destruct errors|done| | |].
  - split; [by apply pointer_errors_nil|]. intros aid a Ha Hop Ht.
    assert (aid ∈ on_task s records) as Hin by (apply elem_of_on_task; [done|eauto]).
    unfold open_errors in Ho. destruct (on_task s records) as [|x [|y l]]; [by apply elem_of_nil in Hin| |done].
    apply list_elem_of_singleton in Hin as <-. destruct (sv_attempt s) as [p|]; [|done].
    destruct (eqs p aid) eqn:E; [|done]. by apply eqs_true in E as ->.
  - intros aid a ref Ha Hr. apply dget_Some_elem in Ha. unfold evidence_errors in Hev.
    pose proof (bind_nil _ _ _ Hev Ha) as H. simpl in H. pose proof (bind_nil _ _ _ H Hr) as H'. simpl in H'.
    by case_bool_decide.
  - intros aid a Hk Ha Ht. destruct known as [known|]; [|done]. apply dget_Some_elem in Ha. unfold known_errors in Hknown.
    pose proof (bind_nil _ _ _ Hknown Ha) as H. simpl in H. rewrite Ht in H. by vm_compute in H.
Qed.

(** ** Admission *)

(** A finished ticket is admitted exactly when every candidate attempt of it that
    was closed is followed by a boundary of its own. *)
Theorem admission_exact ticket_id records events :
  ticket_admission_error ticket_id records events = None ↔
  ∀ aid a c, (aid, a) ∈ records → at_ticket a = Some ticket_id → at_result a = Some (py "candidate") →
    at_close_event a = Some c →
    ∃ e, e ∈ events ∧ e_ticket e = Some ticket_id ∧ is_run e = true ∧ _is_verify_boundary e = true ∧ (c < e_event e)%N.
Proof.
  unfold ticket_admission_error. rewrite fmap_None, find_first_None.
  assert (∀ c, boundary_after ticket_id c events = true ↔
    ∃ e, e ∈ events ∧ e_ticket e = Some ticket_id ∧ is_run e = true ∧ _is_verify_boundary e = true ∧ (c < e_event e)%N) as Hb.
  { intros c. unfold boundary_after. rewrite existsb_exists. setoid_rewrite <-list_elem_of_In.
    split; intros (e & He & H); exists e; (split; [done|]).
    - bool_tac. N_bounds. rewrite about_true in *. done.
    - destruct H as (H1 & -> & -> & H2). apply about_true in H1 as ->. simpl. by apply N.ltb_lt. }
  split.
  - intros H aid a c Hin Ht Hr Hc. apply Hb. specialize (H a). rewrite sort_by_perm in H.
    apply negb_false_iff. rewrite Hc in H. apply H. apply list_elem_of_filter. split.
    + unfold is_candidate. by rewrite Ht, Hr, Hc, !bool_decide_eq_true_2 by done.
    + by apply (list_elem_of_fmap_2 snd _ (aid, a)).
  - intros H a. rewrite sort_by_perm, list_elem_of_filter. intros [Hc Hin]. unfold is_candidate in Hc. bool_tac.
    destruct (at_close_event a) as [c|] eqn:Ec; [|done]. simpl. apply negb_false_iff, Hb.
    unfold dvalues in Hin. apply list_elem_of_fmap in Hin as ([aid a'] & -> & Hin). by eapply H.
Qed.
End facts.

(** ** A history *)

Definition no_provenance (token : pystr) : res pystr pystr := Err token.

Definition sample_attempt_events : list event :=
  [sample_event 1 "T-1" "DEC" "attempt A-001 open" None;
   sample_event 2 "T-1" "DEC" "attempt A-001 close result candidate stop completed_execution -- evidence E-1, E-2" None;
   sample_event 3 "T-1" "RUN" "transition to VERIFY" (Some (py "typed-by-hand"));
   sample_event 4 "T-2" "DEC" "attempt A-002 open; supersedes A-001" None].
Definition sample_state : state_view := StateView (Some (py "T-2")) (Some (py "A-002")).

Lemma contract_silent_witness :
  contract_errors no_provenance sample_attempt_events sample_state (Some (strs ["T-1"; "T-2"])) = [] ∧
  pointer_agrees sample_state (build_attempts no_provenance sample_attempt_events).1.
Proof.
  assert (contract_errors no_provenance sample_attempt_events sample_state (Some (strs ["T-1"; "T-2"])) = []) as E
    by (vm_compute; reflexivity).
  split; [exact E|]. destruct (contract_silent no_provenance _ _ _ E) as (_ & _ & H & _). exact H.
Defined.

Lemma cycle_needs_forward_reference_witness :
  lineage_errors (build_attempts no_provenance sample_attempt_events).1 = [].
Proof.
  apply (cycle_needs_forward_reference no_provenance sample_attempt_events). intros n x p.
  assert ((build_attempts no_provenance sample_attempt_events).2 = []) as -> by (vm_compute; reflexivity).
  apply not_elem_of_nil.
Defined.

(** A boundary that was typed by hand opens no cycle for the evidence of a ticket,
    and admits its producer all the same. *)
Theorem hand_authored_boundary_admits :
  let records := (build_attempts no_provenance sample_attempt_events).1 in
  verification_evidence "T-1" sample_attempt_events = (false, NO_VERIFY_BOUNDARY) ∧
  is_Some (dget (py "A-001") records ≫= at_close_event) ∧
  ticket_admission_error "T-1" records sample_attempt_events = None ∧
  ticket_admission_error "T-1" records (take 2 sample_attempt_events) = Some (py "A-001").
Proof. split_and!; vm_compute; try reflexivity. by eexists. Qed.
