(* ===== verification/LogRegression.v ===== *)
(** * The regression pair of a ticket

    [regression_evidence] of [tools/saipen_engine/log.py]: the pair of evidence
    records of the current cycle, held to one producing attempt. *)

From S2P Require Import Prelude PyStr PyStrFacts PyUnicode PyRegex PyDict LogLine Oracle LogVerdict LogEvidence Attempt AttemptFacts.

Inductive regression_reason : Type :=
  | NoTicketId
  | NoBoundary
  | InvalidAttempts
  | DifferentAttempts
  | Verdict (v : verdict).

Section regression.
Context (parse_runtime_provenance : pystr → res pystr pystr).

(** The attempt an event was produced in, when exactly one was open. *)
Definition producing (own : list attempt) (n : N) : option pystr :=
  match base.filter (λ a, (at_open_event a <=? n)%N &&
           match at_close_event a with None => true | Some c => (n <=? c)%N end = true) own with
  | [a] => Some (at_id a)
  | _ => None
  end.

(** The evidence records of the cycle, each with its event and its attempt. *)
Definition cycle_records (tid : pystr) (own : list attempt) (latest_open : N) (cycle : list event)
    : list (event * evidence * option pystr) :=
  omap (λ e, if about tid e && is_run e && negb (_hand_authored e) && negb (e_event e <? latest_open)%N
             then r ← parse_evidence (e_text e); Some (e, r, producing own (e_event e))
             else None) cycle.

Definition last_with (result : pystr) (l : list (event * evidence * option pystr)) : option (event * evidence * option pystr) :=
  find_first (λ x, ev_result x.1.2 =s result) (reverse l).

Definition regression_evidence (tid : pystr) (events : list event) : bool * regression_reason :=
  if negb (nonempty tid) then (false, NoTicketId)
  else match last_index (opens_the_cycle tid) events with
       | None => (false, NoBoundary)
       | Some boundary =>
           let '(records, errors) := build_attempts parse_runtime_provenance events in
           if negb (match errors with [] => true | _ => false end) then (false, InvalidAttempts)
           else
             let own := base.filter (λ a, at_ticket a = Some tid) (dvalues records) in
             let latest_open := foldr N.max 0%N (at_open_event <$> own) in
             let found := cycle_records tid own latest_open (drop boundary events) in
             match last_with "FAIL" found, last_with "PASS" found with
             | Some before, Some after =>
                 if bool_decide (before.2 = after.2)
                 then let v := regression_evidence_verdict ((λ x, x.1.2) <$> found) in (admissible v, Verdict v)
                 else (false, DifferentAttempts)
             | _, _ => let v := regression_evidence_verdict ((λ x, x.1.2) <$> found) in (admissible v, Verdict v)
             end
       end.
End regression.

Section facts.
Context (parse_runtime_provenance : pystr → res pystr pystr).

Lemma last_with_split result l1 x l2 :
  ev_result x.1.2 = result → Forall (λ y, ev_result y.1.2 ≠ result) l2 → last_with result (l1 ++ x :: l2) = Some x.
Proof.
  intros Hx Hl. unfold last_with. rewrite reverse_app, reverse_cons, <-(assoc_L (++)). apply Forall_reverse in Hl.
  induction Hl as [|y l Hy Hl IH]; simpl.
  - by rewrite (proj2 (eqs_true _ _) Hx).
  - destruct (eqs _ _) eqn:E; [by apply eqs_true in E|done].
Qed.

Lemma elem_of_cycle_records tid own latest cycle x :
  x ∈ cycle_records tid own latest cycle →
  x.1.1 ∈ cycle ∧ about tid x.1.1 && is_run x.1.1 && negb (_hand_authored x.1.1) = true ∧
  (latest ≤ e_event x.1.1)%N ∧ parse_evidence (e_text x.1.1) = Some x.1.2 ∧ x.2 = producing own (e_event x.1.1).
Proof.
  intros (e & He & H)%list_elem_of_omap. destruct (about tid e && is_run e && negb (_hand_authored e)) eqn:Ec; simpl in H; [|done].
  destruct (e_event e <? latest)%N eqn:El; simpl in H; [done|]. apply N.ltb_ge in El.
  apply bind_Some in H as (r & Hr & [= <-]). done.
Qed.

Lemma foldr_max_ge (l : list N) n : n ∈ l → (n ≤ foldr N.max 0 l)%N.
Proof. induction l as [|m l IH]; [by intros ?%elem_of_nil|]. simpl. intros [->|H]%elem_of_cons; [lia|]. specialize (IH H). lia. Qed.

(** A ticket that owes a regression pair is proven only by two records of its
    current cycle, a red one before a green one: runs of the ticket written by the
    machine since its latest attempt was opened, both within the same attempt, by
    one named verifier over two named subjects that differ, in a history whose
    attempts are all legal. *)
Theorem regression_pair_of_one_attempt tid events reason :
  regression_evidence parse_runtime_provenance tid events = (true, reason) →
  (build_attempts parse_runtime_provenance events).2 = [] ∧
  ∃ pre b post e1 r1 e2 r2 aid, events = pre ++ b :: post ∧ opens_the_cycle tid b = true ∧
    Forall (λ e, opens_the_cycle tid e = false) post ∧
    e1 ∈ b :: post ∧ e2 ∈ b :: post ∧
    (about tid e1 && is_run e1 && negb (_hand_authored e1) = true) ∧
    (about tid e2 && is_run e2 && negb (_hand_authored e2) = true) ∧
    parse_evidence (e_text e1) = Some r1 ∧ parse_evidence (e_text e2) = Some r2 ∧
    red r1 ∧ green r2 ∧ proves_the_fix r1 r2 ∧
    let own := base.filter (λ a, at_ticket a = Some tid) (dvalues (build_attempts parse_runtime_provenance events).1) in
    producing own (e_event e1) = aid ∧ producing own (e_event e2) = aid ∧
    (∀ a, a ∈ own → (at_open_event a ≤ e_event e1)%N ∧ (at_open_event a ≤ e_event e2)%N).
Proof.
  unfold regression_evidence. destruct (nonempty tid); [|done]. simpl.
  destruct (last_index _ _) as [i|] eqn:Ei; [|done].
  apply last_index_Some in Ei as (pre & b & post & -> & <- & Hb & Hpost). rewrite drop_app_length.
  destruct (build_attempts _ _) as [records errors]. cbn [fst snd]. destruct errors; [|done].
  set (own := base.filter _ _). set (latest := foldr _ _ _). set (found := cycle_records _ _ _ _).
  intros H. split; [done|].
  assert (admissible (regression_evidence_verdict ((λ x, x.1.2) <$> found)) = true ∧
    (∀ x y, last_with "FAIL" found = Some x → last_with "PASS" found = Some y → x.2 = y.2)) as [Hadm Hsame].
  { destruct (last_with "FAIL" found) as [x|], (last_with "PASS" found) as [y|]; try (by injection H as ->).
    case_bool_decide; [|done]. injection H as H _. split; [done|]. by intros ?? [= <-] [= <-]. }
  clear H. apply admissible_pair in Hadm as (l1 & r1 & l2 & r2 & l3 & E & Hr & Hg & Hnr & Hng & Hfix).
  apply fmap_app_inv in E as (f1 & g1 & _ & Ef & E1). symmetry in Ef.
  apply fmap_cons_inv in Ef as (x & g2 & -> & Ef & ->). symmetry in Ef.
  apply fmap_app_inv in Ef as (f2 & g3 & -> & Ef & ->). symmetry in Ef.
  apply fmap_cons_inv in Ef as (y & f3 & -> & -> & ->).
  assert (last_with "FAIL" found = Some x) as Hx.
  { rewrite E1. apply last_with_split; [done|]. unfold no_later in Hnr.
    assert (Forall (λ r, ¬ red r) ((λ x : event * evidence * option pystr, x.1.2) <$> (f2 ++ y :: f3))) as H
      by (by rewrite fmap_app). by rewrite Forall_fmap in H. }
  assert (last_with "PASS" found = Some y) as Hy.
  { rewrite E1. change (x :: f2 ++ y :: f3) with ((x :: f2) ++ y :: f3). rewrite (assoc_L (++)).
    apply last_with_split; [done|]. unfold no_later in Hng. rewrite Forall_fmap in Hng. exact Hng. }
  specialize (Hsame _ _ Hx Hy).
  assert (x ∈ found) as (Hx1 & Hx2 & Hx3 & Hx4 & Hx5)%elem_of_cycle_records by (rewrite E1; set_solver).
  assert (y ∈ found) as (Hy1 & Hy2 & Hy3 & Hy4 & Hy5)%elem_of_cycle_records by (rewrite E1; set_solver).
  exists pre, b, post, x.1.1, x.1.2, y.1.1, y.1.2, x.2.
  split_and!; try done; [congruence|].
  intros a Ha. assert (at_open_event a ≤ latest)%N by (apply foldr_max_ge, list_elem_of_fmap; by exists a). lia.
Qed.
End facts.

Definition sample_pair : list event :=
  [sample_event 1 "T-1" "DEC" "attempt A-001 open" None;
   sample_event 2 "T-1" "RUN" "transition to VERIFY" None;
   sample_event 3 "T-1" "RUN" "REGRESSION-EVIDENCE FAIL verifier:0123456789abcdef subject:aaaaaaaa" None;
   sample_event 4 "T-1" "RUN" "REGRESSION-EVIDENCE PASS verifier:0123456789abcdef subject:bbbbbbbb" None].

Lemma regression_pair_of_one_attempt_witness :
  regression_evidence no_provenance "T-1" sample_pair = (true, Verdict ADMISSIBLE) ∧
  ∃ e1 e2, e1 ∈ sample_pair ∧ e2 ∈ sample_pair ∧ e1 ≠ e2.
Proof.
  assert (regression_evidence no_provenance "T-1" sample_pair = (true, Verdict ADMISSIBLE)) as E by (vm_compute; reflexivity).
  split; [exact E|].
  destruct (regression_pair_of_one_attempt no_provenance _ _ _ E)
    as (_ & pre & b & post & e1 & r1 & e2 & r2 & aid & Es & _ & _ & H1 & H2 & _ & _ & P1 & P2 & Hr & Hg & _).
  exists e1, e2. rewrite Es. split_and!; [apply elem_of_app; by right|apply elem_of_app; by right|]. intros ->. rewrite P1 in P2. injection P2 as ->.
  by eapply red_green.
Defined.
