(* ===== verification/Ownership.v ===== *)
(** * The execution seat

    [tools/saipen_engine/ownership.py]: who owns the active ticket at a fixed
    instant, and the invariant between the state document and the board. *)

From S2P Require Import Prelude PyStr PyStrFacts PyDict BoardClock BoardParse BoardClaims.

Inductive seat_status : Type := NO_ACTIVE | Seat (c : claim).
Global Instance seat_status_eq_dec : EqDecision seat_status.
Proof. solve_decision. Defined.

Definition ADOPTABLE : list seat_status := [Seat UNCLAIMED; Seat FOREIGN_STALE].
Definition MUTABLE : list seat_status := [NO_ACTIVE; Seat SELF].

(** The fields of the state document the classifier reads. *)
Record seat_state : Type := SeatState { ss_task : option pystr; ss_agent : option pystr }.

Record ActiveOwnership : Type := Ownership {
  ow_status : seat_status;
  ow_active_ticket : option pystr;
  ow_state_task : option pystr;
  ow_state_agent : option pystr;
  ow_board_owner : option pystr;
  ow_claim_time : option pystr;
  ow_actor : option pystr;
  ow_evaluated_at : Z;
  ow_bound : bool;
  ow_misbound : bool;
}.

Definition has_active (own : ActiveOwnership) : bool := bool_decide (is_Some (ow_active_ticket own)).
Definition may_mutate_active (own : ActiveOwnership) : bool := bool_decide (ow_status own ∈ MUTABLE).
Definition requires_adoption (own : ActiveOwnership) : bool := bool_decide (ow_status own ∈ ADOPTABLE).

(** [s or None] *)
Definition some_text (s : pystr) : option pystr := if nonempty s then Some s else None.
Definition bound_task (s : seat_state) : option pystr :=
  match ss_task s with
  | Some t => if mem t (strs ["none"; ""]) then None else Some t
  | None => None
  end.

(** [session] is given when the caller has a root: the claim binding this process
    can present. *)
Definition classify_active_ownership (s : seat_state) (ts : tickets) (actor : option pystr) (now : Z)
    (session : option (option pystr)) : ActiveOwnership :=
  let state_task := bound_task s in
  let state_agent := some_text (strip (default [] (ss_agent s))) in
  match base.filter (λ t, in_section t DOING = true) (dvalues ts) with
  | [] => Ownership NO_ACTIVE None state_task state_agent None None actor now false (bool_decide (is_Some state_task))
  | t :: _ =>
      let status := claim_status t actor now in
      let status :=
        match session, status with
        | Some binding, SELF => if session_locked_out t binding now then FOREIGN_LIVE else SELF
        | _, st => st
        end in
      Ownership (Seat status) (Some (t_id t)) state_task state_agent
        (some_text (field t "owner")) (some_text (field t "claim_time")) actor now
        (bool_decide (state_task = Some (t_id t)))
        (bool_decide (is_Some state_task) && negb (bool_decide (state_task = Some (t_id t))))
  end.

Inductive seat_error : Type :=
  | InvalidClaim (ticket : option pystr)
  | OwnerSplit (agent owner : pystr) (ticket : option pystr)
  | LiveForeign (owner : option pystr).

Definition preexisting_split_error (own : ActiveOwnership) (seated : option pystr) : option seat_error :=
  if bool_decide (ow_status own = Seat INVALID) then Some (InvalidClaim (ow_active_ticket own))
  else match ow_board_owner own, seated with
       | Some owner, Some seat =>
           if has_active own && nonempty seat && negb (seat =s owner)
           then Some (OwnerSplit seat owner (ow_active_ticket own)) else None
       | _, _ => None
       end.

Definition ownership_invariant_errors (s : seat_state) (ts : tickets) (actor : option pystr) (now : Z)
    : list seat_error :=
  let own := classify_active_ownership s ts actor now None in
  if negb (has_active own) || negb (ow_bound own) then []
  else if bool_decide (ow_status own = Seat INVALID) then [InvalidClaim (ow_active_ticket own)]
  else match ow_board_owner own, ow_state_agent own with
       | Some owner, Some agent => if owner =s agent then [] else [OwnerSplit agent owner (ow_active_ticket own)]
       | _, _ => []
       end.

Definition adoption_action (ticket_id : pystr) : pystr := "saipen claim " +s ticket_id.

Definition handover_refusal_detail (own : ActiveOwnership) : option seat_error :=
  if negb (has_active own) then None
  else match ow_status own with
       | Seat FOREIGN_LIVE => Some (LiveForeign (ow_board_owner own))
       | Seat INVALID => Some (InvalidClaim (ow_active_ticket own))
       | _ => None
       end.

(** ** The classification is a partition *)

Lemma seat_cases own :
  (ow_status own ≠ NO_ACTIVE → has_active own = true) →
  (may_mutate_active own = true ∧ requires_adoption own = false ∧ handover_refusal_detail own = None) ∨
  (may_mutate_active own = false ∧ requires_adoption own = true ∧ handover_refusal_detail own = None) ∨
  (may_mutate_active own = false ∧ requires_adoption own = false ∧ handover_refusal_detail own ≠ None).
Proof.
  unfold may_mutate_active, requires_adoption, handover_refusal_detail. intros H.
  destruct (ow_status own) as [|c]; [left; by destruct (has_active own)|].
  rewrite H by done. destruct c; [right; left|left|right; right|right; left|right; right]; done.
Qed.

(** An actor either may mutate, or must adopt first, or is refused a handover. *)
Theorem seat_trichotomy s ts actor now session :
  let own := classify_active_ownership s ts actor now session in
  (may_mutate_active own = true ∧ requires_adoption own = false ∧ handover_refusal_detail own = None) ∨
  (may_mutate_active own = false ∧ requires_adoption own = true ∧ handover_refusal_detail own = None) ∨
  (may_mutate_active own = false ∧ requires_adoption own = false ∧ handover_refusal_detail own ≠ None).
Proof. apply seat_cases. unfold classify_active_ownership. by destruct (base.filter _ _). Qed.

(** ** The committed invariant *)

(** What no committed state may break: the active claim that the state document is
    bound to is readable, and its owner, when both are named, holds the seat. *)
Definition seat_agrees (s : seat_state) (t : ticket) (now : Z) : Prop :=
  claim_status t None now ≠ INVALID ∧
  ∀ agent, some_text (strip (default [] (ss_agent s))) = Some agent → field t "owner" ≠ [] → field t "owner" = agent.

Lemma some_text_Some x y : some_text x = Some y ↔ x = y ∧ x ≠ [].
Proof. unfold some_text. destruct x; simpl; naive_solver. Qed.

(** The checker is silent exactly when the first active ticket, if the state names
    it, is claimed readably by the seated agent; who asks does not matter. *)
Theorem ownership_invariant_exact s ts actor now :
  ownership_invariant_errors s ts actor now = [] ↔
  ∀ t l, base.filter (λ t, in_section t DOING = true) (dvalues ts) = t :: l →
    bound_task s = Some (t_id t) → seat_agrees s t now.
Proof.
  unfold ownership_invariant_errors, classify_active_ownership.
  destruct (base.filter _ _) as [|t l] eqn:El; [split; [intros _ ?? [=]|done]|].
  unfold has_active. cbn. case_bool_decide as Eb; cbn.
  2: { split; [|done]. intros _ t' l' [= <- <-] E. congruence. }
  case_bool_decide as Ei.
  { split; [done|]. intros H. destruct (H t l eq_refl Eb) as [Hn _]. exfalso. apply Hn.
    apply (claim_invalid_stable t actor now). by injection Ei. }
  assert (claim_status t None now ≠ INVALID) as Hn.
  { intros E. apply (claim_invalid_stable t None now actor now) in E. by rewrite E in Ei. }
  split.
  - intros H t' l' [= <- <-] _. split; [done|]. intros agent Ha Ho.
    rewrite Ha in H. assert (some_text (field t "owner") = Some (field t "owner")) as E by (by apply some_text_Some).
    rewrite E in H. destruct (eqs _ _) eqn:Eq; [by apply eqs_true in Eq|done].
  - intros H. destruct (H t l eq_refl Eb) as [_ Ha].
    destruct (some_text (field t "owner")) as [o|] eqn:Eo; [|done]. apply some_text_Some in Eo as [<- Ho].
    destruct (some_text (strip _)) as [a|] eqn:Ea; [|done]. rewrite (Ha a eq_refl Ho). by rewrite eqs_refl.
Qed.

(** A state that breaks the invariant is never carried forward: a mutation that
    would preserve the seat is refused on it. *)
Theorem broken_seat_is_not_preserved s ts actor now :
  ownership_invariant_errors s ts actor now ≠ [] →
  let own := classify_active_ownership s ts actor now None in
  preexisting_split_error own (ow_state_agent own) ≠ None.
Proof.
  unfold ownership_invariant_errors, preexisting_split_error. cbv zeta.
  set (own := classify_active_ownership _ _ _ _ _). destruct (has_active own), (ow_bound own); cbn [negb orb]; try done.
  case_bool_decide; [done|]. destruct (ow_board_owner own) as [o|], (ow_state_agent own) as [a|] eqn:Ea; try done.
  intros H'. assert (nonempty a = true) as ->.
  { revert Ea. unfold own, classify_active_ownership. destruct (base.filter _ _); cbn;
      intros [<- H'']%some_text_Some; by apply nonempty_true. }
  destruct (eqs o a) eqn:E; [done|]. cbn [andb]. destruct (eqs a o) eqn:E'; [|done].
  apply eqs_true in E' as ->. by rewrite eqs_refl in E.
Qed.

(** A claim bound to another session is live for nobody but its session. *)
Theorem locked_session_cannot_mutate s ts actor now binding t l :
  base.filter (λ t, in_section t DOING = true) (dvalues ts) = t :: l →
  session_locked_out t binding now = true →
  let own := classify_active_ownership s ts actor now (Some binding) in
  may_mutate_active own = false ∧ requires_adoption own = false.
Proof.
  intros El Hl. cbv zeta. unfold classify_active_ownership. rewrite El.
  unfold may_mutate_active, requires_adoption. cbn. rewrite Hl.
  assert (claim_status t None now = FOREIGN_LIVE) as Hlive.
  { unfold session_locked_out in Hl. destruct (negb (nonempty _)); [done|]. cbn in Hl.
    case_bool_decide as E; [done|]. done. }
  assert (claim_status t actor now = SELF ∨ claim_status t actor now = FOREIGN_LIVE) as [-> | ->]; [|done..].
  revert Hlive. unfold claim_status. destruct (negb _); [done|]. destruct (negb _); [done|].
  destruct (iso_utc_sort_key _); [|done]. cbn. destruct (_ <=? _)%Z; [done|]. intros _. case_match; auto.
Qed.

Definition seat_ticket : ticket :=
  Ticket "T-1" DOING 3 " " [] [(py "owner", py "a1"); (py "claim_time", py "2026-01-01T00:00:00Z")] [] [] [].

Lemma broken_seat_is_not_preserved_witness :
  preexisting_split_error
    (classify_active_ownership (SeatState (Some (py "T-1")) (Some (py "a2"))) [(py "T-1", seat_ticket)] None 0 None)
    (Some (py "a2")) ≠ None.
Proof.
  apply (broken_seat_is_not_preserved (SeatState (Some (py "T-1")) (Some (py "a2"))) [(py "T-1", seat_ticket)] None 0).
  vm_compute. discriminate.
Defined.
