(* ===== verification/Iteration.v ===== *)
(** * The outer iteration

    [tools/saipen_engine/iteration.py]: the admission of an executor by its
    capabilities, the bounded failover over a pool of candidates, and the decision
    after a model turn. *)

From S2P Require Import Prelude PyStr PyDict BoardBlockers.

(** ** Capabilities *)

(** A value a candidate advertises: a truth value, a text, or another object with
    its truth. *)
Inductive advertised : Type := ABool (b : bool) | AText (s : pystr) | AOther (truth : bool).

Definition _truthy (v : advertised) : bool :=
  match v with
  | ABool b => b
  | AText s => mem (lower (strip s)) (strs ["true"; "yes"; "1"; "available"; "granted"])
  | AOther b => b
  end.

Abbreviation capabilities := (dict pystr advertised).

Definition EXECUTION_CAPABILITIES : gset pystr := list_to_set (strs ["shell"; "patch"]).
Definition required_for (state_requires : list pystr) : gset pystr :=
  list_to_set state_requires ∪ EXECUTION_CAPABILITIES.

Definition missing_of (candidate : capabilities) (required : gset pystr) : gset pystr :=
  base.filter (λ name, _truthy (default (ABool false) (dget name candidate)) = false) required.
Definition admit_candidate (candidate : capabilities) (required : gset pystr) : bool * gset pystr :=
  let missing := missing_of candidate required in (bool_decide (missing = ∅), missing).

(** ** Failover *)

Record Failover : Type := FailoverState {
  fo_epoch : pystr;
  fo_observations : gmap pystr (gset pystr);
}.

Definition observe (cid : pystr) (missing : gset pystr) (f : Failover) : Failover :=
  FailoverState (fo_epoch f) (<[cid := missing]> (fo_observations f)).
Definition new_epoch (epoch : pystr) (f : Failover) : Failover := FailoverState epoch ∅.

(** The pause: what was required, and what each executor of the pool lacked. *)
Record pause : Type := Pause {
  pz_required : list pystr;
  pz_pool : list (pystr * list pystr);
}.

Definition sorted_elements (s : gset pystr) : list pystr := sorted (elements s).

(** The loop of [select]: the first candidate that was never observed and fits. *)
Fixpoint select_go (candidates : list (pystr * capabilities)) (required : gset pystr) (f : Failover)
    : Failover * option pystr :=
  match candidates with
  | [] => (f, None)
  | (cid, caps) :: candidates' =>
      if bool_decide (is_Some (fo_observations f !! cid)) then select_go candidates' required f
      else if (admit_candidate caps required).1 then (f, Some cid)
           else select_go candidates' required (observe cid (admit_candidate caps required).2 f)
  end.

Definition select (candidates : list (pystr * capabilities)) (required : gset pystr) (f : Failover)
    : Failover * (option pystr * option pause) :=
  let '(f', chosen) := select_go candidates required f in
  (f', match chosen with
       | Some cid => (Some cid, None)
       | None => (None, Some (Pause (sorted_elements required)
                                ((λ c, (c.1, sorted_elements (default ∅ (fo_observations f' !! c.1)))) <$> candidates)))
       end).

(** ** The decision after a turn *)

Inductive turn_decision : Type :=
  | AUTO_KICK
  | VALID_TERMINAL
  | OPERATOR_WAIT
  | EXECUTOR_CAPABILITY_MISMATCH
  | RUNTIME_PAUSED.
Global Instance turn_decision_eq_dec : EqDecision turn_decision.
Proof. solve_decision. Defined.

Definition decide_turn (executor_compatible goal_complete executable_action_remains operator_due valve_tripped
    all_candidates_exhausted : bool) : turn_decision :=
  if negb executor_compatible then
    if all_candidates_exhausted then RUNTIME_PAUSED else EXECUTOR_CAPABILITY_MISMATCH
  else if operator_due || valve_tripped then OPERATOR_WAIT
  else if goal_complete && negb executable_action_remains then VALID_TERMINAL
  else if executable_action_remains then AUTO_KICK
  else OPERATOR_WAIT.

Definition may_report_goal_complete (d : turn_decision) : bool := bool_decide (d = VALID_TERMINAL).

(** ** What the decisions guarantee *)

Lemma admit_true caps required :
  (admit_candidate caps required).1 = true ↔ ∀ name, name ∈ required → _truthy (default (ABool false) (dget name caps)) = true.
Proof.
  unfold admit_candidate, missing_of. cbn [fst]. rewrite bool_decide_eq_true. split.
  - intros E name Hn. destruct (_truthy _) eqn:Et; [done|]. exfalso.
    apply (not_elem_of_empty (C := gset pystr) name). rewrite <-E. by apply elem_of_filter.
  - intros H. apply set_eq. intros name. rewrite elem_of_filter. split; [|by intros ?%not_elem_of_empty].
    intros [E Hn]. rewrite (H name Hn) in E. done.
Qed.

(** The pool with an unfit, an unobserved and a fit candidate, taken apart. *)
Lemma select_go_spec candidates required f f' chosen :
  select_go candidates required f = (f', chosen) →
  fo_epoch f' = fo_epoch f ∧ fo_observations f ⊆ fo_observations f' ∧
  (∀ cid, is_Some (fo_observations f' !! cid) →
     is_Some (fo_observations f !! cid) ∨ ∃ caps, (cid, caps) ∈ candidates ∧ (admit_candidate caps required).1 = false) ∧
  match chosen with
  | Some cid => fo_observations f' !! cid = None ∧
      ∃ caps l1 l2, candidates = l1 ++ (cid, caps) :: l2 ∧ (admit_candidate caps required).1 = true ∧
        ∀ x, x ∈ l1 → is_Some (fo_observations f' !! x.1)
  | None => ∀ x, x ∈ candidates → is_Some (fo_observations f' !! x.1)
  end.
Proof.
  revert f. induction candidates as [|[cid caps] candidates IH]; intros f; cbn [select_go].
  { intros [= <- <-]. split_and!; [done..|by left|by intros ? ?%elem_of_nil]. }
  case_bool_decide as Ho.
  - intros H. apply IH in H as (He & Hsub & Hnew & Hc). split_and!; [done..| |].
    + intros x Hx. destruct (Hnew x Hx) as [?|(cp & ? & ?)]; [by left|right]. exists cp. split; [by right|done].
    + assert (is_Some (fo_observations f' !! cid)) by (destruct Ho as [m Hm]; exists m; by eapply lookup_weaken).
      destruct chosen as [c|].
      * destruct Hc as (Hn & cp & l1 & l2 & -> & Ha & Hl). split; [done|]. exists cp, ((cid, caps) :: l1), l2.
        split_and!; [done..|]. intros x [->|?]%elem_of_cons; auto.
      * intros x [->|?]%elem_of_cons; auto.
  - destruct (admit_candidate caps required).1 eqn:Ea.
    + intros [= <- <-]. split_and!; [done..|by left|by apply eq_None_not_Some|].
      exists caps, [], candidates. split_and!; [done..|by intros ? ?%elem_of_nil].
    + intros H. apply IH in H as (He & Hsub & Hnew & Hc). simpl in *. apply eq_None_not_Some in Ho.
      split_and!; [done|etrans; [by apply insert_subseteq|done]| |].
      * intros x Hx'. destruct (Hnew x Hx') as [Hx|(cp & ? & ?)]; [|right; exists cp; split; [by right|done]].
        destruct (decide (cid = x)) as [<-|Hne]; [right; exists caps; split; [by left|done]|].
        rewrite lookup_insert_ne in Hx by done. by left.
      * assert (is_Some (fo_observations f' !! cid)) as Hcid.
        { eexists. eapply lookup_weaken; [|exact Hsub]. apply lookup_insert_eq. }
        destruct chosen as [c|].
        -- destruct Hc as (Hn & cp & l1 & l2 & -> & Ha & Hl). split; [done|]. exists cp, ((cid, caps) :: l1), l2.
           split_and!; [done..|]. intros x [->|?]%elem_of_cons; auto.
        -- intros x [->|?]%elem_of_cons; auto.
Qed.

(** A failover over a pool ends with the first candidate that fits and was not
    rejected in this epoch, or with a pause; it forgets no rejection, rejects only
    candidates of the pool that lack something, and when it pauses every candidate
    of the pool has been rejected. *)
Theorem failover_selects candidates required f :
  let '(f', (chosen, paused)) := select candidates required f in
  fo_epoch f' = fo_epoch f ∧ fo_observations f ⊆ fo_observations f' ∧
  (∀ cid, is_Some (fo_observations f' !! cid) →
     is_Some (fo_observations f !! cid) ∨ ∃ caps, (cid, caps) ∈ candidates ∧ (admit_candidate caps required).1 = false) ∧
  match chosen, paused with
  | Some cid, None => fo_observations f' !! cid = None ∧ ∃ caps, (cid, caps) ∈ candidates ∧
      ∀ name, name ∈ required → _truthy (default (ABool false) (dget name caps)) = true
  | None, Some p => (∀ x, x ∈ candidates → is_Some (fo_observations f' !! x.1)) ∧ (pz_pool p).*1 = candidates.*1
  | _, _ => False
  end.
Proof.
  unfold select. destruct (select_go candidates required f) as [f' chosen] eqn:E.
  apply select_go_spec in E as (He & Hsub & Hnew & Hc). destruct chosen as [cid|]; split_and!; try done.
  - by destruct Hc as [? _].
  - destruct Hc as (_ & caps & l1 & l2 & -> & Ha & _). exists caps. split; [set_solver|by apply admit_true].
  - simpl. rewrite <-list_fmap_compose. done.
Qed.

(** A candidate that was rejected is not chosen again before a new epoch. *)
Theorem rejected_until_new_epoch candidates required f cid f' res :
  select candidates required f = (f', res) → is_Some (fo_observations f !! cid) →
  res.1 ≠ Some cid ∧ is_Some (fo_observations f' !! cid).
Proof.
  intros E [m Hm]. pose proof (failover_selects candidates required f) as H. rewrite E in H.
  destruct res as [chosen paused]. destruct H as (_ & Hsub & _ & Hc).
  assert (fo_observations f' !! cid = Some m) as Hm' by by eapply lookup_weaken.
  split; [|by eexists]. simpl. intros ->. destruct paused; [done|]. destruct Hc as [Hn _]. congruence.
Qed.

(** The goal may be reported complete on one condition only. *)
Theorem goal_complete_exact compatible complete remains due valve exhausted :
  may_report_goal_complete (decide_turn compatible complete remains due valve exhausted) = true ↔
  compatible = true ∧ complete = true ∧ remains = false ∧ due = false ∧ valve = false.
Proof. destruct compatible, complete, remains, due, valve, exhausted; vm_compute; naive_solver. Qed.

(** While work remains for a fit executor only the operator or the valve stops it. *)
Theorem remaining_work_continues complete due valve exhausted :
  decide_turn true complete true due valve exhausted = AUTO_KICK ↔ due = false ∧ valve = false.
Proof. destruct complete, due, valve, exhausted; vm_compute; naive_solver. Qed.

Definition sample_pool : list (pystr * capabilities) :=
  [(py "chat", [(py "shell", ABool false); (py "patch", AText "yes")]);
   (py "agent", [(py "shell", AText " Granted "); (py "patch", ABool true)])].

Lemma rejected_until_new_epoch_witness :
  let f := FailoverState "e1" {[py "chat" := {[py "shell"]}]} in
  (select sample_pool EXECUTION_CAPABILITIES f).2.1 = Some (py "agent") ∧
  (select sample_pool EXECUTION_CAPABILITIES f).2.1 ≠ Some (py "chat").
Proof.
  cbv zeta. split; [vm_compute; reflexivity|].
  destruct (select sample_pool EXECUTION_CAPABILITIES (FailoverState "e1" {[py "chat" := {[py "shell"]}]})) as [f' res] eqn:E.
  refine (proj1 (rejected_until_new_epoch _ _ _ (py "chat") f' res E _)).
  exists {[py "shell"]}. vm_compute. reflexivity.
Defined.
