(* ===== verification/StateDoc.v ===== *)
(** * The front matter of the state document

    The scalar codec, the parser and the two rewriters of
    [tools/saipen_engine/state.py]. *)

From S2P Require Import Prelude PyStr PyStrFacts PyUnicode PyRegex PyDict BoardRecord.

(** ** Scalars *)

Inductive scalar : Type := SStr (s : pystr) | SBool (b : bool) | SInt (n : Z).
Inductive value : Type := Scalar (s : scalar) | VList (items : list scalar).
Global Instance scalar_eq_dec : EqDecision scalar.
Proof. solve_decision. Defined.
Global Instance value_eq_dec : EqDecision value.
Proof. solve_decision. Defined.

Definition APOS : N := 39.
Definition QUOTE : N := 34.
Definition BACKSLASH : N := 92.

(** The body of [raw], when it is at least two characters long and both ends are [q]. *)
Definition between (q : N) (raw : pystr) : option pystr :=
  match raw with
  | c :: ((_ :: _) as rest) =>
      if (c =? q)%N && bool_decide (last rest = Some q) then Some (removelast rest) else None
  | _ => None
  end.

Fixpoint unescape_single (body : pystr) : option pystr :=
  match body with
  | [] => Some []
  | c :: body' =>
      if (c =? APOS)%N then
        match body' with
        | d :: body'' => if (d =? APOS)%N then cons APOS <$> unescape_single body'' else None
        | [] => None
        end
      else cons c <$> unescape_single body'
  end.
Definition _decode_single_quoted (raw : pystr) : option pystr := between APOS raw ≫= unescape_single.

Fixpoint unescape_double (body : pystr) : pystr :=
  match body with
  | [] => []
  | c :: body' =>
      if (c =? BACKSLASH)%N then
        match body' with
        | d :: body'' => if (d =? BACKSLASH)%N || (d =? QUOTE)%N then d :: unescape_double body''
                         else c :: unescape_double body'
        | [] => c :: unescape_double body'
        end
      else c :: unescape_double body'
  end.
Definition _decode_quoted (raw : pystr) : option pystr :=
  match _decode_single_quoted raw with
  | Some s => Some s
  | None => unescape_double <$> between QUOTE raw
  end.

(** [-?\d+] *)
Definition INT_RE : re := Seq (Opt (lit "-")) (plus is_digit).
Definition int_value (raw : pystr) : Z :=
  match raw with
  | c :: digits => if (c =? 45)%N then - Z.of_N (int_of digits) else Z.of_N (int_of raw)
  | [] => 0
  end.

Definition coerce (raw : pystr) : scalar :=
  match _decode_quoted raw with
  | Some s => SStr s
  | None =>
      if mem raw (strs ["true"; "false"]) then SBool (raw =s py "true")
      else if is_full INT_RE raw then SInt (int_value raw)
      else SStr raw
  end.

(** [str(n)] *)
Definition str_of_int (n : Z) : pystr :=
  if (n <? 0)%Z then "-" +s str_of (Z.to_N (- n)) else str_of (Z.to_N n).

Inductive state_error : Type :=
  | Separator (c : N)
  | NoOpeningFence
  | NoClosingFence
  | OrphanItem (line_no : nat)
  | Unparseable (line : pystr)
  | DuplicateField (line_no : nat) (key : pystr)
  | IntentOutside (intent : pystr)
  | IntentTarget
  | IntentFamily (present : list pystr).

(** The characters that make a bare scalar ambiguous, and the escapes of a quoted one. *)
Definition SPECIALS : pystr := py ":,[]{}&*!|>'%@`" ++ [QUOTE].
Definition escape_double (s : pystr) : pystr := replace [QUOTE] [BACKSLASH; QUOTE] (replace [BACKSLASH] [BACKSLASH; BACKSLASH] s).
Definition quote (s : pystr) : pystr := [QUOTE] ++ escape_double s ++ [QUOTE].

Definition needs_quote (text : pystr) : bool :=
  is_full INT_RE text || mem text (strs ["true"; "false"])
  || existsb (λ c, bool_decide (c ∈ SPECIALS)) text
  || negb (text =s strip text) || existsb is_space text.

Definition _render_value (s : scalar) : res state_error pystr :=
  match s with
  | SBool b => Ok (if b then py "true" else py "false")
  | SInt n => Ok (str_of_int n)
  | SStr [] => Ok (quote [])
  | SStr text =>
      match record_separator_in text with
      | Some c => Err (Separator c)
      | None => Ok (if needs_quote text then quote text else text)
      end
  end.

(** ** The parser *)

Definition is_key_start (c : N) : bool := is_AZ c || is_az c || (c =? 95)%N.
Definition is_key_char (c : N) : bool := is_key_start c || is_ascii_digit c.
Definition KEY_RE : re :=
  seqs [Grp 1 (Seq (Chr is_key_start) (Star is_key_char)); lit ":"; Star is_space; Grp 2 (Star not_nl); Eol].
Definition ITEM_RE : re := seqs [plus is_space; lit "-"; plus is_space; Grp 1 (Star not_nl); Eol].
(** [^\s+-\s+] *)
Definition ITEM_HEAD_RE : re := seqs [plus is_space; lit "-"; plus is_space].

Definition key_line (line : pystr) : option (pystr * pystr) :=
  m ← re_match KEY_RE line; Some (default [] (group 1 m), strip (default [] (group 2 m))).
Definition item_line (line : pystr) : option pystr :=
  m ← re_match ITEM_RE line; Some (strip (default [] (group 1 m))).
Definition fence (line : pystr) : bool := strip line =s py "---".

Abbreviation fields := (dict pystr value).

(** [fields[key].append(...)] *)
Definition append_item (key : pystr) (item : scalar) (d : fields) : fields :=
  match dget key d with
  | Some (VList items) => dset key (VList (items ++ [item])) d
  | _ => d
  end.

Fixpoint parse_lines (line_no : nat) (current : option pystr) (d : fields) (lines : list pystr)
    : res state_error fields :=
  match lines with
  | [] => Err NoClosingFence
  | line :: lines' =>
      if fence line then Ok d
      else if negb (nonempty (strip line)) then parse_lines (S line_no) current d lines'
      else match item_line line with
           | Some raw =>
               match current with
               | Some key => parse_lines (S line_no) current (append_item key (coerce raw) d) lines'
               | None => Err (OrphanItem line_no)
               end
           | None =>
               match key_line line with
               | None => Err (Unparseable line)
               | Some (key, raw) =>
                   if dmem key d then Err (DuplicateField line_no key)
                   else if nonempty raw
                   then parse_lines (S line_no) None (dset key (Scalar (coerce raw)) d) lines'
                   else parse_lines (S line_no) (Some key) (dset key (VList []) d) lines'
               end
           end
  end.

Definition parse_frontmatter (text : pystr) : res state_error fields :=
  match splitlines text with
  | line :: lines => if fence line then parse_lines 2 None [] lines else Err NoOpeningFence
  | [] => Err NoOpeningFence
  end.

(** ** The rewriters *)

Definition dremove (k : pystr) (d : fields) : fields := base.filter (λ e, e.1 ≠ k) d.

Definition item_head (line : pystr) : bool := is_match ITEM_HEAD_RE line.

(** [map] of a function that may raise. *)
Fixpoint mapm {A B} (f : A → res state_error B) (l : list A) : res state_error (list B) :=
  match l with
  | [] => Ok []
  | x :: l' => y ← f x; ys ← mapm f l'; Ok (y :: ys)
  end.

Definition emit_block (key : pystr) (v : value) : res state_error (list pystr) :=
  match v with
  | VList items =>
      rendered ← mapm _render_value items;
      Ok ((key +s py ":") :: ((λ s : pystr, py "  - " ++ s) <$> rendered))
  | Scalar s => r ← _render_value s; Ok [key +s ": " +s r]
  end.

(** The loop over the body; [dropping] while the items of a rewritten list follow. *)
Fixpoint patch_go (pending : fields) (dropping : bool) (body : list pystr) : res state_error (list pystr) :=
  match body with
  | [] => blocks ← mapm (λ e, emit_block e.1 e.2) pending; Ok (List.concat blocks)
  | line :: body' =>
      if dropping && item_head line then patch_go pending true body'
      else match key_line line with
           | Some (key, _) =>
               match dget key pending with
               | Some v =>
                   block ← emit_block key v;
                   rest ← patch_go (dremove key pending) (match v with VList _ => true | Scalar _ => false end) body';
                   Ok (block ++ rest)
               | None => rest ← patch_go pending false body'; Ok (line :: rest)
               end
           | None => rest ← patch_go pending false body'; Ok (line :: rest)
           end
  end.

Fixpoint remove_go (keys : list pystr) (dropping : bool) (body : list pystr) : list pystr :=
  match body with
  | [] => []
  | line :: body' =>
      if dropping && item_head line then remove_go keys true body'
      else match key_line line with
           | Some (key, raw) => if mem key keys then remove_go keys (negb (nonempty raw)) body'
                                else line :: remove_go keys false body'
           | None => line :: remove_go keys false body'
           end
  end.

Fixpoint split_fence (lines : list pystr) : option (list pystr * list pystr) :=
  match lines with
  | [] => None
  | line :: lines' =>
      if fence line then Some ([], lines)
      else b ← split_fence lines'; Some (line :: b.1, b.2)
  end.

(** What both rewriters do around their loop. *)
Definition rewrite_body (text : pystr) (go : list pystr → res state_error (list pystr)) : res state_error pystr :=
  if negb (startswith "---" text) then Err NoOpeningFence
  else
    parsed ← parse_frontmatter text;
    match split_fence (tail (split [10%N] text)) with
    | None => Err NoClosingFence
    | Some (body, suffix) =>
        out ← go body;
        Ok (py "---" ++ [10%N] ++ join [10%N] out ++ [10%N] ++ join [10%N] suffix)
    end.

Definition patch_state (text : pystr) (owned : fields) : res state_error pystr :=
  rewrite_body text (patch_go owned false).
Definition patch_owned_text (original : pystr) (state owned : fields) : res state_error pystr :=
  patch_state original owned.
Definition remove_state_fields (text : pystr) (keys : list pystr) : res state_error pystr :=
  rewrite_body text (λ body, Ok (remove_go keys false body)).
