(* ===== verification/StateDocFacts.v ===== *)
(** * Facts about the state document

    Every scalar the renderer writes is one line that reads back as it was, and a
    patched document parses to the patched fields. *)

From S2P Require Import Prelude PyStr PyStrFacts PyUnicode PyRegex PyDict BoardRecord StateDoc.

(** ** Scalars *)

Lemma escape_cons c s :
  escape_double (c :: s) =
  (if (c =? BACKSLASH)%N then [BACKSLASH; BACKSLASH] else if (c =? QUOTE)%N then [BACKSLASH; QUOTE] else [c])
  ++ escape_double s.
Proof.
  unfold escape_double. rewrite !replace_char. rewrite bind_cons, bind_app. f_equal.
  destruct (N.eqb_spec c BACKSLASH) as [->|Hb]; [done|]. simpl. by destruct (c =? QUOTE)%N.
Qed.

Lemma unescape_escape s : unescape_double (escape_double s) = s.
Proof.
  induction s as [|c s IH]; [done|]. rewrite escape_cons.
  destruct (N.eqb_spec c BACKSLASH) as [->|Hb]; [simpl; by rewrite IH|].
  destruct (N.eqb_spec c QUOTE) as [->|Hq]; [simpl; by rewrite IH|]. cbn [app unescape_double].
  by rewrite (proj2 (N.eqb_neq _ _) Hb), IH.
Qed.

Lemma removelast_snoc {A} (l : list A) x : removelast (l ++ [x]) = l.
Proof. rewrite removelast_app by done. simpl. apply app_nil_r. Qed.

Lemma between_quote q s : between q ([q] ++ s ++ [q]) = Some s.
Proof.
  unfold between. cbn [app]. destruct (s ++ [q]) as [|x l] eqn:E; [by destruct s|]. rewrite <-E.
  rewrite N.eqb_refl, last_snoc, bool_decide_eq_true_2, removelast_snoc by done. done.
Qed.

Lemma coerce_quote s : coerce (quote s) = SStr s.
Proof.
  unfold coerce, _decode_quoted, _decode_single_quoted, quote. rewrite between_quote. simpl.
  destruct (escape_double s ++ [QUOTE]) eqn:E; [by destruct (escape_double s)|]. simpl. by rewrite unescape_escape.
Qed.

Lemma between_head q c s : c ≠ q → between q (c :: s) = None.
Proof. intros H. unfold between. destruct s; [done|]. by rewrite (proj2 (N.eqb_neq _ _) H). Qed.

Lemma coerce_bare c s :
  c ≠ APOS → c ≠ QUOTE →
  coerce (c :: s) = if mem (c :: s) (strs ["true"; "false"]) then SBool ((c :: s) =s py "true")
                    else if is_full INT_RE (c :: s) then SInt (int_value (c :: s)) else SStr (c :: s).
Proof. intros H1 H2. unfold coerce, _decode_quoted, _decode_single_quoted. by rewrite !between_head. Qed.

Lemma int_full_digits d : d ≠ [] → Forall (λ c, is_digit c = true) d → is_full INT_RE d = true.
Proof.
  intros Hne Hd. apply is_full_spec; [done|]. exists [], d. split_and!; [done|by right|by apply lang_plus].
Qed.
Lemma int_full_neg d : d ≠ [] → Forall (λ c, is_digit c = true) d → is_full INT_RE (py "-" ++ d) = true.
Proof.
  intros Hne Hd. apply is_full_spec; [done|]. exists (py "-"), d. split_and!; [done|left; by apply lang_lit|by apply lang_plus].
Qed.

Lemma digit_run_head d s : Forall (λ c, is_digit c = true) (d :: s) → d ≠ 45%N ∧ d ≠ APOS ∧ d ≠ QUOTE ∧ d ≠ 116%N ∧ d ≠ 102%N.
Proof. intros [H _]%Forall_cons. split_and!; intros ->; by vm_compute in H. Qed.

Lemma mem_bool s : mem s (strs ["true"; "false"]) = true → ∃ c t, s = c :: t ∧ (c = 116%N ∨ c = 102%N).
Proof. intros [->|[->|[]%elem_of_nil]%elem_of_cons]%mem_true%elem_of_cons; eexists _, _; (split; [reflexivity|auto]). Qed.

Lemma coerce_digits d :
  d ≠ [] → Forall (λ c, is_digit c = true) d → coerce d = SInt (Z.of_N (int_of d)).
Proof.
  intros Hne Hd. destruct d as [|c d]; [done|]. destruct (digit_run_head _ _ Hd) as (H1 & H2 & H3 & H4 & H5).
  rewrite coerce_bare by done. destruct (mem _ _) eqn:Em; [apply mem_bool in Em as (? & ? & [= <- <-] & [?|?]); done|].
  rewrite int_full_digits by done. unfold int_value. by rewrite (proj2 (N.eqb_neq _ _) H1).
Qed.

Lemma coerce_int n : coerce (str_of_int n) = SInt n.
Proof.
  unfold str_of_int. pose proof (str_of_nonempty (Z.to_N (-n))) as Hne. pose proof (digits_of (Z.to_N (-n))) as Hd.
  destruct (Z.ltb_spec n 0).
  - change ("-" +s str_of (Z.to_N (- n))) with (45%N :: str_of (Z.to_N (- n))). rewrite coerce_bare by done.
    destruct (mem _ _) eqn:Em; [apply mem_bool in Em as (? & ? & [= <- <-] & [?|?]); done|].
    change (45%N :: str_of (Z.to_N (- n))) with (py "-" ++ str_of (Z.to_N (- n))).
    rewrite (int_full_neg _ Hne Hd). unfold int_value. simpl. rewrite int_of_str_of. f_equal. lia.
  - rewrite coerce_digits by auto using digits_of, str_of_nonempty. rewrite int_of_str_of. f_equal. lia.
Qed.

(** The renderer and [coerce] are inverse on every scalar the renderer accepts. *)
Theorem render_reads_back s r : _render_value s = Ok r → coerce r = s.
Proof.
  destruct s as [text|b|n]; simpl.
  - destruct text as [|c text]; [intros [= <-]; apply coerce_quote|].
    destruct (record_separator_in _); [done|]. destruct (needs_quote (c :: text)) eqn:En; intros [= <-]; [apply coerce_quote|].
    unfold needs_quote in En. rewrite !orb_false_iff in En. destruct En as [[[[Hi Hb] Hs] _] _].
    rewrite coerce_bare, Hb, Hi; [done|..].
    + intros ->. by vm_compute in Hs.
    + intros ->. by vm_compute in Hs.
  - intros [= <-]. by destruct b.
  - intros [= <-]. apply coerce_int.
Qed.

(** ** Rendered lines *)

Lemma separators_clean s : record_separator_in s = None → line_clean s.
Proof.
  intros H. unfold record_separator_in in H. rewrite find_first_None in H. apply Forall_forall. intros c Hc.
  destruct (is_linebreak c) eqn:E; [|done]. exfalso.
  assert (c ∈ RECORD_SEPARATORS) as Hs.
  { unfold is_linebreak in E. apply bool_decide_eq_true in E. unfold RECORD_SEPARATORS. set_solver. }
  specialize (H c Hs). simpl in H. by apply bool_decide_eq_false in H.
Qed.

Lemma clean_escape s : line_clean s → line_clean (escape_double s).
Proof.
  induction 1 as [|c s Hc Hs IH]; [constructor|]. rewrite escape_cons. apply Forall_app. split; [|exact IH].
  destruct (c =? BACKSLASH)%N; [by repeat constructor|]. destruct (c =? QUOTE)%N; by repeat constructor.
Qed.

Lemma quote_clean s : line_clean s → line_clean (quote s).
Proof. intros H. unfold quote, line_clean. rewrite !Forall_app. split_and!; [|by apply clean_escape|]; by repeat constructor. Qed.

(** A text with a first and a last character that are not spaces. *)
Lemma strip_ends c m d : is_space c = false → is_space d = false → strip (c :: m ++ [d]) = c :: m ++ [d].
Proof.
  intros Hc Hd. apply strip_trimmed. split.
  - by intros x [= <-].
  - intros x E. rewrite app_comm_cons, last_snoc in E. by injection E as <-.
Qed.

Lemma quote_strip s : strip (quote s) = quote s.
Proof. unfold quote. cbn [app]. by apply strip_ends. Qed.

Lemma linebreak_space c : is_linebreak c = true → is_space c = true.
Proof. unfold is_linebreak, is_space. rewrite !bool_decide_eq_true. set_solver. Qed.

Lemma solid_clean s : Forall (λ c, is_space c = false) s → line_clean s.
Proof.
  intros H. eapply Forall_impl; [exact H|]. intros c Hc. apply not_true_is_false. intros E%linebreak_space. simpl in *. congruence.
Qed.

Lemma solid_strip s : Forall (λ c, is_space c = false) s → strip s = s.
Proof.
  intros H. rewrite Forall_forall in H. apply strip_trimmed. split; intros c Hc; apply H.
  - destruct s; [done|]. injection Hc as ->. left.
  - by apply last_Some_elem_of.
Qed.

Lemma str_of_int_solid n : Forall (λ c, is_space c = false) (str_of_int n).
Proof.
  assert (∀ m, Forall (λ c, is_space c = false) (str_of m)) as H.
  { intros m. eapply Forall_impl; [apply str_of_digits|]. intros c. apply ascii_digit_not_space. }
  unfold str_of_int. destruct (n <? 0)%Z; [|apply H]. by constructor.
Qed.

(** A rendered scalar is one line with nothing to strip. *)
Lemma render_line s r : _render_value s = Ok r → line_clean r ∧ strip r = r ∧ r ≠ [].
Proof.
  destruct s as [text|b|n]; simpl.
  - destruct text as [|c text]; [intros [= <-]; by repeat constructor|].
    destruct (record_separator_in _) eqn:Es; [done|]. apply separators_clean in Es.
    destruct (needs_quote (c :: text)) eqn:En; intros [= <-].
    + split_and!; [by apply quote_clean|apply quote_strip|done].
    + unfold needs_quote in En. rewrite !orb_false_iff in En. destruct En as [[[[Hi Hb] Hs] Ht] _].
      apply negb_false_iff, eqs_true in Ht. done.
  - intros [= <-]. destruct b; (split_and!; [by repeat constructor|by vm_compute|done]).
  - intros [= <-]. split_and!; [apply solid_clean, str_of_int_solid|apply solid_strip, str_of_int_solid|].
    unfold str_of_int. destruct (n <? 0)%Z; [done|apply str_of_nonempty].
Qed.

(** ** Lines of the document *)

Definition key_ok (key : pystr) : Prop :=
  ∃ c k, key = c :: k ∧ is_key_start c = true ∧ Forall (λ d, is_key_char d = true) k.

Lemma key_start_not_space c : is_key_start c = true → is_space c = false.
Proof.
  intros H. destruct (is_space c) eqn:E; [|done]. apply (is_space_elem is_key_start) in E; [congruence|by vm_compute].
Qed.
Lemma key_char_not_space c : is_key_char c = true → is_space c = false.
Proof.
  intros H. destruct (is_space c) eqn:E; [|done]. apply (is_space_elem is_key_char) in E; [congruence|by vm_compute].
Qed.

Lemma clean_not_nl s : line_clean s → Forall (λ c, not_nl c = true) s.
Proof.
  intros H. eapply Forall_impl; [exact H|]. intros c Hc. unfold not_nl. apply negb_true_iff, N.eqb_neq.
  intros ->. by vm_compute in Hc.
Qed.


Lemma first_key c k s b :
  is_key_start c = true → Forall (λ d, is_key_char d = true) k → head_fails is_key_char s →
  first (Grp 1 (Seq (Chr is_key_start) (Star is_key_char))) [] b (c :: k ++ s) ([(1, c :: k)], lastb b (c :: k), s).
Proof.
  intros Hc Hk Hs. apply (first_Grp 1 _ [] b (c :: k) s). rewrite lastb_cons. eapply first_Seq; [|by apply first_Star].
  unfold first. simpl. by rewrite Hc.
Qed.

Lemma trimmed_head r : strip r = r → r ≠ [] → head_fails is_space r.
Proof. intros H Hne. rewrite <-H in *. destruct (trimmed_strip r) as [Hh _]. destruct (strip r); [done|]. by apply Hh. Qed.

Lemma first_rest n c b r : line_clean r → first (Grp n (Star not_nl)) c b r ((n, r) :: c, lastb b r, []).
Proof.
  intros Hr. rewrite <-(app_nil_r r) at 1. apply first_Grp. apply first_Star; [by apply clean_not_nl|done].
Qed.

Lemma key_line_value key r :
  key_ok key → line_clean r → strip r = r → r ≠ [] → key_line (key ++ py ": " ++ r) = Some (key, r).
Proof.
  intros (c & k & -> & Hc & Hk) Hr Hs Hne. unfold key_line.
  rewrite (first_match KEY_RE _ [(2, r); (1, c :: k)] (lastb (Some 32%N) r) []); [simpl; by rewrite Hs|].
  cbn [app]. eapply first_Seq; [by apply first_key|].
  eapply first_Seq; [apply (first_lit (py ":") _ _ (py " " ++ r))|].
  eapply first_Seq; [apply (first_Star is_space _ _ (py " ") r); [by repeat constructor|by apply trimmed_head]|].
  eapply first_Seq; [by apply first_rest|apply first_Eol].
Qed.

Lemma key_line_list key : key_ok key → key_line (key ++ py ":") = Some (key, []).
Proof.
  intros (c & k & -> & Hc & Hk). unfold key_line.
  rewrite (first_match KEY_RE _ [(2, []); (1, c :: k)] (Some 58%N) []); [done|].
  cbn [app]. eapply first_Seq; [by apply first_key|].
  eapply first_Seq; [apply (first_lit (py ":") _ _ [])|].
  eapply first_Seq; [by apply (first_Star is_space _ _ [] [])|].
  eapply first_Seq; [apply (first_rest 2 _ _ []); constructor|apply first_Eol].
Qed.

Lemma item_line_item r : line_clean r → strip r = r → r ≠ [] → item_line (py "  - " ++ r) = Some r.
Proof.
  intros Hr Hs Hne. unfold item_line. change (py "  - " ++ r) with (py "  " ++ py "- " ++ r).
  rewrite (first_match ITEM_RE _ [(1, r)] (lastb (Some 32%N) r) []); [simpl; by rewrite Hs|].
  eapply first_Seq; [apply first_plus; [done|by repeat constructor|done]|]. cbn [app].
  eapply first_Seq; [apply (first_lit (py "-") _ _ (py " " ++ r))|].
  eapply first_Seq; [apply first_plus; [done|by repeat constructor|by apply trimmed_head]|].
  eapply first_Seq; [by apply first_rest|apply first_Eol].
Qed.

(** Items start with a space, keys do not. *)
Lemma item_head_space line : item_head line = true → ∃ c l, line = c :: l ∧ is_space c = true.
Proof.
  unfold item_head, is_match. rewrite bool_decide_eq_true. intros [m Hm]. revert Hm. unfold re_match, match_at.
  destruct line as [|c l]; [done|]. destruct (is_space c) eqn:E; [by eexists _, _|]. simpl. by rewrite E.
Qed.

Lemma key_line_start line key raw : key_line line = Some (key, raw) → ∃ c l, line = c :: l ∧ is_key_start c = true.
Proof.
  unfold key_line. destruct (re_match KEY_RE line) as [m|] eqn:E; [|done]. intros _. revert E. unfold re_match, match_at.
  destruct line as [|c l]; [done|]. destruct (is_key_start c) eqn:Ec; [by eexists _, _|]. simpl. by rewrite Ec.
Qed.

Lemma key_line_no_item line key raw : key_line line = Some (key, raw) → item_head line = false.
Proof.
  intros (c & l & -> & Hc)%key_line_start. destruct (item_head (c :: l)) eqn:E; [|done].
  apply item_head_space in E as (? & ? & [= <- <-] & E). by rewrite key_start_not_space in E.
Qed.

Lemma item_line_head line raw : item_line line = Some raw → item_head line = true.
Proof.
  unfold item_line, item_head, is_match. rewrite bool_decide_eq_true. destruct (re_match ITEM_RE line) as [m|] eqn:E; [|done].
  intros _. revert E. unfold re_match, match_at. rewrite fmap_Some. intros ([c s] & H & _). revert H. rewrite fmap_Some.
  intros (o & Ho%head_elem & _). simpl in Ho.
  apply list_elem_of_bind in Ho as (o1 & Ho & H1). apply list_elem_of_bind in Ho as (o2 & Ho & H2).
  apply list_elem_of_bind in Ho as (o3 & _ & H3).
  destruct (head_is_Some (outcomes ITEM_HEAD_RE [] None line) o3) as [o' Ho']; [|simpl in *; rewrite Ho'; by eexists].
  apply list_elem_of_bind. exists o1. split; [|exact H1]. apply list_elem_of_bind. exists o2. split; [exact H3|exact H2].
Qed.

Lemma strip_nonblank c s : is_space c = false → strip (c :: s) ≠ [].
Proof.
  intros Hc. unfold strip, lstrip. simpl. rewrite Hc. pose proof (rstrip_head c s Hc) as H. by destruct (rstrip _).
Qed.

Lemma key_line_nonblank line key raw : key_line line = Some (key, raw) → nonempty (strip line) = true.
Proof.
  intros (c & l & -> & Hc)%key_line_start. pose proof (strip_nonblank c l (key_start_not_space _ Hc)).
  by destruct (strip _).
Qed.

Lemma key_line_item line key raw : key_line line = Some (key, raw) → item_line line = None.
Proof.
  intros H%key_line_no_item. destruct (item_line line) eqn:E; [|done]. apply item_line_head in E. congruence.
Qed.

Lemma key_line_fence line key raw : key_line line = Some (key, raw) → fence line = false.
Proof.
  intros (c & l & -> & Hc)%key_line_start. unfold fence. destruct (_ =s _) eqn:E; [|done]. apply eqs_true in E.
  unfold strip, lstrip in E. simpl in E. rewrite key_start_not_space in E by done.
  pose proof (rstrip_head c l (key_start_not_space _ Hc)) as H. rewrite E in H. injection H as <-. by vm_compute in Hc.
Qed.

Lemma item_strip r : strip r = r → r ≠ [] → strip (py "  - " ++ r) = py "- " ++ r.
Proof.
  intros Hs Hne. change (strip (py "  - " ++ r)) with (strip (py "- " ++ r)). apply strip_trimmed. split; [by intros c [= <-]|].
  intros c Hc. rewrite <-Hs in *. destruct (trimmed_strip r) as [_ Hl]. apply Hl. rewrite last_app in Hc.
  destruct (last (strip r)) as [d|] eqn:E; [done|]. apply last_None in E. congruence.
Qed.

(** ** The parser one line at a time *)

Definition parse_state_of : Type := option pystr * fields.

Definition parse_line (st : parse_state_of) (line : pystr) : option parse_state_of :=
  if negb (nonempty (strip line)) then Some st
  else match item_line line with
       | Some raw => match st.1 with Some key => Some (st.1, append_item key (coerce raw) st.2) | None => None end
       | None =>
           match key_line line with
           | None => None
           | Some (key, raw) =>
               if dmem key st.2 then None
               else if nonempty raw then Some (None, dset key (Scalar (coerce raw)) st.2)
               else Some (Some key, dset key (VList []) st.2)
           end
       end.

Fixpoint parse_body (st : parse_state_of) (body : list pystr) : option parse_state_of :=
  match body with
  | [] => Some st
  | line :: body' => st' ← parse_line st line; parse_body st' body'
  end.

Lemma parse_body_app st l1 l2 : parse_body st (l1 ++ l2) = (st' ← parse_body st l1; parse_body st' l2).
Proof.
  revert st. induction l1 as [|line l1 IH]; intros st; [done|]. simpl. destruct (parse_line st line); simpl; [apply IH|done].
Qed.

Lemma parse_lines_body n cur d body close rest :
  Forall (λ l, fence l = false) body → fence close = true →
  ∀ d', parse_lines n cur d (body ++ close :: rest) = Ok d' ↔ ∃ c, parse_body (cur, d) body = Some (c, d').
Proof.
  intros Hb Hc d'. revert n cur d. induction Hb as [|line body Hl _ IH]; intros n cur d.
  - simpl. rewrite Hc. split; [intros [= <-]; by eexists|by intros (? & [= _ <-])].
  - cbn [app parse_lines parse_body]. rewrite Hl. unfold parse_line. cbn [fst snd]. destruct (negb _); [apply IH|].
    destruct (item_line line).
    + destruct cur as [key|]; [apply IH|]. split; [done|by intros (? & ?)].
    + destruct (key_line line) as [[key raw]|]; [|split; [done|by intros (? & ?)]].
      destruct (dmem key d); [split; [done|by intros (? & ?)]|]. destruct (nonempty raw); apply IH.
Qed.

(** What an emitted block parses to. *)
Lemma parse_key_value key r s st :
  key_ok key → _render_value s = Ok r → dget key st.2 = None →
  parse_line st (key ++ py ": " ++ r) = Some (None, st.2 ++ [(key, Scalar s)]).
Proof.
  intros Hk Hr Hd. destruct (render_line _ _ Hr) as (Hc & Hs & Hne). pose proof (key_line_value _ _ Hk Hc Hs Hne) as Hl.
  unfold parse_line. rewrite (key_line_nonblank _ _ _ Hl), (key_line_item _ _ _ Hl), Hl. unfold dmem.
  rewrite Hd, bool_decide_eq_false_2 by (by intros [? ?]). destruct r as [|c r]; [done|]. cbn [negb nonempty].
  by rewrite (render_reads_back _ _ Hr), dset_new.
Qed.

Lemma parse_key_list key st :
  key_ok key → dget key st.2 = None →
  parse_line st (key ++ py ":") = Some (Some key, st.2 ++ [(key, VList [])]).
Proof.
  intros Hk Hd. pose proof (key_line_list _ Hk) as Hl. unfold parse_line.
  rewrite (key_line_nonblank _ _ _ Hl), (key_line_item _ _ _ Hl), Hl. unfold dmem.
  rewrite Hd, bool_decide_eq_false_2 by (by intros [? ?]). cbn [negb nonempty]. by rewrite dset_new.
Qed.

Lemma dset_last {V} (key : pystr) (v w : V) d : dget key d = None → dset key w (d ++ [(key, v)]) = d ++ [(key, w)].
Proof.
  induction d as [|[j u] d IH]; simpl; [by rewrite bool_decide_true|]. case_bool_decide as E; [done|]. intros H. by rewrite IH.
Qed.
Lemma dget_last {V} (key : pystr) (v : V) d : dget key d = None → dget key (d ++ [(key, v)]) = Some v.
Proof.
  induction d as [|[j u] d IH]; simpl; [by rewrite bool_decide_true|]. case_bool_decide; [done|]. exact IH.
Qed.

Lemma parse_items key items rendered d done_items :
  mapm _render_value items = Ok rendered → dget key d = None →
  parse_body (Some key, d ++ [(key, VList done_items)]) ((λ s : pystr, py "  - " ++ s) <$> rendered) =
  Some (Some key, d ++ [(key, VList (done_items ++ items))]).
Proof.
  intros Hm Hd. revert rendered done_items Hm. induction items as [|s items IH]; intros rendered acc Hm; simpl in Hm.
  - injection Hm as <-. simpl. by rewrite app_nil_r.
  - destruct (_render_value s) as [r|] eqn:Er; [|done]. simpl in Hm. destruct (mapm _ items) as [rs|] eqn:Es; [|done].
    injection Hm as <-. destruct (render_line _ _ Er) as (Hc & Hs & Hne). rewrite fmap_cons. cbn [parse_body].
    unfold parse_line. rewrite item_strip by done. cbn [negb nonempty app py]. rewrite item_line_item by done.
    cbn [fst snd]. unfold append_item. rewrite dget_last, dset_last, (render_reads_back _ _ Er) by done. simpl.
    rewrite IH by done. by rewrite <-(assoc_L (++)).
Qed.

Lemma parse_block key v block st :
  key_ok key → emit_block key v = Ok block → dget key st.2 = None →
  ∃ cur, parse_body st block = Some (cur, st.2 ++ [(key, v)]) ∧ (∀ items, v = VList items → cur = Some key).
Proof.
  intros Hk He Hd. destruct v as [s|items]; simpl in He.
  - destruct (_render_value s) as [r|] eqn:Er; [|done]. injection He as <-. exists None. split; [|done].
    cbn [parse_body]. unfold cat. by rewrite (parse_key_value _ _ _ _ Hk Er Hd).
  - destruct (mapm _ items) as [rs|] eqn:Es; [|done]. injection He as <-. exists (Some key). split; [|done].
    cbn [parse_body]. unfold cat. rewrite (parse_key_list _ _ Hk Hd). cbn [option_bind mbind]. simpl. by rewrite (parse_items _ _ _ _ [] Es).
Qed.

(** ** Patching against parsing

    [owned] are the fields a caller owns. While the body is rewritten, the fields
    the new body has so far are the old ones with the owned values laid over them,
    and the fields still to be written are the owned ones no line has shown. *)

Section patch.
Context (owned : fields) (Hkeys : Forall key_ok (dkeys owned)) (Hwf : wf_dict owned).
Implicit Types (d : fields).

Definition overlay d : fields := (λ e : pystr * value, (e.1, default e.2 (dget e.1 owned))) <$> d.
Definition unseen d : fields := base.filter (λ e, e.1 ∉ dkeys d) owned.

Lemma dget_overlay k d : dget k (overlay d) = (λ v, default v (dget k owned)) <$> dget k d.
Proof. induction d as [|[j v] d IH]; [done|]. simpl. case_bool_decide; [by subst|exact IH]. Qed.

Lemma overlay_dset k v d : overlay (dset k v d) = dset k (default v (dget k owned)) (overlay d).
Proof. induction d as [|[j w] d IH]; [done|]. simpl. case_bool_decide; simpl; [by subst|by rewrite IH]. Qed.

Lemma dset_same k v d : dget k d = Some v → dset k v d = d.
Proof. induction d as [|[j w] d IH]; [done|]. simpl. case_bool_decide; [by intros [= ->]|]. intros H'. by rewrite IH. Qed.

Lemma overlay_append_owned k x d : is_Some (dget k owned) → overlay (append_item k x d) = overlay d.
Proof.
  intros [v Hv]. unfold append_item. destruct (dget k d) as [[|items]|] eqn:E; [done| |done].
  rewrite overlay_dset, Hv. apply dset_same. by rewrite dget_overlay, E, Hv.
Qed.
Lemma overlay_append_free k x d : dget k owned = None → overlay (append_item k x d) = append_item k x (overlay d).
Proof.
  intros Hn. unfold append_item. rewrite dget_overlay, Hn. destruct (dget k d) as [[|items]|]; [done| |done]. simpl.
  by rewrite overlay_dset, Hn.
Qed.

Lemma unseen_append k x d : unseen (append_item k x d) = unseen d.
Proof.
  unfold append_item. destruct (dget k d) as [[|items]|] eqn:E; [done| |done]. unfold unseen.
  rewrite dkeys_dset. unfold dmem. by rewrite E.
Qed.

Lemma filter_field (P : pystr * value → Prop) `{!∀ e, Decision (P e)} (e : pystr * value) d :
  base.filter P (e :: d : fields) = if decide (P e) then e :: base.filter P d else base.filter P d.
Proof. apply list.filter_cons. Qed.

Lemma dget_filter (P : pystr → Prop) `{!∀ k, Decision (P k)} k d :
  dget k (base.filter (λ e : pystr * value, P e.1) d) = if decide (P k) then dget k d else None.
Proof.
  induction d as [|[j v] d IH]; [by case_decide|]. rewrite filter_field. simpl. destruct (decide (P j)) as [Hj|Hj]; simpl.
  - case_bool_decide; [subst; by rewrite decide_True|exact IH].
  - rewrite IH. destruct (decide (P k)); [|done]. rewrite bool_decide_eq_false_2; [done|]. by intros ->.
Qed.
Lemma dget_unseen k d : dget k (unseen d) = if decide (k ∉ dkeys d) then dget k owned else None.
Proof. exact (dget_filter (λ j, j ∉ dkeys d) k owned). Qed.

Lemma unseen_dset k v d : dget k d = None → unseen (dset k v d) = dremove k (unseen d).
Proof.
  intros Hn. unfold dremove, unseen. etrans; [|symmetry; apply (list_filter_filter (A := pystr * value))]. apply list_filter_iff. intros e.
  rewrite dkeys_dset. unfold dmem. rewrite Hn. simpl. set_solver.
Qed.
Lemma dremove_absent k d : dget k d = None → dremove k d = d.
Proof.
  intros Hn. unfold dremove. induction d as [|[j v] d IH]; [done|]. simpl in Hn. case_bool_decide as E; [done|].
  rewrite filter_field, decide_True by (simpl; congruence). by rewrite IH.
Qed.

(** The items of an owned list directly follow its key line, and no items follow
    the key line of a field that becomes a scalar. *)
Fixpoint tidy (cur : option pystr) (fresh : bool) (body : list pystr) : Prop :=
  match body with
  | [] => True
  | line :: body' =>
      if item_head line then
        match cur ≫= λ k, dget k owned with
        | None => tidy cur fresh body'
        | Some (VList _) => fresh = true ∧ tidy cur fresh body'
        | Some (Scalar _) => False
        end
      else match key_line line with
           | Some (key, raw) => tidy (if nonempty raw then None else Some key) true body'
           | None => tidy cur false body'
           end
  end.

(** How the two runs relate: the old one collects items for [cur], the new one for [cur']. *)
Definition linked (cur cur' : option pystr) (fresh dropping : bool) : Prop :=
  match cur with
  | None => True
  | Some k => match dget k owned with
              | None => cur' = Some k ∧ dropping = false
              | Some (VList _) => fresh = true → dropping = true
              | Some (Scalar _) => True
              end
  end.

Lemma owned_key_ok k v : dget k owned = Some v → key_ok k.
Proof.
  intros H%dget_Some_elem. rewrite Forall_forall in Hkeys. apply Hkeys. by apply (list_elem_of_fmap_2 fst _ (k, v)).
Qed.

Lemma patch_rest pending d cur blocks :
  (∀ k v, (k, v) ∈ pending → key_ok k ∧ dget k d = None) → wf_dict pending →
  mapm (λ e, emit_block e.1 e.2) pending = Ok blocks →
  ∃ cur', parse_body (cur, d) (List.concat blocks) = Some (cur', d ++ pending).
Proof.
  revert d cur blocks. induction pending as [|[k v] pending IH]; intros d cur blocks Hp Hw Hm; simpl in Hm.
  - injection Hm as <-. exists cur. simpl. by rewrite app_nil_r.
  - destruct (emit_block k v) as [b|] eqn:Eb; [|done]. simpl in Hm. destruct (mapm _ pending) as [bs|] eqn:Es; [|done].
    injection Hm as <-. destruct (Hp k v) as [Hk Hn]; [by left|]. apply NoDup_cons in Hw as [Hkn Hw].
    destruct (parse_block _ _ _ (cur, d) Hk Eb Hn) as (c & Hc & _).
    cbn [List.concat]. rewrite parse_body_app, Hc. cbn [mbind option_bind]. simpl.
    destruct (IH (d ++ [(k, v)]) c bs) as [c' Hc']; [|done..|exists c'; etrans; [exact Hc'|by rewrite <-(assoc_L (++))]].
    intros k' v' Hin. destruct (Hp k' v') as [Hk' Hn']; [by right|]. split; [done|].
    rewrite <-(dset_new k v d Hn), dget_dset_ne; [done|]. intros ->.
    apply Hkn. by apply (list_elem_of_fmap_2 fst _ (k', v')).
Qed.

Lemma wf_unseen d : wf_dict (unseen d).
Proof. unfold wf_dict, unseen, dkeys. eapply sublist_NoDup; [exact Hwf|]. apply fmap_sublist, sublist_filter. Qed.

Lemma unseen_elem k v d : (k, v) ∈ unseen d → key_ok k ∧ dget k (overlay d) = None.
Proof.
  unfold unseen. rewrite list_elem_of_filter. intros [Hn Hin]. split; [by eapply owned_key_ok, dget_elem|].
  by rewrite dget_overlay, (proj2 (dget_None k d) Hn).
Qed.

(** A line that is no item and stays keeps the link, and ends the run of dropped items. *)
Lemma linked_kept cur cur' fresh dropping : linked cur cur' fresh dropping → linked cur cur' false false.
Proof. unfold linked. destruct cur as [k|]; [|done]. destruct (dget k owned) as [[]|]; [done|done|by intros [? _]]. Qed.

Lemma tidy_item cur cur' fresh dropping line body :
  item_head line = true → tidy cur fresh (line :: body) → linked cur cur' fresh dropping →
  tidy cur fresh body ∧
  match cur with
  | None => True
  | Some k => if dropping then ∃ items, dget k owned = Some (VList items) else dget k owned = None ∧ cur' = cur
  end.
Proof.
  intros Hi. cbn [tidy]. rewrite Hi. destruct cur as [k|]; [|done]. simpl. destruct (dget k owned) as [[s|items]|] eqn:E; [done| |].
  - intros [-> Ht] Hl. rewrite (Hl eq_refl). eauto.
  - intros Ht [-> ->]. done.
Qed.

(** A line of the old document that the new one keeps. *)
Lemma parse_kept cur cur' d st line :
  parse_line (cur, d) line = Some st → key_line line = None →
  match cur with Some k => item_head line = true → dget k owned = None ∧ cur' = cur | None => True end →
  ∃ d', st = (cur, d') ∧ parse_line (cur', overlay d) line = Some (cur', overlay d') ∧ unseen d' = unseen d.
Proof.
  unfold parse_line. destruct (negb _); [intros [= <-]; eauto|]. intros H Hk Hc. destruct (item_line line) as [raw|] eqn:Ei.
  - cbn [fst snd] in *. destruct cur as [k|]; [|done]. injection H as <-.
    destruct (Hc (item_line_head _ _ Ei)) as [Hn ->]. exists (append_item k (coerce raw) d).
    rewrite overlay_append_free, unseen_append by done. done.
  - by rewrite Hk in H.
Qed.

(** A dropped line added an item to an owned list, if it did anything. *)
Lemma parse_dropped cur d st line :
  parse_line (cur, d) line = Some st → item_head line = true →
  match cur with Some k => ∃ items, dget k owned = Some (VList items) | None => True end →
  ∃ d', st = (cur, d') ∧ overlay d' = overlay d ∧ unseen d' = unseen d.
Proof.
  unfold parse_line. destruct (negb _); [intros [= <-]; eauto|]. intros H Hi Hc. cbn [fst snd] in *.
  destruct (item_line line) as [raw|] eqn:Ei.
  - destruct cur as [k|]; [|done]. injection H as <-. destruct Hc as [items Hc]. exists (append_item k (coerce raw) d).
    rewrite overlay_append_owned, unseen_append by eauto. done.
  - destruct (key_line line) as [[key raw]|] eqn:Ek; [|done]. apply key_line_no_item in Ek. congruence.
Qed.

Lemma parse_key cur d st line key raw :
  parse_line (cur, d) line = Some st → key_line line = Some (key, raw) →
  dget key d = None ∧ ∃ w, st = (if nonempty raw then None else Some key, dset key w d) ∧
  ∀ cur' d', dget key d' = None → parse_line (cur', d') line = Some (st.1, dset key w d').
Proof.
  intros H Hl. unfold parse_line in *. rewrite (key_line_nonblank _ _ _ Hl), (key_line_item _ _ _ Hl), Hl in *.
  cbn [negb fst snd] in *. unfold dmem in H. destruct (dget key d) as [v|] eqn:E.
  { by rewrite bool_decide_eq_true_2 in H. }
  split; [done|]. rewrite bool_decide_eq_false_2 in H by (by intros [? ?]).
  destruct (nonempty raw); injection H as <-; eexists; (split; [done|]); intros cur' d' Hd; unfold dmem;
    by rewrite Hd, bool_decide_eq_false_2 by (by intros [? ?]).
Qed.

Lemma patch_sim body cur d cur' fresh dropping st out :
  tidy cur fresh body → linked cur cur' fresh dropping →
  parse_body (cur, d) body = Some st → patch_go (unseen d) dropping body = Ok out →
  ∃ cur2, parse_body (cur', overlay d) out = Some (cur2, overlay st.2 ++ unseen st.2).
Proof.
  revert cur d cur' fresh dropping out. induction body as [|line body IH]; intros cur d cur' fresh dropping out Ht Hl Hp Hg.
  { injection Hp as <-. cbn [patch_go] in Hg. destruct (mapm _ _) as [bs|] eqn:E; [|done]. injection Hg as <-.
    eapply (patch_rest (unseen d) (overlay d)); [intros k v; apply (unseen_elem k v d)|apply wf_unseen|exact E]. }
  cbn [parse_body] in Hp. destruct (parse_line (cur, d) line) as [st1|] eqn:E1; [|done]. cbn [mbind option_bind] in Hp.
  cbn [patch_go] in Hg. destruct (dropping && item_head line) eqn:Ed.
  { apply andb_true_iff in Ed as [-> Hi]. destruct (tidy_item _ _ _ _ _ _ Hi Ht Hl) as [Ht' Hc].
    destruct (parse_dropped _ _ _ _ E1 Hi Hc) as (d' & -> & <- & Hu). rewrite <-Hu in Hg. by eapply IH. }
  destruct (key_line line) as [[key raw]|] eqn:Ek.
  - destruct (parse_key _ _ _ _ _ _ E1 Ek) as (Hn & w & -> & Hk). cbn [tidy] in Ht.
    rewrite (key_line_no_item _ _ _ Ek), Ek in Ht. rewrite dget_unseen, decide_True in Hg by (by apply dget_None).
    assert (dget key (overlay d) = None) as Hno by (by rewrite dget_overlay, Hn).
    destruct (dget key owned) as [v|] eqn:Ev.
    + rewrite <-(unseen_dset key w d Hn) in Hg. destruct (emit_block key v) as [b|] eqn:Eb; [|done]. cbn [mbind res_bind] in Hg.
      destruct (patch_go _ _ body) as [rest|] eqn:Er; [|done]. injection Hg as <-.
      destruct (parse_block key v b (cur', overlay d) (owned_key_ok _ _ Ev) Eb Hno) as (cb & Hb & Hc).
      rewrite parse_body_app, Hb. cbn [mbind option_bind snd]. rewrite <-(dset_new key v (overlay d) Hno).
      replace (dset key v (overlay d)) with (overlay (dset key w d)) by (by rewrite overlay_dset, Ev).
      eapply IH; [exact Ht| |exact Hp|exact Er]. destruct (nonempty raw); [done|]. simpl. rewrite Ev. by destruct v.
    + rewrite <-(dremove_absent key (unseen d)), <-(unseen_dset key w d Hn) in Hg
        by (by rewrite dget_unseen, decide_True by (by apply dget_None)).
      destruct (patch_go _ _ body) as [rest|] eqn:Er; [|done]. injection Hg as <-. cbn [parse_body].
      rewrite (Hk cur' _ Hno). cbn [mbind option_bind fst].
      replace (dset key w (overlay d)) with (overlay (dset key w d)) by (by rewrite overlay_dset, Ev).
      eapply IH; [exact Ht| |exact Hp|exact Er]. destruct (nonempty raw); [done|]. simpl. by rewrite Ev.
  - destruct (patch_go _ _ body) as [rest|] eqn:Er; [|done]. injection Hg as <-. cbn [parse_body].
    assert (match cur with Some k => item_head line = true → dget k owned = None ∧ cur' = cur | None => True end) as Hc.
    { destruct (item_head line) eqn:Ei; [|by destruct cur]. rewrite andb_true_r in Ed. subst dropping.
      destruct (tidy_item _ _ _ _ _ _ Ei Ht Hl) as [_ Hc]. by destruct cur. }
    destruct (parse_kept _ cur' _ _ _ E1 Ek Hc) as (d' & -> & Hq & Hu). rewrite Hq. rewrite <-Hu in Er.
    destruct (item_head line) eqn:Ei.
    + rewrite andb_true_r in Ed. subst dropping. destruct (tidy_item _ _ _ _ _ _ Ei Ht Hl) as [Ht' _]. by eapply IH.
    + cbn [tidy] in Ht. rewrite Ei, Ek in Ht. eapply IH; [exact Ht| |exact Hp|exact Er].
      by eapply linked_kept.
Qed.
End patch.

(** ** The rewritten document *)

Definition body_line (line : pystr) : Prop := line_clean line ∧ fence line = false.

Lemma key_clean key : key_ok key → line_clean key.
Proof.
  intros (c & k & -> & Hc & Hk). apply solid_clean. constructor; [by apply key_start_not_space|].
  eapply Forall_impl; [exact Hk|]. intros d. apply key_char_not_space.
Qed.

Lemma item_body_line r : line_clean r → strip r = r → r ≠ [] → body_line (py "  - " ++ r).
Proof.
  intros Hc Hs Hne. split; [|unfold fence; by rewrite item_strip].
  unfold line_clean. rewrite Forall_app. split; [by repeat constructor|done].
Qed.

Lemma emit_lines key v block : key_ok key → emit_block key v = Ok block → Forall body_line block.
Proof.
  intros Hk He. destruct v as [s|items]; simpl in He.
  - destruct (_render_value s) as [r|] eqn:Er; [|done]. injection He as <-. destruct (render_line _ _ Er) as (Hc & Hs & Hne).
    repeat constructor; [|by eapply key_line_fence, key_line_value].
    unfold line_clean, cat. rewrite !Forall_app. split_and!; [by apply key_clean|by repeat constructor|done].
  - destruct (mapm _ items) as [rs|] eqn:Es; [|done]. injection He as <-. constructor.
    { split; [|by eapply key_line_fence, key_line_list]. apply Forall_app. split; [by apply key_clean|by repeat constructor]. }
    clear Hk. revert rs Es. induction items as [|s items IH]; intros rs Es; simpl in Es; [by injection Es as <-|].
    destruct (_render_value s) as [r|] eqn:Er; [|done]. destruct (mapm _ items) as [rs'|]; [|done]. injection Es as <-.
    destruct (render_line _ _ Er) as (Hc & Hs & Hne). rewrite fmap_cons. constructor; [by apply (item_body_line r)|by apply IH].
Qed.

Lemma patch_go_lines body pending dropping out :
  Forall (λ e, key_ok e.1) pending → Forall body_line body → patch_go pending dropping body = Ok out → Forall body_line out.
Proof.
  intros Hp Hb. revert pending dropping out Hp. induction Hb as [|line body Hl _ IH]; intros pending dropping out Hp Hg; cbn [patch_go] in Hg.
  - destruct (mapm _ pending) as [bs|] eqn:Es; [|done]. injection Hg as <-. revert bs Es.
    induction Hp as [|[k v] pending Hk Hp IH]; intros bs Es; simpl in Es; [by injection Es as <-|].
    destruct (emit_block k v) eqn:Eb; [|done]. destruct (mapm _ pending) as [bs'|]; [|done]. injection Es as <-.
    cbn [List.concat]. apply Forall_app. split; [by eapply emit_lines|by apply IH].
  - destruct (_ && _); [by eapply IH|]. assert (∀ d rest, patch_go pending d body = Ok rest → Forall body_line (line :: rest)) as Hkeep.
    { intros d rest Hr. constructor; [done|by eapply IH]. }
    destruct (key_line line) as [[key raw]|].
    + destruct (dget key pending) as [v|] eqn:Ev.
      * destruct (emit_block key v) as [b|] eqn:Eb; [|done]. cbn [mbind res_bind] in Hg.
        destruct (patch_go _ _ body) as [rest|] eqn:Er; [|done]. injection Hg as <-. apply Forall_app. split.
        -- eapply emit_lines, Eb. rewrite Forall_forall in Hp. exact (Hp _ (dget_Some_elem _ _ _ Ev)).
        -- eapply IH, Er. apply Forall_forall. intros e [_ He]%list_elem_of_filter. rewrite Forall_forall in Hp. by apply Hp.
      * destruct (patch_go _ _ body) as [rest|] eqn:Er; [|done]. injection Hg as <-. by eapply Hkeep.
    + destruct (patch_go _ _ body) as [rest|] eqn:Er; [|done]. injection Hg as <-. by eapply Hkeep.
Qed.

Lemma split_fence_spec ls body suffix :
  split_fence ls = Some (body, suffix) →
  ∃ close rest, suffix = close :: rest ∧ ls = body ++ suffix ∧ fence close = true ∧ Forall (λ l, fence l = false) body.
Proof.
  revert body suffix. induction ls as [|l ls IH]; intros body suffix; [done|]. simpl. destruct (fence l) eqn:E.
  - intros [= <- <-]. exists l, ls. split_and!; [done|done|done|constructor].
  - destruct (split_fence ls) as [[b s]|]; [|done]. intros [= <- <-]. destruct (IH b s eq_refl) as (c & r & -> & -> & Hc & Hb).
    exists c, r. split_and!; [done|done|done|by constructor].
Qed.

Lemma fence_nonempty close : fence close = true → close ≠ [].
Proof. by intros H ->. Qed.

(** A document with its fences reads as its body. *)
Lemma parse_assembled first body close rest d :
  Forall line_clean (first :: body) → line_clean close → fence first = true → fence close = true →
  Forall (λ l, fence l = false) body →
  parse_frontmatter (join [10%N] ((first :: body) ++ close :: rest)) = Ok d ↔ ∃ c, parse_body (None, []) body = Some (c, d).
Proof.
  intros Hcl Hcc Hf Hc Hb. unfold parse_frontmatter.
  rewrite splitlines_join_app by (done || discriminate). cbn [app]. rewrite Hf.
  destruct (splitlines_join_head close rest Hcc (fence_nonempty _ Hc)) as [more ->]. by apply parse_lines_body.
Qed.

Lemma parse_blank_line st body : parse_body st ([] :: body) = parse_body st body.
Proof. done. Qed.

Lemma join_fence out suffix : suffix ≠ [] →
  ∃ body, py "---" ++ [10%N] ++ join [10%N] out ++ [10%N] ++ join [10%N] suffix = join [10%N] ((py "---" :: body) ++ suffix)
  ∧ (body = out ∨ out = [] ∧ body = [[]]).
Proof.
  intros Hs. exists (match out with [] => [[]] | _ => out end). split; [|destruct out; auto].
  destruct out as [|l out].
  - cbn [app]. rewrite !join_cons by done. done.
  - change ((py "---" :: l :: out) ++ suffix) with (py "---" :: ((l :: out) ++ suffix)).
    rewrite (join_cons [10%N] (py "---")), (join_app [10%N] (l :: out)) by done. done.
Qed.

Lemma unseen_nil (owned : fields) : unseen owned [] = owned.
Proof.
  unfold unseen. induction owned as [|e owned IH]; [done|]. rewrite filter_field, decide_True by apply not_elem_of_nil.
  by rewrite IH.
Qed.

Lemma join_lf_only ls : Forall line_clean ls → lf_only (join [10%N] ls).
Proof.
  unfold lf_only. intros Hls. assert (∀ l, line_clean l → Forall (λ c, is_linebreak c = true → c = 10%N) l) as Hl.
  { intros l H. eapply Forall_impl; [exact H|]. intros c Hc E. congruence. }
  induction Hls as [|l ls Hc Hls IH]; [constructor|]. destruct ls as [|k ls]; [by apply Hl|]. rewrite join_cons by done.
  rewrite !Forall_app. split_and!; [by apply Hl|by repeat constructor|exact IH].
Qed.

(** What both rewriters give back, in terms of the lines between the fences. *)
Lemma rewritten text go text' d :
  lf_only text → parse_frontmatter text = Ok d → rewrite_body text go = Ok text' →
  ∃ body suffix c out, split_fence (tail (split [10%N] text)) = Some (body, suffix) ∧
    parse_body (None, []) body = Some (c, d) ∧ Forall body_line body ∧ go body = Ok out ∧
    ∀ c' d', Forall body_line out → parse_body (None, []) out = Some (c', d') →
      parse_frontmatter text' = Ok d' ∧ lf_only text' ∧ startswith "---" text' = true.
Proof.
  intros Hlf Hd. unfold rewrite_body. destruct (negb _); [done|]. rewrite Hd. cbn [mbind res_bind].
  pose proof (split_lf_clean _ Hlf) as Hcl. pose proof (join_split [10%N] text ltac:(done)) as Ej.
  destruct (split [10%N] text) as [|first ls] eqn:Es; [by apply split_go_nonempty in Es|]. cbn [tail] in *.
  destruct (split_fence ls) as [[body suffix]|] eqn:Ef; [|done].
  destruct (split_fence_spec _ _ _ Ef) as (close & rest & -> & -> & Hc & Hb).
  destruct (go body) as [out|] eqn:Eo; [|done]. cbn [mbind res_bind]. intros [= <-].
  apply Forall_cons in Hcl as [Hfc [Hbc [Hcc Hrc]%Forall_cons]%Forall_app].
  assert (fence first = true) as Hf.
  { rewrite <-Ej in Hd. unfold parse_frontmatter in Hd. rewrite app_comm_cons in Hd.
    rewrite splitlines_join_app in Hd by (by constructor || discriminate). cbn [app] in Hd. by destruct (fence first). }
  rewrite <-Ej, app_comm_cons in Hd. apply parse_assembled in Hd as [c Hd]; [|by constructor|done..].
  exists body, (close :: rest), c, out. split_and!; [done|done|by apply Forall_and|done|]. intros c' d' [Hoc Hof]%Forall_and Hp.
  destruct (join_fence out (close :: rest) ltac:(done)) as (body' & E & Hb').
  assert (Forall line_clean (py "---" :: body') ∧ Forall (λ l, fence l = false) body') as [Hcb Hfb].
  { split; [constructor; [by repeat constructor|]|]; destruct Hb' as [->|[_ ->]]; try done; by repeat constructor. }
  split_and!.
  - etrans; [exact (f_equal parse_frontmatter E)|]. apply parse_assembled; [done|done|done|done|done|].
    exists c'. destruct Hb' as [->|[-> ->]]; exact Hp.
  - assert (lf_only (join [10%N] ((py "---" :: body') ++ close :: rest))) as H; [|by rewrite <-E in H].
    apply join_lf_only, Forall_app. split; [done|by constructor].
  - done.
Qed.

Section document.
Context (owned : fields) (Hkeys : Forall key_ok (dkeys owned)) (Hwf : wf_dict owned).

(** The document has a tidy body: see [tidy]. *)
Definition tidy_text (text : pystr) : Prop :=
  match split_fence (tail (split [10%N] text)) with
  | Some (body, _) => tidy owned None true body
  | None => True
  end.

Lemma parse_patched text text' d :
  lf_only text → tidy_text text → parse_frontmatter text = Ok d → patch_state text owned = Ok text' →
  parse_frontmatter text' = Ok (overlay owned d ++ unseen owned d) ∧ lf_only text' ∧ startswith "---" text' = true.
Proof.
  intros Hlf Ht Hd Hp. destruct (rewritten _ _ _ _ Hlf Hd Hp) as (body & suffix & c & out & Ef & Hb & Hl & Eo & Hend).
  unfold tidy_text in Ht. rewrite Ef in Ht.
  destruct (patch_sim owned Hkeys Hwf body None [] None true false (c, d) out) as [c' Hp']; [exact Ht|exact I|exact Hb| |].
  { by rewrite unseen_nil. }
  apply (Hend c' _); [|exact Hp']. eapply patch_go_lines; [|exact Hl|exact Eo].
  unfold dkeys in Hkeys. rewrite Forall_fmap in Hkeys. exact Hkeys.
Qed.

Lemma parse_line_grows cur d st line k :
  parse_line (cur, d) line = Some st → is_Some (dget k d) → is_Some (dget k st.2).
Proof.
  assert (∀ (j : pystr) (v : value), is_Some (dget k d) → is_Some (dget k (dset j v d))) as Hset.
  { intros j v H. destruct (decide (j = k)) as [->|Hne]; [by rewrite dget_dset_eq|by rewrite dget_dset_ne]. }
  unfold parse_line. cbn [fst snd]. intros H Hk. destruct (negb _); [by injection H as <-|]. destruct (item_line line).
  - destruct cur as [key|]; [|done]. injection H as <-. cbn [snd]. unfold append_item.
    destruct (dget key d) as [[]|]; try done. by apply Hset.
  - destruct (key_line line) as [[key raw]|]; [|done]. destruct (dmem key d); [done|].
    destruct (nonempty raw); injection H as <-; by apply Hset.
Qed.

Lemma parse_body_grows body cur d st k :
  parse_body (cur, d) body = Some st → is_Some (dget k d) → is_Some (dget k st.2).
Proof.
  revert cur d. induction body as [|line body IH]; intros cur d; cbn [parse_body]; [by intros [= <-]|].
  destruct (parse_line (cur, d) line) as [[cur1 d1]|] eqn:E; [|done]. cbn [mbind option_bind]. intros Hp Hk.
  eapply IH; [exact Hp|]. by eapply (parse_line_grows _ _ _ _ _ E).
Qed.

(** Fields the document does not have are always tidy. *)
Lemma tidy_absent body cur d st fresh :
  parse_body (cur, d) body = Some st → (∀ k, is_Some (dget k owned) → dget k st.2 = None) →
  match cur with Some k => dget k owned = None | None => True end → tidy owned cur fresh body.
Proof.
  intros Hp Hn. revert cur d fresh Hp. induction body as [|line body IH]; intros cur d fresh Hp Hc; [done|]. cbn [parse_body] in Hp.
  destruct (parse_line (cur, d) line) as [st1|] eqn:E; [|done]. cbn [mbind option_bind] in Hp. cbn [tidy].
  destruct (item_head line) eqn:Hi.
  - assert (cur ≫= (λ k, dget k owned) = None) as -> by (by destruct cur). destruct st1 as [cur1 d1].
    assert (cur1 = cur) as ->; [|by eapply IH]. unfold parse_line in E. destruct (negb _); [by injection E|].
    destruct (item_line line); [by destruct cur; [injection E|]|]. destruct (key_line line) as [[key raw]|] eqn:Ek; [|done].
    apply key_line_no_item in Ek. congruence.
  - destruct (key_line line) as [[key raw]|] eqn:Ek.
    + destruct (parse_key _ _ _ _ _ _ E Ek) as (_ & w & -> & _). eapply IH; [exact Hp|].
      destruct (nonempty raw); [done|]. destruct (dget key owned) as [v|] eqn:Ev; [|done]. exfalso.
      specialize (Hn key ltac:(by eexists)). destruct (parse_body_grows _ _ _ _ key Hp) as [? H]; [by rewrite dget_dset_eq|congruence].
    + destruct st1 as [cur1 d1]. assert (cur1 = cur) as ->; [|by eapply IH]. unfold parse_line in E.
      destruct (negb _); [by injection E|]. destruct (item_line line); [by destruct cur; [injection E|]|by rewrite Ek in E].
Qed.

Lemma tidy_text_absent text d :
  lf_only text → parse_frontmatter text = Ok d → (∀ k, is_Some (dget k owned) → dget k d = None) →
  startswith "---" text = true → tidy_text text.
Proof.
  intros Hlf Hd Hn Hs. unfold tidy_text. destruct (split_fence _) as [[body suffix]|] eqn:Ef; [|done].
  destruct (rewritten text (λ b, Ok b) (py "---" ++ [10%N] ++ join [10%N] body ++ [10%N] ++ join [10%N] suffix) d Hlf Hd)
    as (body' & suffix' & c & out & Ef' & Hb & _).
  { unfold rewrite_body. rewrite Hs, Hd. cbn [negb mbind res_bind]. by rewrite Ef. }
  rewrite Ef in Ef'. injection Ef' as <- <-. by eapply tidy_absent.
Qed.
End document.
