(* ===== verification/StatePatch.v ===== *)
(** * What a patch of the state document does

    The contract of [patch_state] on a document a writer of this program left, and
    the documents on which it does not hold. *)

From S2P Require Import Prelude PyStr PyStrFacts PyUnicode PyRegex PyDict BoardRecord StateDoc StateDocFacts.

(** The separators [_render_value] refuses do not occur. *)
Definition renderable (s : scalar) : Prop :=
  match s with SStr text => record_separator_in text = None | _ => True end.
Definition renderable_value (v : value) : Prop :=
  match v with Scalar s => renderable s | VList items => Forall renderable items end.

Lemma render_total s : renderable s → ∃ r, _render_value s = Ok r.
Proof. destruct s as [[|c t]|b|n]; simpl; [eauto| |eauto|eauto]. intros ->. eauto. Qed.

Lemma mapm_total {A B} (f : A → res state_error B) (P : A → Prop) l :
  (∀ x, P x → ∃ y, f x = Ok y) → Forall P l → ∃ ys, mapm f l = Ok ys.
Proof.
  intros Hf. induction 1 as [|x l Hx _ [ys IH]]; [by eexists|]. destruct (Hf x Hx) as [y Hy]. simpl.
  rewrite Hy, IH. by eexists.
Qed.

Lemma emit_total key v : renderable_value v → ∃ block, emit_block key v = Ok block.
Proof.
  destruct v as [s|items]; simpl.
  - intros [r ->]%render_total. by eexists.
  - intros H. destruct (mapm_total _ renderable items render_total H) as [rs ->]. by eexists.
Qed.

Lemma patch_go_total body pending dropping :
  Forall (λ e : pystr * value, renderable_value e.2) pending → ∃ out, patch_go pending dropping body = Ok out.
Proof.
  revert pending dropping. induction body as [|line body IH]; intros pending dropping Hp; cbn [patch_go].
  - destruct (mapm_total (λ e : pystr * value, emit_block e.1 e.2) _ pending (λ e, emit_total e.1 e.2) Hp) as [bs ->].
    by eexists.
  - destruct (_ && _); [by apply IH|].
    assert (∃ out, (rest ← patch_go pending false body; Ok (line :: rest)) = Ok out) as Hkeep.
    { destruct (IH pending false Hp) as [rest ->]. by eexists. }
    destruct (key_line line) as [[key raw]|]; [|exact Hkeep]. destruct (dget key pending) as [v|] eqn:Ev; [|exact Hkeep].
    rewrite Forall_forall in Hp. destruct (emit_total key v (Hp _ (dget_Some_elem _ _ _ Ev))) as [b ->]. cbn [mbind res_bind].
    match goal with |- context [patch_go ?q ?x body] => destruct (IH q x) as [rest ->]; [|by eexists] end.
    apply Forall_forall. intros e [_ He]%list_elem_of_filter. by apply Hp.
Qed.

Lemma parse_needs_fence n cur d d' lines : Forall (λ l, fence l = false) lines → parse_lines n cur d lines ≠ Ok d'.
Proof.
  intros H. revert n cur d. induction H as [|line lines Hl _ IH]; intros n cur d; [done|]. cbn [parse_lines]. rewrite Hl.
  destruct (negb _); [apply IH|]. destruct (item_line line); [by destruct cur; [apply IH|]|].
  destruct (key_line line) as [[key raw]|]; [|done]. destruct (dmem key d); [done|]. destruct (nonempty raw); apply IH.
Qed.

Lemma split_fence_none ls : split_fence ls = None → Forall (λ l, fence l = false) ls.
Proof.
  induction ls as [|l ls IH]; [constructor|]. simpl. destruct (fence l) eqn:E; [done|].
  destruct (split_fence ls); [done|]. intros _. constructor; [done|by apply IH].
Qed.

(** A document that reads has a closing fence among its lines. *)
Lemma parsed_fenced text d :
  lf_only text → parse_frontmatter text = Ok d → split_fence (tail (split [10%N] text)) ≠ None.
Proof.
  intros Hlf Hd Hn%split_fence_none. pose proof (split_lf_clean _ Hlf) as Hcl.
  rewrite <-(join_split [10%N] text) in Hd by done.
  destruct (split [10%N] text) as [|first ls]; [done|]. cbn [tail] in Hn.
  destruct ls as [|last ls _] using rev_ind.
  { simpl in Hd. unfold parse_frontmatter in Hd. apply Forall_cons in Hcl as [Hf _].
    destruct first as [|c first]; [done|]. unfold splitlines in Hd. rewrite splitlines_go_clean in Hd by done.
    simpl in Hd. by destruct (fence _). }
  unfold parse_frontmatter in Hd. rewrite app_comm_cons in Hd, Hcl. apply Forall_app in Hcl as [Hcl [Hlast _]%Forall_cons].
  rewrite splitlines_join_app in Hd by done. cbn [app join] in Hd. destruct (fence first); [|done].
  revert Hd. apply parse_needs_fence. apply Forall_app in Hn as [Hn Hl]. apply Forall_app. split; [done|].
  destruct last as [|c last]; [constructor|]. unfold splitlines. by rewrite splitlines_go_clean.
Qed.

Lemma dget_app (k : pystr) (d1 d2 : fields) : dget k (d1 ++ d2) = match dget k d1 with Some v => Some v | None => dget k d2 end.
Proof. induction d1 as [|[j v] d1 IH]; [done|]. simpl. by case_bool_decide. Qed.
Lemma dkeys_overlay owned (d : fields) : dkeys (overlay owned d) = dkeys d.
Proof. unfold dkeys, overlay. by rewrite <-list_fmap_compose. Qed.
Lemma dkeys_unseen owned (d : fields) : dkeys (unseen owned d) = base.filter (λ k, k ∉ dkeys d) (dkeys owned).
Proof.
  unfold unseen. induction owned as [|[k v] owned IH]; [done|]. rewrite filter_field. simpl. rewrite list.filter_cons.
  destruct (decide (k ∉ dkeys d)); [|exact IH]. simpl. by rewrite IH.
Qed.

Lemma patched text owned d :
  lf_only text → startswith "---" text = true → parse_frontmatter text = Ok d → tidy_text owned text →
  Forall key_ok (dkeys owned) → wf_dict owned → Forall (λ e : pystr * value, renderable_value e.2) owned →
  ∃ text', patch_state text owned = Ok text' ∧
    parse_frontmatter text' = Ok (overlay owned d ++ unseen owned d) ∧ startswith "---" text' = true.
Proof.
  intros Hlf Hs Hd Ht Hk Hw Hr. assert (∃ text', patch_state text owned = Ok text') as [text' Ep].
  { unfold patch_state, rewrite_body. rewrite Hs, Hd. cbn [negb mbind res_bind]. pose proof (parsed_fenced _ _ Hlf Hd) as Hf.
    destruct (split_fence _) as [[body suffix]|]; [|done]. destruct (patch_go_total body owned false Hr) as [out ->]. by eexists. }
  exists text'. split; [done|]. destruct (parse_patched owned Hk Hw text text' d) as (? & _ & ?); eauto.
Qed.

Lemma dget_patched owned d k :
  dget k (overlay owned d ++ unseen owned d) = match dget k owned with Some v => Some v | None => dget k d end.
Proof.
  rewrite dget_app, dget_overlay, dget_unseen. pose proof (dget_None k d) as Hn.
  destruct (dget k d); simpl; [by destruct (dget k owned)|]. rewrite decide_True by (by apply Hn). by destruct (dget k owned).
Qed.

(** C29: Patching sets the owned fields and nothing else, on the documents the program
    writes: let the text begin with the fence and read, its lines end in line feeds
    alone, and let it be tidy, that is, the items of an owned list follow its key line
    directly, and no items stand under a key that is to become a scalar; let the owned
    keys be distinct field names and the owned values free of the separators the writer
    refuses. Then the patch succeeds and its result reads as the old fields with the
    owned ones set, the new keys last. Out of this shape it may not:
    [blank_line_keeps_items] and [scalar_over_list_does_not_read]. *)
Theorem patch_state_sets text owned d :
  lf_only text → startswith "---" text = true → parse_frontmatter text = Ok d → tidy_text owned text →
  Forall key_ok (dkeys owned) → wf_dict owned → Forall (λ e : pystr * value, renderable_value e.2) owned →
  ∃ text' d', patch_state text owned = Ok text' ∧ parse_frontmatter text' = Ok d' ∧
    (∀ k, dget k d' = match dget k owned with Some v => Some v | None => dget k d end) ∧
    dkeys d' = dkeys d ++ base.filter (λ k, k ∉ dkeys d) (dkeys owned).
Proof.
  intros Hlf Hs Hd Ht Hk Hw Hr. destruct (patched _ _ _ Hlf Hs Hd Ht Hk Hw Hr) as (text' & Hp & Hd' & _).
  exists text', (overlay owned d ++ unseen owned d). split_and!; [done|done|apply dget_patched|].
  unfold dkeys at 1. rewrite fmap_app. fold (dkeys (overlay owned d)) (dkeys (unseen owned d)).
  by rewrite dkeys_overlay, dkeys_unseen.
Qed.

Definition sample_lines : list pystr :=
  strs ["---"; "phase: BUILD"; "active:"; "  - T-1"; "  - T-2"; "goal: 'keep it'"; "---"; "boundary"].
Definition sample_text : pystr := join [10%N] sample_lines.
Definition sample_owned : fields :=
  [(py "active", VList [SStr (py "T-3")]); (py "phase", Scalar (SStr (py "SHIP"))); (py "attempt", Scalar (SInt 2))].

Lemma patch_state_sets_witness :
  ∃ text' d', patch_state sample_text sample_owned = Ok text' ∧ parse_frontmatter text' = Ok d' ∧
    dget (py "attempt") d' = Some (Scalar (SInt 2)).
Proof.
  destruct (parse_frontmatter sample_text) as [d|] eqn:Ed; [|by vm_compute in Ed].
  destruct (patch_state_sets sample_text sample_owned d) as (text' & d' & Hp & Hd & Hg & _).
  - unfold lf_only. refine (bool_decide_unpack _ _). by vm_compute.
  - by vm_compute.
  - exact Ed.
  - vm_compute. repeat split.
  - repeat constructor; eexists _, _; (split; [reflexivity|split; [reflexivity|repeat constructor]]).
  - unfold wf_dict. refine (bool_decide_unpack _ _). by vm_compute.
  - repeat constructor.
  - exists text', d'. split_and!; [exact Hp|exact Hd|]. rewrite Hg. by vm_compute.
Defined.

(** ** Documents the contract leaves out *)

(** A blank line between a list and its items: the old items survive the patch. *)
Lemma blank_line_keeps_items :
  let text := join [10%N] (strs ["---"; "active:"; ""; "  - T-1"; "---"; ""]) in
  (parse_frontmatter text, patch_state text [(py "active", VList [SStr (py "T-2")])] ≫= parse_frontmatter) =
  (Ok [(py "active", VList [SStr (py "T-1")])], Ok [(py "active", VList [SStr (py "T-2"); SStr (py "T-1")])]).
Proof. by vm_compute. Qed.

(** A scalar over a list: the items stay behind and the result does not read. *)
Lemma scalar_over_list_does_not_read :
  let text := join [10%N] (strs ["---"; "active:"; "  - T-1"; "---"; ""]) in
  patch_owned_text text [] [(py "active", Scalar (SStr (py "none")))] ≫= parse_frontmatter = Err (OrphanItem 3).
Proof. by vm_compute. Qed.

(** [remove_state_fields] leaves the items after a blank line behind as well. *)
Lemma removed_list_does_not_read :
  let text := join [10%N] (strs ["---"; "active:"; ""; "  - T-1"; "---"; ""]) in
  remove_state_fields text [py "active"] ≫= parse_frontmatter = Err (OrphanItem 3).
Proof. by vm_compute. Qed.
