(* ===== verification/StateWait.v ===== *)
(** * WAIT actions and the brakes that bind

    The grammar of [WAIT:] next actions, the contexts in which one stops the
    project, and the one hard-stop decision of [tools/saipen_engine/state.py]. *)

From S2P Require Import Prelude PyStr PyStrFacts PyUnicode PyRegex PyDict Phases StateDoc.

(** [registry.wait_categories] *)
Definition WAIT_CATEGORIES : list pystr :=
  strs ["manual-verify"; "destructive-op"; "first-publish"; "user brake"; "blocked"; "safety valve"; "init"].

Definition VALVE_HEAD : pystr := py "safety valve reached (".
Definition VALVE_MIDDLE : pystr := py " waves / ".
Definition VALVE_TAIL : pystr := py " tickets) -- run 'cc' to continue".
Definition _SAFETY_VALVE_RE : re :=
  seqs [lit VALVE_HEAD; Grp 1 (plus is_digit); lit VALVE_MIDDLE; Grp 2 (plus is_digit); lit VALVE_TAIL; Eol].

Definition MARKHUNT_BRAKE : pystr :=
  py "WAIT: blocked -- untriaged MARKHUNT findings in ## BLOCKED; triage into ## TODO or dismiss".

(** [\s*\[[^\]]*\]\s*$] *)
Definition OPEN : N := 91.
Definition CLOSE : N := 93.
Definition _PROGRESS_TAG_RE : re :=
  seqs [Star is_space; Chr (N.eqb OPEN); Star (λ c, negb (c =? CLOSE)%N); Chr (N.eqb CLOSE); Star is_space; Eol].

(** [\.\s+(?=[A-Z`])] *)
Definition _SECOND_SENTENCE_RE : re :=
  seqs [lit "."; plus is_space; Ahead false (Chr (λ c, is_AZ c || (c =? 96)%N))].

Definition WAIT_PREFIX : pystr := py "WAIT:".
Definition DELIMITER : pystr := py " -- ".

Definition _wait_body (na : pystr) : pystr :=
  re_sub _PROGRESS_TAG_RE [] (strip (drop (length WAIT_PREFIX) (strip na))).

Inductive wait_error : Type :=
  | NotString
  | NotWait
  | NoCategory
  | ManyLines
  | NoDelimiter (body : pystr)
  | BadCategory (head : pystr)
  | NoQuestion
  | SecondSentence.

Definition category_of (body : pystr) : pystr := lower (strip (partition DELIMITER body).1).

Definition body_error (body : pystr) : option wait_error :=
  if negb (nonempty body) then Some NoCategory
  else if bool_decide (10%N ∈ body) then Some ManyLines
  else if is_match _SAFETY_VALVE_RE body then None
  else match partition DELIMITER body with
       | (_, None) => Some (NoDelimiter body)
       | (head, Some tail) =>
           if negb (mem (lower (strip head)) WAIT_CATEGORIES) then Some (BadCategory (strip head))
           else if negb (nonempty (strip tail)) then Some NoQuestion
           else if is_found _SECOND_SENTENCE_RE (strip tail) then Some SecondSentence
           else None
       end.

Definition wait_grammar_error (na : option value) : option wait_error :=
  match na with
  | Some (Scalar (SStr na)) =>
      if negb (startswith WAIT_PREFIX (strip na)) then Some NotWait else body_error (_wait_body (strip na))
  | _ => Some NotString
  end.

(** The lowercased category of a legal WAIT. *)
Definition parse_wait (na : option value) : option pystr :=
  match na, wait_grammar_error na with
  | Some (Scalar (SStr na)), None =>
      let body := _wait_body (strip na) in
      if is_match _SAFETY_VALVE_RE body then Some (py "safety valve") else Some (category_of body)
  | _, _ => None
  end.
Definition is_legal_wait (na : option value) : bool := bool_decide (is_Some (parse_wait na)).

Definition safety_valve_resume_key (na : option value) : option pystr :=
  match na with
  | Some (Scalar (SStr na)) =>
      if negb (startswith WAIT_PREFIX (strip na)) then None
      else if is_match _SAFETY_VALVE_RE (_wait_body (strip na)) then Some (py "cc") else None
  | _ => None
  end.

Definition DONE_EMPTY_BRAKES : list pystr := strs ["safety valve"; "user brake"; "markhunt"].

(** The stops of a finished board with nothing to do. *)
Definition done_empty_brake (category : pystr) (na : option value) (text : pystr) : option pystr :=
  if category =s py "safety valve" then
    (if bool_decide (safety_valve_resume_key na = Some (py "cc")) then Some (py "safety valve") else None)
  else if re_sub _PROGRESS_TAG_RE [] (strip text) =s MARKHUNT_BRAKE then Some (py "markhunt")
  else if category =s py "user brake" then Some (py "user brake")
  else None.

Definition binding_wait (na phase : option value) (empty_todo : bool) : option pystr :=
  match na, parse_wait na with
  | Some (Scalar (SStr text)), Some category =>
      if negb (bool_decide (phase = Some (Scalar (SStr (py "DONE")))) && empty_todo) then Some category
      else done_empty_brake category na text
  | _, _ => None
  end.

(** ** The goal budget *)

Definition GOAL_WAVE_CAP : Z := 3.
Definition GOAL_TICKET_CAP : Z := 20.

(** [type(v) is int] *)
Definition as_int (v : option value) : option Z :=
  match v with Some (Scalar (SInt n)) => Some n | _ => None end.
Definition str_is (v : option value) (s : pystr) : bool := bool_decide (v = Some (Scalar (SStr s))).

Definition valve_sentence (waves tickets : N) : pystr :=
  VALVE_HEAD ++ str_of waves ++ VALVE_MIDDLE ++ str_of tickets ++ VALVE_TAIL.
(** The whole pause, as the engine writes it. *)
Definition pause_text (waves tickets : N) : pystr := py "WAIT: " ++ valve_sentence waves tickets.

(** [budget_exhausted] of [goal_authority.py], on counters that are integers. *)
Definition budget_exhausted (intent : option value) (waves tickets : Z) : bool :=
  str_is intent (py "goal") && ((GOAL_WAVE_CAP <=? waves)%Z || (GOAL_TICKET_CAP <=? tickets)%Z).

(** One counter of STATE against the one rebuilt from history. *)
Definition proven_count (state : fields) (goal_counters : dict pystr Z) (key : pystr) : option Z :=
  match as_int (dget key state), dget key goal_counters with
  | Some v, Some e => if (v <? 0)%Z || negb (v =? e)%Z then None else Some v
  | _, _ => None
  end.

Definition goal_valve_wait_is_proven (state : fields) (goal_counters : option (dict pystr Z)) : bool :=
  match goal_counters with
  | None => false
  | Some counters =>
      str_is (dget (py "execution_intent") state) (py "goal") &&
      match proven_count state counters (py "goal_waves"), proven_count state counters (py "goal_tickets") with
      | Some waves, Some tickets =>
          budget_exhausted (dget (py "execution_intent") state) waves tickets
          && str_is (dget (py "next_action") state)
               (pause_text (Z.to_N waves) (Z.to_N tickets))
      | _, _ => false
      end
  end.

(** ** The hard stop *)

(** [str(v or "")]. The [repr] of a list that is not empty starts with a bracket,
    which is all the decisions below read of it. *)
Definition text_or_empty (v : option value) : pystr :=
  match v with
  | Some (Scalar (SStr s)) => s
  | Some (Scalar (SBool b)) => if b then py "True" else []
  | Some (Scalar (SInt n)) => if (n =? 0)%Z then [] else str_of_int n
  | Some (VList []) | None => []
  | Some (VList _) => [OPEN; CLOSE]
  end.

Inductive brake : Type := Blocked | Blocker | Wait.
Global Instance brake_eq_dec : EqDecision brake.
Proof. solve_decision. Defined.

Definition binding_brake (state : fields) (empty_todo : bool) : option brake :=
  let phase := text_or_empty (dget (py "phase") state) in
  let blocker := strip (text_or_empty (dget (py "blocker") state)) in
  let na := text_or_empty (dget (py "next_action") state) in
  if upper phase =s py "BLOCKED" then Some Blocked
  else if nonempty blocker && negb (lower blocker =s py "none") then Some Blocker
  else if startswith WAIT_PREFIX na
          && bool_decide (is_Some (binding_wait (Some (Scalar (SStr na))) (Some (Scalar (SStr phase))) empty_todo))
       then Some Wait
       else None.

(** ** The pause the engine writes *)

Lemma no_tag_go b s : OPEN ∉ s → sub_go _PROGRESS_TAG_RE (λ _, []) 0 b s = s.
Proof.
  revert b. induction s as [|c s IH]; intros b Hs; [done|]. cbn [sub_go].
  destruct (match_at _PROGRESS_TAG_RE b (c :: s)) as [[m rest]|] eqn:E.
  - apply match_at_lang in E as (p & E & p1 & p2 & -> & _ & p3 & p4 & -> & (d & -> & Hd) & _).
    apply N.eqb_eq in Hd as <-. exfalso. apply Hs. rewrite E. set_solver.
  - rewrite IH; [done|]. intros H. apply Hs. by right.
Qed.
Lemma no_tag s : OPEN ∉ s → re_sub _PROGRESS_TAG_RE [] s = s.
Proof. apply no_tag_go. Qed.

Lemma valve_shape_match w t :
  w ≠ [] → t ≠ [] → Forall (λ c, is_digit c = true) (w ++ t) →
  is_match _SAFETY_VALVE_RE (VALVE_HEAD ++ w ++ VALVE_MIDDLE ++ t ++ VALVE_TAIL) = true.
Proof.
  intros Hw Ht [Hwd Htd]%Forall_app. eapply can_match. eapply can_Seq; [apply can_lit|]. eapply can_Seq.
  { apply (can_pure (Grp 1 (plus is_digit))); [done|by apply lang_plus]. }
  eapply can_Seq; [apply can_lit|]. eapply can_Seq.
  { apply (can_pure (Grp 2 (plus is_digit))); [done|by apply lang_plus]. }
  rewrite <-(app_nil_r VALVE_TAIL). eapply can_Seq; [apply can_lit|apply can_Eol].
Qed.

Lemma valve_matches waves tickets : is_match _SAFETY_VALVE_RE (valve_sentence waves tickets) = true.
Proof. apply valve_shape_match; [apply str_of_nonempty..|]. apply Forall_app. split; apply digits_of. Qed.

Lemma valve_avoids c waves tickets :
  c ∉ VALVE_HEAD ++ VALVE_MIDDLE ++ VALVE_TAIL → is_ascii_digit c = false → c ∉ valve_sentence waves tickets.
Proof.
  intros Hc Hd. assert (∀ n, c ∉ str_of n) as Hn.
  { intros n Hin. pose proof (str_of_digits n) as H. rewrite Forall_forall in H. specialize (H c Hin). congruence. }
  unfold valve_sentence. pose proof (Hn waves). pose proof (Hn tickets). set_solver.
Qed.

Lemma valve_strip waves tickets : strip (valve_sentence waves tickets) = valve_sentence waves tickets.
Proof.
  apply strip_trimmed. split.
  - by intros c [= <-].
  - intros c Hc. unfold valve_sentence in Hc. rewrite !last_app in Hc. cbn in Hc. by injection Hc as <-.
Qed.

Lemma pause_body waves tickets :
  strip (pause_text waves tickets) = pause_text waves tickets ∧
  _wait_body (pause_text waves tickets) = valve_sentence waves tickets.
Proof.
  assert (strip (pause_text waves tickets) = pause_text waves tickets) as Hs.
  { apply strip_trimmed. split; [by intros c [= <-]|]. intros c Hc. unfold pause_text, valve_sentence in Hc.
    rewrite !last_app in Hc. cbn in Hc. by injection Hc as <-. }
  split; [exact Hs|]. unfold _wait_body. rewrite Hs.
  change (drop (length WAIT_PREFIX) (pause_text waves tickets)) with (32%N :: valve_sentence waves tickets).
  change (strip (32%N :: valve_sentence waves tickets)) with (strip (valve_sentence waves tickets)).
  rewrite valve_strip. apply no_tag, valve_avoids; [|done]. apply (bool_decide_unpack _). by vm_compute.
Qed.

Lemma pause_legal waves tickets :
  parse_wait (Some (Scalar (SStr (pause_text waves tickets)))) = Some (py "safety valve") ∧
  safety_valve_resume_key (Some (Scalar (SStr (pause_text waves tickets)))) = Some (py "cc").
Proof.
  destruct (pause_body waves tickets) as [Hs Hb]. unfold parse_wait, safety_valve_resume_key, wait_grammar_error.
  rewrite !Hs, !Hb, valve_matches. change (startswith WAIT_PREFIX (pause_text waves tickets)) with true. cbn [negb].
  unfold body_error. change (nonempty (valve_sentence waves tickets)) with true. cbn [negb].
  rewrite bool_decide_eq_false_2, valve_matches; [done|]. apply valve_avoids; [|done]. apply (bool_decide_unpack _). by vm_compute.
Qed.

(** A budget pause that history proves is a hard stop in every context: its text
    is the engine's own sentence with the counters of STATE, a cap is reached, and
    the one stop decision reports a brake whatever the phase and the board are. *)
Theorem proven_pause_stops state counters :
  goal_valve_wait_is_proven state (Some counters) = true →
  ∃ waves tickets : N,
    dget (py "next_action") state = Some (Scalar (SStr (pause_text waves tickets))) ∧
    dget (py "goal_waves") state = Some (Scalar (SInt (Z.of_N waves))) ∧ dget (py "goal_waves") counters = Some (Z.of_N waves) ∧
    dget (py "goal_tickets") state = Some (Scalar (SInt (Z.of_N tickets))) ∧ dget (py "goal_tickets") counters = Some (Z.of_N tickets) ∧
    (GOAL_WAVE_CAP ≤ Z.of_N waves ∨ GOAL_TICKET_CAP ≤ Z.of_N tickets)%Z ∧
    ∀ empty_todo, binding_brake state empty_todo ≠ None.
Proof.
  assert (∀ key v, proven_count state counters key = Some v → (0 ≤ v)%Z ∧
            dget key state = Some (Scalar (SInt v)) ∧ dget key counters = Some v) as Hcount.
  { intros key v. unfold proven_count, as_int. destruct (dget key state) as [[[]|]|]; [done|done| |done|done].
    destruct (dget key counters) as [e|]; [|done]. destruct (Z.ltb_spec n 0); [done|]. destruct (Z.eqb_spec n e); [|done].
    by intros [= <-]; subst. }
  unfold goal_valve_wait_is_proven. intros [Hg H]%andb_true_iff.
  destruct (proven_count _ _ (py "goal_waves")) as [w|] eqn:Ew; [|done].
  destruct (proven_count _ _ (py "goal_tickets")) as [t|] eqn:Et; [|done].
  destruct (Hcount _ _ Ew) as (Hw & Hws & Hwc). destruct (Hcount _ _ Et) as (Ht & Hts & Htc).
  apply andb_true_iff in H as [Hb Hn]. apply bool_decide_eq_true in Hn. exists (Z.to_N w), (Z.to_N t). rewrite !Z2N.id by done.
  split_and!; [exact Hn|done|done|done|done| |].
  - unfold budget_exhausted in Hb. apply andb_true_iff in Hb as [_ [?%Z.leb_le|?%Z.leb_le]%orb_true_iff]; auto.
  - intros empty_todo. unfold binding_brake. rewrite Hn. cbn [text_or_empty].
    destruct (_ =s _); [done|]. destruct (_ && _); [done|].
    change (startswith WAIT_PREFIX (pause_text (Z.to_N w) (Z.to_N t))) with true.
    rewrite bool_decide_eq_true_2; [done|]. destruct (pause_legal (Z.to_N w) (Z.to_N t)) as [Hp Hk].
    unfold binding_wait, done_empty_brake. rewrite Hp, Hk. by destruct (negb _).
Qed.

Definition proven_state : fields :=
  [(py "phase", Scalar (SStr (py "DONE"))); (py "blocker", Scalar (SStr (py "none")));
   (py "execution_intent", Scalar (SStr (py "goal")));
   (py "goal_waves", Scalar (SInt 3)); (py "goal_tickets", Scalar (SInt 12));
   (py "next_action", Scalar (SStr (pause_text 3 12)))].
Definition proven_counters : dict pystr Z := [(py "goal_waves", 3%Z); (py "goal_tickets", 12%Z)].

Lemma proven_pause_stops_witness : binding_brake proven_state true ≠ None ∧ binding_brake proven_state true = Some Wait.
Proof.
  split; [|by vm_compute]. destruct (proven_pause_stops proven_state proven_counters) as (w & t & _ & _ & _ & _ & _ & _ & H).
  - by vm_compute.
  - exact (H true).
Defined.

(** ** The brakes of a finished board *)

Lemma valve_match_shape body :
  10%N ∉ body → is_match _SAFETY_VALVE_RE body = true →
  ∃ w t, body = VALVE_HEAD ++ w ++ VALVE_MIDDLE ++ t ++ VALVE_TAIL ∧
    w ≠ [] ∧ t ≠ [] ∧ Forall (λ c, is_digit c = true) (w ++ t).
Proof.
  intros Hnl. unfold is_match, re_match. rewrite bool_decide_eq_true. intros [m H]. apply fmap_Some in H as ([c rest] & H & _).
  unfold match_at in H. apply fmap_Some in H as ([[c1 b1] s1] & Ho%head_elem & [= -> ->]).
  pose proof (anchored_rest _ _ _ _ _ (eq_refl : anchored _SAFETY_VALVE_RE = true) Ho) as Hr. cbn [snd] in Hr.
  apply outcomes_lang in Ho as (p & E & Hl). cbn [snd] in E.
  destruct Hr as [->| ->]; [|exfalso; apply Hnl; rewrite E; set_solver].
  rewrite app_nil_r in E. subst p.
  destruct Hl as (p1 & q1 & -> & ->%lang_lit & p2 & q2 & -> & [Hw1 Hw2]%lang_plus & p3 & q3 & -> & ->%lang_lit & p4 & q4 & -> & [Ht1 Ht2]%lang_plus & p5 & q5 & -> & ->%lang_lit & H5).
  change (q5 = []) in H5. subst q5. exists p2, p4. rewrite !app_nil_r. split_and!; [done|done|done|]. by apply Forall_app.
Qed.

Lemma legal_body text category :
  parse_wait (Some (Scalar (SStr text))) = Some category →
  startswith WAIT_PREFIX (strip text) = true ∧ (10%N ∉ _wait_body (strip text)) ∧
  (is_match _SAFETY_VALVE_RE (_wait_body (strip text)) = true → category = py "safety valve").
Proof.
  unfold parse_wait, wait_grammar_error. destruct (startswith _ _) eqn:Es; [|done]. cbn [negb]. unfold body_error.
  destruct (negb _); [done|]. case_bool_decide as Hn; [done|].
  destruct (is_match _ _); [|by destruct (partition _ _) as [? [?|]]]. by intros [= <-].
Qed.

(** The three forms of a stop that binds on a finished board. *)
Definition done_empty_form (category text b : pystr) : Prop :=
  (b = py "safety valve" ∧ ∃ w t, _wait_body (strip text) = VALVE_HEAD ++ w ++ VALVE_MIDDLE ++ t ++ VALVE_TAIL ∧
     w ≠ [] ∧ t ≠ [] ∧ Forall (λ c, is_digit c = true) (w ++ t))
  ∨ (b = py "markhunt" ∧ category ≠ py "safety valve" ∧ re_sub _PROGRESS_TAG_RE [] (strip text) = MARKHUNT_BRAKE)
  ∨ (b = py "user brake" ∧ category = py "user brake" ∧ re_sub _PROGRESS_TAG_RE [] (strip text) ≠ MARKHUNT_BRAKE).

Lemma done_empty_brake_exact text category b :
  parse_wait (Some (Scalar (SStr text))) = Some category →
  done_empty_brake category (Some (Scalar (SStr text))) text = Some b ↔ done_empty_form category text b.
Proof.
  intros Hp. destruct (legal_body _ _ Hp) as (Hs & Hn & Hv). unfold done_empty_brake, safety_valve_resume_key, done_empty_form.
  rewrite Hs. cbn [negb]. set (sub := re_sub _ _ _). clearbody sub. split.
  - destruct (category =s _) eqn:Ec.
    + destruct (is_match _ _) eqn:Em; [|done]. rewrite bool_decide_eq_true_2 by done. intros [= <-]. left.
      split; [done|]. by apply valve_match_shape.
    + destruct (sub =s _) eqn:Eb.
      * intros [= <-]. right; left. apply eqs_true in Eb. split_and!; [done| |done]. intros ->. by rewrite eqs_refl in Ec.
      * destruct (category =s py "user brake") eqn:Eu; [|done]. intros [= <-]. right; right. apply eqs_true in Eu.
        split_and!; [done|done|]. intros ->. by rewrite eqs_refl in Eb.
  - intros [(-> & w & t & E & Hw & Ht & Hd)|[(-> & Hc & ->)|(-> & -> & Hm)]].
    + rewrite E in *. rewrite (valve_shape_match _ _ Hw Ht Hd) in *. by rewrite (Hv eq_refl).
    + rewrite eqs_refl. destruct (category =s py "safety valve") eqn:E; [by apply eqs_true in E|done].
    + assert ((py "user brake" =s py "safety valve") = false) as -> by done.
      destruct (sub =s MARKHUNT_BRAKE) eqn:E; [by apply eqs_true in E|done].
Qed.

(** On a finished board with nothing to do, exactly three stops bind: the engine's
    budget pause, the untriaged-findings brake word for word, and a legal user
    brake. Everywhere else every legal WAIT binds under its category. *)
Theorem binding_wait_exact text phase empty_todo b :
  binding_wait (Some (Scalar (SStr text))) phase empty_todo = Some b ↔
  ∃ category, parse_wait (Some (Scalar (SStr text))) = Some category ∧
    (if bool_decide (phase = Some (Scalar (SStr (py "DONE")))) && empty_todo
     then done_empty_form category text b else b = category).
Proof.
  unfold binding_wait. destruct (parse_wait _) as [category|] eqn:Ep; [|split; [done|by intros (? & ? & _)]].
  destruct (_ && _); cbn [negb].
  - rewrite (done_empty_brake_exact _ _ _ Ep). split; [eauto|by intros (? & [= <-] & H)].
  - split; [intros [= <-]; eauto|by intros (? & [= <-] & ->)].
Qed.
