(* ===== verification/StateRemove.v ===== *)
(** * Removing fields, and the transition of the execution intent

    [remove_state_fields] on a document a writer of this program left, and
    [transition_execution_intent], which removes one family of fields and patches
    another in. *)

From S2P Require Import Prelude PyStr PyStrFacts PyUnicode PyRegex PyDict BoardRecord StateDoc StateDocFacts StatePatch.

Section remove.
Context (keys : list pystr).
Implicit Types (d : fields).

Definition kept d : fields := base.filter (λ e : pystr * value, e.1 ∉ keys) d.

Lemma dget_kept k d : dget k (kept d) = if decide (k ∉ keys) then dget k d else None.
Proof. exact (dget_filter (λ j, j ∉ keys) k d). Qed.

Lemma kept_cons e d : kept (e :: d) = if decide (e.1 ∉ keys) then e :: kept d else kept d.
Proof. unfold kept. by rewrite filter_field. Qed.

Lemma kept_dset k v d : kept (dset k v d) = if decide (k ∉ keys) then dset k v (kept d) else kept d.
Proof.
  induction d as [|[j w] d IH].
  - cbn [dset]. rewrite kept_cons. done.
  - cbn [dset]. rewrite kept_cons. case_bool_decide as E.
    + subst j. rewrite kept_cons. simpl. destruct (decide (k ∉ keys)); [|done]. simpl. by rewrite bool_decide_true.
    + rewrite kept_cons, IH. simpl. destruct (decide (j ∉ keys)), (decide (k ∉ keys)); try done. simpl.
      by rewrite bool_decide_false.
Qed.

Lemma kept_append k x d : kept (append_item k x d) = if decide (k ∉ keys) then append_item k x (kept d) else kept d.
Proof.
  unfold append_item. rewrite dget_kept. destruct (decide (k ∉ keys)) as [Hk|Hk].
  - destruct (dget k d) as [[|items]|]; [done| |done]. by rewrite kept_dset, decide_True.
  - destruct (dget k d) as [[|items]|]; [done| |done]. by rewrite kept_dset, decide_False.
Qed.

(** The items of a removed list directly follow its key line. *)
Fixpoint tidy_items (cur : option pystr) (fresh : bool) (body : list pystr) : Prop :=
  match body with
  | [] => True
  | line :: body' =>
      if item_head line then
        match cur with
        | Some k => (k ∈ keys → fresh = true) ∧ tidy_items cur fresh body'
        | None => tidy_items cur fresh body'
        end
      else match key_line line with
           | Some (key, raw) => tidy_items (if nonempty raw then None else Some key) true body'
           | None => tidy_items cur false body'
           end
  end.

Definition linked_items (cur cur' : option pystr) (fresh dropping : bool) : Prop :=
  match cur with
  | None => True
  | Some k => if decide (k ∈ keys) then fresh = true → dropping = true else cur' = Some k ∧ dropping = false
  end.

Lemma linked_items_kept cur cur' fresh dropping :
  linked_items cur cur' fresh dropping → linked_items cur cur' false false.
Proof. unfold linked_items. destruct cur as [k|]; [|done]. destruct (decide (k ∈ keys)); [done|]. by intros [-> _]. Qed.

(** A line that is no key, in both documents. *)
Lemma other_line (cur cur' : option pystr) d st (dropping : bool) line :
  parse_line (cur, d) line = Some st → key_line line = None →
  match cur with
  | Some k => item_head line = true → if dropping then k ∈ keys else (k ∉ keys) ∧ cur' = cur
  | None => True
  end →
  ∃ d', st = (cur, d') ∧
    (if dropping && item_head line then kept d' = kept d else parse_line (cur', kept d) line = Some (cur', kept d')).
Proof.
  unfold parse_line. destruct (negb _); [intros [= <-] _ _; exists d; by destruct (_ && _)|].
  intros H Hk Hc. destruct (item_line line) as [raw|] eqn:Ei; [|by rewrite Hk in H]. cbn [fst snd] in *.
  rewrite (item_line_head _ _ Ei) in *. destruct cur as [k|]; [|done]. injection H as <-.
  exists (append_item k (coerce raw) d). split; [done|]. rewrite andb_true_r, kept_append. specialize (Hc eq_refl).
  destruct dropping; [by rewrite decide_False by (intros ?; contradiction)|]. destruct Hc as [Hn ->]. by rewrite decide_True.
Qed.

Lemma remove_sim body cur d cur' fresh dropping st :
  tidy_items cur fresh body → linked_items cur cur' fresh dropping → parse_body (cur, d) body = Some st →
  ∃ cur2, parse_body (cur', kept d) (remove_go keys dropping body) = Some (cur2, kept st.2).
Proof.
  revert cur d cur' fresh dropping. induction body as [|line body IH]; intros cur d cur' fresh dropping Ht Hl Hp.
  { injection Hp as <-. by eexists. }
  cbn [parse_body] in Hp. destruct (parse_line (cur, d) line) as [st1|] eqn:E1; [|done]. cbn [mbind option_bind] in Hp.
  destruct (key_line line) as [[key raw]|] eqn:Ek.
  - pose proof (key_line_no_item _ _ _ Ek) as Hi. cbn [remove_go tidy_items] in *. rewrite Hi, Ek in *. rewrite andb_false_r.
    destruct (parse_key _ _ _ _ _ _ E1 Ek) as (Hn & w & -> & Hk).
    assert (dget key (kept d) = None) as Hno by (rewrite dget_kept, Hn; by destruct (decide _)).
    destruct (mem key keys) eqn:Em.
    + apply mem_true in Em.
      replace (kept d) with (kept (dset key w d)) by (by rewrite kept_dset, decide_False by (intros ?; contradiction)).
      eapply IH; [exact Ht| |exact Hp]. destruct (nonempty raw); [done|]. simpl. by rewrite decide_True.
    + assert (key ∉ keys) as Hne by (intros H%mem_true; congruence). cbn [parse_body]. rewrite (Hk cur' _ Hno).
      cbn [mbind option_bind fst].
      replace (dset key w (kept d)) with (kept (dset key w d)) by (by rewrite kept_dset, decide_True).
      eapply IH; [exact Ht| |exact Hp]. destruct (nonempty raw); [done|]. simpl. by rewrite decide_False.
  - destruct (other_line cur cur' d st1 dropping line E1 Ek) as (d' & -> & Hq).
    { destruct cur as [k|]; [|done]. intros Hi. cbn [tidy_items] in Ht. rewrite Hi in Ht. unfold linked_items in Hl.
      destruct (decide (k ∈ keys)) as [Hin|Hin]; [|by destruct Hl as [-> ->]]. rewrite (Hl (proj1 Ht Hin)). done. }
    cbn [remove_go]. rewrite Ek. destruct (dropping && item_head line) eqn:Ed.
    + apply andb_true_iff in Ed as [-> Hi]. rewrite <-Hq. cbn [tidy_items] in Ht. rewrite Hi in Ht.
      eapply IH; [|exact Hl|exact Hp]. by destruct cur; [apply Ht|].
    + cbn [parse_body]. rewrite Hq. cbn [mbind option_bind]. cbn [tidy_items] in Ht.
      destruct (item_head line) eqn:Hi.
      * rewrite andb_true_r in Ed. subst dropping. eapply IH; [|exact Hl|exact Hp]. by destruct cur; [apply Ht|].
      * rewrite Ek in Ht. eapply IH; [exact Ht|by eapply linked_items_kept|exact Hp].
Qed.
End remove.

Lemma remove_go_lines keys dropping body : Forall body_line body → Forall body_line (remove_go keys dropping body).
Proof.
  intros H. revert dropping. induction H as [|line body Hl _ IH]; intros dropping; [constructor|]. cbn [remove_go].
  destruct (_ && _); [apply IH|]. destruct (key_line line) as [[key raw]|]; [destruct (mem key keys); [apply IH|]|];
    (constructor; [done|apply IH]).
Qed.

(** The items of the removed lists directly follow their keys: see [tidy_items]. *)
Definition tidy_items_text (keys : list pystr) (text : pystr) : Prop :=
  match split_fence (tail (split [10%N] text)) with
  | Some (body, _) => tidy_items keys None true body
  | None => True
  end.

Lemma parse_removed keys text d :
  lf_only text → startswith "---" text = true → parse_frontmatter text = Ok d → tidy_items_text keys text →
  ∃ text', remove_state_fields text keys = Ok text' ∧ parse_frontmatter text' = Ok (kept keys d) ∧ lf_only text' ∧
    startswith "---" text' = true.
Proof.
  intros Hlf Hs Hd Ht. assert (∃ text', remove_state_fields text keys = Ok text') as [text' Ep].
  { unfold remove_state_fields, rewrite_body. rewrite Hs, Hd. cbn [negb mbind res_bind]. pose proof (parsed_fenced _ _ Hlf Hd) as Hf.
    destruct (split_fence _) as [[body suffix]|]; [|done]. by eexists. }
  exists text'. destruct (rewritten _ _ _ _ Hlf Hd Ep) as (body & suffix & c & out & Ef & Hb & Hl & Eo & Hend).
  injection Eo as <-. unfold tidy_items_text in Ht. rewrite Ef in Ht.
  destruct (remove_sim keys body None [] None true false (c, d)) as [c' Hp]; [exact Ht|exact I|exact Hb|].
  split; [done|]. apply (Hend c' _); [by apply remove_go_lines|exact Hp].
Qed.
