(* ===== verification/StateContract.v ===== *)
(** * The STATE contract

    [state_contract_errors] of [tools/saipen_engine/state.py], with [shape_errors]
    of [goal_authority.py], over the vocabulary of [saipen/REGISTRY.json]. The
    checks read parsed fields; the protocol major and the voice marker of the
    running install are arguments. *)

From S2P Require Import Prelude PyStr PyStrFacts PyUnicode PyRegex PyDict Phases BoardClock StateDoc StateWait.

(** ** Registry data *)

Definition STATE_REQUIRED_FIELDS : list pystr :=
  strs ["phase"; "task"; "next_action"; "blocker"; "agent"; "saipen_version"; "mode"; "updated"].
Definition STATE_KNOWN_FIELDS : list pystr :=
  strs ["phase"; "task"; "attempt"; "next_action"; "blocker"; "agent"; "saipen_version"; "schema_version";
        "saipen_home"; "requires"; "mode"; "execution_intent"; "converge_target"; "goal_mode"; "goal_waves";
        "goal_tickets"; "last_event"; "style_contract"; "updated"; "human_note"; "first_publish_confirmation";
        "role_revision"; "paused_from_phase"; "paused_from_na"; "transition_from"; "stop_reason"; "improve_gate";
        "goal_ingress"; "continuation_authority"; "authority_source"; "authority_until"; "safety_valve_mode"].
Definition STATE_STRING_FIELDS : list pystr :=
  strs ["task"; "attempt"; "next_action"; "blocker"; "agent"; "saipen_home"; "style_contract"; "updated";
        "human_note"; "first_publish_confirmation"; "role_revision"; "paused_from_phase"; "paused_from_na";
        "stop_reason"; "improve_gate"; "continuation_authority"; "authority_source"; "authority_until";
        "safety_valve_mode"].
Definition STATE_INTEGER_FIELDS : dict pystr (option Z) :=
  (λ e : string * option Z, (py e.1, e.2)) <$>
  [("saipen_version", None); ("schema_version", Some 1%Z); ("goal_waves", Some 0%Z); ("goal_tickets", Some 0%Z);
   ("last_event", Some 1%Z)].
Definition STATE_MODE_ENUM : list pystr := strs ["full"; "read-only"; "no-publish"; "manual-verify"].
Definition STATE_INTENT_ENUM : list pystr := strs ["normal"; "goal"; "converge"].
Definition STATE_CONVERGE_TARGETS : list pystr := strs ["done"; "ship"; "crew"].

(** ** Continuation authority *)

Definition FIELDS : list pystr :=
  strs ["continuation_authority"; "authority_source"; "authority_until"; "safety_valve_mode"].
(** [registry.goal_authority] *)
Definition CONTINUATIONS : list pystr := strs ["operator_required"; "operator_persistent"].
Definition UNTILS : list pystr := strs ["budget"; "goal_complete"; "continuous_maintenance"].
Definition VALVES : list pystr := strs ["hard_wait"; "checkpoint"].

(** [(?:E|SRC)-0*[1-9][0-9]*] *)
Definition SOURCE_RE : re :=
  seqs [alts (strs ["E"; "SRC"]); lit "-"; Star (N.eqb 48); Chr (in_range 49 57); Star is_ascii_digit].
(** [goal-[0-9a-f]{16}] *)
Definition INGRESS_RE : re := Seq (lit "goal-") (rep 16 is_hex).

Inductive shape_error : Type :=
  | NotGoal
  | Incomplete
  | OutsideEnum (field : pystr)
  | Inconsistent
  | NoSource
  | NoIngress.

(** [v in l], for the values of a field against a list of strings. *)
Definition val_in (v : option value) (l : list pystr) : bool :=
  match v with Some (Scalar (SStr s)) => mem s l | _ => false end.
Definition is_persistent (state : fields) : bool := str_is (dget (py "continuation_authority") state) (py "operator_persistent").

Definition shape_errors (state : fields) : list shape_error :=
  let present := base.filter (λ k, dmem k state = true) FIELDS in
  let outside := find_first (λ p : pystr * list pystr, negb (val_in (dget p.1 state) p.2))
                   [(py "continuation_authority", CONTINUATIONS); (py "authority_until", UNTILS);
                    (py "safety_valve_mode", VALVES)] in
  match present with
  | [] => []
  | _ =>
      if negb (str_is (dget (py "execution_intent") state) (py "goal")) then [NotGoal]
      else if negb (Nat.eqb (length present) (length FIELDS)) then [Incomplete]
      else match outside with
           | Some p => [OutsideEnum p.1]
           | None =>
               let persistent := is_persistent state in
               let valid_until := if persistent then strs ["goal_complete"; "continuous_maintenance"] else strs ["budget"] in
               let valid_valve := if persistent then strs ["checkpoint"] else strs ["hard_wait"] in
               if negb (val_in (dget (py "authority_until") state) valid_until)
                  || negb (val_in (dget (py "safety_valve_mode") state) valid_valve) then [Inconsistent]
               else if negb (match dget (py "authority_source") state with
                             | Some (Scalar (SStr s)) => is_full SOURCE_RE s | _ => false end) then [NoSource]
               else if persistent && negb (is_full INGRESS_RE (text_or_empty (dget (py "goal_ingress") state))) then [NoIngress]
               else []
           end
  end.

(** ** The contract *)

Inductive contract_error : Type :=
  | Missing (key : pystr)
  | UnknownField (key : pystr)
  | NotAString (key : pystr)
  | BadPhase
  | BadAttempt
  | BadTransitionFrom
  | BadMode
  | BadIntent
  | BadTarget
  | BadGate
  | NotAnInteger (key : pystr)
  | BelowMinimum (key : pystr)
  | RequiresNotArray
  | RequiresNotStrings
  | GoalModeNotBool
  | Authority (e : shape_error)
  | GoalRequires (key : pystr)
  | GoalWithTarget
  | ConvergeRequiresTarget
  | ConvergeWith (key : pystr)
  | NonGoalWith (key : pystr)
  | NonConvergeWithTarget
  | MissingTransitionFrom
  | UnknownTransitionFrom
  | InvalidTransition
  | BadUpdated
  | MalformedWait (e : wait_error)
  | NewerProtocol
  | WrongStyle
  | MissingStyle.

(** The one exception: a list is not hashable, and [ANY_FROM] is a frozen set. *)
Inductive contract_crash : Type := UnhashablePhase.

Definition report {A} (b : bool) (e : A) : list A := if b then [e] else [].
Definition str_in (v : value) (l : list pystr) : bool := val_in (Some v) l.
Definition is_str (v : value) : bool := match v with Scalar (SStr _) => true | _ => false end.
Definition int_of_value (v : value) : option Z := as_int (Some v).
(** A field that is there and fails its test. *)
Definition check (fs : fields) (key : string) (ok : value → bool) (e : contract_error) : list contract_error :=
  match dget (py key) fs with Some v => report (negb (ok v)) e | None => [] end.
Definition full_match (r : re) (v : value) : bool := match v with Scalar (SStr s) => is_full r s | _ => false end.

(** [A-\d{3,}] *)
Definition ATTEMPT_RE : re := seqs [lit "A-"; rep 3 is_digit; Star is_digit].

Definition field_errors (fs : fields) : list contract_error :=
  (STATE_REQUIRED_FIELDS ≫= λ k, report (negb (dmem k fs)) (Missing k))
  ++ (fs ≫= λ e : pystr * value,
        if negb (mem e.1 STATE_KNOWN_FIELDS) then [UnknownField e.1]
        else report (mem e.1 STATE_STRING_FIELDS && negb (is_str e.2)) (NotAString e.1)).

Definition enum_errors (fs : fields) : list contract_error :=
  check fs "phase" (λ v, str_in v PHASES_ALL) BadPhase
  ++ check fs "attempt" (full_match ATTEMPT_RE) BadAttempt
  ++ check fs "transition_from" (λ v, str_in v PHASES_ALL) BadTransitionFrom
  ++ check fs "mode" (λ v, str_in v STATE_MODE_ENUM) BadMode
  ++ check fs "execution_intent" (λ v, str_in v STATE_INTENT_ENUM) BadIntent
  ++ check fs "converge_target" (λ v, str_in v STATE_CONVERGE_TARGETS) BadTarget
  ++ check fs "improve_gate" (full_match ticket_id_re) BadGate.

Definition integer_errors (fs : fields) : list contract_error :=
  STATE_INTEGER_FIELDS ≫= λ e : pystr * option Z,
    match dget e.1 fs with
    | None => []
    | Some v =>
        match int_of_value v with
        | None => [NotAnInteger e.1]
        | Some n => match e.2 with Some minimum => report (n <? minimum)%Z (BelowMinimum e.1) | None => [] end
        end
    end.

Definition shape_of_others (fs : fields) : list contract_error :=
  match dget (py "requires") fs with
  | None => []
  | Some (VList items) => report (negb (forallb (λ s, is_str (Scalar s)) items)) RequiresNotStrings
  | Some (Scalar _) => [RequiresNotArray]
  end
  ++ check fs "goal_mode" (λ v, match v with Scalar (SBool _) => true | _ => false end) GoalModeNotBool.

Definition COUNTERS : list pystr := strs ["goal_waves"; "goal_tickets"].
Definition family_errors (fs : fields) : list contract_error :=
  let target := dmem (py "converge_target") fs in
  let intent := dget (py "execution_intent") fs in
  if str_is intent (py "goal") then
    (COUNTERS ≫= λ k, report (negb (dmem k fs)) (GoalRequires k)) ++ report target GoalWithTarget
  else if str_is intent (py "converge") then
    report (negb target) ConvergeRequiresTarget ++ (COUNTERS ≫= λ k, report (dmem k fs) (ConvergeWith k))
  else if bool_decide (intent = None) || str_is intent (py "normal") then
    (COUNTERS ≫= λ k, report (dmem k fs) (NonGoalWith k)) ++ report target NonConvergeWithTarget
  else [].

Definition block_parked (ph : value) (tf : pystr) : bool :=
  bool_decide (ph = Scalar (SStr (py "DONE"))) && mem tf (strs ["SCOUT"; "BUILD"; "VERIFY"; "REVIEW"; "SHIP"; "HUNT"]).

Definition transition_errors (fs : fields) : res contract_crash (list contract_error) :=
  match dget (py "phase") fs with
  | None => Ok []
  | Some ph =>
      if bool_decide (ph = Scalar (SStr (py "INIT"))) then Ok []
      else match dget (py "transition_from") fs with
           | None => Ok [MissingTransitionFrom]
           | Some (Scalar (SStr tf)) =>
               if negb (dmem tf VALID_TRANSITIONS) && negb (mem tf ANY_FROM) then Ok [UnknownTransitionFrom]
               else if bool_decide (ph = Scalar (SStr tf)) then Ok []
               else match ph with
                    | VList _ => Err UnhashablePhase
                    | Scalar _ =>
                        if str_in ph ANY_FROM then Ok []
                        else if block_parked ph tf then Ok []
                        else Ok (report (negb (str_in ph (destinations tf))) InvalidTransition)
                    end
           | Some _ => Ok []
           end
  end.

Definition document_errors (fs : fields) : list contract_error :=
  match dget (py "updated") fs with
  | Some (Scalar (SStr u)) => report (negb (nonempty (strict_iso_utc u))) BadUpdated
  | _ => []
  end
  ++ match dget (py "next_action") fs with
     | Some (Scalar (SStr na)) =>
         if startswith WAIT_PREFIX (strip na)
         then match wait_grammar_error (Some (Scalar (SStr na))) with Some e => [MalformedWait e] | None => [] end
         else []
     | _ => []
     end.

(** [v == n], where [True == 1] and [False == 0]. *)
Definition eq_int (v : option value) (n : Z) : bool :=
  match v with
  | Some (Scalar (SInt m)) => (m =? n)%Z
  | Some (Scalar (SBool b)) => ((if b then 1 else 0) =? n)%Z
  | _ => false
  end.

Definition install_errors (running_major : option Z) (style_token : option pystr)
    (current_schema_version : option Z) (fs : fields) : list contract_error :=
  match running_major, dget (py "saipen_version") fs with
  | Some major, Some (Scalar (SInt project)) => report (major <? project)%Z NewerProtocol
  | _, _ => []
  end
  ++ match style_token with
     | None => []
     | Some token =>
         match dget (py "style_contract") fs, current_schema_version with
         | Some sc, _ => report (negb (bool_decide (sc = Scalar (SStr token)))) WrongStyle
         | None, Some version => report (eq_int (dget (py "schema_version") fs) version) MissingStyle
         | None, None => []
         end
     end.

Definition state_contract_errors (running_major : option Z) (style_token : option pystr)
    (current_schema_version : option Z) (fs : fields) : res contract_crash (list contract_error) :=
  transition ← transition_errors fs;
  Ok (field_errors fs ++ enum_errors fs ++ integer_errors fs ++ shape_of_others fs
      ++ (Authority <$> shape_errors fs) ++ family_errors fs ++ transition ++ document_errors fs
      ++ install_errors running_major style_token current_schema_version fs).

(** ** Reading a state *)

Inductive state_read : Type :=
  | Absent
  | Read (fs : fields)
  | Corrupt.

Definition parse_state (running_major : option Z) (text : pystr) : res contract_crash state_read :=
  if negb (nonempty (strip text)) then Ok Absent
  else match parse_frontmatter text with
       | Err _ => Ok Corrupt
       | Ok fs => errors ← state_contract_errors running_major None None fs;
                  Ok (match errors with [] => Read fs | _ => Corrupt end)
       end.

(** ** What a clean contract says *)

Definition str_val (P : pystr → Prop) (v : value) : Prop := ∃ s, v = Scalar (SStr s) ∧ P s.
Definition field (fs : fields) (key : string) (P : value → Prop) : Prop := ∀ v, dget (py key) fs = Some v → P v.
Definition is_field (fs : fields) (key : string) (s : string) : Prop := dget (py key) fs = Some (Scalar (SStr (py s))).
Definition present (fs : fields) (key : string) : Prop := is_Some (dget (py key) fs).
Definition absent (fs : fields) (key : string) : Prop := dget (py key) fs = None.

(** A grant names its goal, and its scope and its valve agree with its kind. *)
Definition valid_grant (fs : fields) : Prop :=
  is_field fs "execution_intent" "goal" ∧
  (∃ src, dget (py "authority_source") fs = Some (Scalar (SStr src)) ∧ is_full SOURCE_RE src = true) ∧
  ((is_field fs "continuation_authority" "operator_required" ∧ is_field fs "authority_until" "budget" ∧
    is_field fs "safety_valve_mode" "hard_wait")
   ∨ (is_field fs "continuation_authority" "operator_persistent" ∧
      (is_field fs "authority_until" "goal_complete" ∨ is_field fs "authority_until" "continuous_maintenance") ∧
      is_field fs "safety_valve_mode" "checkpoint" ∧
      is_full INGRESS_RE (text_or_empty (dget (py "goal_ingress") fs)) = true)).

(** The fields of the intents exclude each other. *)
Definition valid_family (fs : fields) : Prop :=
  (is_field fs "execution_intent" "goal" ∧ present fs "goal_waves" ∧ present fs "goal_tickets" ∧ absent fs "converge_target")
  ∨ (is_field fs "execution_intent" "converge" ∧ present fs "converge_target" ∧ absent fs "goal_waves" ∧ absent fs "goal_tickets")
  ∨ ((absent fs "execution_intent" ∨ is_field fs "execution_intent" "normal") ∧
     absent fs "goal_waves" ∧ absent fs "goal_tickets" ∧ absent fs "converge_target").

Definition valid_transition (fs : fields) : Prop :=
  ∃ ph, dget (py "phase") fs = Some (Scalar (SStr ph)) ∧
  (ph = py "INIT" ∨ ∃ tf, dget (py "transition_from") fs = Some (Scalar (SStr tf)) ∧
     (transition_legal tf ph = true
      ∨ ph = py "DONE" ∧ tf ∈ strs ["SCOUT"; "BUILD"; "VERIFY"; "REVIEW"; "SHIP"; "HUNT"])).

Lemma report_nil {A} b (e : A) : report b e = [] ↔ b = false.
Proof. by destruct b. Qed.
Lemma bind_nil_iff {A B} (f : A → list B) l : l ≫= f = [] ↔ ∀ x, x ∈ l → f x = [].
Proof.
  induction l as [|x l IH]; [split; [by intros _ y ?%elem_of_nil|done]|]. rewrite bind_cons. split.
  - intros [Hx Hl]%app_eq_nil y [->|Hy]%elem_of_cons; [done|by apply IH].
  - intros H. rewrite H by left. simpl. apply IH. intros y Hy. apply H. by right.
Qed.
Lemma str_in_spec v l : str_in v l = true ↔ str_val (λ s, s ∈ l) v.
Proof.
  unfold str_in, val_in, str_val. destruct v as [[s|b|n]|items]; rewrite ?mem_true; split; try done; try naive_solver.
Qed.
Lemma str_is_spec fs (key s : string) : str_is (dget (py key) fs) (py s) = true ↔ is_field fs key s.
Proof. unfold str_is. by rewrite bool_decide_eq_true. Qed.
Lemma check_nil fs key ok e : check fs key ok e = [] ↔ field fs key (λ v, ok v = true).
Proof.
  unfold check, field. destruct (dget _ fs) as [v|]; [|naive_solver]. rewrite report_nil, negb_false_iff. naive_solver.
Qed.
Lemma dmem_present fs (key : string) : dmem (py key) fs = true ↔ present fs key.
Proof. unfold dmem, present. by rewrite bool_decide_eq_true. Qed.
Lemma dmem_absent fs (key : string) : dmem (py key) fs = false ↔ absent fs key.
Proof. unfold dmem, absent. rewrite bool_decide_eq_false, <-eq_None_not_Some. done. Qed.

Lemma counters_nil (f : pystr → list contract_error) :
  (COUNTERS ≫= f) = [] ↔ f (py "goal_waves") = [] ∧ f (py "goal_tickets") = [].
Proof. unfold COUNTERS. simpl. rewrite app_nil_r. split; [apply app_eq_nil|]. by intros [-> ->]. Qed.

Lemma app_nil_iff {A} (l k : list A) : l ++ k = [] ↔ l = [] ∧ k = [].
Proof. split; [apply app_eq_nil|]. by intros [-> ->]. Qed.

Lemma intent_cases fs :
  field fs "execution_intent" (str_val (λ s, s ∈ STATE_INTENT_ENUM)) →
  absent fs "execution_intent" ∨ is_field fs "execution_intent" "normal"
  ∨ is_field fs "execution_intent" "goal" ∨ is_field fs "execution_intent" "converge".
Proof.
  intros Hi. unfold absent, is_field, field in *. destruct (dget _ fs) as [v|]; [|by left]. destruct (Hi v eq_refl) as (s & -> & Hs).
  right. apply elem_of_cons in Hs as [->|[->|[->|[]%elem_of_nil]%elem_of_cons]%elem_of_cons]; auto.
Qed.

(** Evaluate the tests of a known intent. *)
Ltac eval_tests :=
  repeat match goal with
  | |- context [str_is (Some ?a) ?b] => let v := eval vm_compute in (str_is (Some a) b) in change (str_is (Some a) b) with v
  | |- context [str_is None ?b] => change (str_is None b) with false
  | |- context [bool_decide (Some ?a = None)] => rewrite (bool_decide_eq_false_2 (Some a = None)) by done
  | |- context [bool_decide (None = None)] => rewrite (bool_decide_eq_true_2 (None = None)) by done
  end; cbn [orb].

Lemma family_exact fs :
  field fs "execution_intent" (str_val (λ s, s ∈ STATE_INTENT_ENUM)) → family_errors fs = [] ↔ valid_family fs.
Proof.
  intros Hi%intent_cases. unfold family_errors, valid_family, is_field, absent in *.
  destruct Hi as [->|[->|[->| ->]]];
    eval_tests; rewrite ?app_nil_iff, ?counters_nil, ?report_nil, ?negb_false_iff, ?dmem_present, ?dmem_absent.
  all: unfold present, absent; naive_solver.
Qed.

Lemma transition_exact fs :
  present fs "phase" → field fs "phase" (str_val (λ s, s ∈ PHASES_ALL)) →
  field fs "transition_from" (str_val (λ s, s ∈ PHASES_ALL)) →
  transition_errors fs = Ok [] ↔ valid_transition fs.
Proof.
  intros [ph Hp] Hph Htf. destruct (Hph _ Hp) as (p & -> & Hpin). unfold transition_errors, valid_transition. rewrite Hp.
  case_bool_decide as Ei; [split; [intros _; exists p; split; [done|left; by injection Ei]|done]|].
  destruct (dget (py "transition_from") fs) as [tf|] eqn:Et.
  - destruct (Htf _ Et) as (t & -> & Htin).
    assert (dmem t VALID_TRANSITIONS = true) as Hk by (apply dmem_spec; exact Htin). rewrite Hk. cbn [negb andb].
    transitivity (transition_legal t p = true ∨ p = py "DONE" ∧ t ∈ strs ["SCOUT"; "BUILD"; "VERIFY"; "REVIEW"; "SHIP"; "HUNT"]).
    + unfold transition_legal, block_parked, str_in, val_in. rewrite Hk. case_bool_decide as Es.
      * injection Es as ->. rewrite eqs_refl. destruct (mem t ANY_FROM); simpl; split; auto.
      * destruct (mem p ANY_FROM); [split; auto|]. destruct (t =s p) eqn:E; [apply eqs_true in E; congruence|].
        case_bool_decide as Ed; cbn [andb].
        -- injection Ed as ->. rewrite <-mem_true. destruct (mem t _); [split; auto|].
           destruct (mem _ (destinations t)); cbn; (split; [intros ?; auto|by intros [?|[_ ?]]]); done.
        -- destruct (mem _ (destinations t)); cbn; (split; [intros ?; auto|by intros [?|[-> _]]]); done.
    + split; [intros H; exists p; split; [done|right; eauto]|]. intros (p' & E & H). injection E as <-. destruct H as [->|(t' & E & H)]; [done|]. injection E as <-. exact H.
  - split; [done|]. intros (p' & E & H). injection E as <-. destruct H as [->|(t' & E & _)]; done.
Qed.

Lemma val_in_spec v l : val_in v l = true ↔ ∃ s, v = Some (Scalar (SStr s)) ∧ s ∈ l.
Proof.
  unfold val_in. destruct v as [[[s|b|n]|items]|]; rewrite ?mem_true; split; try done; try naive_solver.
Qed.

Lemma present_all (fs : fields) :
  length (base.filter (λ k, dmem k fs = true) FIELDS) = length FIELDS ↔ ∀ k, k ∈ FIELDS → dmem k fs = true.
Proof.
  split.
  - intros H k Hk. destruct (decide (dmem k fs = true)) as [|Hn]; [done|]. exfalso.
    pose proof (length_filter_lt (λ k, dmem k fs = true) FIELDS k Hk Hn). lia.
  - intros H. f_equal. assert (Forall (λ k, dmem k fs = true) FIELDS) as HF by (by apply Forall_forall).
    induction HF as [|k l Hk _ IH]; [done|]. rewrite list.filter_cons_True by done. f_equal. apply IH. intros j Hj. apply H. by right.
Qed.

Definition no_grant (fs : fields) : Prop := ∀ k, k ∈ FIELDS → dget k fs = None.

Lemma no_grant_exact fs : base.filter (λ k, dmem k fs = true) FIELDS = [] ↔ no_grant fs.
Proof.
  unfold no_grant. split.
  - intros H k Hk. destruct (dget k fs) as [v|] eqn:E; [|done]. exfalso.
    assert (k ∈ base.filter (λ k, dmem k fs = true) FIELDS) as Hin.
    { apply list_elem_of_filter. split; [|done]. unfold dmem. by rewrite E, bool_decide_eq_true_2. }
    rewrite H in Hin. by apply elem_of_nil in Hin.
  - intros H. destruct (base.filter _ _) as [|k l] eqn:E; [done|]. exfalso.
    assert (k ∈ base.filter (λ k, dmem k fs = true) FIELDS) as Hin by (rewrite E; left).
    apply list_elem_of_filter in Hin as [Hd Hk]. unfold dmem in Hd. rewrite (H k Hk) in Hd. done.
Qed.

Lemma val_in_field fs (key : string) l :
  val_in (dget (py key) fs) (strs l) = true ↔ ∃ s, s ∈ l ∧ is_field fs key s.
Proof.
  rewrite val_in_spec. unfold is_field, strs. split.
  - intros (s & -> & (x & -> & Hx)%list_elem_of_fmap). eauto.
  - intros (x & Hx & ->). eexists. split; [done|]. by apply list_elem_of_fmap_2.
Qed.

Lemma grant_in_enums fs : valid_grant fs →
  val_in (dget (py "continuation_authority") fs) CONTINUATIONS = true ∧
  val_in (dget (py "authority_until") fs) UNTILS = true ∧ val_in (dget (py "safety_valve_mode") fs) VALVES = true.
Proof.
  unfold CONTINUATIONS, UNTILS, VALVES. rewrite !val_in_field.
  intros (_ & _ & [(H1 & H2 & H3)|(H1 & [H2|H2] & H3 & _)]); split_and!; eexists; (split; [|eassumption]);
    apply (bool_decide_unpack _); by vm_compute.
Qed.

Ltac eval_vals :=
  eval_tests; repeat match goal with
  | |- context [val_in (Some ?a) ?l] => let v := eval vm_compute in (val_in (Some a) l) in change (val_in (Some a) l) with v
  end; cbn [negb orb andb].

(** The checks that remain once the values are in their enums. *)
Lemma scope_exact fs c u v :
  is_field fs "execution_intent" "goal" →
  is_field fs "continuation_authority" c → is_field fs "authority_until" u → is_field fs "safety_valve_mode" v →
  c ∈ ["operator_required"; "operator_persistent"] → u ∈ ["budget"; "goal_complete"; "continuous_maintenance"] →
  v ∈ ["hard_wait"; "checkpoint"] →
  let persistent := is_persistent fs in
  (if negb (val_in (dget (py "authority_until") fs) (if persistent then strs ["goal_complete"; "continuous_maintenance"] else strs ["budget"]))
      || negb (val_in (dget (py "safety_valve_mode") fs) (if persistent then strs ["checkpoint"] else strs ["hard_wait"])) then [Inconsistent]
   else if negb (match dget (py "authority_source") fs with Some (Scalar (SStr s)) => is_full SOURCE_RE s | _ => false end) then [NoSource]
   else if persistent && negb (is_full INGRESS_RE (text_or_empty (dget (py "goal_ingress") fs))) then [NoIngress] else []) = []
  ↔ valid_grant fs.
Proof.
  intros Hg Hc Hu Hv Cc Cu Cv. cbn zeta. unfold valid_grant, is_persistent, is_field in *. rewrite Hg, Hc, Hu, Hv.
  assert ((match dget (py "authority_source") fs with Some (Scalar (SStr s)) => is_full SOURCE_RE s | _ => false end) = true ↔
          ∃ src, dget (py "authority_source") fs = Some (Scalar (SStr src)) ∧ is_full SOURCE_RE src = true) as Hs.
  { destruct (dget (py "authority_source") fs) as [[[s|b|n]|items]|]; (split; [intros H; try done; eauto|intros (src & E & H); try done; by injection E as ->]). }
  rewrite <-Hs. destruct (match dget _ fs with Some _ => _ | None => _ end);
    (apply elem_of_cons in Cc as [->|[->|[]%elem_of_nil]%elem_of_cons];
     apply elem_of_cons in Cu as [->|[->|[->|[]%elem_of_nil]%elem_of_cons]%elem_of_cons];
     apply elem_of_cons in Cv as [->|[->|[]%elem_of_nil]%elem_of_cons]); eval_vals.
  all: try destruct (is_full _ _).
  all: split; [intros ?; try done; split_and!; try done; tauto|].
  all: intros (_ & ? & [(? & ? & ?)|(? & [?|?] & ? & ?)]); done.
Qed.

Lemma shape_exact fs : shape_errors fs = [] ↔ no_grant fs ∨ valid_grant fs.
Proof.
  unfold shape_errors. rewrite <-no_grant_exact. pose proof (present_all fs) as Hall.
  destruct (base.filter _ _) as [|k0 l0] eqn:Ep; [by split; [left|]|].
  destruct (str_is (dget (py "execution_intent") fs) (py "goal")) eqn:Eg; cbn [negb].
  2: { split; [done|]. intros [?|(Hg & _)]; [done|]. apply str_is_spec in Hg. congruence. }
  apply str_is_spec in Eg.
  assert (valid_grant fs → ∀ k, k ∈ FIELDS → dmem k fs = true) as Hv.
  { intros (_ & (src & Hs & _) & Hr) k Hk. unfold dmem. apply bool_decide_eq_true. unfold is_field in Hr.
    apply elem_of_cons in Hk as [->|[->|[->|[->|[]%elem_of_nil]%elem_of_cons]%elem_of_cons]%elem_of_cons];
      [|by eexists|..]; destruct Hr as [(H1 & H2 & H3)|(H1 & [H2|H2] & H3 & _)]; by eexists. }
  destruct (Nat.eqb_spec (length (k0 :: l0)) (length FIELDS)) as [El|El]; cbn [negb].
  2: { split; [done|]. intros [?|H]; [done|]. destruct El. apply Hall, Hv, H. }
  pose proof (grant_in_enums fs) as He. cbn [find_first fst snd].
  destruct (val_in _ CONTINUATIONS) eqn:Ec; cbn [negb]; [|split; [done|intros [?|(? & _)%He]; done]].
  destruct (val_in _ UNTILS) eqn:Eu; cbn [negb]; [|split; [done|intros [?|(_ & ? & _)%He]; done]].
  destruct (val_in _ VALVES) eqn:Ev; cbn [negb]; [|split; [done|intros [?|(_ & _ & ?)%He]; done]].
  apply val_in_field in Ec as (c & Cc & Hc). apply val_in_field in Eu as (u & Cu & Hu). apply val_in_field in Ev as (v & Cv & Hv').
  rewrite (scope_exact fs c u v Eg Hc Hu Hv' Cc Cu Cv). split; [by right|]. by intros [?|?].
Qed.

(** A valid state: what the contract promises, field by field. *)
Record valid_state (running_major : option Z) (style_token : option pystr) (current_schema_version : option Z)
    (fs : fields) : Prop := {
  vs_required : ∀ k, k ∈ STATE_REQUIRED_FIELDS → is_Some (dget k fs);
  vs_known : ∀ k v, (k, v) ∈ fs → k ∈ STATE_KNOWN_FIELDS ∧ (k ∈ STATE_STRING_FIELDS → str_val (λ _, True) v);
  vs_attempt : field fs "attempt" (str_val (λ s, is_full ATTEMPT_RE s = true));
  vs_mode : field fs "mode" (str_val (λ s, s ∈ STATE_MODE_ENUM));
  vs_target : field fs "converge_target" (str_val (λ s, s ∈ STATE_CONVERGE_TARGETS));
  vs_gate : field fs "improve_gate" (str_val (λ s, is_full ticket_id_re s = true));
  vs_integers : ∀ k minimum v, (k, minimum) ∈ STATE_INTEGER_FIELDS → dget k fs = Some v →
    ∃ n, v = Scalar (SInt n) ∧ ∀ lo, minimum = Some lo → (lo ≤ n)%Z;
  vs_requires : field fs "requires" (λ v, ∃ items, v = VList items ∧ Forall (λ s, str_val (λ _, True) (Scalar s)) items);
  vs_goal_mode : field fs "goal_mode" (λ v, ∃ b, v = Scalar (SBool b));
  vs_authority : no_grant fs ∨ valid_grant fs;
  vs_family : valid_family fs;
  vs_phases : field fs "phase" (str_val (λ s, s ∈ PHASES_ALL)) ∧ field fs "transition_from" (str_val (λ s, s ∈ PHASES_ALL));
  vs_transition : valid_transition fs;
  vs_updated : ∀ u, dget (py "updated") fs = Some (Scalar (SStr u)) → ∃ st, iso_utc_sort_key u = Some st;
  vs_wait : ∀ na, dget (py "next_action") fs = Some (Scalar (SStr na)) → startswith WAIT_PREFIX (strip na) = true →
    is_legal_wait (Some (Scalar (SStr na))) = true;
  vs_major : ∀ major project, running_major = Some major → dget (py "saipen_version") fs = Some (Scalar (SInt project)) →
    (project ≤ major)%Z;
  vs_style : ∀ token, style_token = Some token →
    field fs "style_contract" (λ sc, sc = Scalar (SStr token)) ∧
    (absent fs "style_contract" → ∀ version, current_schema_version = Some version →
       eq_int (dget (py "schema_version") fs) version = false);
}.

Lemma is_str_spec v : is_str v = true ↔ str_val (λ _, True) v.
Proof. unfold str_val. destruct v as [[s|b|n]|items]; split; try done; [eauto|..]; by intros (? & ? & _). Qed.
Lemma full_match_spec r v : full_match r v = true ↔ str_val (λ s, is_full r s = true) v.
Proof.
  unfold str_val. destruct v as [[s|b|n]|items]; (split; [intros H; try done; eauto|intros (t & E & H); try done]).
  by injection E as ->.
Qed.
Lemma field_iff fs key P Q : (∀ v, P v ↔ Q v) → field fs key P ↔ field fs key Q.
Proof. unfold field. intros H. split; intros Hf v Hv; apply H; auto. Qed.

Lemma field_errors_exact fs :
  field_errors fs = [] ↔
  (∀ k, k ∈ STATE_REQUIRED_FIELDS → is_Some (dget k fs)) ∧
  (∀ k v, (k, v) ∈ fs → k ∈ STATE_KNOWN_FIELDS ∧ (k ∈ STATE_STRING_FIELDS → str_val (λ _, True) v)).
Proof.
  unfold field_errors. rewrite app_nil_iff, !bind_nil_iff.
  assert (∀ k : pystr, report (negb (dmem k fs)) (Missing k) = [] ↔ is_Some (dget k fs)) as Hr.
  { intros k. unfold dmem. by rewrite report_nil, negb_false_iff, bool_decide_eq_true. }
  assert (∀ (k : pystr) (v : value), (if negb (mem k STATE_KNOWN_FIELDS) then [UnknownField k]
             else report (mem k STATE_STRING_FIELDS && negb (is_str v)) (NotAString k)) = [] ↔
           k ∈ STATE_KNOWN_FIELDS ∧ (k ∈ STATE_STRING_FIELDS → str_val (λ _, True) v)) as Hk.
  { intros k v. rewrite <-!mem_true, <-is_str_spec. destruct (mem k STATE_KNOWN_FIELDS); cbn [negb]; [|naive_solver].
    destruct (mem k STATE_STRING_FIELDS), (is_str v); naive_solver. }
  split.
  - intros [H1 H2]. split; [intros k Hin; by apply Hr, H1|]. intros k v Hin. apply Hk. exact (H2 _ Hin).
  - intros [H1 H2]. split; [intros k Hin; by apply Hr, H1|]. intros [k v] Hin. apply Hk, H2, Hin.
Qed.

Lemma enum_errors_exact fs :
  enum_errors fs = [] ↔
  field fs "phase" (str_val (λ s, s ∈ PHASES_ALL)) ∧ field fs "attempt" (str_val (λ s, is_full ATTEMPT_RE s = true)) ∧
  field fs "transition_from" (str_val (λ s, s ∈ PHASES_ALL)) ∧ field fs "mode" (str_val (λ s, s ∈ STATE_MODE_ENUM)) ∧
  field fs "execution_intent" (str_val (λ s, s ∈ STATE_INTENT_ENUM)) ∧
  field fs "converge_target" (str_val (λ s, s ∈ STATE_CONVERGE_TARGETS)) ∧
  field fs "improve_gate" (str_val (λ s, is_full ticket_id_re s = true)).
Proof.
  unfold enum_errors. rewrite !app_nil_iff, !check_nil.
  by rewrite (field_iff fs "attempt" _ _ (full_match_spec ATTEMPT_RE)), (field_iff fs "improve_gate" _ _ (full_match_spec ticket_id_re)),
    (field_iff fs "phase" _ _ (λ v, str_in_spec v PHASES_ALL)), (field_iff fs "transition_from" _ _ (λ v, str_in_spec v PHASES_ALL)),
    (field_iff fs "mode" _ _ (λ v, str_in_spec v STATE_MODE_ENUM)), (field_iff fs "execution_intent" _ _ (λ v, str_in_spec v STATE_INTENT_ENUM)),
    (field_iff fs "converge_target" _ _ (λ v, str_in_spec v STATE_CONVERGE_TARGETS)).
Qed.

Lemma integer_errors_exact fs :
  integer_errors fs = [] ↔
  ∀ k minimum v, (k, minimum) ∈ STATE_INTEGER_FIELDS → dget k fs = Some v →
    ∃ n, v = Scalar (SInt n) ∧ ∀ lo, minimum = Some lo → (lo ≤ n)%Z.
Proof.
  unfold integer_errors. rewrite bind_nil_iff. split.
  - intros H k m v Hin Hv. specialize (H _ Hin). cbn [fst snd] in H. rewrite Hv in H. unfold int_of_value, as_int in H.
    destruct v as [[s|b|n]|items]; try done. exists n. split; [done|]. intros lo ->. apply report_nil, Z.ltb_ge in H. done.
  - intros H [k m] Hin. cbn [fst snd]. destruct (dget k fs) as [v|] eqn:Hv; [|done].
    destruct (H k m v Hin Hv) as (n & -> & Hlo). cbn. destruct m as [lo|]; [|done]. apply report_nil, Z.ltb_ge. by apply Hlo.
Qed.

Lemma others_exact fs :
  shape_of_others fs = [] ↔
  field fs "requires" (λ v, ∃ items, v = VList items ∧ Forall (λ s, str_val (λ _, True) (Scalar s)) items) ∧
  field fs "goal_mode" (λ v, ∃ b, v = Scalar (SBool b)).
Proof.
  unfold shape_of_others. rewrite app_nil_iff, check_nil. apply Morphisms_Prop.and_iff_morphism.
  - unfold field. destruct (dget _ fs) as [[s|items]|]; [| |by split].
    + split; [done|]. intros H. by destruct (H _ eq_refl) as (? & ? & _).
    + rewrite report_nil, negb_false_iff, forallb_forall. split.
      * intros H v E. injection E as <-. exists items. split; [done|]. apply Forall_forall. intros s Hs.
        apply is_str_spec, H. by apply list_elem_of_In.
      * intros H. destruct (H _ eq_refl) as (items' & E & HF). injection E as <-. intros s Hs%list_elem_of_In.
        apply is_str_spec. rewrite Forall_forall in HF. by apply HF.
  - apply field_iff. intros v. destruct v as [[s|b|n]|items]; split; try done; [by intros [? ?]|eauto|by intros [? ?]|by intros [? ?]].
Qed.

Lemma document_exact fs :
  document_errors fs = [] ↔
  (∀ u, dget (py "updated") fs = Some (Scalar (SStr u)) → ∃ st, iso_utc_sort_key u = Some st) ∧
  (∀ na, dget (py "next_action") fs = Some (Scalar (SStr na)) → startswith WAIT_PREFIX (strip na) = true →
    is_legal_wait (Some (Scalar (SStr na))) = true).
Proof.
  unfold document_errors. rewrite app_nil_iff. apply Morphisms_Prop.and_iff_morphism.
  - destruct (dget _ fs) as [[[u|b|n]|items]|]; try (by split).
    rewrite report_nil, negb_false_iff, strict_iso_utc_key. split.
    + intros H v E. injection E as <-. destruct (iso_utc_sort_key u); [eauto|done].
    + intros H. destruct (H u eq_refl) as [st ->]. by destruct (isoformat st).
  - destruct (dget _ fs) as [[[na|b|n]|items]|]; try (by split). unfold is_legal_wait, parse_wait.
    destruct (startswith _ _) eqn:Es; [|split; [intros _ v E; injection E as <-; congruence|done]].
    destruct (wait_grammar_error _) eqn:Ew; split; try done.
    + intros H. specialize (H na eq_refl Es). by rewrite Ew in H.
    + intros _ v E _. injection E as <-. rewrite Ew. by destruct (is_match _ _).
Qed.

Lemma install_exact m t v fs :
  install_errors m t v fs = [] ↔
  (∀ major project, m = Some major → dget (py "saipen_version") fs = Some (Scalar (SInt project)) → (project ≤ major)%Z) ∧
  (∀ token, t = Some token →
    field fs "style_contract" (λ sc, sc = Scalar (SStr token)) ∧
    (absent fs "style_contract" → ∀ version, v = Some version → eq_int (dget (py "schema_version") fs) version = false)).
Proof.
  unfold install_errors. rewrite app_nil_iff. apply Morphisms_Prop.and_iff_morphism.
  - destruct m as [major|]; [|by split]. destruct (dget _ fs) as [[[s|b|n]|items]|]; try (by split).
    rewrite report_nil, Z.ltb_ge. split; [by intros H ? ? [= <-] [= <-]|auto].
  - destruct t as [token|]; [|by split]. unfold field, absent. destruct (dget _ fs) as [sc|].
    + rewrite report_nil, negb_false_iff, bool_decide_eq_true. split.
      * intros -> ? [= <-]. split; [by intros ? [= <-]|done].
      * intros H. destruct (H token eq_refl) as [H' _]. auto.
    + destruct v as [version|]; [|split; [by intros _ ? _|done]]. rewrite report_nil. split.
      * intros H ? _. split; [done|]. by intros _ ? [= <-].
      * intros H. destruct (H token eq_refl) as [_ H']. auto.
Qed.

Lemma contract_valid m t v fs : state_contract_errors m t v fs = Ok [] ↔ valid_state m t v fs.
Proof.
  assert (state_contract_errors m t v fs = Ok [] ↔
    transition_errors fs = Ok [] ∧ field_errors fs = [] ∧ enum_errors fs = [] ∧ integer_errors fs = [] ∧
    shape_of_others fs = [] ∧ shape_errors fs = [] ∧ family_errors fs = [] ∧ document_errors fs = [] ∧
    install_errors m t v fs = []) as ->.
  { unfold state_contract_errors. destruct (transition_errors fs) as [tr|]; [|by split; [|intros [? _]]]. cbn [mbind res_bind].
    split.
    - intros H. injection H as H. rewrite !app_nil_iff in H. destruct H as (? & ? & ? & ? & Hs & ? & -> & ? & ?).
      apply fmap_nil_inv in Hs. done.
    - intros (H & -> & -> & -> & -> & -> & -> & -> & ->). injection H as ->. done. }
  rewrite field_errors_exact, enum_errors_exact, integer_errors_exact, others_exact, shape_exact, document_exact, install_exact.
  split.
  - intros (Htr & (Hreq & Hk) & (H1 & H2 & H3 & H4 & H5 & H6 & H7) & Hi & (H8 & H9) & Hs & Hf & (H10 & H11) & (H12 & H13)).
    constructor; try done; [by apply family_exact|]. apply transition_exact; [|done|done|done]. apply Hreq. by left.
  - intros []. assert (field fs "execution_intent" (str_val (λ s, s ∈ STATE_INTENT_ENUM))) as Hi.
    { intros w Hw. unfold valid_family, is_field, absent in vs_family0. rewrite Hw in vs_family0.
      assert (∀ s : string, py s ∈ STATE_INTENT_ENUM → Some w = Some (Scalar (SStr (py s))) → str_val (λ s, s ∈ STATE_INTENT_ENUM) w) as Hin.
      { intros s Hs E. injection E as ->. by exists (py s). }
      destruct vs_family0 as [(E & _)|[(E & _)|([?|E] & _)]]; [eapply Hin, E|eapply Hin, E|done|eapply Hin, E];
        apply (bool_decide_unpack _); by vm_compute. }
    destruct vs_phases0 as [Hp Ht]. split_and!; try done; [|by apply family_exact].
    apply transition_exact; [|done|done|done]. apply vs_required0. by left.
Qed.

(** C37: The contract the code checks is exact: a state has no errors exactly when every
    clause of [valid_state] holds, and then the check does not raise. The clauses are
    those of the code. They are not all of [state.schema.json], which the check is said
    to mirror: of [stop_reason] they ask for a text only, where the schema lists six
    values, and of [goal_ingress] nothing unless a persistent grant needs it, where the
    schema asks for a text. *)
Theorem contract_exact m t v fs : state_contract_errors m t v fs = Ok [] ↔ valid_state m t v fs.
Proof. apply contract_valid. Qed.

(** The check raises exactly on a list as phase, under a known phase to come from. *)
Theorem contract_raises m t v fs e :
  state_contract_errors m t v fs = Err e ↔
  ∃ items tf, dget (py "phase") fs = Some (VList items) ∧ dget (py "transition_from") fs = Some (Scalar (SStr tf)) ∧
    tf ∈ ALL_PHASES ++ ANY_FROM.
Proof.
  unfold state_contract_errors. transitivity (transition_errors fs = Err e).
  { by destruct (transition_errors fs). }
  unfold transition_errors. destruct (dget (py "phase") fs) as [ph|]; [|split; [done|by intros (? & ? & ? & _)]].
  case_bool_decide as Ei; [split; [done|intros (? & ? & [= ->] & _); done]|].
  destruct (dget (py "transition_from") fs) as [[[tf|b|n]|items]|]; try (split; [done|by intros (? & ? & _ & ? & _)]).
  assert (negb (dmem tf VALID_TRANSITIONS) && negb (mem tf ANY_FROM) = false ↔ tf ∈ ALL_PHASES ++ ANY_FROM) as Hk.
  { rewrite andb_false_iff, !negb_false_iff, dmem_spec, mem_true, elem_of_app. done. }
  destruct (negb _ && _) eqn:En.
  { split; [done|]. intros (? & ? & _ & [= <-] & H). apply Hk in H. done. }
  case_bool_decide as Es; [split; [done|intros (? & ? & [= ->] & _); done]|].
  destruct ph as [s|items]; [split; [by repeat case_match|by intros (? & ? & ? & _)]|].
  split; [intros _; exists items, tf; split_and!; [done|done|by apply Hk]|]. by destruct e.
Qed.

(** ** Where code and documents part *)

(** The check is said to mirror the enumerations and types of [state.schema.json]: a
    reason to stop outside the six of the schema, and an ingress that is a number,
    pass it. *)
Definition loose_state : fields :=
  ((λ e : string * string, (py e.1, Scalar (SStr (py e.2)))) <$>
    [("phase", "INIT"); ("task", "none"); ("next_action", "saipen continue"); ("blocker", "none"); ("agent", "alpha");
     ("mode", "full"); ("updated", "2024-05-01T10:00:00Z"); ("stop_reason", "TIRED")])
  ++ [(py "saipen_version", Scalar (SInt 3)); (py "goal_ingress", Scalar (SInt 7))].
Lemma schema_enums_are_not_mirrored : state_contract_errors None None None loose_state = Ok [].
Proof. vm_compute. reflexivity. Qed.
