(* ===== verification/StateIntent.v ===== *)
(** * The transition of the execution intent

    [transition_execution_intent] of [tools/saipen_engine/state.py]: it removes the
    fields of every intent family and patches the fields of one back in. *)

From S2P Require Import Prelude PyStr PyStrFacts PyUnicode PyRegex PyDict BoardRecord.
From S2P Require Import StateDoc StateDocFacts StatePatch StateRemove StateWait StateContract.

Inductive intent_error : Type :=
  | OutsideIntents (intent : pystr)
  | ConvergeNeedsTarget
  | TargetNotLegal
  | NegativeCounters
  | Document (e : state_error)
  | FamilyMismatch
  | Raised (e : contract_crash).

Definition FAMILY_KEYS : list pystr :=
  strs ["execution_intent"; "goal_mode"; "goal_waves"; "goal_tickets"; "converge_target"] ++ FIELDS.
Definition FAMILY : list pystr := strs ["goal_waves"; "goal_tickets"; "converge_target"].

Definition str_field (key : string) (s : pystr) : pystr * value := (py key, Scalar (SStr s)).
Definition int_field (key : string) (n : Z) : pystr * value := (py key, Scalar (SInt n)).

(** The fields of one family. *)
Definition intent_fields (intent : pystr) (target : option pystr) (waves tickets : Z) : fields :=
  str_field "execution_intent" intent ::
  (if intent =s py "goal" then [int_field "goal_waves" waves; int_field "goal_tickets" tickets]
   else if intent =s py "converge" then [str_field "converge_target" (default [] target)]
   else []).

Definition lift {A} (r : res state_error A) : res intent_error A :=
  match r with Ok a => Ok a | Err e => Err (Document e) end.

(** The keys of the families that a state read back has. *)
Definition family_of (r : state_read) : list pystr :=
  match r with Read fs => base.filter (λ k, dmem k fs = true) FAMILY | _ => [] end.
Definition expected_family (intent : pystr) : list pystr :=
  if intent =s py "goal" then strs ["goal_waves"; "goal_tickets"]
  else if intent =s py "converge" then strs ["converge_target"] else [].

Definition transition_execution_intent (running_major : option Z) (text intent : pystr) (target : option pystr)
    (waves tickets : Z) : res intent_error pystr :=
  if negb (mem intent STATE_INTENT_ENUM) then Err (OutsideIntents intent)
  else if (intent =s py "converge") && negb (match target with Some t => mem t STATE_CONVERGE_TARGETS | None => false end)
       then Err ConvergeNeedsTarget
  else if negb (intent =s py "converge") && bool_decide (is_Some target) then Err TargetNotLegal
  else if (waves <? 0)%Z || (tickets <? 0)%Z then Err NegativeCounters
  else
    clean ← lift (remove_state_fields text FAMILY_KEYS);
    result ← lift (patch_state clean (intent_fields intent target waves tickets));
    match parse_state running_major result with
    | Err e => Err (Raised e)
    | Ok parsed => if bool_decide (family_of parsed = expected_family intent) then Ok result else Err FamilyMismatch
    end.

(** The arguments a caller may give: one of the intents, a target for converge and
    for nothing else, counters that are not negative. *)
Definition legal_request (intent : pystr) (target : option pystr) (waves tickets : Z) : Prop :=
  ((intent = py "normal" ∨ intent = py "goal") ∧ target = None
   ∨ intent = py "converge" ∧ ∃ t, target = Some t ∧ t ∈ STATE_CONVERGE_TARGETS)
  ∧ (0 ≤ waves)%Z ∧ (0 ≤ tickets)%Z.

Lemma legal_cases (P : pystr → option pystr → Prop) intent target w t :
  legal_request intent target w t →
  P (py "normal") None → P (py "goal") None →
  P (py "converge") (Some (py "done")) → P (py "converge") (Some (py "ship")) → P (py "converge") (Some (py "crew")) →
  P intent target.
Proof.
  intros [[[[->| ->] ->]|(-> & u & -> & Hu)] _] ?????; try done.
  by apply elem_of_cons in Hu as [->|[->|[->|[]%elem_of_nil]%elem_of_cons]%elem_of_cons].
Qed.

Lemma intent_fields_ok intent target w t :
  legal_request intent target w t →
  Forall key_ok (dkeys (intent_fields intent target w t)) ∧ wf_dict (intent_fields intent target w t) ∧
  Forall (λ e : pystr * value, renderable_value e.2) (intent_fields intent target w t) ∧
  Forall (λ k, k ∈ FAMILY_KEYS) (dkeys (intent_fields intent target w t)).
Proof.
  intros Hl. pattern intent, target. eapply (legal_cases _ _ _ _ _ Hl).
  all: split_and!;
    [repeat constructor; eexists _, _; (split; [reflexivity|split; [reflexivity|repeat constructor]])
    |unfold wf_dict; refine (bool_decide_unpack _ _); by vm_compute
    |repeat constructor; by vm_compute
    |refine (bool_decide_unpack _ _); by vm_compute].
Qed.

Lemma intent_fields_keys intent target w t k :
  legal_request intent target w t → is_Some (dget k (intent_fields intent target w t)) → k ∈ FAMILY_KEYS.
Proof.
  intros (_ & _ & _ & Hf)%intent_fields_ok [v Hv%dget_Some_elem%(list_elem_of_fmap_2 fst)].
  rewrite Forall_forall in Hf. by apply Hf.
Qed.

(** The fields of the families that one family owns. *)
Lemma intent_fields_family intent target w t :
  legal_request intent target w t →
  base.filter (λ k, dmem k (intent_fields intent target w t) = true) FAMILY = expected_family intent.
Proof. intros Hl. pattern intent, target. by eapply (legal_cases _ _ _ _ _ Hl). Qed.

Lemma legal_accepted intent target w t :
  legal_request intent target w t →
  negb (mem intent STATE_INTENT_ENUM) = false ∧
  (intent =s py "converge") && negb (match target with Some u => mem u STATE_CONVERGE_TARGETS | None => false end) = false ∧
  negb (intent =s py "converge") && bool_decide (is_Some target) = false ∧ (w <? 0)%Z || (t <? 0)%Z = false.
Proof.
  intros Hl. assert ((w <? 0)%Z || (t <? 0)%Z = false) as -> by (destruct Hl as (_ & ? & ?); lia).
  pattern intent, target. by eapply (legal_cases _ _ _ _ _ Hl).
Qed.

Lemma expected_normal intent target w t :
  legal_request intent target w t → bool_decide ([] = expected_family intent) = (intent =s py "normal").
Proof. intros Hl. pattern intent, target. by eapply (legal_cases _ _ _ _ _ Hl). Qed.

Lemma fence_text_read text m d :
  startswith "---" text = true → parse_frontmatter text = Ok d →
  parse_state m text = (errors ← state_contract_errors m None None d;
                        Ok (match errors with [] => Read d | _ => Corrupt end)).
Proof.
  intros [rest ->]%startswith_spec Hd. unfold parse_state. rewrite Hd.
  destruct (strip _) eqn:Es; [|done]. by apply (strip_nonblank 45 (py "--" ++ rest)) in Es.
Qed.

(** The document as the transition leaves it. *)
Lemma family_of_fields intent target w t d d' :
  legal_request intent target w t →
  (∀ k, dget k d' = match dget k (intent_fields intent target w t) with
                    | Some v => Some v | None => if decide (k ∈ FAMILY_KEYS) then None else dget k d end) →
  family_of (Read d') = expected_family intent.
Proof.
  intros Hl Hd. rewrite <-(intent_fields_family _ _ _ _ Hl). unfold family_of.
  assert (∀ k, k ∈ FAMILY → dmem k d' = dmem k (intent_fields intent target w t)) as Hm.
  { intros k Hk. unfold dmem. rewrite Hd. destruct (dget k (intent_fields _ _ _ _)); [done|].
    rewrite decide_True; [done|]. assert (Forall (λ j, j ∈ FAMILY_KEYS) FAMILY) as HF by (refine (bool_decide_unpack _ _); by vm_compute).
    rewrite Forall_forall in HF. by apply HF. }
  revert Hm. generalize FAMILY as l. induction l as [|k l IH]; intros Hm; [done|]. rewrite !list.filter_cons, (Hm k) by left.
  rewrite IH by (intros j Hj; apply Hm; by right). by destruct (decide _).
Qed.

Lemma family_fields_tidy intent target w t text d :
  legal_request intent target w t → lf_only text → startswith "---" text = true → parse_frontmatter text = Ok d →
  (∀ k, k ∈ FAMILY_KEYS → dget k d = None) → tidy_text (intent_fields intent target w t) text.
Proof. intros Hl Hlf Hs Hd Hn. eapply tidy_text_absent; eauto. intros k Hk. apply Hn. by eapply intent_fields_keys. Qed.

(** C30: The transition of the execution intent, on a document that reads, whose lines
    end in line feeds and whose family lists follow their keys: every field of
    every family goes, the fields of the one asked for come, every other field
    stays, and the document is given back when it keeps the contract. One that does
    not is refused for [goal] and [converge], and given back unread for [normal]. *)
Theorem intent_transition major text d intent target w t :
  lf_only text → startswith "---" text = true → parse_frontmatter text = Ok d → tidy_items_text FAMILY_KEYS text →
  legal_request intent target w t →
  ∃ result d', parse_frontmatter result = Ok d' ∧
    (∀ k, dget k d' = match dget k (intent_fields intent target w t) with
                      | Some v => Some v | None => if decide (k ∈ FAMILY_KEYS) then None else dget k d end) ∧
    transition_execution_intent major text intent target w t =
      match state_contract_errors major None None d' with
      | Err e => Err (Raised e)
      | Ok [] => Ok result
      | Ok _ => if intent =s py "normal" then Ok result else Err FamilyMismatch
      end.
Proof.
  intros Hlf Hs Hd Ht Hl. destruct (parse_removed FAMILY_KEYS text d Hlf Hs Hd Ht) as (clean & Er & Hc & Hclf & Hcs).
  destruct (intent_fields_ok _ _ _ _ Hl) as (Hk & Hw & Hr & _).
  destruct (patched clean (intent_fields intent target w t) (kept FAMILY_KEYS d)) as (result & Ep & Hp & Hps); try done.
  { eapply family_fields_tidy; try done. intros k Hin. rewrite dget_kept, decide_False; [done|tauto]. }
  set (d' := overlay _ _ ++ unseen _ _) in Hp. exists result, d'.
  assert (∀ k, dget k d' = match dget k (intent_fields intent target w t) with
                           | Some v => Some v | None => if decide (k ∈ FAMILY_KEYS) then None else dget k d end) as Hg.
  { intros k. unfold d'. rewrite dget_patched, dget_kept. destruct (dget k (intent_fields _ _ _ _)); [done|].
    destruct (decide (k ∈ FAMILY_KEYS)); [rewrite decide_False by tauto|rewrite decide_True by done]; done. }
  split_and!; [done|done|]. unfold transition_execution_intent. destruct (legal_accepted _ _ _ _ Hl) as (-> & -> & -> & ->).
  rewrite Er. cbn [lift mbind res_bind]. rewrite Ep. cbn [lift mbind res_bind]. rewrite (fence_text_read _ _ _ Hps Hp).
  destruct (state_contract_errors major None None d') as [[|e es]|]; [| |done]; cbn [mbind res_bind].
  - by rewrite (family_of_fields _ _ _ _ _ _ Hl Hg), bool_decide_eq_true_2.
  - cbn [family_of]. by rewrite (expected_normal _ _ _ _ Hl).
Qed.

Definition converge_text : pystr :=
  join [10%N] (strs ["---"; "phase: INIT"; "task: T-4"; "next_action: plan it"; "execution_intent: goal"; "goal_waves: 3";
                     "goal_tickets: 7"; "blocker: none"; "agent: a"; "saipen_version: 3"; "mode: full";
                     "updated: 2025-01-02T03:04:05Z"; "---"; "boundary"]).
Definition bare_text : pystr := join [10%N] (strs ["---"; "phase: DONE"; "execution_intent: goal"; "---"; ""]).

Lemma intent_transition_witness :
  ∃ result d', parse_frontmatter result = Ok d' ∧ dget (py "converge_target") d' = Some (Scalar (SStr (py "ship"))) ∧
    dget (py "goal_waves") d' = None ∧ dget (py "blocker") d' = Some (Scalar (SStr (py "none"))) ∧
    transition_execution_intent None converge_text (py "converge") (Some (py "ship")) 0 0 = Ok result.
Proof.
  destruct (parse_frontmatter converge_text) as [d|] eqn:Ed; [|by vm_compute in Ed].
  destruct (intent_transition None converge_text d (py "converge") (Some (py "ship")) 0 0) as (result & d' & Hp & Hg & Ht).
  - unfold lf_only. refine (bool_decide_unpack _ _). by vm_compute.
  - by vm_compute.
  - exact Ed.
  - vm_compute. repeat split.
  - split; [|done]. right. split; [done|]. exists (py "ship"). split; [done|]. refine (bool_decide_unpack _ _). by vm_compute.
  - assert (match transition_execution_intent None converge_text (py "converge") (Some (py "ship")) 0 0 with
            Ok _ => true | Err _ => false end = true) as Hok by (by vm_compute).
    vm_compute in Ed. injection Ed as <-. exists result, d'. split_and!; [exact Hp|rewrite Hg; by vm_compute..|].
    rewrite Ht in Hok. rewrite Ht. destruct (state_contract_errors None None None d') as [[|e es]|e]; [reflexivity|done..].
Defined.

(** A document without the required fields takes the transition to [normal]: the
    reader that would call it corrupt is asked, and its answer is not looked at. *)
Lemma normal_keeps_corrupt :
  let read := λ r : res intent_error pystr, match r with Ok text => parse_state None text | Err _ => Ok Absent end in
  read (transition_execution_intent None bare_text (py "normal") None 0 0) = Ok Corrupt.
Proof. by vm_compute. Qed.
