(* ===== verification/AuditInbox.v ===== *)
(** * The audit inbox and its route

    The routing projection of [tools/saipen_engine/audit_inbox.py]
    ([projection_from_classification], over a classification of the layers of
    [audit/]) and the decisions of [tools/saipen_engine/audit_route.py]. *)

From S2P Require Import Prelude PyStr PyStrFacts PyUnicode PyRegex PyDict BoardParse BoardClaims BoardBlockers Ownership StateDoc StateWait.

(** ** The classification *)

Module Layer.
Inductive state : Type := NEW | ACTIVE | BLOCKED | CLOSED_PENDING_DELETE | INVALID.
#[global] Instance state_eq_dec : EqDecision state.
Proof. solve_decision. Defined.
End Layer.

(** One layer of the inbox: its number, when the file is numbered, its path, and
    what the receipt it is bound to says. *)
Record layer_item : Type := LayerItem {
  li_layer : option N;
  li_rel : pystr;
  li_state : Layer.state;
  li_receipt : option pystr;
  li_work : option pystr;
}.

Record classification : Type := Classification {
  cl_ok : bool;
  cl_layers : list layer_item;
  cl_orphans : list pystr;
  cl_residue : list pystr;
}.

Inductive layer_key : Type := Number (n : N) | Named (rel : pystr).
Definition _layer_key (i : layer_item) : layer_key :=
  match li_layer i with Some n => Number n | None => Named (li_rel i) end.

(** ** The projection *)

Inductive eligibility : Type := ACTIONABLE | BLOCKED_EXTERNAL | RESOLVED.
#[global] Instance eligibility_eq_dec : EqDecision eligibility.
Proof. solve_decision. Defined.

Definition RESIDUE_REPORT_CAP : nat := 20.

(** An ACTIVE layer whose work cannot go on, with the root of its blockers. *)
Record unworkable : Type := Unworkable {
  uw_layer : option N;
  uw_work : pystr;
  uw_root : option root;
  uw_board_error : bool;
}.

Record inbox : Type := Inbox {
  ib_action : pystr;
  ib_layer : option N;
  ib_path : option pystr;
  ib_receipt : option pystr;
  ib_work : option pystr;
  ib_eligibility : option eligibility;
  ib_pending : list layer_key;
  ib_closed : list layer_key;
  ib_invalid : list layer_key;
  ib_residue : list pystr;
  ib_unresolved : option nat;
  ib_binding_corrupt : bool;
  ib_invalid_only : bool;
  ib_residue_only : bool;
  ib_unworkable_only : bool;
  ib_idle_only : bool;
  ib_unworkable : list unworkable;
  ib_idle : option idle;
}.

(** [int(audit_inbox.get("unresolved_audit_count", len(audit_inbox.get("pending", []))))] *)
Definition unresolved_of (p : inbox) : nat := default (length (ib_pending p)) (ib_unresolved p).
(** What [classify_idle_work] reads of the projection. *)
Definition idle_view (p : inbox) : audit_inbox :=
  AuditInbox (unresolved_of p) (bool_decide (ib_residue p ≠ []) || ib_residue_only p)
    (bool_decide (ib_invalid p ≠ []) || ib_invalid_only p).

(** The board the caller supplies, or else the text of [BOARD.md], when it can be
    read. *)
Inductive board_source : Type := Supplied (ts : tickets) | BoardFile (text : option pystr).
Definition board_of (b : board_source) : tickets * bool :=
  match b with
  | Supplied ts => (ts, false)
  | BoardFile None => ([], true)
  | BoardFile (Some text) =>
      let parsed := parse_board text in (b_tickets parsed, bool_decide (b_errors parsed ≠ []))
  end.

Definition linked_work_is_workable (work : option pystr) (ts : option tickets) (agent : option pystr) (now : Z) : bool :=
  match work ≫= some_text, ts with
  | Some w, Some ts => match dget w ts with Some t => ticket_is_workable t ts agent now | None => false end
  | _, _ => false
  end.

(** The keys every projection of a readable inbox carries; [more] sets the rest. *)
Definition base_inbox (c : classification) (action : pystr) (unworkable : list unworkable) : inbox :=
  let keys_in (s : list Layer.state) := _layer_key <$> base.filter (λ i, bool_decide (li_state i ∈ s) = true) (cl_layers c) in
  let pending := keys_in [Layer.NEW; Layer.ACTIVE] in
  Inbox action None None None None None pending (keys_in [Layer.CLOSED_PENDING_DELETE])
    (keys_in [Layer.INVALID; Layer.BLOCKED]) (take RESIDUE_REPORT_CAP (cl_residue c)) (Some (length pending))
    false false false false false unworkable None.

(** A projection that names a layer. *)
Definition at_layer (p : inbox) (i : layer_item) (e : eligibility) (receipt work : option pystr) (idle_only : bool) : inbox :=
  Inbox (ib_action p) (li_layer i) (Some (li_rel i)) receipt work (Some e) (ib_pending p) (ib_closed p)
    (ib_invalid p) (ib_residue p) (ib_unresolved p) false false false false idle_only (ib_unworkable p) None.
(** A projection that names none. *)
Definition verdict (p : inbox) (e : option eligibility) (invalid_only unworkable_only residue_only : bool)
    (i : option idle) : inbox :=
  Inbox (ib_action p) None None None None e (ib_pending p) (ib_closed p) (ib_invalid p) (ib_residue p)
    (ib_unresolved p) false invalid_only residue_only unworkable_only false (ib_unworkable p) i.

Section projection.
Context (c : classification) (board : board_source) (agent : option pystr) (now : Z).

Definition stuck_layer (i : layer_item) (work : pystr) : unworkable :=
  Unworkable (li_layer i) work
    (match (board_of board).1 with [] => None | ts => resolve_root_blocker ts work end) (board_of board).2.

(** The loop over the layers: the projection of the first actionable one, or the
    layers whose work is stuck. *)
Fixpoint scan_items (stuck : list unworkable) (layers : list layer_item) : inbox + list unworkable :=
  match layers with
  | [] => inr stuck
  | i :: layers' =>
      match li_state i with
      | Layer.ACTIVE =>
          match li_work i ≫= some_text with
          | None => inl (at_layer (base_inbox c "saipen audit ingest" stuck) i ACTIONABLE (li_receipt i) None false)
          | Some work =>
              if negb (board_of board).2 && linked_work_is_workable (Some work) (Some (board_of board).1) agent now
              then inl (at_layer (base_inbox c ("PHASE SCOUT " +s work) stuck) i ACTIONABLE (li_receipt i) (Some work) false)
              else scan_items (stuck ++ [stuck_layer i work]) layers'
          end
      | Layer.NEW =>
          inl (at_layer (base_inbox c "saipen audit ingest" stuck) i ACTIONABLE None None (bool_decide (li_layer i = None)))
      | _ => scan_items stuck layers'
      end
  end.

Definition projection_from_classification : option inbox :=
  if negb (cl_ok c) then
    Some (Inbox "saipen audit status" None None None None None [] [] [] (take RESIDUE_REPORT_CAP (cl_residue c)) None
            true false false false false [] None)
  else if bool_decide (cl_layers c = []) && bool_decide (cl_orphans c = []) && bool_decide (cl_residue c = []) then None
  else match find_first (λ i, bool_decide (li_state i = Layer.CLOSED_PENDING_DELETE)) (cl_layers c) with
       | Some i => Some (at_layer (base_inbox c "saipen audit ingest" []) i RESOLVED (li_receipt i) (li_work i) false)
       | None =>
           match scan_items [] (cl_layers c) with
           | inl p => Some p
           | inr stuck =>
               let base := base_inbox c "saipen audit status" stuck in
               match ib_invalid base, stuck with
               | _ :: _, _ => Some (verdict base (Some BLOCKED_EXTERNAL) true false false None)
               | [], _ :: _ =>
                   Some (verdict base (Some BLOCKED_EXTERNAL) false true false
                           (Some (classify_idle_work (board_of board).1 (Some (idle_view base)) None now)))
               | [], [] =>
                   match cl_residue c with
                   | _ :: _ => Some (verdict base None false false true None)
                   | [] => None
                   end
               end
           end
       end.
End projection.

(** ** The route *)

(** [\[(P[0-4])\]], whatever the case of the letter. *)
Definition PRIORITY_RE : re := seqs [lit "["; Grp 1 (Seq (Chr (ci_char 80)) (Chr (in_range 48 52))); lit "]"].

Definition description_or_raw (t : ticket) : pystr := match t_description t with [] => t_raw t | d => d end.
Definition ticket_priority (t : ticket) : pystr :=
  let prio := upper (strip (fget "priority" (t_fields t))) in
  if nonempty prio then prio
  else match re_search PRIORITY_RE (description_or_raw t) with
       | Some m => upper (default [] (group 1 m))
       | None => []
       end.
(** Work a named drop may not jump. *)
Definition outranks_idle_drop (t : ticket) : bool := mem (ticket_priority t) (strs ["P0"; "P1"]) || is_user_explicit t.

Definition is_due (g : operator_gate) : bool := match g_state g with DUE_OPERATOR_ACTION => true | DEFERRED_OPERATOR => false end.

Definition diagnostic (p : inbox) : bool :=
  ib_invalid_only p || ib_residue_only p || ib_unworkable_only p || bool_decide (ib_eligibility p = Some BLOCKED_EXTERNAL).

Definition audit_route_owns (projection : option inbox) (ts : option tickets) (agent : option pystr) (now : Z) : bool :=
  match projection with
  | None => false
  | Some p =>
      if negb (nonempty (ib_action p)) || diagnostic p then false
      else
        let bound := bool_decide (is_Some (ib_work p ≫= some_text)) && startswith "PHASE " (ib_action p) in
        if bound && bool_decide (is_Some ts) && negb (linked_work_is_workable (ib_work p) ts agent now) then false
        else match ts with
             | Some ts =>
                 negb (ib_idle_only p
                       && (existsb is_due (operator_gates ts now)
                           || bool_decide (is_Some (reserved_continuation_child ts agent now))
                           || existsb (λ tid, from_option outranks_idle_drop false (dget tid ts)) (workable_tickets ts agent now)))
             | None => true
             end
  end.

Definition route_applies (projection : option inbox) (now : Z) : bool := audit_route_owns projection None None now.

(** [PHASE\s+[A-Z]+\s+(T-\d+)\s*$] *)
Definition _CONTINUATION : re :=
  seqs [lit "PHASE"; plus is_space; plus is_AZ; plus is_space; Grp 1 ticket_id_re; Star is_space; Eol].
Definition live_continuation (next_action : pystr) (doing_ids : list pystr) : option pystr :=
  match re_fullmatch _CONTINUATION (strip next_action) with
  | Some m => let tid := default [] (group 1 m) in if mem tid doing_ids then Some tid else None
  | None => None
  end.

(** Why the route was not followed: the routed action, the action found, and whether
    the closed set of WAIT categories has no form for it. *)
Record violation : Type := Violation { v_routed : pystr; v_current : pystr; v_illegal_wait : bool }.

(** A stop that outranks the route: any brake, but for a budget pause that history
    does not prove. *)
Definition excused (state : fields) (current : pystr) (ts : option tickets) (goal_counters : option (dict pystr Z)) : bool :=
  let empty_todo := match ts with Some ts => negb (existsb (λ t, in_section t TODO) (dvalues ts)) | None => false end in
  match binding_brake state empty_todo with
  | None => false
  | Some b =>
      negb (bool_decide (b = Wait)) || negb (bool_decide (parse_wait (Some (Scalar (SStr current))) = Some (py "safety valve")))
      || goal_valve_wait_is_proven state goal_counters
  end.

Definition route_violation (projection : option inbox) (next_action : pystr) (doing_ids wait_categories : list pystr)
    (ts : option tickets) (agent : option pystr) (now : Z) (state : option fields) (goal_counters : option (dict pystr Z))
    : option violation :=
  if negb (audit_route_owns projection ts agent now) then None
  else match projection with
  | None => None
  | Some p =>
      let current := strip next_action in
      if match state with
         | Some fs => str_is (dget (py "next_action") fs) current && excused fs current ts goal_counters
         | None => false
         end then None
      else if (current =s ib_action p) || bool_decide (is_Some (live_continuation current doing_ids)) then None
      else Some (Violation (ib_action p) current (startswith "WAIT" current && bool_decide (wait_categories ≠ [])))
  end.

(** ** What the projection does *)

(** Work that can go on starts with this layer. *)
Definition actionable (ts : tickets) (agent : option pystr) (now : Z) (i : layer_item) : Prop :=
  match li_state i with
  | Layer.NEW => True
  | Layer.ACTIVE => li_work i ≫= some_text = None ∨ linked_work_is_workable (li_work i) (Some ts) agent now = true
  | _ => False
  end.

Section route.
Context (c : classification) (ts : tickets) (agent : option pystr) (now : Z) (board : board_source).
Context (Hboard : board_of board = (ts, false)).

Lemma some_text_bind o w : o ≫= some_text = Some w → some_text w = Some w.
Proof. destruct o as [s|]; [|done]. simpl. intros H. by assert (w = s) as -> by (by apply some_text_Some in H as [-> _]). Qed.

Lemma scan_step stuck i layers :
  match li_state i with Layer.NEW | Layer.ACTIVE => False | _ => True end →
  scan_items c board agent now stuck (i :: layers) = scan_items c board agent now stuck layers.
Proof. simpl. by destruct (li_state i). Qed.

Lemma workable_text work w :
  work ≫= some_text = Some w →
  linked_work_is_workable (Some w) (Some ts) agent now = linked_work_is_workable work (Some ts) agent now.
Proof. intros H. unfold linked_work_is_workable. rewrite H. simpl. by rewrite (some_text_bind _ _ H). Qed.

(** The loop stops at the first actionable layer, and answers for it. *)
Lemma scan_spec layers stuck :
  match scan_items c board agent now stuck layers with
  | inl p => ∃ l1 i l2, layers = l1 ++ i :: l2 ∧ Forall (λ j, ¬ actionable ts agent now j) l1 ∧ actionable ts agent now i ∧
      ib_path p = Some (li_rel i) ∧ ib_layer p = li_layer i ∧ ib_eligibility p = Some ACTIONABLE ∧ diagnostic p = false ∧
      nonempty (ib_action p) = true ∧ (ib_work p = None ∨ linked_work_is_workable (ib_work p) (Some ts) agent now = true) ∧
      ib_idle_only p = bool_decide (li_state i = Layer.NEW ∧ li_layer i = None)
  | inr _ => Forall (λ j, ¬ actionable ts agent now j) layers
  end.
Proof.
  revert stuck. induction layers as [|i layers IH]; intros stuck; [constructor|]. cbn [scan_items].
  assert (¬ actionable ts agent now i → ∀ stuck',
    match scan_items c board agent now stuck' layers with
    | inl p => ∃ l1 i' l2, i :: layers = l1 ++ i' :: l2 ∧ Forall (λ j, ¬ actionable ts agent now j) l1 ∧ actionable ts agent now i' ∧
        ib_path p = Some (li_rel i') ∧ ib_layer p = li_layer i' ∧ ib_eligibility p = Some ACTIONABLE ∧ diagnostic p = false ∧
        nonempty (ib_action p) = true ∧ (ib_work p = None ∨ linked_work_is_workable (ib_work p) (Some ts) agent now = true) ∧
        ib_idle_only p = bool_decide (li_state i' = Layer.NEW ∧ li_layer i' = None)
    | inr _ => Forall (λ j, ¬ actionable ts agent now j) (i :: layers)
    end) as Hskip.
  { intros Hn stuck'. specialize (IH stuck'). destruct (scan_items c board agent now stuck' layers); [|by constructor].
    destruct IH as (l1 & i' & l2 & -> & Hl & H). exists (i :: l1), i', l2. split; [done|]. split; [by constructor|exact H]. }
  destruct (li_state i) eqn:Es; [| |apply Hskip; unfold actionable; rewrite Es; by intros []..].
  - exists [], i, layers. unfold actionable. rewrite Es. split_and!; try done; [by left|].
    cbn. apply bool_decide_ext. naive_solver.
  - rewrite Hboard. cbn [fst snd negb andb]. destruct (li_work i ≫= some_text) as [w|] eqn:Ew.
    + rewrite (workable_text _ _ Ew). destruct (linked_work_is_workable (li_work i) _ _ _) eqn:El.
      * exists [], i, layers. unfold actionable. rewrite Es. split_and!; try done; [by right|right; etrans; [exact (workable_text _ _ Ew)|exact El]].
      * apply Hskip. unfold actionable. rewrite Es, Ew, El. by intros [|].
    + exists [], i, layers. unfold actionable. rewrite Es. split_and!; try done; by left.
Qed.

(** A named drop is outranked by urgent work and by due operator gates. *)
Definition outranked : bool :=
  existsb is_due (operator_gates ts now) || bool_decide (is_Some (reserved_continuation_child ts agent now))
  || existsb (λ tid, from_option outranks_idle_drop false (dget tid ts)) (workable_tickets ts agent now).

Lemma owns_layer p :
  nonempty (ib_action p) = true → diagnostic p = false →
  (startswith "PHASE " (ib_action p) = false ∨ ib_work p = None ∨ linked_work_is_workable (ib_work p) (Some ts) agent now = true) →
  audit_route_owns (Some p) (Some ts) agent now = negb (ib_idle_only p && outranked).
Proof.
  unfold audit_route_owns. intros -> -> Hw. cbn [negb orb].
  assert (bool_decide (is_Some (ib_work p ≫= some_text)) && startswith "PHASE " (ib_action p)
          && bool_decide (is_Some (Some ts)) && negb (linked_work_is_workable (ib_work p) (Some ts) agent now) = false) as ->; [|done].
  destruct Hw as [->|[->| ->]]; [by rewrite andb_false_r|done|by rewrite !andb_false_r].
Qed.

Lemma diagnostic_owns_not p : diagnostic p = true → audit_route_owns (Some p) (Some ts) agent now = false.
Proof. unfold audit_route_owns. intros ->. by rewrite orb_true_r. Qed.

Lemma first_split_unique {A} (P : A → Prop) l1 x l2 k1 y k2 :
  l1 ++ x :: l2 = k1 ++ y :: k2 → Forall (λ z, ¬ P z) l1 → Forall (λ z, ¬ P z) k1 → P x → P y → x = y.
Proof.
  revert k1. induction l1 as [|z l1 IH]; intros [|w k1] E Hl Hk Hx Hy; simplify_eq/=; [done| | |].
  - by apply Forall_cons in Hk as [? _].
  - by apply Forall_cons in Hl as [? _].
  - apply Forall_cons in Hl as [_ ?], Hk as [_ ?]. by apply (IH k1).
Qed.

(** The inbox owns continuation exactly when a layer is closed and not yet settled,
    or some layer can be worked on: the first such one is routed, whatever stands
    before it, unless it is a named drop that more urgent work outranks. *)
Theorem inbox_route_exact :
  cl_ok c = true →
  audit_route_owns (projection_from_classification c board agent now) (Some ts) agent now = true ↔
  (∃ i, i ∈ cl_layers c ∧ li_state i = Layer.CLOSED_PENDING_DELETE) ∨
  ∃ l1 i l2, cl_layers c = l1 ++ i :: l2 ∧ Forall (λ j, ¬ actionable ts agent now j) l1 ∧ actionable ts agent now i ∧
    (li_state i = Layer.NEW → li_layer i = None → outranked = false).
Proof.
  intros Hok. unfold projection_from_classification. rewrite Hok. cbn [negb].
  destruct (_ && _) eqn:Ee; [apply andb_true_iff in Ee as [[He%bool_decide_eq_true _]%andb_true_iff _]; rewrite He|].
  { split; [done|]. intros [(i & Hi & _)|(l1 & i & l2 & E & _)]; exfalso; [by apply elem_of_nil in Hi|by destruct l1]. }
  destruct (find_first _ _) as [i|] eqn:Ef.
  - apply find_first_Some in Ef as [Hi Hc]. bool_tac. split; [left; eauto|intros _]. rewrite owns_layer; [done|done|done|by left].
  - assert (¬ ∃ i, i ∈ cl_layers c ∧ li_state i = Layer.CLOSED_PENDING_DELETE) as Hnc.
    { intros (i & Hi & Hs). rewrite find_first_None in Ef. specialize (Ef i Hi). by bool_tac. }
    pose proof (scan_spec (cl_layers c) []) as Hs. destruct (scan_items _ _ _ _ _ _) as [p|stuck].
    + destruct Hs as (l1 & i & l2 & E & Hl & Ha & _ & _ & _ & Hd & Hn & Hw & Hidle). rewrite owns_layer, Hidle by auto.
      rewrite negb_true_iff, andb_false_iff, bool_decide_eq_false. split.
      * intros H. right. exists l1, i, l2. split_and!; try done. intros Hs Hlay. destruct H as [H|H]; [|done]. by destruct H.
      * intros [H|(k1 & j & k2 & E' & Hk & Ha' & Hout)]; [done|]. rewrite E in E'.
        assert (i = j) as <- by (by eapply (first_split_unique (actionable ts agent now))).
        destruct outranked; [left; intros [? ?]; by specialize (Hout ltac:(done) ltac:(done))|by right].
    + transitivity False; [|split; [done|intros [H|(l1 & i & l2 & E & _ & Ha & _)]; [done|]]].
      * split; [|done]. destruct (ib_invalid _), stuck, (cl_residue c); try done;
          (rewrite diagnostic_owns_not; [done|by unfold diagnostic; cbn; rewrite ?orb_true_r]).
      * rewrite E, Forall_app, Forall_cons in Hs. by apply Hs.
Qed.

Lemma scan_nothing layers stuck :
  scan_items c board agent now stuck layers = inr [] →
  stuck = [] ∧ Forall (λ i, li_state i ≠ Layer.NEW ∧ li_state i ≠ Layer.ACTIVE) layers.
Proof.
  revert stuck. induction layers as [|i layers IH]; intros stuck; cbn [scan_items]; [by intros [= ->]|].
  destruct (li_state i) eqn:Es; [done| |intros [-> H]%IH; split; [done|constructor; [by rewrite Es|done]]..].
  destruct (li_work i ≫= some_text); [|done]. destruct (_ && _); [done|]. intros [E _]%IH. by destruct stuck.
Qed.

(** Nothing in the inbox is passed over in silence: the projection is empty only
    when there is no layer and nothing else in the directory. *)
Theorem projection_none_exact :
  projection_from_classification c board agent now = None ↔ cl_ok c = true ∧ cl_layers c = [] ∧ cl_residue c = [].
Proof.
  unfold projection_from_classification. destruct (cl_ok c); [|split; [done|by intros [? _]]]. cbn [negb].
  destruct (cl_layers c) as [|i layers] eqn:El.
  - assert (∀ a u, ib_invalid (base_inbox c a u) = []) as Hb by (intros a u; unfold base_inbox; cbn; by rewrite El).
    rewrite (bool_decide_eq_true_2 ([] = [])) by done. cbn [find_first scan_items]. rewrite Hb. cbn [andb].
    destruct (cl_residue c) as [|r rs].
    + split; [done|]. intros _. by destruct (_ && _).
    + rewrite (bool_decide_eq_false_2 (r :: rs = [])), andb_false_r by done. split; [done|by intros (_ & _ & ?)].
  - split; [|by intros (_ & ? & _)]. rewrite bool_decide_eq_false_2 by done. cbn [andb]. rewrite <-El.
    destruct (find_first _ _) eqn:Ef; [done|].
    destruct (scan_items _ _ _ _ _ _) as [p|stuck] eqn:Esc; [done|]. destruct (ib_invalid _) eqn:Ei; [|done].
    destruct stuck; [|done]. exfalso. apply scan_nothing in Esc as [_ Hq]. rewrite El in Hq. apply Forall_cons in Hq as [[Hn Ha] _].
    rewrite find_first_None in Ef. assert (i ∈ cl_layers c) as Hi by (rewrite El; left). specialize (Ef i Hi).
    apply bool_decide_eq_false in Ef. apply fmap_nil_inv in Ei. assert (i ∈ []) as []%elem_of_nil. rewrite <-Ei.
    apply list_elem_of_filter. split; [|done]. apply bool_decide_eq_true. destruct (li_state i); try done; set_solver.
Qed.
End route.

(** ** A concrete inbox *)

(** An unreadable layer stands before an active one whose work is in the queue. *)
Definition sample_inbox : classification :=
  Classification true
    [LayerItem (Some 1%N) (py "audit/1.md") Layer.INVALID None None;
     LayerItem (Some 2%N) (py "audit/2.md") Layer.ACTIVE (Some (py "SRC-002")) (Some (py "T-2"))] [] [].

Lemma inbox_route_exact_witness :
  audit_route_owns (projection_from_classification sample_inbox (Supplied sample_queue) None 0) (Some sample_queue) None 0 = true.
Proof.
  apply (inbox_route_exact sample_inbox sample_queue None 0 (Supplied sample_queue)); [reflexivity|reflexivity|]. right.
  eexists [_], _, []. split; [reflexivity|]. split; [|split; [right; vm_compute; reflexivity|done]].
  constructor; [by intros []|constructor].
Defined.
