(* ===== verification/Router.v ===== *)
(** * The router

    [route_next] of [tools/saipen_engine/router.py]: the next executable action, from
    the parsed state and board and from what the recovery scan, the audit inbox, the
    source queue and the future gates report. The function is a chain of rules of
    which the first that answers decides; each rule is a definition here, in the
    order of the source. *)

From S2P Require Import Prelude PyStr PyStrFacts PyUnicode PyRegex PyDict Phases BoardParse BoardClaims BoardGraph BoardBlockers.
From S2P Require Import Ownership StateDoc StateWait StateContract AuditInbox.

(** ** What the router reads *)

(** [parse_state_or_error]: [Ok []] for an empty document. *)
Inductive state_problem : Type :=
  | Unparsable (e : state_error)
  | Violates (errors : list contract_error)
  | ContractRaises (e : contract_crash).

(** The running install: its protocol major, its schema version, its voice marker,
    and which persisted homes are its own. *)
Record install : Type := Install {
  is_major : option Z;
  is_schema : option Z;
  is_style : option pystr;
  is_own_home : pystr → bool;
}.

Definition is_slash (c : N) : bool := (c =? 47)%N || (c =? 92)%N.
(** [^[A-Za-z]:[/\\]] *)
Definition _DRIVE_ABS_RE : re := seqs [Chr (λ c, is_AZ c || is_az c); lit ":"; Chr is_slash].
(** [^(?:\\\\|//|\\)[^/\\]+] *)
Definition _UNC_ABS_RE : re := Seq (alts (strs ["\\"; "//"; "\"])) (plus (λ c, negb (is_slash c))).
Definition is_absolute_home (value : option value) : bool :=
  let text := strip (text_or_empty value) in
  startswith "/" text || is_match _DRIVE_ABS_RE text || is_match _UNC_ABS_RE text.

Definition parse_state_or_error (home : install) (text : pystr) : res state_problem fields :=
  if negb (nonempty (strip text)) then Ok []
  else match parse_frontmatter text with
       | Err e => Err (Unparsable e)
       | Ok fs =>
           let pointer := dget (py "saipen_home") fs in
           let style := if is_absolute_home pointer && is_own_home home (text_or_empty pointer) then is_style home else None in
           match state_contract_errors (is_major home) style (is_schema home) fs with
           | Err e => Err (ContractRaises e)
           | Ok [] => Ok fs
           | Ok errors => Err (Violates errors)
           end
       end.

Record queued_source : Type := QueuedSource { qs_invalid : bool; qs_action : pystr; qs_receipt : option pystr }.
Record pending_append : Type := PendingAppend {
  pa_invalid : bool; pa_action : pystr; pa_receipt : option pystr; pa_source : option pystr }.

Record inputs : Type := Inputs {
  in_state : res state_problem fields;
  in_board : board;
  in_checkpoint : list pystr;
  in_pending : list pystr;
  in_conflicts : list pystr;
  in_now : Z;
  in_capability : option pystr;
  in_agent : option pystr;
  in_inbox : option inbox;
  in_queued : option queued_source;
  in_append : option pending_append;
  in_gate : option future_gate;
}.

(** ** The answer *)

Inductive reason : Type :=
  | CheckpointInvalid | StateMalformed | Bootstrap | CapabilityInvalid | ReadOnlyMode
  | RecoveryConflict | RecoveryPending | BoardMalformed
  | GoalCheckpoint | WaitStop | Unblock
  | UnprojectedAppend | BindingMismatch | ForeignLive | Adopt | Finish | MarkhuntContinue
  | QueuedSourceInvalid | QueuedSourceStart | CrewConverge | AuditInboxRoute
  | Start (pick : pystr)
  | BoardGraphInvalid | OperatorGateDue | OperatorGateDeferred | GoalBlocked
  | AuditInboxInvalid | AuditInboxResidue | ImproveGate
  | FutureGateRefresh | FutureGateRefinement | FutureGatePromotion
  | HuntContinue | AuditInboxUnworkable | Maintain.

Definition reason_text (r : reason) : pystr :=
  match r with
  | CheckpointInvalid => "checkpoint-invalid" | StateMalformed => "state-malformed" | Bootstrap => "bootstrap"
  | CapabilityInvalid => "capability-invalid" | ReadOnlyMode => "read-only-mode"
  | RecoveryConflict => "recovery-conflict" | RecoveryPending => "recovery-pending" | BoardMalformed => "board-malformed"
  | GoalCheckpoint => "goal-checkpoint" | WaitStop => "wait" | Unblock => "unblock"
  | UnprojectedAppend => "unprojected-source-append" | BindingMismatch => "binding-mismatch"
  | ForeignLive => "foreign-live" | Adopt => "adopt" | Finish => "finish" | MarkhuntContinue => "markhunt-continue"
  | QueuedSourceInvalid => "queued-source-invalid" | QueuedSourceStart => "queued-source"
  | CrewConverge => "crew-converge" | AuditInboxRoute => "audit-inbox" | Start pick => pick
  | BoardGraphInvalid => "board-graph-invalid" | OperatorGateDue => "operator-gate-due"
  | OperatorGateDeferred => "operator-gate-deferred" | GoalBlocked => "goal-blocked"
  | AuditInboxInvalid => "audit-inbox-invalid" | AuditInboxResidue => "audit-inbox-residue"
  | ImproveGate => "improve-gate" | FutureGateRefresh => "future-gate-refresh"
  | FutureGateRefinement => "future-gate-refinement" | FutureGatePromotion => "future-gate-promotion"
  | HuntContinue => "hunt-continue" | AuditInboxUnworkable => "audit-inbox-unworkable" | Maintain => "maintain"
  end.

Inductive behavior : Type :=
  RESTATE_AND_STOP | CHECKPOINT_AND_REROUTE | REFRESH_AND_REROUTE | REFINE_AND_REROUTE | PROMOTE_AND_SCOUT.

(** What a rule adds to the answer besides the common keys. The texts of [detail]
    are for the reader and left out. *)
Inductive more : Type :=
  | Plain
  | AuthoritySource (source : pystr)
  | AppendOf (receipt source : option pystr)
  | Adoption (ownership : seat_status)
  | Queued (receipt : option pystr)
  | AuditLayer (layer : option N) (path : option pystr)
  | Gates (gates : list operator_gate)
  | Blocking (blocked goal_blocked : list pystr)
  | FutureGateOf (gate : pystr)
  | IdleAudit (classification : disposition) (primary_blocker : option group_of_roots) (unresolved : nat)
      (next_exact_action : pystr)
  | NoWork (i : idle) (unresolved : nat)
  | AllComplete.

Record route : Type := Route {
  r_ok : bool;
  r_action : pystr;
  r_reason : reason;
  r_behavior : option behavior;
  r_ticket : option pystr;
  r_more : more;
}.

Definition load_for_action (action : pystr) : option pystr :=
  if negb (startswith "PHASE " action) then None
  else match words action with
       | _ :: phase :: _ => Some ("saipen/phases/" +s lower phase +s ".md")
       | _ => None
       end.

(** An answer that is no action of the agent. *)
Definition refuse (action : pystr) (r : reason) : option route := Some (Route false action r None None Plain).
Definition stop (action : pystr) (r : reason) (m : more) : option route :=
  Some (Route true action r (Some RESTATE_AND_STOP) None m).
Definition act (action : pystr) (r : reason) (t : option pystr) (m : more) : option route :=
  Some (Route true action r None t m).

(** ** The rules *)

Definition CAPABILITIES : list pystr := strs ["full"; "read-only"; "no-publish"; "manual-verify"].
Definition capability_error (capability : pystr) : bool := negb (mem capability CAPABILITIES).

(** [persistent] of [goal_authority.py]. *)
Definition persistent (state : fields) : bool := is_persistent state && bool_decide (shape_errors state = []).

(** The first rule that answers. *)
Fixpoint first_answer {A} (l : list (option A)) : option A :=
  match l with [] => None | Some r :: _ => Some r | None :: l' => first_answer l' end.

Section rules.
Context (x : inputs) (state : fields).

Local Abbreviation ts := (b_tickets (in_board x)).
Local Abbreviation now := (in_now x).

Definition text_field (key : pystr) : option pystr :=
  match dget key state with Some (Scalar (SStr s)) => Some s | _ => None end.
Definition st_na : pystr := text_or_empty (dget (py "next_action") state).
(** The acting identity, or else the last writer. *)
Definition acting : option pystr := match in_agent x with Some a => Some a | None => text_field "agent" end.
(** The first ticket of [## DOING]. *)
Definition active : option pystr := t_id <$> head (base.filter (λ t, in_section t DOING = true) (dvalues ts)).
Definition seat : ActiveOwnership :=
  classify_active_ownership (SeatState (text_field "task") (text_field "agent")) ts acting now None.

Local Abbreviation phase := (text_field "phase").
Local Abbreviation task := (text_field "task").
Local Abbreviation na := st_na.
Local Abbreviation agent := acting.

(** The checks that precede any work: bootstrap, capability, recovery, board. *)
Definition surface_rule : option route :=
  if bool_decide (state = []) then stop "saipen status" Bootstrap Plain
  else if from_option capability_error false (in_capability x) then refuse "saipen status" CapabilityInvalid
  else if bool_decide (in_capability x = Some (py "read-only")) then stop "saipen status" ReadOnlyMode Plain
  else if negb (bool_decide (in_conflicts x = [])) then refuse "saipen recover" RecoveryConflict
  else if negb (bool_decide (in_pending x = [])) then refuse "saipen recover" RecoveryPending
  else if negb (bool_decide (b_errors (in_board x) = [])) then refuse "saipen status" BoardMalformed
  else None.

(** The hard stop, before any reasoning on the board. *)
Definition brake_rule : option route :=
  let empty_todo := negb (existsb (λ t, in_section t TODO) (dvalues ts)) in
  match binding_brake state empty_todo with
  | None => None
  | Some Wait =>
      if bool_decide (parse_wait (dget (py "next_action") state) = Some (py "safety valve")) && persistent state then
        Some (Route true "saipen continue" GoalCheckpoint (Some CHECKPOINT_AND_REROUTE) None
                (AuthoritySource (text_or_empty (dget (py "authority_source") state))))
      else stop na WaitStop Plain
  | Some _ => stop "saipen status" Unblock Plain
  end.

(** An append the operator made durable, for the holder of the seat. *)
Definition append_rule : option route :=
  match in_append x with
  | Some a =>
      if pa_invalid a then None
      else if bool_decide (active = None) || (bool_decide (ow_status seat = Seat SELF) && negb (ow_misbound seat))
           then act (pa_action a) UnprojectedAppend active (AppendOf (pa_receipt a) (pa_source a))
           else None
  | None => None
  end.

Definition named_task : bool := match task with Some t => nonempty t && negb (t =s py "none") | None => false end.

(** The task of the state against the active ticket of the board. *)
Definition binding_rule : option route :=
  match active with
  | Some tid =>
      match ow_status seat with
      | Seat INVALID => refuse "saipen status" BindingMismatch
      | Seat FOREIGN_LIVE =>
          if named_task then refuse "saipen status" BindingMismatch else stop "saipen status" ForeignLive Plain
      | st =>
          if ow_misbound seat then refuse "saipen status" BindingMismatch
          else match st with
               | Seat UNCLAIMED | Seat FOREIGN_STALE => act (adoption_action tid) Adopt (Some tid) (Adoption st)
               | _ => if bool_decide (st = Seat SELF) && negb (ow_bound seat) then refuse "saipen status" BindingMismatch else None
               end
      end
  | None => if named_task then refuse "saipen status" BindingMismatch else None
  end.

Definition finish_rule : option route :=
  match active, phase with
  | Some tid, Some ph =>
      if mem ph TICKET_BEARING_PHASES then
        let echo := bool_decide (task = Some tid) && (startswith "PHASE " na || startswith "RUN:" na || startswith "RESUME:" na) in
        act (if echo then na else "PHASE " +s ph +s " " +s tid) Finish (Some tid) Plain
      else None
  | _, _ => None
  end.

Definition markhunt_rule : option route :=
  if bool_decide (phase = Some (py "MARKHUNT")) && startswith "saipen markhunt" na then act na MarkhuntContinue None Plain else None.

(** A queued request of the operator, below the live work that outranks it. *)
Definition queue_rule : option route :=
  match active, in_queued x with
  | None, Some q =>
      if qs_invalid q then stop (qs_action q) QueuedSourceInvalid Plain
      else
        let '(top, pick) := pick_next_work ts agent now in
        let outranks :=
          match top with
          | Some t => (pick =s py "dependency-continuation") || from_option is_user_explicit false (dget t ts)
          | None => false
          end in
        if outranks then None else act (qs_action q) QueuedSourceStart None (Queued (qs_receipt q))
  | _, _ => None
  end.

Definition crew_rule : option route :=
  if str_is (dget (py "execution_intent") state) (py "converge") && str_is (dget (py "converge_target") state) (py "crew")
  then act "saipen crew" CrewConverge None Plain else None.

(** The audit inbox, at its place before the Pick Rule and again once nothing is
    workable. *)
Definition audit_rule : option route :=
  match active, in_inbox x with
  | None, Some p =>
      if audit_route_owns (Some p) (Some ts) agent now
      then act (ib_action p) AuditInboxRoute (ib_work p ≫= some_text) (AuditLayer (ib_layer p) (ib_path p)) else None
  | _, _ => None
  end.

Definition start_rule : option route :=
  match active with
  | Some _ => None
  | None =>
      match pick_next_work ts agent now with
      | (Some top, pick) => act ("PHASE SCOUT " +s top) (Start pick) (Some top) Plain
      | (None, _) => None
      end
  end.

Definition graph_rule : option route :=
  if bool_decide (active = None) && negb (bool_decide (board_graph_errors ts = []))
  then refuse "saipen status" BoardGraphInvalid else None.

Definition operator_rule : option route :=
  match active, operator_gates ts now with
  | None, (_ :: _) as gates =>
      if existsb is_due gates then stop "saipen status" OperatorGateDue (Gates gates)
      else stop "saipen status" OperatorGateDeferred (Gates gates)
  | _, _ => None
  end.

Definition goal_blocked_rule : option route :=
  match active, goal_blocked_tickets ts with
  | None, (_ :: _) as goal =>
      stop "saipen status" GoalBlocked
        (Blocking (t_id <$> base.filter (λ t, in_section t BLOCKED = true) (dvalues ts)) goal)
  | _, _ => None
  end.

Definition inbox_invalid_rule : option route :=
  match in_inbox x with
  | Some p => if ib_invalid_only p then stop (ib_action p) AuditInboxInvalid Plain else None
  | None => None
  end.
Definition inbox_residue_rule : option route :=
  match in_inbox x with
  | Some p => if ib_residue_only p then stop (ib_action p) AuditInboxResidue Plain else None
  | None => None
  end.

(** The operator's hold on improvement, while the ticket it names is not done. *)
Definition improve_rule : option route :=
  let gate := strip (text_or_empty (dget (py "improve_gate") state)) in
  if negb (nonempty gate) then None
  else match dget gate ts with
       | Some t => if in_section t DONE then None
                   else Some (Route true "saipen status" ImproveGate (Some RESTATE_AND_STOP) (Some gate) Plain)
       | None => None
       end.

(** [int(state.get(key) or 0)], for a counter the contract accepts. *)
Definition counter (key : pystr) : Z := default 0%Z (as_int (dget key state)).
Definition _goal_valve_exhausted : bool :=
  budget_exhausted (dget (py "execution_intent") state) (counter "goal_waves") (counter "goal_tickets").

Definition future_rule : option route :=
  match in_gate x with
  | None => None
  | Some g =>
      if fg_refresh_required g then
        Some (Route true "saipen future refresh" FutureGateRefresh (Some REFRESH_AND_REROUTE) None (FutureGateOf []))
      else match fg_eligible g, fg_refinable g with
           | [], r :: _ =>
               Some (Route true ("saipen future refine " +s r) FutureGateRefinement (Some REFINE_AND_REROUTE) None (FutureGateOf r))
           | e :: _, _ =>
               if _goal_valve_exhausted then None
               else Some (Route true ("saipen future promote " +s e) FutureGatePromotion (Some PROMOTE_AND_SCOUT) None (FutureGateOf e))
           | [], [] => None
           end
  end.

Definition hunt_rule : option route :=
  if bool_decide (phase = Some (py "HUNT")) && (startswith "PHASE HUNT" na || startswith "saipen hunt" na)
  then act "PHASE HUNT" HuntContinue None Plain else None.

Definition inbox_unworkable_rule : option route :=
  match in_inbox x with
  | Some p =>
      if ib_unworkable_only p then
        let next := match ib_idle p with Some i => some_text (i_next_exact_action i) | None => None end in
        let next := default (ib_action p) next in
        stop (ib_action p) AuditInboxUnworkable
          (IdleAudit (from_option i_disposition IDLE_BLOCKED_EXTERNAL (ib_idle p)) (ib_idle p ≫= i_primary_blocker) (unresolved_of p)
             (if contains "<decision>" next then py "saipen status" else next))
      else None
  | None => None
  end.

Definition idle_work : idle := classify_idle_work ts (idle_view <$> in_inbox x) (in_gate x) now.

(** Nothing is left to route: the persisted command, or [saipen continue]. *)
Definition maintain_rule : route :=
  let action := if startswith "saipen " na || startswith "RUN:" na then na else py "saipen continue" in
  Route true action Maintain None None
    (if i_no_admissible_work idle_work
     then NoWork idle_work (default 0 (unresolved_of <$> in_inbox x)) else AllComplete).

Definition rules : list (option route) :=
  [surface_rule; brake_rule; append_rule; binding_rule; finish_rule; markhunt_rule; queue_rule; crew_rule; audit_rule;
   start_rule; graph_rule; audit_rule; operator_rule; goal_blocked_rule; inbox_invalid_rule; inbox_residue_rule;
   improve_rule; future_rule; hunt_rule; inbox_unworkable_rule].
End rules.

Definition route_next (x : inputs) : route :=
  if negb (bool_decide (in_checkpoint x = [])) then Route false "saipen recover" CheckpointInvalid None None Plain
  else match in_state x with
       | Err _ => Route false "saipen recover" StateMalformed None None Plain
       | Ok state => default (maintain_rule x state) (first_answer (rules x state))
       end.

(** ** The failure codes *)

Definition ROUTING_FAILURE_CODES : dict pystr pystr :=
  (λ e : string * string, (py e.1, py e.2)) <$>
  [("recovery-conflict", "RECOVERY_CONFLICT"); ("recovery-pending", "RECOVERY_REQUIRED");
   ("state-malformed", "VALIDATION_FAILED"); ("binding-mismatch", "VALIDATION_FAILED");
   ("board-malformed", "VALIDATION_FAILED"); ("board-graph-invalid", "VALIDATION_FAILED");
   ("checkpoint-invalid", "VALIDATION_FAILED"); ("capability-invalid", "VALIDATION_FAILED");
   ("conformance-remediation", "CONFORMANCE_UNHEALTHY"); ("conformance-unhealthy", "CONFORMANCE_UNHEALTHY");
   ("conformance-unknown", "CONFORMANCE_UNKNOWN"); ("reconcile-decision", "RECONCILE_REAUTH_REQUIRED");
   ("reconcile-refused", "RECONCILE_REFUSED")].
Definition routing_failure_code (r : route) : pystr :=
  default (py "VALIDATION_FAILED") (dget (reason_text (r_reason r)) ROUTING_FAILURE_CODES).

(** The router on the two documents, for a caller without a snapshot. *)
Definition route_documents (home : install) (state_text board_text : pystr) (pending conflicts : list pystr) (now : Z)
    (capability agent : option pystr) (i : option inbox) (q : option queued_source) (a : option pending_append)
    (g : option future_gate) : route :=
  route_next (Inputs (parse_state_or_error home state_text) (parse_board board_text) [] pending conflicts now capability agent i q a g).
