(* ===== verification/RouterFacts.v ===== *)
(** * What the router decides

    The rules of [Router] answer in their order: an answer says that every rule
    before it had none. From this follow the theorems on the seat, the hard stop,
    recovery and idleness. *)

From S2P Require Import Prelude PyStr PyStrFacts PyUnicode PyRegex PyDict Phases BoardClock BoardParse BoardClaims BoardGraph BoardBlockers.
From S2P Require Import Ownership StateDoc StateWait StateContract AuditInbox Router.

(** The place of the rule that gives a reason. *)
Definition stage (r : reason) : nat :=
  match r with
  | CheckpointInvalid | StateMalformed | Bootstrap | CapabilityInvalid | ReadOnlyMode
  | RecoveryConflict | RecoveryPending | BoardMalformed => 0
  | GoalCheckpoint | WaitStop | Unblock => 1
  | UnprojectedAppend => 2
  | BindingMismatch | ForeignLive | Adopt => 3
  | Finish => 4
  | MarkhuntContinue => 5
  | QueuedSourceInvalid | QueuedSourceStart => 6
  | CrewConverge => 7
  | AuditInboxRoute => 8
  | Start _ => 9
  | BoardGraphInvalid => 10
  | OperatorGateDue | OperatorGateDeferred => 12
  | GoalBlocked => 13
  | AuditInboxInvalid => 14
  | AuditInboxResidue => 15
  | ImproveGate => 16
  | FutureGateRefresh | FutureGateRefinement | FutureGatePromotion => 17
  | HuntContinue => 18
  | AuditInboxUnworkable => 19
  | Maintain => 20
  end.

Lemma first_answer_Some {A} (l : list (option A)) r :
  first_answer l = Some r → ∃ n, l !! n = Some (Some r) ∧ ∀ m, m < n → l !! m = Some None.
Proof.
  induction l as [|[a|] l IH]; [done| |]; cbn [first_answer].
  - intros [= ->]. exists 0. split; [done|lia].
  - intros (n & Hn & Hm)%IH. exists (S n). split; [done|]. intros [|m] Hlt; [done|]. apply Hm. lia.
Qed.
Lemma first_answer_None {A} (l : list (option A)) m : first_answer l = None → m < length l → l !! m = Some None.
Proof.
  revert m. induction l as [|[a|] l IH]; intros m; [simpl; lia|done|]. destruct m as [|m]; [done|]. cbn. intros H ?.
  apply IH; [done|lia].
Qed.

(** Split the conditions of a rule that answered. *)
Ltac rule_cases H :=
  cbv beta zeta in H;
  repeat match type of H with
  | match ?c with _ => _ end = Some _ => destruct c
  end; try discriminate H; injection H as <-.

Ltac unfold_rule H :=
  unfold surface_rule, brake_rule, append_rule, binding_rule, finish_rule, markhunt_rule, queue_rule, crew_rule, audit_rule,
    start_rule, graph_rule, operator_rule, goal_blocked_rule, inbox_invalid_rule, inbox_residue_rule, improve_rule,
    future_rule, hunt_rule, inbox_unworkable_rule, stop, refuse, act in H.

Lemma rules_staged x st : Forall2 (λ n o, ∀ r, o = Some r → stage (r_reason r) ≤ n) (seq 0 20) (rules x st).
Proof.
  change (seq 0 20) with [0; 1; 2; 3; 4; 5; 6; 7; 8; 9; 10; 11; 12; 13; 14; 15; 16; 17; 18; 19]. unfold rules.
  repeat apply Forall2_cons_2; [intros r H; unfold_rule H; rule_cases H; cbn; lia..|constructor].
Qed.

Lemma rule_stage x st n r : rules x st !! n = Some (Some r) → stage (r_reason r) ≤ n.
Proof.
  intros H. destruct (Forall2_lookup_r _ _ _ _ _ (rules_staged x st) H) as (k & Hk & Hs).
  apply lookup_seq in Hk as [-> _]. by apply Hs.
Qed.

(** Every rule before the place of the answer had none. *)
Lemma passed x st m :
  in_state x = Ok st → m < stage (r_reason (route_next x)) → rules x st !! m = Some None.
Proof.
  intros Hst. unfold route_next. rewrite Hst. destruct (negb _); [simpl; lia|].
  destruct (first_answer (rules x st)) as [r|] eqn:E; cbn [default from_option].
  - apply first_answer_Some in E as (n & Hn & Hm). intros Hlt. apply Hm. apply rule_stage in Hn. simpl in Hlt. lia.
  - cbn. intros Hlt. by apply first_answer_None.
Qed.

(** ** The seat *)

Lemma seat_active x st : ow_active_ticket (seat x st) = active x.
Proof. unfold seat, active, classify_active_ownership. by destruct (base.filter _ _). Qed.

Lemma named_task_bound st a : named_task st = bool_decide (is_Some (bound_task (SeatState (text_field st "task") a))).
Proof.
  unfold named_task, bound_task. cbn [ss_task]. destruct (text_field st "task") as [t|]; [|done].
  change (strs ["none"; ""]) with [py "none"; []]. destruct (mem t [py "none"; []]) eqn:Em.
  - apply mem_true in Em. apply elem_of_cons in Em as [->|[->|[]%elem_of_nil]%elem_of_cons]; done.
  - rewrite bool_decide_eq_true_2 by (by eexists). apply not_true_iff_false in Em. rewrite mem_true, not_elem_of_cons, list_elem_of_singleton in Em.
    destruct t; [naive_solver|]. cbn [nonempty andb]. unfold eqs. rewrite bool_decide_eq_false_2; [done|tauto].
Qed.

(** What the binding rule lets through. *)
Lemma binding_passed x st :
  binding_rule x st = None →
  may_mutate_active (seat x st) = true ∧ ow_misbound (seat x st) = false ∧
  ow_bound (seat x st) = bool_decide (is_Some (active x)) ∧
  match active x with Some _ => ow_status (seat x st) = Seat SELF | None => ow_status (seat x st) = NO_ACTIVE end.
Proof.
  unfold binding_rule, may_mutate_active. pose proof (named_task_bound st (text_field st "agent")) as Hn.
  assert (match active x with None => ow_status (seat x st) = NO_ACTIVE ∧ ow_misbound (seat x st) = named_task st ∧ ow_bound (seat x st) = false
          | Some _ => ow_status (seat x st) ≠ NO_ACTIVE end) as Ha.
  { rewrite Hn. unfold active, seat, classify_active_ownership. by destruct (base.filter _ _). }
  destruct (active x) as [tid|].
  - destruct (ow_status (seat x st)) as [|[]] eqn:Es; try done; cbn -[seat]; destruct (named_task st), (ow_misbound (seat x st)); try done;
      cbn -[seat]; destruct (ow_bound (seat x st)); done.
  - destruct Ha as (-> & -> & ->). by destruct (named_task st).
Qed.

Lemma Some_lookup {A} (l : list A) n a b : l !! n = Some a → l !! n = Some b → a = b.
Proof. congruence. Qed.

Lemma passed_rule x st m o :
  in_state x = Ok st → m < stage (r_reason (route_next x)) → rules x st !! m = Some o → o = None.
Proof. intros Hst Hlt. rewrite (passed x st m Hst Hlt). congruence. Qed.

Lemma answered x st r :
  in_state x = Ok st → route_next x = r → 0 < stage (r_reason r) → stage (r_reason r) < 20 →
  first_answer (rules x st) = Some r.
Proof.
  unfold route_next. intros ->. destruct (negb _); [intros <-; cbn; lia|]. destruct (first_answer _); cbn; [by intros ->|].
  intros <-. cbn. lia.
Qed.

Lemma answered_at x st r :
  in_state x = Ok st → route_next x = r → 0 < stage (r_reason r) < 20 → ∃ n, rules x st !! n = Some (Some r).
Proof.
  intros Hst Hr [H0 H20]. destruct (first_answer_Some _ _ (answered x st r Hst Hr H0 H20)) as (n & Hn & _). eauto.
Qed.

(** ** The Pick Rule *)

Lemma reserved_child_workable ts a n c : reserved_continuation_child ts a n = Some c → t_id c ∈ workable_tickets ts a n.
Proof.
  unfold reserved_continuation_child. destruct (reserved_children ts a n) as [|d []] eqn:E; try done. intros [= ->].
  assert (c ∈ reserved_children ts a n) as (parent & _ & _ & Hd & _ & Hw)%elem_of_reserved by (rewrite E; left).
  apply elem_of_workable. exists c. split_and!; [done| |done]. apply dget_Some_elem in Hd. by apply (list_elem_of_fmap_2 snd) in Hd.
Qed.

Lemma pick_workable ts a n :
  match pick_next_work ts a n with
  | (Some t, _) => t ∈ workable_tickets ts a n
  | (None, _) => workable_tickets ts a n = []
  end.
Proof.
  unfold pick_next_work. destruct (reserved_continuation_child ts a n) as [c|] eqn:Er; [by apply reserved_child_workable|].
  unfold pick_from_queue. destruct (find_first _ _) as [t|] eqn:Ef; [by apply find_first_Some in Ef as [? _]|].
  destruct (workable_tickets ts a n); [done|left].
Qed.

(** ** What an answer grants *)

(** No workable ticket goes before a queued request: none is reserved for the actor, and
    the one the Pick Rule would start was not asked for by the user. *)
Definition nothing_outranks (x : inputs) (st : fields) : Prop :=
  match pick_next_work (b_tickets (in_board x)) (acting x st) (in_now x) with
  | (Some t, pick) => pick ≠ py "dependency-continuation" ∧ from_option is_user_explicit false (dget t (b_tickets (in_board x))) = false
  | (None, _) => True
  end.

Definition granted (x : inputs) (st : fields) (r : route) : Prop :=
  match r_reason r with
  | UnprojectedAppend =>
      r_ticket r = active x ∧ (active x = None ∨ ow_status (seat x st) = Seat SELF ∧ ow_misbound (seat x st) = false) ∧
      ∃ a, in_append x = Some a ∧ pa_invalid a = false ∧ r_action r = pa_action a
  | Adopt => requires_adoption (seat x st) = true ∧ ∃ t, active x = Some t ∧ r_action r = adoption_action t
  | ForeignLive => ow_status (seat x st) = Seat FOREIGN_LIVE
  | Finish => ∃ t, active x = Some t ∧ r_ticket r = Some t
  | QueuedSourceStart => active x = None ∧ nothing_outranks x st ∧
      ∃ q, in_queued x = Some q ∧ qs_invalid q = false ∧ r_action r = qs_action q
  | Start pick => active x = None ∧ ∃ t, r_ticket r = Some t ∧ r_action r = "PHASE SCOUT " +s t ∧
      pick_next_work (b_tickets (in_board x)) (acting x st) (in_now x) = (Some t, pick)
  | _ => True
  end.

Lemma granted_later x st r : stage (r_reason r) ∉ [2; 3; 4; 6; 9] → granted x st r.
Proof. unfold granted. destruct (r_reason r); try done; cbn; intros []; apply (bool_decide_unpack _); by vm_compute. Qed.

Lemma append_grants x st r : append_rule x st = Some r → granted x st r.
Proof.
  unfold append_rule, granted. destruct (in_append x) as [a|]; [|done]. destruct (pa_invalid a) eqn:Ei; [done|].
  destruct (_ || _) eqn:E; [|done]. intros [= <-]. cbn -[seat]. split_and!; [done| |by exists a].
  apply orb_true_iff in E as [E|E]; bool_tac; auto.
Qed.

Lemma queue_grants x st r : queue_rule x st = Some r → granted x st r.
Proof.
  unfold queue_rule, granted, nothing_outranks. destruct (active x) as [t|]; [done|]. destruct (in_queued x) as [q|]; [|done].
  destruct (qs_invalid q) eqn:Ei; [by intros [= <-]|]. destruct (pick_next_work _ _ _) as [[t|] pick]; cbv zeta.
  - destruct (_ || _) eqn:E; [done|]. intros [= <-]. cbn. unfold eqs in E. bool_tac. split_and!; [done..|by exists q].
  - intros [= <-]. cbn. split_and!; [done..|by exists q].
Qed.

Lemma binding_grants x st r : binding_rule x st = Some r → granted x st r.
Proof.
  unfold binding_rule, granted. destruct (active x) as [t|]; [|destruct (named_task st); [by intros [= <-]|done]].
  assert (requires_adoption (seat x st) = bool_decide (ow_status (seat x st) ∈ ADOPTABLE)) as -> by done.
  destruct (ow_status (seat x st)) as [|[]]; destruct (named_task st), (ow_misbound (seat x st)); cbn -[adoption_action seat];
    try (intros [= <-]; cbn; eauto); try done.
  all: destruct (ow_bound (seat x st)); try done; by intros [= <-].
Qed.

Lemma rules_grant x st : Forall (λ o, ∀ r, o = Some r → granted x st r) (rules x st).
Proof.
  unfold rules. repeat (apply Forall_cons; split); [..|constructor].
  all: intros r H; try (apply granted_later; unfold_rule H; rule_cases H; apply (bool_decide_unpack _); vm_compute; exact I).
  - by apply append_grants.
  - by apply binding_grants.
  - unfold finish_rule, granted in *. destruct (active x) as [t|]; [|done]. destruct (text_field st "phase"); [|done].
    destruct (mem _ _); [|done]. injection H as <-. cbn. eauto.
  - by apply queue_grants.
  - unfold start_rule, granted in *. destruct (active x) as [t|]; [done|].
    destruct (pick_next_work _ _ _) as [[t|] p]; [|done]. injection H as <-. cbn. eauto.
Qed.

(** C14: The answer is permitted: what the router tells an actor to do the ownership gate
    and the Pick Rule allow. An append the operator made durable is advertised, with
    its own action, only while no ticket is active or the active one is the actor's
    and bound; work is continued only by the owner of the seat whose state names the
    ticket; adoption is advertised only where adoption is what the gate asks for; a
    queued request is started only when no ticket is active and no workable ticket
    goes before it; a new ticket is started only when none is active, and it is the
    very ticket, with the very reason, of the Pick Rule, and workable; and every other
    answer from the active work on comes with a seat that may be mutated and is not
    misbound. *)
Theorem route_is_permitted x st :
  in_state x = Ok st →
  let r := route_next x in let own := seat x st in
  match r_reason r with
  | UnprojectedAppend => r_ticket r = ow_active_ticket own ∧
      (ow_active_ticket own = None ∨ ow_status own = Seat SELF ∧ ow_misbound own = false) ∧
      ∃ a, in_append x = Some a ∧ pa_invalid a = false ∧ r_action r = pa_action a
  | Adopt => requires_adoption own = true ∧ ∃ t, ow_active_ticket own = Some t ∧ r_action r = adoption_action t
  | ForeignLive => ow_status own = Seat FOREIGN_LIVE
  | Finish => may_mutate_active own = true ∧ ow_bound own = true ∧ ∃ t, ow_active_ticket own = Some t ∧ r_ticket r = Some t
  | QueuedSourceStart => ow_status own = NO_ACTIVE ∧ ow_misbound own = false ∧ nothing_outranks x st ∧
      ∃ q, in_queued x = Some q ∧ qs_invalid q = false ∧ r_action r = qs_action q
  | Start pick => ow_status own = NO_ACTIVE ∧ ow_misbound own = false ∧
      ∃ t, r_ticket r = Some t ∧ r_action r = "PHASE SCOUT " +s t ∧
      pick_next_work (b_tickets (in_board x)) (acting x st) (in_now x) = (Some t, pick) ∧
      t ∈ workable_tickets (b_tickets (in_board x)) (acting x st) (in_now x)
  | reason => 4 ≤ stage reason → may_mutate_active own = true ∧ ow_misbound own = false
  end.
Proof.
  intros Hst r own. assert (4 ≤ stage (r_reason r) → binding_rule x st = None) as Hb.
  { intros H. by apply (passed_rule x st 3). }
  assert (0 < stage (r_reason r) < 20 → granted x st r) as Hg.
  { intros H. destruct (answered_at x st r Hst eq_refl H) as [n Hn]. pose proof (rules_grant x st) as HF.
    rewrite Forall_lookup in HF. by apply (HF n _ Hn). }
  unfold granted in Hg. unfold own. rewrite seat_active.
  destruct (r_reason r) eqn:Er; cbn [stage] in *; try (intros (? & ? & _)%Hb%binding_passed; done).
  all: try (apply Hg; lia).
  - destruct (Hg ltac:(lia)) as (t & Ha & Ht). destruct (binding_passed x st (Hb ltac:(lia))) as (? & _ & Hbd & _).
    rewrite Ha in *. split_and!; [done|by rewrite Hbd|eauto].
  - destruct (Hg ltac:(lia)) as (Ha & Hq). destruct (binding_passed x st (Hb ltac:(lia))) as (_ & Hm & _ & Hs).
    rewrite Ha in Hs. exact (conj Hs (conj Hm Hq)).
  - destruct (Hg ltac:(lia)) as (Ha & t & Ht & Hact & Hp). destruct (binding_passed x st (Hb ltac:(lia))) as (_ & Hm & _ & Hs).
    rewrite Ha in Hs. split_and!; [done..|]. exists t. split_and!; [done..|].
    pose proof (pick_workable (b_tickets (in_board x)) (acting x st) (in_now x)) as Hw. by rewrite Hp in Hw.
Qed.

(** ** The hard stop *)

Definition empty_todo (x : inputs) : bool := negb (existsb (λ t, in_section t TODO) (dvalues (b_tickets (in_board x)))).

Lemma default_first x st d : default d (first_answer (rules x st)) = match first_answer (rules x st) with Some r => r | None => d end.
Proof. by destruct (first_answer _). Qed.

(** C15: A project that is braked is no work surface: whatever the board, the queue, the
    inbox and the gates offer, the answer names no ticket, and it refuses or stops;
    the one exception is the checkpoint of a goal with a persistent grant whose
    pause is the safety valve. *)
Theorem braked_project_stops x st :
  in_state x = Ok st → binding_brake st (empty_todo x) ≠ None →
  let r := route_next x in
  r_ticket r = None ∧
  (r_ok r = false ∨ r_behavior r = Some RESTATE_AND_STOP ∨
   r_reason r = GoalCheckpoint ∧ r_behavior r = Some CHECKPOINT_AND_REROUTE ∧ persistent st = true ∧
   binding_brake st (empty_todo x) = Some Wait ∧ parse_wait (dget (py "next_action") st) = Some (py "safety valve")).
Proof.
  intros Hst Hb. unfold route_next. rewrite Hst, default_first. destruct (negb _); [split; [done|by left]|]. unfold rules.
  cbn [first_answer]. destruct (surface_rule x st) as [r|] eqn:Es; cbn [first_answer].
  { unfold_rule Es. rule_cases Es; cbn; auto. }
  unfold brake_rule. fold (empty_todo x). destruct (binding_brake st (empty_todo x)) as [[]|] eqn:Eb; cbn [first_answer stop]; [cbn; auto..| |done].
  destruct (bool_decide _ && _) eqn:Ec; bool_tac; cbn; split_and!; auto 10.
Qed.

(** ** Recovery first *)

(** An unresolved operation owns the next action of every session that may write. *)
Theorem recovery_first x st :
  in_checkpoint x = [] → in_state x = Ok st → st ≠ [] →
  (∀ c, in_capability x = Some c → c ∈ CAPABILITIES ∧ c ≠ py "read-only") →
  in_conflicts x ≠ [] ∨ in_pending x ≠ [] →
  let r := route_next x in
  r_ok r = false ∧ r_action r = py "saipen recover" ∧
  r_reason r = (if decide (in_conflicts x = []) then RecoveryPending else RecoveryConflict) ∧
  routing_failure_code r = (if decide (in_conflicts x = []) then py "RECOVERY_REQUIRED" else py "RECOVERY_CONFLICT").
Proof.
  intros Hc Hst Hne Hcap Hop r.
  assert (surface_rule x st = refuse "saipen recover" (if decide (in_conflicts x = []) then RecoveryPending else RecoveryConflict)) as Es.
  { unfold surface_rule. rewrite bool_decide_eq_false_2 by done.
    assert (from_option capability_error false (in_capability x) = false ∧ in_capability x ≠ Some (py "read-only")) as [-> Hro].
    { destruct (in_capability x) as [c|]; [|done]. destruct (Hcap c eq_refl) as [Hin Hn]. split; [|congruence].
      cbn. unfold capability_error. apply negb_false_iff. by apply mem_true. }
    rewrite bool_decide_eq_false_2 by done. destruct (decide (in_conflicts x = [])) as [E|E].
    - rewrite E, bool_decide_eq_true_2, bool_decide_eq_false_2 by (done || destruct Hop; done). done.
    - by rewrite bool_decide_eq_false_2. }
  unfold r, route_next. rewrite Hc, Hst, bool_decide_eq_true_2 by done. unfold rules. cbn [negb first_answer]. rewrite Es. cbn.
  by destruct (decide (in_conflicts x = [])).
Qed.

(** ** Idleness *)

Lemma all_complete_exact ts i g n :
  i_no_admissible_work (classify_idle_work ts i g n) = false →
  Forall (λ t, in_section t DOING || in_section t TODO || in_section t BLOCKED = false) (dvalues ts) ∧
  (∀ a, i = Some a → unresolved_audit_count a = 0 ∧ has_residue a = false ∧ has_invalid_audit a = false).
Proof.
  unfold classify_idle_work. destruct (_ && _) eqn:E.
  - intros _. apply andb_true_iff in E as [[[Ea%Nat.eqb_eq Eu%Nat.eqb_eq]%andb_true_iff Er%negb_true_iff]%andb_true_iff Ei%negb_true_iff].
    split; [|by intros a ->]. apply length_zero_iff_nil in Ea. apply Forall_forall. intros t Ht. apply not_true_iff_false. intros H.
    assert (t ∈ []) as []%elem_of_nil. rewrite <-Ea. by apply list_elem_of_filter.
  - match goal with |- context [let '(_, _) := ?c in _] => destruct c end. done.
Qed.

Lemma rules_incomplete x st : Forall (λ o, ∀ r, o = Some r → r_more r ≠ AllComplete) (rules x st).
Proof.
  unfold rules. repeat (apply Forall_cons; split); [..|constructor]; intros r H; unfold_rule H; rule_cases H; done.
Qed.

Lemma complete_inputs x st :
  in_state x = Ok st → r_more (route_next x) = AllComplete → i_no_admissible_work (idle_work x) = false.
Proof.
  intros Hst. unfold route_next. rewrite Hst. destruct (negb _); [done|].
  destruct (first_answer (rules x st)) as [r|] eqn:E; cbn [default from_option].
  - apply first_answer_Some in E as (n & Hn & _). pose proof (rules_incomplete x st) as HF. rewrite Forall_lookup in HF.
    cbn. intros H. by destruct (HF n _ Hn r eq_refl).
  - unfold maintain_rule. cbn. by destruct (i_no_admissible_work _).
Qed.

(** C35: The router is idle only when it has to be. An answer of the idle ladder given
    with no ticket active means that no ticket is workable, that the audit inbox owns
    nothing, and, past the graph check, that the graph of needs is sound. Given with a
    ticket active, it means that the seat is the actor's own and bound to that ticket,
    and that the phase of the state bears no ticket: of the other tickets it says
    nothing then. And the router calls the project complete only when every ticket is
    done and no audit is left. *)
Theorem idle_is_honest x st :
  in_state x = Ok st → let r := route_next x in
  (active x = None → 10 ≤ stage (r_reason r) →
     workable_tickets (b_tickets (in_board x)) (acting x st) (in_now x) = [] ∧
     audit_route_owns (in_inbox x) (Some (b_tickets (in_board x))) (acting x st) (in_now x) = false ∧
     (r_reason r ≠ BoardGraphInvalid → board_graph_errors (b_tickets (in_board x)) = [])) ∧
  (∀ t, active x = Some t → 10 ≤ stage (r_reason r) →
     ow_status (seat x st) = Seat SELF ∧ ow_bound (seat x st) = true ∧ ow_misbound (seat x st) = false ∧
     ∀ ph, text_field st "phase" = Some ph → ph ∉ TICKET_BEARING_PHASES) ∧
  (r_more r = AllComplete →
     Forall (λ t, in_section t DOING || in_section t TODO || in_section t BLOCKED = false) (dvalues (b_tickets (in_board x))) ∧
     ∀ p, in_inbox x = Some p → unresolved_of p = 0 ∧ ib_residue p = [] ∧ ib_invalid p = []).
Proof.
  intros Hst r. split_and!.
  - intros Ha Hs. unfold r in *; clear r. assert (start_rule x st = None) as Hstart by (apply (passed_rule x st 9); [done|lia|done]).
    assert (audit_rule x st = None) as Haudit by (apply (passed_rule x st 8); [done|lia|done]).
    unfold start_rule in Hstart. unfold audit_rule in Haudit. rewrite Ha in *. split_and!.
    + pose proof (pick_workable (b_tickets (in_board x)) (acting x st) (in_now x)) as Hp. by destruct (pick_next_work _ _ _) as [[t|] p].
    + destruct (in_inbox x) as [p|]; [|done]. by destruct (audit_route_owns _ _ _ _).
    + intros Hne. assert (graph_rule x = None) as Hg.
      { apply (passed_rule x st 10); [done| |done]. destruct (r_reason (route_next x)); cbn in *; done || lia. }
      unfold graph_rule in Hg. rewrite bool_decide_eq_true_2 in Hg by done. destruct (board_graph_errors _); [done|].
      by rewrite bool_decide_eq_false_2 in Hg.
  - intros t Ha Hs. unfold r in *; clear r. assert (binding_rule x st = None) as Hb by (apply (passed_rule x st 3); [done|lia|done]).
    assert (finish_rule x st = None) as Hf by (apply (passed_rule x st 4); [done|lia|done]).
    apply binding_passed in Hb as (_ & Hm & Hb & Hst'). rewrite Ha in Hb, Hst'. split_and!; [done| |done|].
    + by rewrite Hb.
    + intros ph Hph. unfold finish_rule in Hf. rewrite Ha, Hph in Hf. rewrite <-mem_true. by destruct (mem ph _).
  - intros Hm%(complete_inputs x st Hst)%all_complete_exact. destruct Hm as [Ht Ha]. split; [exact Ht|]. intros p Hp.
    destruct (Ha (idle_view p)) as (Hu & Hr & Hi); [by rewrite Hp|]. cbn in Hr, Hi. bool_tac.
    split_and!; [exact Hu|by apply dec_stable..].
Qed.

(** ** Concrete projects *)

Definition sample_install : install := Install None None None (λ _, false).
Definition state_lines (phase task na : string) (rest : list string) : pystr :=
  join [10%N]
    ([py "---"; "phase: " +s py phase; "task: " +s py task; "next_action: '" +s py na +s "'"]
     ++ strs ["agent: alpha"; "saipen_version: 3"; "mode: full"; "updated: 2024-05-01T10:00:00Z"; "transition_from: SCOUT"]
     ++ strs rest ++ strs ["---"; "boundary"]).
Definition board_lines (doing todo done blocked : list string) : pystr :=
  join [10%N] (strs ["## DOING"] ++ strs doing ++ strs ["## TODO"] ++ strs todo ++ strs ["## DONE"] ++ strs done
               ++ strs ["## BLOCKED"] ++ strs blocked ++ strs [""%string]).
Definition noon : Z := instant (Stamp 2024 5 1 10 1 0 0).
Definition sample_route (state board : pystr) (i : option inbox) (g : option future_gate) : route :=
  route_documents sample_install state board [] [] noon (Some (py "full")) (Some (py "alpha")) i None None g.

Definition building_state : pystr := state_lines "BUILD" "T-1" "PHASE BUILD T-1" ["blocker: none"].
Definition building_board : pystr :=
  board_lines ["- [/] T-1 build it | owner: alpha | claim_time: 2024-05-01T10:00:00Z"] ["- [ ] T-2 next | verify: tests"] [] [].

Lemma sample_building :
  let r := sample_route building_state building_board None None in
  (r_reason r, r_action r, r_ticket r) = (Finish, py "PHASE BUILD T-1", Some (py "T-1")).
Proof. vm_compute. reflexivity. Qed.

Definition inputs_of (state board : pystr) (pending : list pystr) (i : option inbox) (g : option future_gate) : inputs :=
  Inputs (parse_state_or_error sample_install state) (parse_board board) [] pending [] noon (Some (py "full")) (Some (py "alpha"))
    i None None g.
Definition parsed (state : pystr) : fields := match parse_state_or_error sample_install state with Ok fs => fs | Err _ => [] end.

Lemma route_is_permitted_witness :
  let x := inputs_of building_state building_board [] None None in
  may_mutate_active (seat x (parsed building_state)) = true ∧ ow_bound (seat x (parsed building_state)) = true.
Proof.
  pose proof (route_is_permitted (inputs_of building_state building_board [] None None) (parsed building_state)) as H.
  assert (in_state (inputs_of building_state building_board [] None None) = Ok (parsed building_state)) as Hst by (vm_compute; reflexivity).
  specialize (H Hst). cbv zeta in H.
  assert (r_reason (route_next (inputs_of building_state building_board [] None None)) = Finish) as E by (vm_compute; reflexivity).
  rewrite E in H. destruct H as (Hm & Hb & _). split; [exact Hm|exact Hb].
Defined.

Definition braked_state : pystr := state_lines "BUILD" "T-1" "PHASE BUILD T-1" ["blocker: EXTERNAL the vendor"].

Lemma braked_project_stops_witness :
  r_ticket (route_next (inputs_of braked_state building_board [] None None)) = None.
Proof.
  apply (braked_project_stops _ (parsed braked_state)); [vm_compute; reflexivity|].
  assert (binding_brake (parsed braked_state) (empty_todo (inputs_of braked_state building_board [] None None)) = Some Blocker) as ->
    by (vm_compute; reflexivity).
  done.
Defined.

Lemma recovery_first_witness :
  routing_failure_code (route_next (inputs_of building_state building_board [py "op-1"] None None)) = py "RECOVERY_REQUIRED".
Proof.
  destruct (recovery_first (inputs_of building_state building_board [py "op-1"] None None) (parsed building_state)) as (_ & _ & _ & H);
    [reflexivity|vm_compute; reflexivity|vm_compute; discriminate| |by right|exact H].
  intros c [= <-]. split; [refine (bool_decide_unpack _ _); by vm_compute|done].
Defined.

Definition done_state : pystr := state_lines "DONE" "none" "saipen continue" ["blocker: none"].

Lemma idle_is_honest_witness :
  workable_tickets (b_tickets (parse_board (board_lines [] [] ["- [x] T-1 built"] []))) (Some (py "alpha")) noon = [].
Proof.
  apply (idle_is_honest (inputs_of done_state (board_lines [] [] ["- [x] T-1 built"] []) [] None None) (parsed done_state));
    [vm_compute; reflexivity|vm_compute; reflexivity|].
  assert (r_reason (route_next (inputs_of done_state (board_lines [] [] ["- [x] T-1 built"] []) [] None None)) = Maintain) as ->
    by (vm_compute; reflexivity).
  cbn. lia.
Defined.

(** ** Where code and documents part *)

(** The idle answer is the persisted command itself, though the router is documented
    to be a projection and never an echo. *)
Lemma maintain_echoes :
  let r := sample_route (state_lines "DONE" "none" "saipen ship --now" ["blocker: none"]) (board_lines [] [] [] []) None None in
  (r_reason r, r_action r) = (Maintain, py "saipen ship --now").
Proof. vm_compute. reflexivity. Qed.

(** A spent goal budget defers the promotion of a gate, and the idle verdict then
    names that promotion as the next exact action. *)
Lemma spent_budget_names_promotion :
  let state := state_lines "DONE" "none" "saipen continue"
                 ["blocker: none"; "execution_intent: goal"; "goal_waves: 3"; "goal_tickets: 2"] in
  let board := board_lines [] [] [] ["- [ ] T-9 later | blocker: FUTURE_GATE: strategy"] in
  let r := sample_route state board None (Some (FutureGate [py "FG-1"] [] false)) in
  (r_reason r, match r_more r with NoWork i _ => i_next_exact_action i | _ => [] end)
  = (Maintain, py "saipen future promote FG-1").
Proof. vm_compute. reflexivity. Qed.

(** The router continues a persisted [RUN:] of the active ticket; the detector of
    ignored audits reports the same state as a violation. *)
Lemma finish_is_called_violation :
  let state := state_lines "BUILD" "T-1" "RUN: make check" ["blocker: none"] in
  let ts := b_tickets (parse_board building_board) in
  let p := projection_from_classification (Classification true [LayerItem (Some 1%N) (py "audit/1.md") Layer.NEW None None] [] [])
             (Supplied ts) (Some (py "alpha")) noon in
  let r := sample_route state building_board p None in
  (r_reason r, r_action r) = (Finish, py "RUN: make check") ∧
  route_violation p "RUN: make check" [py "T-1"] [] (Some ts) (Some (py "alpha")) noon (Some (parsed state)) None
  = Some (Violation "saipen audit ingest" "RUN: make check" false).
Proof. split; vm_compute; reflexivity. Qed.
