(* ===== verification/Gates.v ===== *)
(** * The gates behind the router

    The chain [gate_route] of [tools/saipen_engine/router.py]: the answer of the
    pure router is checked against what only the project knows, and the first gate
    that objects rewrites it into a refusal. What the gates read of other modules
    (the reconcile verdict, the grant proof, the conformance receipt, the closure
    decision) is the record [world]. *)

From S2P Require Import Prelude PyStr PyStrFacts PyDict Phases BoardParse BoardClaims BoardGraph BoardBlockers.
From S2P Require Import Ownership StateDoc StateWait StateContract AuditInbox Router.

(** ** The answer as a caller sees it *)

(** The keys of the answer the callers read; an absent key is [None]. *)
Record answer : Type := Answer {
  a_ok : bool;
  a_code : option pystr;
  a_action : option pystr;
  a_reason : pystr;
  a_behavior : option behavior;
  a_ticket : option pystr;
  a_stop_reason : option pystr;
  a_idle : option pystr;
  a_blocker : option group_of_roots;
  a_command : option pystr;
  a_authority : option pystr;
  a_due : list pystr;
  a_operator_action : option pystr;
}.

Definition disposition_text (d : disposition) : pystr :=
  match d with
  | ALL_WORK_COMPLETE => "ALL_WORK_COMPLETE" | IDLE_BLOCKED_EXTERNAL => "IDLE_BLOCKED_EXTERNAL"
  | IDLE_OPERATOR_REQUIRED => "IDLE_OPERATOR_REQUIRED" | IDLE_FUTURE_GATED => "IDLE_FUTURE_GATED"
  | NO_ADMISSIBLE_WORK => "NO_ADMISSIBLE_WORK"
  end.

Definition idle_stop (m : more) : option (pystr * pystr) :=
  match m with
  | IdleAudit d _ _ _ => Some (py "NO_ADMISSIBLE_WORK", disposition_text d)
  | NoWork i _ => Some (py "NO_ADMISSIBLE_WORK", disposition_text (i_disposition i))
  | AllComplete => Some (py "ALL_REQUIREMENTS_COMPLETE", py "ALL_WORK_COMPLETE")
  | _ => None
  end.

Definition answer_of (r : route) : answer :=
  Answer (r_ok r) None (Some (r_action r)) (reason_text (r_reason r)) (r_behavior r) (r_ticket r)
    (fst <$> idle_stop (r_more r)) (snd <$> idle_stop (r_more r))
    (match r_more r with IdleAudit _ b _ _ => b | NoWork i _ => i_primary_blocker i | _ => None end)
    None
    (match r_more r with AuthoritySource s => Some s | _ => None end)
    (match r_more r with Gates gates => g_ticket <$> base.filter (λ g, is_due g = true) gates | _ => [] end)
    None.

(** A new answer, and the answer with its refusal merged in. *)
Definition refusal (code reason : pystr) (action command operator_action : option pystr) : answer :=
  Answer false (Some code) action reason None None None None None command None [] operator_action.
Definition merged (r : answer) (code reason : pystr) (ticket action command : option pystr) : answer :=
  Answer false (Some code) action reason (a_behavior r) ticket (a_stop_reason r) (a_idle r) (a_blocker r) command
    (a_authority r) (a_due r) (a_operator_action r).

(** ** What the gates read *)

(** A reconciliation, as its dry run answers. *)
Record reconciliation : Type := Reconciliation {
  rc_ok : bool;
  rc_remediation : option pystr;
  rc_command : option pystr;
  rc_decision_available : bool;
  rc_code : option pystr;
  rc_repair_id : option pystr;
  rc_decision_tickets : list pystr;
  rc_operator_decision : pystr;
}.

(** The decision from the conformance receipt. *)
Record conformance : Type := Conformance {
  cf_healthy : bool;
  cf_remediation_required : bool;
  cf_command : option pystr;
}.

(** The readiness of a ticket for its closure. *)
Record readiness : Type := Readiness { cr_ready : bool; cr_command : option pystr }.

(** [None] stands for a reading that raised. *)
Record world : Type := World {
  w_state : option fields;
  w_counters : dict pystr Z;
  w_grant_proved : bool;
  w_reconciled : option reconciliation;
  w_conformance : option conformance;
  w_closure : pystr → option readiness;
}.

(** The fields [parse_state] gives for the text of STATE. *)
Definition disk_state (running_major : option Z) (text : option pystr) : option fields :=
  match text with
  | Some text =>
      match parse_state running_major text with
      | Ok Absent => Some []
      | Ok (Read fs) => Some fs
      | Ok Corrupt => Some [(py "phase", Scalar (SStr "CORRUPT"))]
      | Err _ => None
      end
  | None => None
  end.

(** [is_continuous_maintenance] and [continuous_maintenance_proven] of
    [goal_authority.py]. *)
Definition is_continuous_maintenance (state : fields) : bool :=
  persistent state
  && (str_is (dget (py "authority_until") state) "continuous_maintenance"
      || val_in (dget (py "continuous_maintenance") state) (strs ["authorized"; "active"; "quiescent"; "true"])).
Definition continuous_maintenance_proven (w : world) (state : fields) : bool :=
  is_continuous_maintenance state && w_grant_proved w.

(** ** The gates *)

Definition SAFETY_VALVE_TRIPPED : pystr := "SAFETY_VALVE_TRIPPED".

(** [sorted({str(t) ...})] *)
Definition sorted_unique (l : list pystr) : list pystr := sorted (fromkeys l).

Definition _reconcile_operator_action (v : reconciliation) : pystr :=
  let tickets := sorted_unique (rc_decision_tickets v) in
  let named := join ", " (take 6 tickets)
               +s (if (6 <? length tickets)%nat then " and " +s str_of (N.of_nat (length tickets - 6)) +s " more" else []) in
  let plan := take 12 (default [] (rc_repair_id v)) in
  if nonempty plan then "Approve recovery plan " +s plan +s (if nonempty named then " (" +s named +s ")" else [])
  else let text := join " " (words (rc_operator_decision v)) in
       if negb (nonempty text) || (200 <? length text)%nat then py "Decide the recovery refusal" else text.

(** [s or None] *)
Definition given (s : option pystr) : option pystr := s ≫= some_text.

Definition reconcile_gate (w : world) (r : answer) : option answer :=
  if negb (a_ok r) then None
  else match w_reconciled w with
       | None => None
       | Some v =>
           if rc_ok v || bool_decide (rc_remediation v = Some SAFETY_VALVE_TRIPPED) then None
           else
             let command := given (rc_command v) in
             let decision := rc_decision_available v && bool_decide (is_Some command) in
             Some (refusal (default (py "RECONCILE_REFUSED") (given (rc_code v)))
                     (if decision then "reconcile-decision" else "reconcile-refused") None command
                     (if decision then Some (_reconcile_operator_action v) else None))
       end.

(** What the checkpoint of a persistent goal must prove: the grant, the pause from
    the counters history gives, and that the grant still owns the goal. *)
Definition checkpoint_proven (w : world) (authority : option pystr) : bool :=
  match w_state w with
  | None => false
  | Some state =>
      w_grant_proved w && goal_valve_wait_is_proven state (Some (w_counters w))
      && persistent state && bool_decide (dget (py "authority_source") state = (Scalar ∘ SStr) <$> authority)
  end.

Definition goal_checkpoint_gate (w : world) (r : answer) : option answer :=
  if negb (a_reason r =s "goal-checkpoint") || checkpoint_proven w (a_authority r) then None
  else Some (refusal "VALIDATION_FAILED" "state-malformed" (Some (py "saipen status")) (Some (py "saipen status")) None).

(** The idle answers a standing campaign would turn into work. *)
Definition idle_boundary (r : answer) : bool :=
  mem (a_reason r) (strs ["maintain"; "audit-inbox-unworkable"])
  && bool_decide (a_stop_reason r = Some (py "NO_ADMISSIBLE_WORK"))
  && mem (default [] (a_action r)) (strs ["saipen continue"; "saipen audit status"]).

Definition unproven_claim (w : world) : bool :=
  match w_state w with
  | Some state => is_continuous_maintenance state && negb (continuous_maintenance_proven w state)
  | None => false
  end.

Definition continuous_maintenance_gate (w : world) (r : answer) : option answer :=
  if a_ok r && idle_boundary r && unproven_claim w
  then Some (refusal "CONTINUATION_AUTHORITY_UNPROVEN" "continuous-maintenance-unproven" (Some (py "saipen status")) None None)
  else None.

Definition conformance_unknown (r : answer) : answer :=
  merged r "CONFORMANCE_UNKNOWN" "conformance-unknown" (a_ticket r) (Some (py "saipen validate")) (Some (py "saipen validate")).

Definition conformance_crew_gate (w : world) (r : answer) : option answer :=
  if negb (a_ok r && bool_decide (a_action r = Some (py "saipen crew")) && (a_reason r =s "crew-converge")) then None
  else match w_conformance w with
       | None => Some (conformance_unknown r)
       | Some d =>
           if cf_healthy d then None
           else Some (merged r "CONFORMANCE_UNHEALTHY" "conformance-unhealthy" (a_ticket r) (cf_command d) (cf_command d))
       end.

(** [str(routed["action"]).split()[-1]] *)
Definition shipped_ticket (action : pystr) : pystr := default [] (last (words action)).

Definition closure_finish_gate (w : world) (r : answer) : option answer :=
  match a_action r with
  | None => None
  | Some action =>
      if negb (a_ok r && startswith "PHASE SHIP " action) then None
      else
        let ticket := shipped_ticket action in
        match w_closure w ticket with
        | None =>
            Some (merged r "CLOSURE_UNKNOWN" "closure-unknown" (Some ticket) (Some (py "saipen source status"))
                    (Some (py "saipen source status")))
        | Some d =>
            if cr_ready d then None
            else Some (merged r "CLOSURE_NOT_READY" "closure-not-ready" (Some ticket) (cr_command d) (cr_command d))
        end
  end.

(** The remediation the idle answer names already. *)
Definition names_remediation (r : answer) (d : conformance) : bool :=
  match given (cf_command d) with
  | Some command => strip (default [] (a_action r)) =s command
  | None => false
  end.

Definition conformance_idle_gate (w : world) (r : answer) : option answer :=
  if negb (a_ok r && (a_reason r =s "maintain")) then None
  else match w_conformance w with
       | None => Some (conformance_unknown r)
       | Some d =>
           if negb (cf_remediation_required d) || names_remediation r d then None
           else Some (merged r "CONFORMANCE_UNHEALTHY" "conformance-remediation" (a_ticket r) (cf_command d) (cf_command d))
       end.

Definition gates (w : world) (r : answer) : list (option answer) :=
  [reconcile_gate w r; goal_checkpoint_gate w r; continuous_maintenance_gate w r; conformance_crew_gate w r;
   closure_finish_gate w r; conformance_idle_gate w r].
Definition gate_route (w : world) (r : answer) : option answer := first_answer (gates w r).
(** The answer the chain hands on. *)
Definition effective (w : world) (r : answer) : answer := default r (gate_route w r).

(** ** The answer as a result *)

(** [route_next_result]: before the gates, an executable answer whose phase has no
    document is refused. [phase_doc] tells of a path whether it is a file that is not
    empty. *)
Inductive routed_result : Type :=
  | PhaseDocMissing (action load : pystr)
  | Gated (a : answer)
  | Routed (r : route) (code : pystr).
Definition rs_ok (s : routed_result) : bool := match s with Routed r _ => r_ok r | _ => false end.

Definition phase_load (r : route) : option pystr :=
  if r_ok r && startswith "PHASE " (r_action r) then load_for_action (r_action r) else None.
Definition route_next_result (phase_doc : pystr → bool) (w : world) (r : route) : routed_result :=
  match (match phase_load r with Some load => if phase_doc load then None else Some load | None => None end) with
  | Some load => PhaseDocMissing (r_action r) load
  | None =>
      match gate_route w (answer_of r) with
      | Some gated => Gated gated
      | None => Routed r (if r_ok r then py "ROUTED" else routing_failure_code r)
      end
  end.
