(* ===== verification/GateFacts.v ===== *)
(** * What a route that passes its gates has proved

    The gates of [Gates] only withhold: an answer that reaches a caller as
    executable is the answer of the router, and every proof a gate asks for holds. *)

From S2P Require Import Prelude PyStr PyStrFacts PyDict Phases BoardParse BoardClaims BoardGraph BoardBlockers.
From S2P Require Import Ownership StateDoc StateWait StateContract AuditInbox Router RouterFacts Gates.

(** ** What the chain guarantees *)

Lemma first_answer_none_iff {A} (l : list (option A)) : first_answer l = None ↔ Forall (λ o, o = None) l.
Proof.
  induction l as [|[a|] l IH]; [done| |]; cbn [first_answer].
  - split; [done|]. by intros [? _]%Forall_cons_1.
  - rewrite IH, Forall_cons. naive_solver.
Qed.

(** Every gate answers with a refusal. *)
Lemma gates_refuse w r : Forall (λ o, ∀ r', o = Some r' → a_ok r' = false) (gates w r).
Proof.
  unfold gates. repeat (apply Forall_cons; split); [..|constructor]; intros r' H.
  all: unfold reconcile_gate, goal_checkpoint_gate, continuous_maintenance_gate, conformance_crew_gate, closure_finish_gate,
    conformance_idle_gate in H.
  all: cbv beta zeta in H; repeat match type of H with match ?c with _ => _ end = Some _ => destruct c end; try discriminate H;
    by injection H as <-.
Qed.

Lemma effective_ok w r : a_ok (effective w r) = true → effective w r = r ∧ gate_route w r = None.
Proof.
  unfold effective. destruct (gate_route w r) as [r'|] eqn:E; [|done]. cbn. intros Hok.
  apply first_answer_Some in E as (n & Hn & _). pose proof (gates_refuse w r) as HF. rewrite Forall_lookup in HF.
  by rewrite (HF _ _ Hn r' eq_refl) in Hok.
Qed.

(** What each gate asks of an answer that is no refusal. *)
Definition reconciled (w : world) : bool :=
  match w_reconciled w with
  | Some v => rc_ok v || bool_decide (rc_remediation v = Some SAFETY_VALVE_TRIPPED)
  | None => true
  end.
Definition healthy (w : world) : bool := from_option cf_healthy false (w_conformance w).
Definition idle_conformant (w : world) (r : answer) : bool :=
  match w_conformance w with
  | Some d => negb (cf_remediation_required d) || names_remediation r d
  | None => false
  end.
Definition closable (w : world) (action : pystr) : bool :=
  negb (startswith "PHASE SHIP " action) || from_option cr_ready false (w_closure w (shipped_ticket action)).
Definition claim_stands (w : world) (r : answer) : bool := negb (idle_boundary r && unproven_claim w).

Lemma gate_route_none w r :
  a_ok r = true →
  gate_route w r = None ↔
  reconciled w = true ∧
  ((a_reason r =s "goal-checkpoint") = true → checkpoint_proven w (a_authority r) = true) ∧
  claim_stands w r = true ∧
  (bool_decide (a_action r = Some (py "saipen crew")) && (a_reason r =s "crew-converge") = true → healthy w = true) ∧
  (∀ action, a_action r = Some action → closable w action = true) ∧
  ((a_reason r =s "maintain") = true → idle_conformant w r = true).
Proof.
  intros Hok. unfold gate_route. rewrite first_answer_none_iff. unfold gates. rewrite !Forall_cons, Forall_nil.
  assert (reconcile_gate w r = None ↔ reconciled w = true) as ->.
  { unfold reconcile_gate, reconciled. rewrite Hok. destruct (w_reconciled w); cbn; [|done]. by destruct (_ || _). }
  assert (goal_checkpoint_gate w r = None ↔ ((a_reason r =s "goal-checkpoint") = true → checkpoint_proven w (a_authority r) = true)) as ->.
  { unfold goal_checkpoint_gate. destruct (_ =s _), (checkpoint_proven _ _); cbn; naive_solver. }
  assert (continuous_maintenance_gate w r = None ↔ claim_stands w r = true) as ->.
  { unfold continuous_maintenance_gate, claim_stands. rewrite Hok. cbn [andb]. by destruct (_ && _). }
  assert (conformance_crew_gate w r = None ↔
    (bool_decide (a_action r = Some (py "saipen crew")) && (a_reason r =s "crew-converge") = true → healthy w = true)) as ->.
  { unfold conformance_crew_gate, healthy. rewrite Hok. cbn [andb]. destruct (_ && _); cbn [negb]; [|naive_solver].
    destruct (w_conformance w) as [d|]; cbn; [|naive_solver]. destruct (cf_healthy d); naive_solver. }
  assert (closure_finish_gate w r = None ↔ (∀ action, a_action r = Some action → closable w action = true)) as ->.
  { unfold closure_finish_gate, closable. rewrite Hok. destruct (a_action r) as [a|]; [|naive_solver]. cbn [andb].
    destruct (startswith _ a) eqn:Es; cbn [negb]; [|by split; [intros _ ? [= <-]; rewrite Es|]].
    destruct (w_closure w (shipped_ticket a)) as [d|] eqn:Ed; [destruct (cr_ready d) eqn:Er|]; split; intros H; try done.
    - intros ? [= <-]. by rewrite Es, Ed.
    - specialize (H a eq_refl). rewrite Es, Ed in H. cbn in H. congruence.
    - specialize (H a eq_refl). by rewrite Es, Ed in H. }
  assert (conformance_idle_gate w r = None ↔ ((a_reason r =s "maintain") = true → idle_conformant w r = true)) as ->.
  { unfold conformance_idle_gate, idle_conformant. rewrite Hok. cbn [andb]. destruct (_ =s _); cbn [negb]; [|naive_solver].
    destruct (w_conformance w) as [d|]; cbn; [|naive_solver]. destruct (_ || _); naive_solver. }
  naive_solver.
Qed.

(** ** The answers of the router *)

Definition PICKS : list pystr := strs ["start"; "start-user-explicit"; "dependency-continuation"].

Lemma pick_named ts a n t p : pick_next_work ts a n = (Some t, p) → p ∈ PICKS.
Proof.
  unfold pick_next_work, pick_from_queue. destruct (reserved_continuation_child ts a n) as [c|].
  { intros [= _ <-]. by apply (bool_decide_unpack (py "dependency-continuation" ∈ PICKS)). }
  destruct (find_first _ _) as [u|].
  { intros [= _ <-]. by apply (bool_decide_unpack (py "start-user-explicit" ∈ PICKS)). }
  intros H. assert (p = py "start") as -> by (destruct (workable_tickets ts a n); [done|by injection H]).
  by apply (bool_decide_unpack (py "start" ∈ PICKS)).
Qed.

(** The reasons of the answers that are no success. *)
Definition refuses (c : reason) : bool :=
  match c with
  | CheckpointInvalid | StateMalformed | CapabilityInvalid | RecoveryConflict | RecoveryPending | BoardMalformed
  | BindingMismatch | BoardGraphInvalid => true
  | _ => false
  end.
(** What the reason says of the behavior. *)
Definition behavior_of (c : reason) : option behavior :=
  match c with
  | Bootstrap | ReadOnlyMode | WaitStop | Unblock | ForeignLive | QueuedSourceInvalid | OperatorGateDue | OperatorGateDeferred
  | GoalBlocked | AuditInboxInvalid | AuditInboxResidue | ImproveGate | AuditInboxUnworkable => Some RESTATE_AND_STOP
  | GoalCheckpoint => Some CHECKPOINT_AND_REROUTE
  | FutureGateRefresh => Some REFRESH_AND_REROUTE
  | FutureGateRefinement => Some REFINE_AND_REROUTE
  | FutureGatePromotion => Some PROMOTE_AND_SCOUT
  | _ => None
  end.

(** What the reason of an answer says of the rest of it. *)
Definition proper (r : route) : Prop :=
  r_ok r = negb (refuses (r_reason r)) ∧ r_behavior r = behavior_of (r_reason r) ∧
  match r_reason r with
  | Start p => p ∈ PICKS
  | CrewConverge => r_action r = py "saipen crew"
  | OperatorGateDue | OperatorGateDeferred | GoalBlocked | ImproveGate => r_action r = py "saipen status"
  | HuntContinue => r_action r = py "PHASE HUNT"
  | _ => True
  end.

Lemma rules_proper x st : Forall (λ o, ∀ r, o = Some r → proper r) (rules x st).
Proof.
  unfold rules. repeat (apply Forall_cons; split); [..|constructor]; intros r H.
  all: try (unfold_rule H; rule_cases H; done).
  unfold start_rule in H. destruct (active x); [done|]. destruct (pick_next_work _ _ _) as [[t|] p] eqn:E; [|done].
  injection H as <-. apply pick_named in E. by split_and!.
Qed.

Lemma route_next_cases (P : route → Prop) x :
  P (Route false "saipen recover" CheckpointInvalid None None Plain) → P (Route false "saipen recover" StateMalformed None None Plain) →
  (∀ st, in_state x = Ok st → P (maintain_rule x st) ∧ Forall (λ o, ∀ r, o = Some r → P r) (rules x st)) →
  P (route_next x).
Proof.
  intros H1 H2 H. unfold route_next. destruct (negb _); [done|]. destruct (in_state x) as [st|] eqn:Hst; [|done].
  destruct (H st eq_refl) as [Hm Hr]. destruct (first_answer (rules x st)) as [r|] eqn:E; [|done]. cbn.
  apply first_answer_Some in E as (n & Hn & _). rewrite Forall_lookup in Hr. by apply (Hr n _ Hn).
Qed.

Lemma route_proper x : proper (route_next x).
Proof. apply route_next_cases; [done..|]. intros st _. split; [done|apply rules_proper]. Qed.

Global Instance reason_eq_dec : EqDecision reason.
Proof. solve_decision. Defined.

(** A reason is told from its text. *)
Lemma reason_text_is r c :
  proper r → c ∈ [GoalCheckpoint; CrewConverge; Maintain; AuditInboxUnworkable] →
  (reason_text (r_reason r) =s reason_text c) = true ↔ r_reason r = c.
Proof.
  intros (_ & _ & Hp) Hc. rewrite !elem_of_cons in Hc. destruct (r_reason r) eqn:E.
  22: { change (pick ∈ [py "start"; py "start-user-explicit"; py "dependency-continuation"]) in Hp. rewrite !elem_of_cons in Hp. destruct Hp as [->|[->|[->|[]%elem_of_nil]]];
        destruct Hc as [->|[->|[->|[->|[]%elem_of_nil]]]]; by vm_compute. }
  all: destruct Hc as [->|[->|[->|[->|[]%elem_of_nil]]]]; by vm_compute.
Qed.

(** What the project must prove before the answer of the router is handed out. *)
Definition proved (w : world) (r : route) : bool :=
  reconciled w && closable w (r_action r)
  && match r_reason r with
     | GoalCheckpoint => checkpoint_proven w (a_authority (answer_of r))
     | CrewConverge => healthy w
     | AuditInboxUnworkable => claim_stands w (answer_of r)
     | Maintain => claim_stands w (answer_of r) && idle_conformant w (answer_of r)
     | _ => true
     end.

Lemma claim_elsewhere w r : proper r → r_reason r ≠ Maintain → r_reason r ≠ AuditInboxUnworkable → claim_stands w (answer_of r) = true.
Proof.
  intros Hp Hm Hu. unfold claim_stands, idle_boundary. cbn [answer_of a_reason].
  assert (mem (reason_text (r_reason r)) (strs ["maintain"; "audit-inbox-unworkable"]) = false) as ->; [|done].
  apply not_true_iff_false. intros [E|[E|[]%elem_of_nil]%elem_of_cons]%mem_true%elem_of_cons.
  - apply Hm. apply (reason_text_is r Maintain Hp); [by right; right; left|]. by apply bool_decide_eq_true.
  - apply Hu. apply (reason_text_is r AuditInboxUnworkable Hp); [by right; right; right; left|]. by apply bool_decide_eq_true.
Qed.

Lemma gate_route_proper w r : proper r → r_ok r = true → gate_route w (answer_of r) = None ↔ proved w r = true.
Proof.
  intros Hp Hok. rewrite gate_route_none by done. cbn [a_reason a_action answer_of].
  rewrite (reason_text_is r GoalCheckpoint Hp), (reason_text_is r Maintain Hp) by (rewrite !elem_of_cons; tauto).
  rewrite andb_true_iff, (reason_text_is r CrewConverge Hp), bool_decide_eq_true by (rewrite !elem_of_cons; tauto).
  assert ((∀ action, Some (r_action r) = Some action → closable w action = true) ↔ closable w (r_action r) = true) as -> by naive_solver.
  assert (Some (r_action r) = Some (py "saipen crew") ∧ r_reason r = CrewConverge ↔ r_reason r = CrewConverge) as ->.
  { split; [tauto|]. intros E. split; [|done]. destruct Hp as (_ & _ & Hp). rewrite E in Hp. by rewrite Hp. }
  pose proof (claim_elsewhere w r Hp) as Hc. unfold proved. rewrite !andb_true_iff.
  destruct (decide (r_reason r = Maintain)) as [E|Hm]; [rewrite E, andb_true_iff; intuition congruence|].
  destruct (decide (r_reason r = AuditInboxUnworkable)) as [E|Hu]; [rewrite E; intuition congruence|].
  specialize (Hc Hm Hu). destruct (r_reason r); intuition congruence.
Qed.

(** C22: The gates only withhold. An answer of the router is handed out as executable
    exactly when the router gave it as executable and the project proves what the
    gates ask for: that reconciliation refuses nothing, that a ticket sent to SHIP
    is ready to close, that the checkpoint of a persistent goal is granted and its
    budget spent, that crew work starts on healthy conformance evidence, and that an
    idle project neither claims a campaign it has no grant for nor leaves a failed
    conformance run. And what is handed out is then the answer itself. *)
Theorem delivered_exact w x :
  let r := route_next x in let a := effective w (answer_of r) in
  (a_ok a = true ↔ r_ok r = true ∧ proved w r = true) ∧ (a_ok a = true → a = answer_of r).
Proof.
  intros r a. split; [|intros H; by apply effective_ok]. split.
  - intros H. apply effective_ok in H as H'. destruct H' as [E Hn]. unfold a in H. rewrite E in H. change (r_ok r = true) in H.
    split; [done|]. by apply gate_route_proper; [apply route_proper|..].
  - intros [Hok Hp]. assert (gate_route w (answer_of r) = None) as Hn by (by apply gate_route_proper; [apply route_proper|..]).
    unfold a, effective. by rewrite Hn.
Qed.

(** A result is a success exactly when the gated answer is one and the phase it names
    has its document. *)
Theorem result_ok_exact phase_doc w r :
  rs_ok (route_next_result phase_doc w r) = true ↔
  a_ok (effective w (answer_of r)) = true ∧ ∀ load, phase_load r = Some load → phase_doc load = true.
Proof.
  unfold route_next_result, effective. destruct (phase_load r) as [load|].
  - destruct (phase_doc load) eqn:E; [|split; [done|intros [_ H]; by rewrite (H load eq_refl) in E]].
    destruct (gate_route w (answer_of r)) as [g|] eqn:Eg; cbn [rs_ok default from_option id]; [|naive_solver].
    split; [done|]. intros [Hg _]. assert (a_ok (effective w (answer_of r)) = true) as H by (unfold effective; by rewrite Eg).
    apply effective_ok in H as [_ H]. congruence.
  - destruct (gate_route w (answer_of r)) as [g|] eqn:Eg; cbn [rs_ok default from_option id]; [|naive_solver].
    split; [done|]. intros [Hg _]. assert (a_ok (effective w (answer_of r)) = true) as H by (unfold effective; by rewrite Eg).
    apply effective_ok in H as [_ H]. congruence.
Qed.

(** ** Concrete projects *)

Definition grant_lines (until : string) : list string :=
  ["blocker: none"; "execution_intent: goal"; "goal_waves: 0"; "goal_tickets: 0"; "continuation_authority: operator_persistent";
   "authority_source: SRC-7"; "authority_until: " ++ until; "safety_valve_mode: checkpoint"; "goal_ingress: goal-0123456789abcdef"]%string.
Definition campaign_state : pystr := state_lines "DONE" "none" "saipen continue" (grant_lines "continuous_maintenance").
Definition sample_conformance : conformance := Conformance true false None.
(** A project whose grant is not proved. *)
Definition unproved_world : world :=
  World (Some (parsed campaign_state)) [] false None (Some sample_conformance) (λ _, Some (Readiness true None)).
Definition proved_world : world :=
  World (Some (parsed campaign_state)) [] true None (Some sample_conformance) (λ _, Some (Readiness true None)).

Definition campaign_inputs (todo blocked : list string) : inputs :=
  inputs_of campaign_state (board_lines [] todo [] blocked) [] None None.
Definition held_board : list string := ["- [ ] T-3 wait for the vendor | blocker: EXTERNAL: vendor"].

Lemma sample_campaign :
  let r := answer_of (route_next (campaign_inputs [] held_board)) in
  (a_reason <$> gate_route unproved_world r, a_reason <$> gate_route proved_world r)
  = (Some (py "continuous-maintenance-unproven"), None).
Proof. vm_compute. reflexivity. Qed.

(** A claim without a grant is refused on a held board and stands on a complete one:
    the gate looks at one of the two stops of the idle answer. *)
Lemma unproven_claim_stands_when_complete :
  let r := answer_of (route_next (campaign_inputs [] [])) in
  (a_reason r, a_action (effective unproved_world r), a_ok (effective unproved_world r))
  = (py "maintain", Some (py "saipen continue"), true) ∧ unproven_claim unproved_world = true.
Proof. split; vm_compute; reflexivity. Qed.
