(* ===== verification/Assessment.v ===== *)
(** * The continuation assessment

    [tools/saipen_engine/continuation_assessment.py]: the gated answer of the router
    on a closed vocabulary of fourteen classifications, which the worker supervisor
    and the iteration verdict read. *)

From S2P Require Import Prelude PyStr PyStrFacts PyDict Phases BoardParse BoardClaims BoardGraph BoardBlockers.
From S2P Require Import Ownership StateDoc StateWait StateContract AuditInbox Router RouterFacts Gates GateFacts.

(** ** The vocabulary *)

Inductive continuation : Type :=
  | ACTIVE_WORK | QUEUED_WORK | RECOVERY_AVAILABLE | AUDIT_AVAILABLE | SOURCE_AVAILABLE | DISCOVERY_AVAILABLE
  | MAINTENANCE_AVAILABLE | QUIESCENT | WAIT_EXTERNAL | WAIT_OPERATOR | WAIT_AUTHORITY | SAFETY_STOP
  | CONFORMANCE_STOP | INVALID_RUNTIME.
Global Instance continuation_eq_dec : EqDecision continuation.
Proof. solve_decision. Defined.

Definition EXECUTABLE_CLASSIFICATIONS : list continuation :=
  [ACTIVE_WORK; QUEUED_WORK; RECOVERY_AVAILABLE; AUDIT_AVAILABLE; SOURCE_AVAILABLE; DISCOVERY_AVAILABLE; MAINTENANCE_AVAILABLE].
Definition HUMAN_BOUNDARY_CLASSIFICATIONS : list continuation := [WAIT_OPERATOR; WAIT_AUTHORITY; SAFETY_STOP; CONFORMANCE_STOP].

(** The texts of [detail] are left out; the routes themselves travel beside. *)
Record assessment : Type := Assessment {
  as_class : continuation;
  as_action : option pystr;
  as_reason : pystr;
  as_ticket : option pystr;
  as_proven : bool;
  as_claimed : bool;
  as_operator_work : list pystr;
}.

Definition actionable (a : assessment) : bool := bool_decide (as_class a ∈ EXECUTABLE_CLASSIFICATIONS).
Definition requires_human (a : assessment) : bool := bool_decide (as_class a ∈ HUMAN_BOUNDARY_CLASSIFICATIONS).
Definition quiescent (a : assessment) : bool := bool_decide (as_class a = QUIESCENT).
(** [(action or ticket) if actionable else None] *)
Definition executable_work (a : assessment) : option pystr :=
  if actionable a then match given (as_action a) with Some s => Some s | None => as_ticket a end else None.

(** ** The classification *)

Section classify.
(** The world of the gates, whether the project is the home of the protocol, and the
    state the router read. *)
Context (w : world) (protocol_home : bool) (state : fields).

Definition cm_claimed : bool := is_continuous_maintenance state.
Definition cm_proven : bool := continuous_maintenance_proven w state.
Definition at_safety_valve : bool := bool_decide (parse_wait (dget (py "next_action") state) = Some (py "safety valve")).
Definition protocol_home_checkpoint : bool :=
  str_is (dget (py "execution_intent") state) (py "goal") && at_safety_valve && protocol_home.
Definition external_blocker : bool := contains "EXTERNAL" (upper (text_or_empty (dget (py "blocker") state))).

(** [action or fallback] *)
Definition or_else (action : option pystr) (fallback : pystr) : option pystr := Some (default fallback (given action)).
Definition plain (c : continuation) (action : option pystr) (reason : pystr) : assessment :=
  Assessment c action reason None false false [].
Definition with_ticket (c : continuation) (r : answer) : assessment :=
  Assessment c (a_action r) (a_reason r) (a_ticket r) false false [].
Definition as_is (c : continuation) (r : answer) : assessment := plain c (a_action r) (a_reason r).
Definition campaign (reason : pystr) : assessment :=
  Assessment MAINTENANCE_AVAILABLE (Some (py "saipen continue")) reason None true cm_claimed [].

Definition refused_assessment (r : answer) : assessment :=
  let reason := a_reason r in
  let code := default [] (a_code r) in
  if (code =s "CONTINUATION_AUTHORITY_UNPROVEN") || (reason =s "continuous-maintenance-unproven") then
    Assessment WAIT_AUTHORITY (a_action r) reason None false cm_claimed []
  else if mem reason (strs ["recovery-pending"; "recovery-conflict"]) || mem code (strs ["RECOVERY_REQUIRED"; "RECOVERY_CONFLICT"]) then
    plain RECOVERY_AVAILABLE (or_else (a_action r) "saipen recover") reason
  else if mem code (strs ["CONFORMANCE_UNHEALTHY"; "CONFORMANCE_UNKNOWN"])
          || mem reason (strs ["conformance-remediation"; "conformance-unhealthy"; "conformance-unknown"]) then
    plain CONFORMANCE_STOP (or_else (a_action r) "saipen validate") reason
  else if mem reason (strs ["reconcile-decision"; "reconcile-refused"]) || startswith "RECONCILE_" code then as_is WAIT_OPERATOR r
  else if code =s "CLOSURE_NOT_READY" then with_ticket ACTIVE_WORK r
  else plain INVALID_RUNTIME (or_else (a_action r) "saipen status") (default (py "validation-failed") (some_text reason)).

(** The idle boundary, outside a campaign. *)
Definition idle_assessment (r : answer) : assessment :=
  let idle_cls := default [] (a_idle r) in
  let blocker_class := default [] (gr_class <$> a_blocker r) in
  let status c := plain c (or_else (a_action r) "saipen status") (a_reason r) in
  if cm_proven then campaign (a_reason r)
  else if cm_claimed then
    Assessment WAIT_AUTHORITY (Some (py "saipen status")) (py "continuous-maintenance-unproven") None false true []
  else if contains "OPERATOR" idle_cls then status WAIT_OPERATOR
  else if contains "EXTERNAL" idle_cls then status WAIT_EXTERNAL
  else if idle_cls =s "IDLE_FUTURE_GATED" then status QUIESCENT
  else if bool_decide (a_stop_reason r = Some (py "ALL_REQUIREMENTS_COMPLETE")) || (idle_cls =s "ALL_WORK_COMPLETE") then
    plain QUIESCENT (Some (py "saipen status")) (a_reason r)
  else if contains "OPERATOR" blocker_class || contains "USER" blocker_class then status WAIT_OPERATOR
  else if contains "EXTERNAL" blocker_class then status WAIT_EXTERNAL
  else status QUIESCENT.

Definition _classify_effective_route (r : answer) : assessment :=
  let reason := a_reason r in
  if negb (a_ok r) then refused_assessment r
  else if reason =s "read-only-mode" then as_is WAIT_AUTHORITY r
  else if reason =s "bootstrap" then as_is INVALID_RUNTIME r
  else if reason =s "wait" then
    if at_safety_valve then
      if persistent state || protocol_home_checkpoint then
        Assessment MAINTENANCE_AVAILABLE (or_else (a_action r) "saipen continue") reason None cm_proven cm_claimed []
      else as_is SAFETY_STOP r
    else as_is WAIT_OPERATOR r
  else if reason =s "unblock" then
    if external_blocker then if cm_proven then campaign "maintain" else as_is WAIT_EXTERNAL r
    else as_is WAIT_OPERATOR r
  else if reason =s "goal-checkpoint" then plain ACTIVE_WORK (or_else (a_action r) "saipen continue") reason
  else if reason =s "unprojected-source-append" then as_is SOURCE_AVAILABLE r
  else if reason =s "foreign-live" then as_is WAIT_OPERATOR r
  else if reason =s "adopt" then with_ticket ACTIVE_WORK r
  else if mem reason (strs ["finish"; "markhunt-continue"; "finish-at-ship"]) then with_ticket ACTIVE_WORK r
  else if reason =s "queued-source" then as_is SOURCE_AVAILABLE r
  else if reason =s "crew-converge" then as_is ACTIVE_WORK r
  else if (reason =s "audit-inbox") || bool_decide (a_action r = Some (py "saipen audit ingest")) then with_ticket AUDIT_AVAILABLE r
  else if mem reason (strs ["start"; "start-user-explicit"; "dependency-continuation"])
          || startswith "PHASE SCOUT" (default [] (a_action r)) then with_ticket QUEUED_WORK r
  else if reason =s "operator-gate-due" then Assessment WAIT_OPERATOR (a_action r) reason None false false (a_due r)
  else if reason =s "operator-gate-deferred" then as_is WAIT_OPERATOR r
  else if reason =s "goal-blocked" then if cm_proven then campaign "maintain" else as_is WAIT_EXTERNAL r
  else if reason =s "audit-inbox-invalid" then as_is INVALID_RUNTIME r
  else if mem reason (strs ["future-gate-refresh"; "future-gate-refinement"; "future-gate-promotion"]) then as_is DISCOVERY_AVAILABLE r
  else if reason =s "improve-gate" then with_ticket WAIT_OPERATOR r
  else if mem reason (strs ["maintain"; "audit-inbox-unworkable"]) then idle_assessment r
  else plain QUIESCENT (or_else (a_action r) "saipen status") (default (py "quiescent") (some_text reason)).
End classify.

(** ** The assessment of a project *)

Definition UPDATED_LINE : pystr := [10%N] +s "updated: '2026-01-01T00:00:00Z'" +s [10%N] +s "---".
(** [state_text.replace("\n---", ..., 1)] *)
Definition with_updated (text : pystr) : option pystr :=
  match partition ([10%N] +s "---") text with
  | (head, Some tail) => Some (head ++ UPDATED_LINE ++ tail)
  | (_, None) => None
  end.

Definition lacks_updated (p : state_problem) : bool :=
  match p with Violates errors => existsb (λ e, match e with Missing k => k =s "updated" | _ => false end) errors | _ => false end.

(** The state, or else the state with the field [updated] put in when that is what it
    lacks. *)
Definition assessed_state (home : install) (text : pystr) : res state_problem fields :=
  match parse_state_or_error home text with
  | Err p =>
      match (if lacks_updated p then with_updated text else None) with
      | Some fixed => match parse_state_or_error home fixed with Ok ((_ :: _) as fs) => Ok fs | _ => Err p end
      | None => Err p
      end
  | Ok fs => Ok fs
  end.

(** The projections the router is given. *)
Record projections : Type := Projections {
  pj_checkpoint : list pystr;
  pj_pending : list pystr;
  pj_conflicts : list pystr;
  pj_inbox : option inbox;
  pj_queued : option queued_source;
  pj_append : option pending_append;
  pj_gate : option future_gate;
}.

(** [None] for a document that cannot be read. *)
Definition assess_continuation (home : install) (w : world) (protocol_home : bool) (state_text board_text : option pystr)
    (p : projections) (now : Z) (capability agent : option pystr) : assessment :=
  match state_text, board_text with
  | Some state_text, Some board_text =>
      match assessed_state home state_text with
      | Err _ | Ok [] => plain INVALID_RUNTIME None "state-malformed"
      | Ok state =>
          let board := parse_board board_text in
          match b_errors board with
          | _ :: _ => plain INVALID_RUNTIME (Some (py "saipen status")) "board-malformed"
          | [] =>
              let raw := route_next (Inputs (Ok state) board (pj_checkpoint p) (pj_pending p) (pj_conflicts p) now capability agent
                                       (pj_inbox p) (pj_queued p) (pj_append p) (pj_gate p)) in
              _classify_effective_route w protocol_home state (effective w (answer_of raw))
          end
      end
  | _, _ => plain INVALID_RUNTIME (Some (py "saipen recover")) "checkpoint-unreadable"
  end.

(** ** What an assessment says of the route *)

(** The two texts of an action that are classified before most reasons. *)
Definition diverted (action : pystr) : bool :=
  bool_decide (action = py "saipen audit ingest") || startswith "PHASE SCOUT" action.

(** Decide the comparisons of closed texts. *)
Ltac closed_texts :=
  repeat match goal with
  | |- context [py ?a =s py ?b] => let v := eval vm_compute in (py a =s py b) in change (py a =s py b) with v
  | |- context [bool_decide (py ?a = py ?b)] =>
      let v := eval vm_compute in (bool_decide (py a = py b)) in change (bool_decide (py a = py b)) with v
  | |- context [startswith (py ?a) (py ?b)] =>
      let v := eval vm_compute in (startswith (py a) (py b)) in change (startswith (py a) (py b)) with v
  | |- context [mem (py ?a) (strs ?l)] => let v := eval vm_compute in (mem (py a) (strs l)) in change (mem (py a) (strs l)) with v
  end; cbv iota.

Lemma some_decide (a b : pystr) : bool_decide (Some a = Some b) = bool_decide (a = b).
Proof. apply bool_decide_ext. naive_solver. Qed.

Section exact.
Context (w : world) (protocol_home : bool) (state : fields).

(** The answers that leave work for the agent. *)
Definition leaves_work (r : route) : bool :=
  match r_reason r with
  | GoalCheckpoint | UnprojectedAppend | Adopt | Finish | MarkhuntContinue | QueuedSourceStart | CrewConverge | AuditInboxRoute
  | Start _ | FutureGateRefresh | FutureGateRefinement | FutureGatePromotion => true
  | WaitStop => at_safety_valve state && (persistent state || protocol_home_checkpoint protocol_home state)
  | Unblock => external_blocker state && cm_proven w state
  | GoalBlocked => cm_proven w state
  | Maintain | AuditInboxUnworkable => diverted (r_action r) || cm_proven w state
  | QueuedSourceInvalid | AuditInboxInvalid | AuditInboxResidue => diverted (r_action r)
  | _ => false
  end.

(** A refusal that names mechanical work: recovery, or the way to closure. *)
Definition names_recovery (a : answer) : bool :=
  mem (a_reason a) (strs ["recovery-pending"; "recovery-conflict"])
  || mem (default [] (a_code a)) (strs ["RECOVERY_REQUIRED"; "RECOVERY_CONFLICT"]).
Definition names_closure (a : answer) : bool := a_reason a =s "closure-not-ready".

(** The human boundaries among the successful answers. *)
Definition waits_for_human (r : route) : bool :=
  match r_reason r with
  | ReadOnlyMode | ForeignLive | OperatorGateDue | OperatorGateDeferred | ImproveGate => true
  | WaitStop => negb (at_safety_valve state && (persistent state || protocol_home_checkpoint protocol_home state))
  | Unblock => negb (external_blocker state)
  | _ => false
  end.

Lemma idle_class a : actionable (idle_assessment w state a) = cm_proven w state.
Proof.
  unfold idle_assessment. destruct (cm_proven w state); [done|]. destruct (cm_claimed state); [done|].
  by repeat (match goal with |- context [if ?c then _ else _] => destruct c end; try done).
Qed.

Lemma classify_ok r :
  proper r → r_ok r = true →
  actionable (_classify_effective_route w protocol_home state (answer_of r)) = leaves_work r.
Proof.
  intros (Hok & _ & Hp) Hr. unfold _classify_effective_route, leaves_work. cbn [answer_of a_ok a_reason a_action]. rewrite Hr. cbn [negb].
  rewrite Hr in Hok. destruct (r_reason r) eqn:E; cbn [refuses negb] in Hok; try discriminate Hok; cbn [reason_text].
  all: try (change (pick ∈ [py "start"; py "start-user-explicit"; py "dependency-continuation"]) in Hp; rewrite !elem_of_cons in Hp;
            destruct Hp as [->|[->|[->|[]%elem_of_nil]]]).
  all: try rewrite Hp; try reflexivity; unfold diverted; rewrite ?some_decide; cbn [default from_option id]; closed_texts; cbn [orb].
  all: repeat match goal with
       | |- context [bool_decide (r_action ?x = ?t)] => destruct (bool_decide (r_action x = t))
       | |- context [startswith ?t (r_action ?x)] => destruct (startswith t (r_action x))
       end; cbn [orb]; try reflexivity; try apply idle_class.
  all: repeat match goal with |- context [if ?c then _ else _] => destruct c end; reflexivity.
Qed.
(** What is made of a refusal. *)
Definition refusal_work (a : answer) (s : assessment) : Prop :=
  actionable s = names_recovery a || names_closure a ∧
  (names_recovery a = true → as_class s = RECOVERY_AVAILABLE) ∧ (names_closure a = true → as_class s = ACTIVE_WORK).

(** The refusal of a reconciliation carries the code of the reconciliation. *)
Lemma reconcile_refusal code reason action command operator :
  reason = py "reconcile-decision" ∨ reason = py "reconcile-refused" →
  refusal_work (refusal code reason action command operator)
    (_classify_effective_route w protocol_home state (refusal code reason action command operator)).
Proof.
  intros Hr. unfold refusal_work, names_recovery, names_closure, _classify_effective_route, refused_assessment, refusal.
  cbn [a_ok a_reason a_code a_action negb default from_option id].
  assert ((reason =s "continuous-maintenance-unproven") = false ∧ mem reason (strs ["recovery-pending"; "recovery-conflict"]) = false ∧
    mem reason (strs ["conformance-remediation"; "conformance-unhealthy"; "conformance-unknown"]) = false ∧
    mem reason (strs ["reconcile-decision"; "reconcile-refused"]) = true ∧ (reason =s "closure-not-ready") = false) as (-> & -> & -> & -> & ->)
    by (destruct Hr as [-> | ->]; vm_compute; done).
  cbn [orb]. destruct (code =s "CONTINUATION_AUTHORITY_UNPROVEN") eqn:E.
  { apply eqs_true in E as ->. by vm_compute. }
  cbn [orb]. destruct (mem code (strs ["RECOVERY_REQUIRED"; "RECOVERY_CONFLICT"])); [done|].
  by destruct (mem code (strs ["CONFORMANCE_UNHEALTHY"; "CONFORMANCE_UNKNOWN"])).
Qed.

Lemma gate_refusals r :
  Forall (λ o, ∀ r', o = Some r' → refusal_work r' (_classify_effective_route w protocol_home state r')) (gates w (answer_of r)).
Proof.
  unfold gates. repeat (apply Forall_cons; split); [..|constructor]; intros r' H.
  { unfold reconcile_gate in H. cbv zeta in H. destruct (negb _); [done|]. destruct (w_reconciled w) as [v|]; [|done].
    destruct (_ || _) in H; [done|]. injection H as <-. apply reconcile_refusal. destruct (_ && _); auto. }
  all: unfold goal_checkpoint_gate, continuous_maintenance_gate, conformance_crew_gate, closure_finish_gate,
    conformance_idle_gate in H.
  all: cbv beta zeta in H; repeat match type of H with match ?c with _ => _ end = Some _ => destruct c end; try discriminate H;
    injection H as <-; by vm_compute.
Qed.

Lemma refused_stays r : r_ok r = false → r_reason r ≠ GoalCheckpoint → proper r → effective w (answer_of r) = answer_of r.
Proof.
  intros Hr Hg Hp. unfold effective. assert (gate_route w (answer_of r) = None) as ->; [|done].
  apply first_answer_none_iff. unfold gates.
  assert ((reason_text (r_reason r) =s "goal-checkpoint") = false) as Hn.
  { apply not_true_iff_false. intros E. apply Hg. by apply (reason_text_is r GoalCheckpoint Hp); [left|]. }
  repeat apply Forall_cons_2; try apply Forall_nil_2.
  all: unfold reconcile_gate, goal_checkpoint_gate, continuous_maintenance_gate, conformance_crew_gate, closure_finish_gate,
    conformance_idle_gate; cbn [answer_of a_ok a_action a_reason]; by rewrite ?Hr, ?Hn.
Qed.

Lemma classify_raw_refusal r :
  proper r → r_ok r = false →
  refusal_work (answer_of r) (_classify_effective_route w protocol_home state (answer_of r)) ∧
  (names_recovery (answer_of r) = true ↔ r_reason r = RecoveryPending ∨ r_reason r = RecoveryConflict) ∧
  names_closure (answer_of r) = false.
Proof.
  intros (Hok & _ & _) Hr. unfold refusal_work, names_recovery, names_closure, _classify_effective_route, refused_assessment. cbn [answer_of a_ok a_reason a_code a_action]. rewrite Hr.
  rewrite Hr in Hok. destruct (r_reason r); cbn [refuses negb] in Hok; try discriminate Hok; cbn [reason_text]; vm_compute; naive_solver.
Qed.

Lemma classify_refused r :
  proper r → a_ok (effective w (answer_of r)) = false →
  refusal_work (effective w (answer_of r)) (_classify_effective_route w protocol_home state (effective w (answer_of r))).
Proof.
  intros Hp. unfold effective. destruct (gate_route w (answer_of r)) as [r'|] eqn:E; cbn [default from_option id].
  - intros _. apply first_answer_Some in E as (n & Hn & _). pose proof (gate_refusals r) as HF. rewrite Forall_lookup in HF.
    by apply (HF n _ Hn).
  - intros Hr. by apply classify_raw_refusal.
Qed.
End exact.

(** C23: Actionable is what leaves work. An executable answer of the router is assessed as
    actionable exactly by the rules of [leaves_work], which also let through a pause at
    the safety valve that a checkpoint may lift, a held, blocked or idle project with a
    proven campaign, and an idle or restated answer whose action is worded like audit
    intake or like the start of a ticket; so every executable answer that does not
    restate and stop, but a hunt and an idle answer, is actionable. A refusal of the
    router is actionable exactly when it asks for recovery. And a refusal of any kind
    is actionable exactly when it names recovery, and is then RECOVERY_AVAILABLE, or
    names the way to closure, and is then ACTIVE_WORK. *)
Theorem actionable_exact w protocol_home state x :
  let r := route_next x in
  let a := effective w (answer_of r) in
  let s := _classify_effective_route w protocol_home state a in
  (a_ok a = true → actionable s = leaves_work w protocol_home state r) ∧
  (a_ok a = true → r_behavior r ≠ Some RESTATE_AND_STOP → r_reason r ≠ HuntContinue → r_reason r ≠ Maintain → actionable s = true) ∧
  (r_ok r = false → (actionable s = true ↔ r_reason r = RecoveryPending ∨ r_reason r = RecoveryConflict)) ∧
  (a_ok a = false → refusal_work a s).
Proof.
  intros r a s. pose proof (route_proper x) as Hp. fold r in Hp.
  assert (a_ok a = true → actionable s = leaves_work w protocol_home state r) as Hw.
  { intros Ha. destruct (effective_ok _ _ Ha) as [E _]. unfold s, a in *. rewrite E in *. by apply classify_ok. }
  split_and!; [exact Hw| | |intros Ha; by apply classify_refused].
  - intros Ha Hb Hh Hm. rewrite (Hw Ha). destruct (effective_ok _ _ Ha) as [E _]. unfold a in Ha. rewrite E in Ha.
    change (r_ok r = true) in Ha. destruct Hp as (Hok & Hbe & _). rewrite Ha in Hok. rewrite Hbe in Hb.
    unfold leaves_work. destruct (r_reason r); cbn in *; congruence.
  - intros Hr. unfold s, a. rewrite refused_stays; [|done| |done].
    + destruct (classify_raw_refusal w protocol_home state r Hp Hr) as ((-> & _) & <- & ->). by rewrite orb_false_r.
    + intros E. destruct Hp as (Hok & _ & _). rewrite E, Hr in Hok. done.
Qed.

(** ** Concrete projects *)

Definition quiet : projections := Projections [] [] [] None None None None.
Definition sound_world (state : pystr) : world :=
  World (Some (parsed state)) [] false None (Some sample_conformance) (λ _, Some (Readiness true None)).
Definition assess_sample (state board : pystr) (p : projections) : assessment :=
  assess_continuation sample_install (sound_world state) false (Some state) (Some board) p noon (Some (py "full")) (Some (py "alpha")).
Definition verdict_of (a : assessment) : continuation * option pystr := (as_class a, executable_work a).

Lemma sample_assessments :
  (verdict_of (assess_sample building_state building_board quiet),
   verdict_of (assess_sample building_state building_board (Projections [] [py "op-1"] [] None None None None)),
   verdict_of (assess_sample braked_state building_board quiet),
   verdict_of (assess_sample done_state (board_lines [] [] ["- [x] T-1 built"] []) quiet))
  = ((ACTIVE_WORK, Some (py "PHASE BUILD T-1")), (RECOVERY_AVAILABLE, Some (py "saipen recover")), (WAIT_EXTERNAL, None),
     (QUIESCENT, None)).
Proof. vm_compute. reflexivity. Qed.

Lemma actionable_exact_witness :
  actionable (_classify_effective_route (sound_world building_state) false (parsed building_state)
                (effective (sound_world building_state) (answer_of (route_next (inputs_of building_state building_board [] None None))))) = true.
Proof.
  pose proof (actionable_exact (sound_world building_state) false (parsed building_state)
                (inputs_of building_state building_board [] None None)) as [H _].
  assert (a_ok (effective (sound_world building_state) (answer_of (route_next (inputs_of building_state building_board [] None None)))) = true)
    as Ha by (vm_compute; reflexivity).
  specialize (H Ha). etransitivity; [exact H|]. vm_compute. reflexivity.
Defined.

(** ** Where code and documents part *)

(** A persisted [saipen audit ingest] that the idle answer echoes is assessed as audit
    work, with no audit in the inbox. *)
Lemma echoed_ingest_is_work :
  verdict_of (assess_sample (state_lines "DONE" "none" "saipen audit ingest" ["blocker: none"]) (board_lines [] [] [] []) quiet)
  = (AUDIT_AVAILABLE, Some (py "saipen audit ingest")).
Proof. vm_compute. reflexivity. Qed.

(** An open hunt, which the router continues, is assessed as quiescent. *)
Lemma open_hunt_is_quiescent :
  let state := state_lines "HUNT" "none" "PHASE HUNT" ["blocker: none"] in
  let r := sample_route state (board_lines [] [] [] []) None None in
  (r_reason r, r_behavior r, r_action r) = (HuntContinue, None, py "PHASE HUNT") ∧
  verdict_of (assess_sample state (board_lines [] [] [] []) quiet) = (QUIESCENT, None).
Proof. split; vm_compute; reflexivity. Qed.

(** A state without [updated], which the router refuses to read, is assessed with an
    invented value. *)
Definition undated_state : pystr :=
  join [10%N]
    (strs ["---"; "phase: BUILD"; "task: T-1"; "next_action: 'PHASE BUILD T-1'"; "agent: alpha"; "saipen_version: 3"; "mode: full";
           "transition_from: SCOUT"; "blocker: none"; "---"; "boundary"]).

Lemma undated_state_is_assessed :
  r_reason (sample_route undated_state building_board None None) = StateMalformed ∧
  verdict_of (assess_sample undated_state building_board quiet) = (ACTIVE_WORK, Some (py "PHASE BUILD T-1")).
Proof. split; vm_compute; reflexivity. Qed.
