(* ===== verification/Watchdog.v ===== *)
(** * The mutation lease

    [tools/saipen_engine/watchdog.py]: the lease under which one worker at a time may
    mutate, its health, its fenced generations, and the claims a successor may
    continue. The JSON file is modelled by what it holds, a stamp by its instant in
    microseconds; [None] is a file that is missing or cannot be parsed. *)

From S2P Require Import Prelude PyStr PyStrFacts PyDict BoardClock BoardParse BoardClaims StateDoc StateWait.

Module Health.
Inductive state : Type := HEALTHY | SUSPECT | EXPIRED | TERMINAL | UNKNOWN.
Global Instance state_eq_dec : EqDecision state.
Proof. solve_decision. Defined.
End Health.

(** What binds a run to the project. *)
Record binding : Type := Binding { bd_run : option pystr; bd_root : option pystr; bd_lineage : option pystr }.
Definition no_binding : binding := Binding None None None.

Record fenced_record : Type := Fenced {
  fr_worker : option pystr;
  fr_generation : option Z;
  fr_binding : binding;
  fr_fenced_at : option Z;
}.

Record lease : Type := Lease {
  l_worker : pystr;
  l_generation : Z;
  l_heartbeat : Z;
  l_status : pystr;
  l_binding : binding;
  l_fenced_at : option Z;
  l_fenced : list fenced_record;
}.

Inductive lease_error : Type := LIVE_LEASE_PRESENT | UNKNOWN_LEASE | FENCED_LEASE_GENERATION.

Abbreviation store := (option lease).

(** A lease of no generation, or of no worker, is no lease. *)
Definition _load (f : store) : option lease :=
  match f with
  | Some l => if (1 <=? l_generation l)%Z && nonempty (strip (l_worker l)) then Some l else None
  | None => None
  end.

Definition second : Z := 1000000.
(** [_utc]: the stamp drops the fraction of the second. *)
Definition _utc (now : Z) : Z := (now / second * second)%Z.

Definition _is_fenced (l : lease) : bool := (l_status l =s "EXPIRED") && bool_decide (is_Some (l_fenced_at l)).

Definition SUSPECT_AFTER : Z := (30 * second)%Z.
Definition EXPIRE_AFTER : Z := (120 * second)%Z.

Definition age_at (l : lease) (now : Z) : Z := Z.max 0 (now - l_heartbeat l).

Definition health_of (l : lease) (now suspect_after expire_after : Z) : Health.state :=
  if l_status l =s "TERMINAL" then Health.TERMINAL
  else if _is_fenced l then Health.EXPIRED
  else if (expire_after <=? age_at l now)%Z then Health.EXPIRED
  else if (suspect_after <=? age_at l now)%Z then Health.SUSPECT
  else Health.HEALTHY.

Record WatchdogStatus : Type := Status {
  ws_state : Health.state;
  ws_worker : option pystr;
  ws_generation : option Z;
  ws_age : option Z;
}.
Definition observe_lease (f : store) (now suspect_after expire_after : Z) : WatchdogStatus :=
  match _load f with
  | None => Status Health.UNKNOWN None None None
  | Some l => Status (health_of l now suspect_after expire_after) (Some (l_worker l)) (Some (l_generation l)) (Some (age_at l now))
  end.
Definition health (f : store) (now : Z) : Health.state := ws_state (observe_lease f now SUSPECT_AFTER EXPIRE_AFTER).

(** ** The operations: the new content of the file, or the exception *)

Definition acquire_lease (f : store) (worker : pystr) (now : Z) (b : binding) : res lease_error lease :=
  let fresh generation fenced := Lease worker generation (_utc now) "HEALTHY" b None fenced in
  match _load f with
  | None => Ok (fresh 1%Z [])
  | Some l =>
      match health f now with
      | Health.HEALTHY | Health.SUSPECT => Err LIVE_LEASE_PRESENT
      | _ => Ok (fresh (l_generation l + 1)%Z (l_fenced l))
      end
  end.

(** The lease an operation of a worker is about. *)
Definition held (f : store) (worker : pystr) (generation : Z) : res lease_error lease :=
  match _load f with
  | None => Err UNKNOWN_LEASE
  | Some l => if (l_worker l =s worker) && (l_generation l =? generation)%Z then Ok l else Err FENCED_LEASE_GENERATION
  end.

Definition beat (l : lease) (now : Z) : lease :=
  Lease (l_worker l) (l_generation l) (_utc now) "HEALTHY" (l_binding l) (l_fenced_at l) (l_fenced l).
Definition heartbeat (f : store) (worker : pystr) (generation now : Z) : res lease_error lease :=
  l ← held f worker generation;
  if _is_fenced l then Err FENCED_LEASE_GENERATION else Ok (beat l now).

Definition names_generation (generation : Z) (r : fenced_record) : bool := bool_decide (fr_generation r = Some generation).
Definition fence (f : store) (worker : pystr) (generation now : Z) : res lease_error lease :=
  l ← held f worker generation;
  let fenced_at := default (_utc now) (l_fenced_at l) in
  let records :=
    if existsb (names_generation generation) (l_fenced l) then l_fenced l
    else l_fenced l ++ [Fenced (Some (l_worker l)) (Some (l_generation l)) (l_binding l) (Some fenced_at)] in
  Ok (Lease (l_worker l) (l_generation l) (l_heartbeat l) "EXPIRED" (l_binding l) (Some fenced_at) records).

Definition mutation_allowed (f : store) (worker : pystr) (generation now : Z) : bool :=
  match _load f with
  | None => false
  | Some l => bool_decide (health f now = Health.HEALTHY) && (l_worker l =s worker) && (l_generation l =? generation)%Z
  end.

(** [replace_worker] of [supervisor.py]: fence the dead generation, then acquire its
    successor. *)
Inductive replaced : Type :=
  | LiveLease | AmbiguousAuthority | ReplaceFailed (e : lease_error) (f : store) | Replaced (l : lease).
Definition replace_worker (f : store) (worker : pystr) (now suspect_after expire_after : Z) (b : binding) : replaced :=
  let status := observe_lease f now suspect_after expire_after in
  match ws_state status, ws_worker status, ws_generation status with
  | (Health.HEALTHY | Health.SUSPECT), _, _ => LiveLease
  | (Health.EXPIRED | Health.TERMINAL), Some old, Some generation =>
      match fence f old generation now with
      | Err e => ReplaceFailed e f
      | Ok l => match acquire_lease (Some l) worker now b with
                | Err e => ReplaceFailed e (Some l)
                | Ok l' => Replaced l'
                end
      end
  | _, _, _ => AmbiguousAuthority
  end.

(** ** Claims a successor continues *)

(** The witnesses a worker presents; a presented root is resolved already. *)
Record carrier : Type := Carrier { ca_run : pystr; ca_worker : pystr; ca_generation : pystr; ca_root : option pystr; ca_lineage : option pystr }.

(** [str.isdecimal] and [int] of a text, for a generation. *)
Definition decimal (s : pystr) : option Z :=
  if nonempty s && forallb is_digit s then Some (Z.of_N (int_of s)) else None.

(** [expected] is the binding of the project and the run presented. *)
Definition current_carrier (f : store) (expected : binding) (c : carrier) (now : Z) : option lease :=
  if negb (nonempty (ca_run c) && nonempty (ca_worker c)) then None
  else match decimal (ca_generation c) with
       | None => None
       | Some generation =>
           let presented (v expected : option pystr) := match v with Some _ => bool_decide (v = expected) | None => true end in
           if negb (bool_decide (is_Some (bd_run expected)) && presented (ca_root c) (bd_root expected)
                    && presented (ca_lineage c) (bd_lineage expected)) then None
           else match _load f with
                | Some l =>
                    if bool_decide (bd_run (l_binding l) = bd_run expected) && bool_decide (bd_root (l_binding l) = bd_root expected)
                       && bool_decide (bd_lineage (l_binding l) = bd_lineage expected)
                       && mutation_allowed f (ca_worker c) generation now
                    then Some l else None
                | None => None
                end
       end.

Definition CORRIDOR : list pystr := strs ["SCOUT"; "BUILD"; "VERIFY"; "REVIEW"; "SHIP"].

(** The state allows the ticket to go on. *)
Definition state_continues (state : option fields) (tid : pystr) : bool :=
  match state with
  | None => false
  | Some st =>
      str_is (dget (py "task") st) tid
      && match dget (py "phase") st with Some (Scalar (SStr p)) => mem p CORRIDOR | _ => false end
      && negb (str_is (dget (py "mode") st) "read-only")
      && bool_decide (binding_brake st false = None)
  end.

(** [current] is the carrier proved, [session] the binding of this session, [state]
    the state as read, [now] the clock of the claim. *)
Definition can_continue_claim (current : option lease) (session : option pystr) (state : option fields) (t : ticket) (now : Z) : bool :=
  match current, session with
  | Some l, Some session =>
      let old_session := fget "claim_session" (t_fields t) in
      let old := fget "claim_generation" (t_fields t) in
      in_section t DOING
      && bool_decide (claim_status t None now ∈ [FOREIGN_LIVE; FOREIGN_STALE])
      && nonempty old_session && nonempty session && negb (session =s old_session)
      && bool_decide (dget (py "claim_run") (t_fields t) = bd_run (l_binding l))
      && state_continues state (t_id t)
      && match decimal old with
         | None => false
         | Some generation =>
             (0 <? generation)%Z && (generation <? l_generation l)%Z
             && existsb (λ r, names_generation generation r && bool_decide (bd_run (fr_binding r) = dget (py "claim_run") (t_fields t))
                              && bool_decide (bd_root (fr_binding r) = bd_root (l_binding l))
                              && bool_decide (bd_lineage (fr_binding r) = bd_lineage (l_binding l))
                              && bool_decide (is_Some (fr_fenced_at r))) (l_fenced l)
         end
  | _, _ => false
  end.

(** ** The runs of a lease file *)

(** One operation that took effect. A worker names itself; an operation that raises
    leaves the file. *)
Inductive step : store → store → Prop :=
  | step_acquire f w now b l : nonempty (strip w) = true → acquire_lease f w now b = Ok l → step f (Some l)
  | step_heartbeat f w g now l : heartbeat f w g now = Ok l → step f (Some l)
  | step_fence f w g now l : fence f w g now = Ok l → step f (Some l).

(** The fenced generations are past, but for one that is the current and then is
    fenced. *)
Definition sound (f : store) : Prop :=
  match f with
  | None => True
  | Some l =>
      _load f = Some l ∧ NoDup (fr_generation <$> l_fenced l) ∧
      ∀ r, r ∈ l_fenced l → is_Some (fr_fenced_at r) ∧
        ∃ g, fr_generation r = Some g ∧ (1 ≤ g ≤ l_generation l)%Z ∧ (g = l_generation l → _is_fenced l = true)
  end.

Lemma load_Some f l : _load f = Some l → f = Some l ∧ (1 ≤ l_generation l)%Z ∧ nonempty (strip (l_worker l)) = true.
Proof.
  unfold _load. destruct f as [l'|]; [|done]. destruct (_ && _) eqn:E; [|done]. intros [= ->]. bool_tac.
  split_and!; [done|lia|done].
Qed.
Lemma load_intro l : (1 ≤ l_generation l)%Z → nonempty (strip (l_worker l)) = true → _load (Some l) = Some l.
Proof. intros H1 H2. unfold _load. rewrite H2. by rewrite (proj2 (Z.leb_le _ _) H1). Qed.

Lemma held_Ok f w g l : held f w g = Ok l ↔ _load f = Some l ∧ l_worker l = w ∧ l_generation l = g.
Proof.
  unfold held. destruct (_load f) as [l'|] eqn:E; [|naive_solver]. unfold eqs.
  destruct (_ && _) eqn:Eb; split.
  - intros [= ->]. bool_tac. split_and!; [done..|lia].
  - by intros ([= ->] & _ & _).
  - done.
  - intros ([= ->] & <- & <-). rewrite bool_decide_eq_true_2, Z.eqb_refl in Eb by done. done.
Qed.

Lemma heartbeat_Ok f w g now l :
  heartbeat f w g now = Ok l ↔ ∃ l0, _load f = Some l0 ∧ l_worker l0 = w ∧ l_generation l0 = g ∧ _is_fenced l0 = false ∧ l = beat l0 now.
Proof.
  unfold heartbeat. rewrite res_bind_Ok. setoid_rewrite held_Ok. split.
  - intros (l0 & (H1 & H2 & H3) & H). exists l0. destruct (_is_fenced l0); [done|]. by injection H as <-.
  - intros (l0 & H1 & H2 & H3 & Hf & ->). exists l0. by rewrite Hf.
Qed.

(** What fencing leaves of a lease. *)
Definition fenced_from (l0 : lease) (g now : Z) (l : lease) : Prop :=
  l_worker l = l_worker l0 ∧ l_generation l = l_generation l0 ∧ _is_fenced l = true ∧ existsb (names_generation g) (l_fenced l) = true ∧
  (l_fenced l = l_fenced l0 ∨ existsb (names_generation g) (l_fenced l0) = false ∧
     ∃ r, l_fenced l = l_fenced l0 ++ [r] ∧ fr_generation r = Some g ∧ is_Some (fr_fenced_at r)).

Lemma fence_Ok f w g now l :
  fence f w g now = Ok l → ∃ l0, _load f = Some l0 ∧ l_worker l0 = w ∧ l_generation l0 = g ∧ fenced_from l0 g now l.
Proof.
  unfold fence. rewrite res_bind_Ok. setoid_rewrite held_Ok. intros (l0 & (H1 & H2 & H3) & [= <-]). exists l0. split_and!; [done..|].
  unfold fenced_from. cbn. split_and!; [done..| |].
  - destruct (existsb (names_generation g) (l_fenced l0)) eqn:E; [done|]. rewrite existsb_app. cbn. unfold names_generation.
    rewrite H3, bool_decide_eq_true_2 by done. by rewrite orb_true_r.
  - destruct (existsb (names_generation g) (l_fenced l0)) eqn:E; [by left|right]. split; [done|].
    eexists. split; [done|]. cbn. split; [by rewrite H3|done].
Qed.

Lemma acquire_Ok f w now b l :
  acquire_lease f w now b = Ok l →
  l_worker l = w ∧ l_heartbeat l = _utc now ∧ _is_fenced l = false ∧
  match _load f with
  | None => l_generation l = 1%Z ∧ l_fenced l = []
  | Some l0 => l_generation l = (l_generation l0 + 1)%Z ∧ l_fenced l = l_fenced l0 ∧
               (health f now = Health.EXPIRED ∨ health f now = Health.TERMINAL)
  end.
Proof.
  unfold acquire_lease. destruct (_load f) as [l0|] eqn:El; [|by intros [= <-]].
  destruct (health f now) eqn:Eh; try discriminate; intros [= <-]; cbn; split_and!; try done; auto.
  exfalso. unfold health, observe_lease in Eh. rewrite El in Eh. cbn in Eh. unfold health_of in Eh. by repeat case_match.
Qed.

Lemma acquire_sound f w now b l : nonempty (strip w) = true → sound f → acquire_lease f w now b = Ok l → sound (Some l).
Proof.
  intros Hw Hf H. apply acquire_Ok in H as (Hlw & _ & Hnf & H). destruct f as [l0|]; cbn [sound] in Hf |- *.
  - destruct Hf as (Hl & Hnd & Hr). rewrite Hl in H. destruct H as (Hg & Hfe & _). apply load_Some in Hl as (_ & Hpos & _).
    rewrite Hfe. split_and!; [apply load_intro; [lia|by rewrite Hlw]|done|]. intros r Hin. destruct (Hr r Hin) as (Hat & g & Eg & Hb & _).
    split; [done|]. exists g. split_and!; [done|lia|lia|lia].
  - destruct H as [Hg Hfe]. rewrite Hfe. split_and!; [apply load_intro; [lia|by rewrite Hlw]|constructor|by intros r ?%elem_of_nil].
Qed.

Lemma heartbeat_sound f w g now l : sound f → heartbeat f w g now = Ok l → sound (Some l).
Proof.
  intros Hf H. apply heartbeat_Ok in H as (l0 & Hl & _ & _ & Hnf & ->). apply load_Some in Hl as (-> & Hpos & Hw).
  destruct Hf as (_ & Hnd & Hr). cbn. split_and!; [by apply (load_intro (beat l0 now))|done|].
  intros r Hin. destruct (Hr r Hin) as (Hat & g' & Eg & Hb & Hfe). split; [done|]. exists g'. split_and!; [done|lia|lia|].
  intros E. rewrite (Hfe E) in Hnf. done.
Qed.

Lemma fence_sound f w g now l : sound f → fence f w g now = Ok l → sound (Some l).
Proof.
  intros Hf H. apply fence_Ok in H as (l0 & Hl & _ & Hg & Hfw & Hfg & Hfe & _ & Hrec). apply load_Some in Hl as (-> & Hpos & Hw).
  destruct Hf as (_ & Hnd & Hr). cbn [sound]. split; [apply load_intro; [lia|by rewrite Hfw]|]. rewrite Hfe, Hfg.
  assert (∀ r, r ∈ l_fenced l0 → is_Some (fr_fenced_at r) ∧
            ∃ g0, fr_generation r = Some g0 ∧ (1 ≤ g0 ≤ l_generation l0)%Z ∧ (g0 = l_generation l0 → true = true)) as Hold.
  { intros r Hin. destruct (Hr r Hin) as (? & g' & ? & ? & _). eauto 10. }
  destruct Hrec as [->|(Hno & r & -> & Er & Hat)]; [by split|]. rewrite fmap_app. split.
  - apply NoDup_app. split_and!; [done| |apply NoDup_singleton]. intros o Ho Hs%list_elem_of_singleton. rewrite Hs, Er in Ho.
    apply list_elem_of_fmap in Ho as (r' & E & Hin). apply not_true_iff_false in Hno. apply Hno. apply existsb_exists.
    exists r'. split; [by apply list_elem_of_In|]. by apply bool_decide_eq_true.
  - intros r' [Hin|Hs%list_elem_of_singleton]%elem_of_app; [by apply Hold|]. subst r'. split; [done|]. exists g. split_and!; [done|lia|lia|done].
Qed.

Lemma step_sound f f' : step f f' → sound f → sound f'.
Proof.
  intros [] Hf; [by eapply acquire_sound|by eapply heartbeat_sound|by eapply fence_sound].
Qed.

Lemma reachable_sound f f' : rtc step f f' → sound f → sound f'.
Proof. induction 1; [done|]. eauto using step_sound. Qed.

(** A generation that can act no more: it is past, or it is fenced. *)
Definition dead (g : Z) (f : store) : Prop :=
  ∃ l, f = Some l ∧ _load f = Some l ∧ ((g < l_generation l)%Z ∨ g = l_generation l ∧ _is_fenced l = true).

Lemma step_dead g f f' : step f f' → dead g f → dead g f'.
Proof.
  intros Hs (l & _ & Hl & Hd). pose proof (load_Some _ _ Hl) as (_ & Hpos & Hw).
  destruct Hs as [f w now b l' Hnw H|f w g' now l' H|f w g' now l' H].
  - apply acquire_Ok in H as (Hlw & _ & _ & H). rewrite Hl in H. destruct H as (Hg & _). exists l'. split_and!; [done| |left; lia].
    apply load_intro; [lia|by rewrite Hlw].
  - apply heartbeat_Ok in H as (l0 & Hl0 & _ & _ & Hnf & ->). rewrite Hl in Hl0. injection Hl0 as <-. exists (beat l now).
    split_and!; [done|by apply (load_intro (beat l now))|]. left. cbn. destruct Hd as [Hd|[_ Hd]]; [lia|]. by rewrite Hd in Hnf.
  - apply fence_Ok in H as (l0 & Hl0 & _ & _ & Hfw & Hfg & Hfe & _). rewrite Hl in Hl0. injection Hl0 as <-. exists l'.
    split_and!; [done|apply load_intro; [lia|by rewrite Hfw]|]. rewrite Hfg. destruct Hd as [|[? _]]; [by left|by right].
Qed.

Lemma run_dead g f f' : rtc step f f' → dead g f → dead g f'.
Proof. induction 1; [done|]. eauto using step_dead. Qed.

Lemma fenced_unhealthy l now s e : _is_fenced l = true → health_of l now s e ≠ Health.HEALTHY.
Proof. unfold health_of. intros ->. by destruct (_ =s _). Qed.

Lemma dead_cannot_act g f : dead g f →
  ∀ w now, mutation_allowed f w g now = false ∧ heartbeat f w g now = Err FENCED_LEASE_GENERATION.
Proof.
  intros (l & -> & Hl & Hd) w now. unfold mutation_allowed, heartbeat, held. rewrite Hl. split.
  - destruct Hd as [Hd|[_ Hd]]; [assert ((l_generation l =? g)%Z = false) as -> by lia; by rewrite andb_false_r|].
    rewrite bool_decide_eq_false_2; [done|]. unfold health, observe_lease. rewrite Hl. by apply fenced_unhealthy.
  - destruct (_ && _) eqn:E; [|done]. cbn. bool_tac. destruct Hd as [Hd|[_ Hd]]; [lia|by rewrite Hd].
Qed.

(** ** Fencing is final *)

(** C24: Once a generation is fenced, no later operation on the lease, of whatever worker
    and at whatever time, lets that generation mutate or beat again. *)
Theorem fenced_never_mutates f w g now l f' :
  fence f w g now = Ok l → rtc step (Some l) f' →
  ∀ w' now', mutation_allowed f' w' g now' = false ∧ heartbeat f' w' g now' = Err FENCED_LEASE_GENERATION.
Proof.
  intros H Hrun. apply dead_cannot_act. apply (run_dead g (Some l) f' Hrun).
  apply fence_Ok in H as (l0 & Hl & _ & Hg & Hfw & Hfg & Hfe & _). apply load_Some in Hl as (-> & Hpos & Hw).
  exists l. split_and!; [done|apply load_intro; [lia|by rewrite Hfw]|right; split; [lia|done]].
Qed.

Lemma replace_Ok f w now s e b l :
  replace_worker f w now s e b = Replaced l →
  ∃ l0 l1, _load f = Some l0 ∧ (health_of l0 now s e = Health.EXPIRED ∨ health_of l0 now s e = Health.TERMINAL) ∧
    fence f (l_worker l0) (l_generation l0) now = Ok l1 ∧ acquire_lease (Some l1) w now b = Ok l.
Proof.
  unfold replace_worker, observe_lease. destruct (_load f) as [l0|]; [|done]. cbn [ws_state ws_worker ws_generation].
  destruct (health_of l0 now s e) eqn:Eh; try done.
  all: destruct (fence f _ _ now) as [l1|] eqn:Ef; [|done]; destruct (acquire_lease _ w now b) as [l'|] eqn:Ea; [|done];
    intros [= ->]; exists l0, l1; rewrite Eh; auto.
Qed.

(** A lease just acquired is healthy until it is late. *)
Lemma acquired_healthy f w now b l now' :
  acquire_lease f w now b = Ok l → (now' < l_heartbeat l + SUSPECT_AFTER)%Z →
  health_of l now' SUSPECT_AFTER EXPIRE_AFTER = Health.HEALTHY.
Proof.
  intros Ha Hnow. pose proof Ha as (_ & _ & Hnf & _)%acquire_Ok. unfold health_of, age_at. rewrite Hnf.
  assert (l_status l = py "HEALTHY") as ->.
  { unfold acquire_lease in Ha. destruct (_load f); [destruct (health f now); try discriminate Ha|]; by injection Ha as <-. }
  unfold EXPIRE_AFTER, SUSPECT_AFTER, second in *. rewrite (proj2 (Z.leb_gt _ _)) by lia. rewrite (proj2 (Z.leb_gt _ _)) by lia. done.
Qed.

(** A lease is replaced only when it is dead, by the next generation: the old
    generation is on record as fenced and never mutates again, and while the new one
    is fresh its holder alone may mutate. *)
Theorem replacement_exact f w now b l :
  nonempty (strip w) = true → replace_worker f w now SUSPECT_AFTER EXPIRE_AFTER b = Replaced l →
  ∃ l0, _load f = Some l0 ∧ (health f now = Health.EXPIRED ∨ health f now = Health.TERMINAL) ∧
    l_generation l = (l_generation l0 + 1)%Z ∧ l_worker l = w ∧
    existsb (names_generation (l_generation l0)) (l_fenced l) = true ∧
    (∀ f' w' now', rtc step (Some l) f' → mutation_allowed f' w' (l_generation l0) now' = false) ∧
    ∀ now' w' g', (now' < l_heartbeat l + SUSPECT_AFTER)%Z →
      (mutation_allowed (Some l) w' g' now' = true ↔ w' = w ∧ g' = l_generation l).
Proof.
  intros Hw (l0 & l1 & Hl & Hh & Ef & Ea)%replace_Ok. exists l0. split; [done|]. split.
  { unfold health, observe_lease. by rewrite Hl. }
  apply fence_Ok in Ef as (l0' & Hl0 & _ & _ & Hfw & Hfg & Hfe & Hex & _). rewrite Hl in Hl0. injection Hl0 as <-.
  pose proof (load_Some _ _ Hl) as (_ & Hpos & Hlw). assert (_load (Some l1) = Some l1) as Hl1 by (apply load_intro; [lia|by rewrite Hfw]).
  pose proof Ea as (Hw' & _ & Hnf & Hrest)%acquire_Ok. rewrite Hl1 in Hrest. destruct Hrest as (Hg & Hff & _).
  assert (_load (Some l) = Some l) as Hll by (apply load_intro; [lia|by rewrite Hw']).
  split_and!; [lia|done|by rewrite Hff| |].
  - intros f' w' now' Hrun. apply dead_cannot_act. apply (run_dead _ _ _ Hrun). exists l. split_and!; [done|done|left; lia].
  - intros now' w' g' Hnow. unfold mutation_allowed, health, observe_lease. rewrite Hll. cbn [ws_state].
    rewrite (acquired_healthy _ _ _ _ _ _ Ea Hnow), bool_decide_eq_true_2 by done.
    unfold eqs. cbn [andb]. rewrite Hw', andb_true_iff, bool_decide_eq_true, Z.eqb_eq. naive_solver.
Qed.

(** Every file the operations can reach is sound: the fenced generations are recorded
    once each, with a stamp, and none is later than the current one, which is among
    them only when the lease itself is fenced. *)
Theorem lease_file_sound f : rtc step None f → sound f.
Proof. intros H. by apply (reachable_sound _ _ H). Qed.

(** The claim a successor continues is of a generation that can act no more. *)
Theorem continued_claim_is_dead f expected c session state t now now' :
  can_continue_claim (current_carrier f expected c now) session state t now' = true →
  ∃ g, decimal (fget "claim_generation" (t_fields t)) = Some g ∧
  ∀ f' w at_, rtc step f f' → mutation_allowed f' w g at_ = false.
Proof.
  unfold can_continue_claim. destruct (current_carrier f expected c now) as [l|] eqn:Ec; [|done]. destruct session; [|done].
  destruct (decimal _) as [g|]; [|by rewrite !andb_false_r]. intros H. bool_tac. exists g. split; [done|].
  assert (_load f = Some l) as Hl.
  { unfold current_carrier in Ec. destruct (negb (_ && _)); [done|]. destruct (decimal _); [|done]. destruct (negb _); [done|].
    destruct (_load f) as [l'|]; [|done]. destruct (_ && _); [|done]. congruence. }
  intros f' w at_ Hrun. apply dead_cannot_act. apply (run_dead g f f' Hrun). exists l.
  pose proof (load_Some _ _ Hl) as (Hf & _). split_and!; [done|done|left; lia].
Qed.

(** ** Concrete leases *)

Definition first_lease : lease := Lease "w-1" 1 0 "HEALTHY" no_binding None [].
Definition fenced_lease : lease :=
  match fence (Some first_lease) "w-1" 1 (200 * second) with Ok l => l | Err _ => first_lease end.
Definition second_lease : lease :=
  match replace_worker (Some first_lease) "w-2" (200 * second) SUSPECT_AFTER EXPIRE_AFTER no_binding with Replaced l => l | _ => first_lease end.

Lemma sample_replacement :
  (health (Some first_lease) (10 * second), health (Some first_lease) (60 * second), health (Some first_lease) (200 * second),
   l_worker second_lease, l_generation second_lease)
  = (Health.HEALTHY, Health.SUSPECT, Health.EXPIRED, py "w-2", 2%Z).
Proof. vm_compute. reflexivity. Qed.

Lemma fenced_never_mutates_witness : mutation_allowed (Some second_lease) "w-1" 1 (200 * second) = false.
Proof.
  apply (fenced_never_mutates (Some first_lease) "w-1" 1 (200 * second) fenced_lease (Some second_lease)); [vm_compute; reflexivity|].
  apply rtc_once. apply (step_acquire _ "w-2" (200 * second) no_binding); vm_compute; reflexivity.
Defined.

Lemma replacement_exact_witness : mutation_allowed (Some second_lease) "w-2" 2 (210 * second) = true.
Proof.
  destruct (replacement_exact (Some first_lease) "w-2" (200 * second) no_binding second_lease) as (l0 & _ & _ & _ & _ & _ & _ & H);
    [vm_compute; reflexivity|vm_compute; reflexivity|].
  apply H; [vm_compute; reflexivity|split; vm_compute; reflexivity].
Defined.

Lemma lease_file_sound_witness : NoDup (fr_generation <$> l_fenced second_lease).
Proof.
  assert (rtc step None (Some second_lease)) as H.
  { apply (rtc_l _ _ (Some first_lease)); [apply (step_acquire _ "w-1" 0 no_binding); vm_compute; reflexivity|].
    apply (rtc_l _ _ (Some fenced_lease)); [apply (step_fence _ "w-1" 1 (200 * second)); vm_compute; reflexivity|].
    apply rtc_once. apply (step_acquire _ "w-2" (200 * second) no_binding); vm_compute; reflexivity. }
  apply lease_file_sound in H. apply H.
Defined.

(** ** Where the lease is not enough *)

(** A heartbeat reads and writes the file outside the mutex of the other operations:
    a beat that read before a replacement and writes after it brings the fenced
    generation back. *)
Lemma late_beat_revives :
  let late := beat first_lease (200 * second) in
  heartbeat (Some first_lease) "w-1" 1 (200 * second) = Ok late ∧
  mutation_allowed (Some second_lease) "w-2" 2 (200 * second) = true ∧
  mutation_allowed (Some late) "w-1" 1 (200 * second) = true ∧ mutation_allowed (Some late) "w-2" 2 (200 * second) = false.
Proof. vm_compute. split_and!; reflexivity. Qed.

(** Acquiring over a file that cannot be parsed starts at generation one again. *)
Lemma lost_file_restarts :
  l_generation <$> (match acquire_lease None "w-3" (300 * second) no_binding with Ok l => Some l | Err _ => None end) = Some 1%Z.
Proof. vm_compute. reflexivity. Qed.
