(* ===== verification/Progress.v ===== *)
(** * Semantic progress

    [Observation] and [SemanticProgressTracker] of
    [tools/saipen_engine/cold_recovery.py]: what two cycles of an autonomous loop have
    in common, and when the loop has stopped moving. *)

From S2P Require Import Prelude PyStr PyStrFacts PyDict BoardBlockers Sha256 JournalFs.

(** [" ".join(text.split())], cut to the limit. *)
Definition _redact_prose (text : pystr) (limit : nat) : pystr :=
  let compact := join " " (words text) in
  if (length compact <=? limit)%nat then compact else rstrip (take (limit - 1) compact) ++ [8230%N].

Record Observation : Type := MkObservation {
  ob_work_id : pystr;
  ob_phase : pystr;
  ob_blocker : pystr;
  ob_next_action : pystr;
  ob_evidence : list pystr;
  ob_source : pystr;
  ob_authority : pystr;
  ob_failures : list pystr;
  ob_deps_terminal : bool;
  ob_completed_attempt : bool;
  ob_authoritative_changed : bool;
  ob_timestamp : pystr;
  ob_heartbeat : bool;
}.

(** What the fingerprint hashes. *)
Definition fingerprint_payload (o : Observation) : pystr :=
  join "|"
    ["work=" +s ob_work_id o;
     "phase=" +s ob_phase o;
     "blocker=" +s _redact_prose (ob_blocker o) 160;
     "action=" +s _redact_prose (ob_next_action o) 160;
     "evidence=" +s join "," (sorted (ob_evidence o));
     "source=" +s ob_source o;
     "authority=" +s ob_authority o;
     "failures=" +s join "," (sorted (ob_failures o));
     "deps_terminal=" +s (if ob_deps_terminal o then py "1" else py "0")].
Definition semantic_fingerprint (o : Observation) : pystr := hexdigest (utf8 (fingerprint_payload o)).

(** ** The tracker *)

(** A cycle: its fingerprint, whether it was a legitimate attempt, and whether it was
    only a heartbeat. *)
Record cycle : Type := Cycle { cy_fingerprint : pystr; cy_legit : bool; cy_heartbeat : bool }.

Inductive progress : Type := RUNNING | PROGRESS | NO_PROGRESS_LOOP.
Global Instance progress_eq_dec : EqDecision progress.
Proof. solve_decision. Defined.

Definition cycle_of (o : Observation) : cycle :=
  Cycle (semantic_fingerprint o) (ob_authoritative_changed o || ob_completed_attempt o) (ob_heartbeat o).

Definition tracker_threshold (threshold : Z) : nat := Z.to_nat (Z.max 2 threshold).
Definition NO_PROGRESS_THRESHOLD : nat := 5.

(** The cycles that count against a fingerprint. *)
Definition stale (fingerprint : pystr) (c : cycle) : bool :=
  (cy_fingerprint c =s fingerprint) && negb (cy_legit c) && negb (cy_heartbeat c).
Definition stale_count (fingerprint : pystr) (history : list cycle) : nat := length (base.filter (λ c, stale fingerprint c = true) history).

(** The history after one more cycle, and whether the loop may go on. *)
Definition record (threshold : nat) (history : list cycle) (c : cycle) : list cycle * bool :=
  let moved := match last history with Some p => negb (cy_fingerprint c =s cy_fingerprint p) | None => false end in
  let history' := history ++ [c] in
  (history',
   if cy_legit c || moved || cy_heartbeat c then true
   else (stale_count (cy_fingerprint c) history' <? threshold)%nat).

Definition verdict (threshold : nat) (history : list cycle) : progress :=
  match reverse history with
  | [] => RUNNING
  | c :: earlier =>
      let fingerprint := cy_fingerprint c in
      if existsb (λ d, (cy_fingerprint d =s fingerprint) && cy_legit d) history then PROGRESS
      else if (threshold <=? stale_count fingerprint history)%nat then NO_PROGRESS_LOOP
      else match earlier with
           | d :: _ => if negb (fingerprint =s cy_fingerprint d) then PROGRESS else RUNNING
           | [] => RUNNING
           end
  end.

Definition no_progress_count (history : list cycle) : nat :=
  match last history with
  | Some c => if nonempty (cy_fingerprint c) then stale_count (cy_fingerprint c) history else 0
  | None => 0
  end.

(** ** When the loop is caught *)

Section tracker.
Context (threshold : nat) (f : pystr).

(** A cycle that repeats the fingerprint and is no attempt. *)
Definition repeats (c : cycle) : Prop := cy_fingerprint c = f ∧ cy_legit c = false ∧ cy_heartbeat c = false.
Definition attempted (history : list cycle) : bool := existsb (λ d, (cy_fingerprint d =s f) && cy_legit d) history.

Lemma repeats_stale c : repeats c → stale f c = true.
Proof. intros (E & Hl & Hh). unfold stale, eqs. rewrite E, Hl, Hh. by rewrite bool_decide_eq_true_2. Qed.

Lemma stale_count_app h1 h2 : stale_count f (h1 ++ h2) = stale_count f h1 + stale_count f h2.
Proof. unfold stale_count. by rewrite filter_app, length_app. Qed.

Lemma stale_count_repeats cs : Forall repeats cs → stale_count f cs = length cs.
Proof.
  unfold stale_count. induction 1 as [|c cs Hc _ IH]; [done|]. rewrite filter_cons_True by (by apply repeats_stale). cbn. by rewrite IH.
Qed.

Lemma attempted_app h1 h2 : attempted (h1 ++ h2) = attempted h1 || attempted h2.
Proof. apply existsb_app. Qed.
Lemma attempted_repeats cs : Forall repeats cs → attempted cs = false.
Proof.
  unfold attempted. induction 1 as [|c cs (_ & Hl & _) _ IH]; [done|]. cbn. by rewrite Hl, andb_false_r, IH.
Qed.

Lemma verdict_snoc h c :
  cy_fingerprint c = f →
  verdict threshold (h ++ [c]) =
    if attempted (h ++ [c]) then PROGRESS
    else if (threshold <=? stale_count f (h ++ [c]))%nat then NO_PROGRESS_LOOP
    else match last h with Some d => if negb (f =s cy_fingerprint d) then PROGRESS else RUNNING | None => RUNNING end.
Proof.
  intros E. unfold verdict. rewrite reverse_snoc, E. fold (attempted (h ++ [c])).
  destruct (attempted _); [done|]. destruct (_ <=? _)%nat; [done|]. destruct h as [|d h' _] using rev_ind; [done|].
  by rewrite reverse_snoc, last_snoc.
Qed.

(** A run of cycles that repeat one fingerprint, which no attempt has had, is called a
    loop exactly from the cycle on that reaches the threshold; and the call that
    records that cycle says so, unless the cycle is the first with the fingerprint in
    a row. *)
Theorem loop_is_caught h cs c :
  attempted h = false → Forall repeats (cs ++ [c]) →
  (verdict threshold (h ++ cs ++ [c]) = NO_PROGRESS_LOOP ↔ threshold ≤ stale_count f h + length cs + 1) ∧
  (cs ≠ [] → (record threshold (h ++ cs) c).2 = false ↔ verdict threshold (h ++ cs ++ [c]) = NO_PROGRESS_LOOP).
Proof.
  intros Ha Hcs. pose proof Hcs as [Hcs0 [(Ec & Hl & Hh) _]%Forall_cons_1]%Forall_app.
  assert (stale_count f (h ++ cs ++ [c]) = stale_count f h + length cs + 1) as Hn.
  { rewrite stale_count_app, (stale_count_repeats _ Hcs), length_app. cbn. lia. }
  assert (verdict threshold (h ++ cs ++ [c]) = NO_PROGRESS_LOOP ↔ threshold ≤ stale_count f h + length cs + 1) as Hv.
  { rewrite app_assoc, verdict_snoc by done. rewrite <-app_assoc, attempted_app, Ha, (attempted_repeats _ Hcs), Hn. cbn [orb].
    destruct (threshold <=? _)%nat eqn:E; [apply Nat.leb_le in E|apply Nat.leb_gt in E]; split; try done; try lia.
    destruct (last (h ++ cs)); [by destruct (negb _)|done]. }
  split; [done|]. intros Hne. rewrite Hv. unfold record. cbn [snd]. rewrite Hl, Hh, Ec.
  assert (∃ p, last (h ++ cs) = Some p ∧ cy_fingerprint p = f) as (p & -> & Ep).
  { destruct cs as [|p cs _] using rev_ind; [done|]. exists p. rewrite app_assoc, last_snoc. split; [done|].
    by apply Forall_app in Hcs0 as [_ [(Hp & _) _]%Forall_cons_1]. }
  rewrite Ep. unfold eqs. rewrite bool_decide_eq_true_2 by done. cbn [orb negb]. rewrite <-app_assoc, Hn, Nat.ltb_ge. done.
Qed.

(** One attempt disarms the verdict for its fingerprint: however many cycles repeat it
    afterwards, the verdict is progress. *)
Theorem attempt_disarms h cs : attempted h = true → Forall repeats cs → cs ≠ [] → verdict threshold (h ++ cs) = PROGRESS.
Proof.
  intros Ha Hcs Hne. destruct cs as [|c cs _] using rev_ind; [done|]. apply Forall_app in Hcs as [_ [(E & _) _]%Forall_cons_1].
  rewrite app_assoc, verdict_snoc by done. by rewrite <-app_assoc, attempted_app, Ha.
Qed.
End tracker.

(** ** Concrete loops *)

Definition idle_cycle : cycle := Cycle "f" false false.
Lemma loop_is_caught_witness : verdict NO_PROGRESS_THRESHOLD (replicate 5 idle_cycle) = NO_PROGRESS_LOOP.
Proof.
  destruct (loop_is_caught NO_PROGRESS_THRESHOLD "f" [] (replicate 4 idle_cycle) idle_cycle) as [H _].
  - reflexivity.
  - cbn. repeat constructor.
  - apply H. vm_compute. lia.
Defined.

(** After a slice that progressed, the same slices without progress are not a loop for
    the verdict, while the recording call says that they are. *)
Lemma progressed_slice_disarms :
  let history := Cycle "f" true false :: replicate 20 idle_cycle in
  verdict NO_PROGRESS_THRESHOLD history = PROGRESS ∧ (record NO_PROGRESS_THRESHOLD history idle_cycle).2 = false.
Proof. vm_compute. split; reflexivity. Qed.
