(* ===== verification/Supervisor.v ===== *)
(** * The supervisor of autonomous workers

    [tools/saipen_engine/supervisor.py]: the picture of a project and the one verdict
    on it, and [take_authority] of [worker.py], which acts on the verdict. *)

From S2P Require Import Prelude PyStr PyStrFacts PyDict BoardClock BoardParse BoardClaims BoardGraph BoardBlockers.
From S2P Require Import StateDoc StateWait StateContract AuditInbox Router RouterFacts Gates GateFacts Assessment Watchdog Progress.

Module Verdict.
Inductive t : Type :=
  | RUN_WORK | ADOPT_WORKER | REPLACE_WORKER | AWAIT_WORKER | OPERATOR_ACTION_DUE | NO_PROGRESS_LOOP | AMBIGUOUS_AUTHORITY | IDLE.
Global Instance t_eq_dec : EqDecision t.
Proof. solve_decision. Defined.
End Verdict.
Import Verdict(RUN_WORK, ADOPT_WORKER, REPLACE_WORKER, AWAIT_WORKER, OPERATOR_ACTION_DUE, AMBIGUOUS_AUTHORITY, IDLE).

Definition MUTATING_VERDICTS : list Verdict.t := [RUN_WORK; ADOPT_WORKER; REPLACE_WORKER].
Definition NEXT_COMMAND (v : Verdict.t) : pystr :=
  match v with
  | RUN_WORK | ADOPT_WORKER | REPLACE_WORKER => "saipen continue --json"
  | AWAIT_WORKER => "saipen autonomy --json"
  | OPERATOR_ACTION_DUE | Verdict.NO_PROGRESS_LOOP | IDLE => "saipen status --json"
  | AMBIGUOUS_AUTHORITY => "saipen recover --json"
  end.

(** ** The picture *)

(** [str.strip] of one character. *)
Definition strip_char (c : N) (s : pystr) : pystr := reverse (drop_while (N.eqb c) (reverse (drop_while (N.eqb c) s))).

(** A line of the state as a key and a value, read loosely. *)
Definition _state_line (line : pystr) : option (pystr * pystr) :=
  if negb (contains ":" line) || startswith "---" line then None
  else match partition ":" line with
       | (key, rest) => Some (strip key, strip_char 39 (strip_char 34 (strip (default [] rest))))
       end.
(** The value of a key, which is an identifier, in [_state_fields]: the first wins. *)
Definition _state_field (text key : pystr) : option pystr :=
  snd <$> find_first (λ e, e.1 =s key) (omap _state_line (splitlines text)).

Record picture : Type := Picture {
  pc_lease : WatchdogStatus;
  pc_file_exists : bool;
  pc_active : option pystr;
  pc_workable : list pystr;
  pc_due : list pystr;
  pc_deferred : list pystr;
  pc_assessment : assessment;
  pc_progress : progress;
}.

(** What the supervisor finds: the two documents, empty when they cannot be read, the
    lease file, and what the assessment reads. *)
Record scene : Type := Scene {
  sc_state : pystr;
  sc_board : pystr;
  sc_lease : store;
  sc_file_exists : bool;
  sc_install : install;
  sc_world : world;
  sc_protocol_home : bool;
  sc_inbox : option inbox;
  sc_queued : option queued_source;
  sc_append : option pending_append;
  sc_gate : option future_gate;
  sc_progress : progress;
}.

Definition observe (x : scene) (now suspect_after expire_after : Z) : picture :=
  let board := parse_board (sc_board x) in
  let gates := operator_gates (b_tickets board) now in
  let claimed := default [] (_state_field (sc_state x) "task") in
  Picture (observe_lease (sc_lease x) now suspect_after expire_after) (sc_file_exists x)
    (if nonempty claimed && negb (claimed =s "none") then Some claimed else None)
    (workable_tickets (b_tickets board) None now)
    (g_ticket <$> base.filter (λ g, is_due g = true) gates)
    (g_ticket <$> base.filter (λ g, is_due g = false) gates)
    (assess_continuation (sc_install x) (sc_world x) (sc_protocol_home x) (Some (sc_state x)) (Some (sc_board x))
       (Projections [] [] [] (sc_inbox x) (sc_queued x) (sc_append x) (sc_gate x)) now None None)
    (sc_progress x).

(** [executable_work]: a workable ticket, or else what the assessment offers. *)
Definition executable (p : picture) : option pystr :=
  match pc_workable p with
  | t :: _ => given (Some t)
  | [] => given (executable_work (pc_assessment p))
  end.

(** ** The verdict *)

Record decision : Type := Decision {
  de_verdict : Verdict.t;
  de_operator_work : list pystr;
  de_generation : option Z;
  de_work : option pystr;
}.
Definition may_mutate (d : decision) : bool := bool_decide (de_verdict d ∈ MUTATING_VERDICTS).
Definition decision_requires_human (d : decision) : bool := bool_decide (de_verdict d = OPERATOR_ACTION_DUE).

(** [a or b] *)
Definition either (a b : option pystr) : option pystr := match given a with Some s => Some s | None => b end.

Definition decide_picture (p : picture) (worker_id : option pystr) : decision :=
  let lease := pc_lease p in
  let work := executable p in
  let class := as_class (pc_assessment p) in
  let idle := Decision (if bool_decide (class = INVALID_RUNTIME) then AMBIGUOUS_AUTHORITY else IDLE) [] None None in
  let nothing := bool_decide (work = None) && bool_decide (pc_active p = None) in
  if bool_decide (ws_state lease = Health.UNKNOWN) && pc_file_exists p then Decision AMBIGUOUS_AUTHORITY [] None None
  else if negb (bool_decide (pc_due p = [])) && bool_decide (work = None) then Decision OPERATOR_ACTION_DUE (pc_due p) None None
  else if bool_decide (class ∈ [WAIT_AUTHORITY; SAFETY_STOP]) && bool_decide (work = None) then
    Decision OPERATOR_ACTION_DUE
      (match as_operator_work (pc_assessment p) with [] => [py "OPERATOR_AUTHORITY"] | l => l end) None None
  else if bool_decide (pc_progress p = NO_PROGRESS_LOOP) then Decision Verdict.NO_PROGRESS_LOOP [] None None
  else match ws_state lease with
       | Health.HEALTHY | Health.SUSPECT =>
           if bool_decide (is_Some worker_id) && bool_decide (ws_worker lease = worker_id)
           then Decision ADOPT_WORKER [] (ws_generation lease) None
           else Decision AWAIT_WORKER [] None None
       | Health.EXPIRED | Health.TERMINAL =>
           if nothing then idle
           else Decision REPLACE_WORKER [] (ws_generation lease) (either (pc_active p) work)
       | Health.UNKNOWN =>
           if nothing then idle else Decision RUN_WORK [] None (either (pc_active p) work)
       end.

Definition decide (x : scene) (now suspect_after expire_after : Z) (worker_id : option pystr) : decision :=
  decide_picture (observe x now suspect_after expire_after) worker_id.

(** ** Taking authority *)

Inductive authority_code : Type :=
  | LEASE_ADOPTED | LEASE_ACQUIRED | LEASE_REPLACED
  | Refused (v : Verdict.t) | LeaseRefused (e : lease_error) | SeatTaken.
Record authority : Type := Authority { au_code : authority_code; au_generation : option Z; au_store : store }.
Definition authority_ok (a : authority) : bool := match au_code a with LEASE_ADOPTED | LEASE_ACQUIRED | LEASE_REPLACED => true | _ => false end.

Definition take_authority (x : scene) (worker_id : pystr) (now suspect_after expire_after : Z) (b : binding) : authority :=
  let d := decide x now suspect_after expire_after (Some worker_id) in
  let f := sc_lease x in
  match de_verdict d with
  | ADOPT_WORKER => Authority LEASE_ADOPTED (de_generation d) f
  | RUN_WORK =>
      match acquire_lease f worker_id now b with
      | Ok l => Authority LEASE_ACQUIRED (Some (l_generation l)) (Some l)
      | Err e => Authority (LeaseRefused e) None f
      end
  | REPLACE_WORKER =>
      match replace_worker f worker_id now suspect_after expire_after b with
      | Replaced l => Authority LEASE_REPLACED (Some (l_generation l)) (Some l)
      | ReplaceFailed e f' => Authority (LeaseRefused e) None f'
      | LiveLease => Authority (LeaseRefused LIVE_LEASE_PRESENT) None f
      | AmbiguousAuthority => Authority SeatTaken None f
      end
  | v => Authority (Refused v) None f
  end.

(** ** What a verdict needs *)

(** A worker is told to mutate only with its own live lease, over a dead lease, or
    where there never was one. *)
Lemma mutating_verdict p worker_id :
  match de_verdict (decide_picture p worker_id) with
  | ADOPT_WORKER => ws_state (pc_lease p) ∈ [Health.HEALTHY; Health.SUSPECT] ∧ is_Some worker_id ∧ ws_worker (pc_lease p) = worker_id ∧
      de_generation (decide_picture p worker_id) = ws_generation (pc_lease p)
  | REPLACE_WORKER => ws_state (pc_lease p) ∈ [Health.EXPIRED; Health.TERMINAL]
  | RUN_WORK => ws_state (pc_lease p) = Health.UNKNOWN ∧ pc_file_exists p = false
  | _ => True
  end.
Proof.
  unfold decide_picture. cbv zeta. destruct (bool_decide (ws_state (pc_lease p) = Health.UNKNOWN) && pc_file_exists p) eqn:Eu; [done|].
  
  do 2 match goal with |- context [if ?c then Decision OPERATOR_ACTION_DUE ?l None None else _] => destruct c; [done|] end.
  destruct (bool_decide (pc_progress p = NO_PROGRESS_LOOP)); [done|].
  destruct (ws_state (pc_lease p)) eqn:Es.
  1, 2: match goal with |- context [if ?c then Decision ADOPT_WORKER _ _ _ else _] => destruct c eqn:E; [|done] end; bool_tac;
    split_and!; try done; (by left) || (by right; left).
  all: match goal with |- context [if ?c then _ else Decision _ _ _ (either _ _)] => destruct c; [cbn [de_verdict]; by destruct (bool_decide (as_class _ = INVALID_RUNTIME))|] end.
  1, 2: (by left) || (by right; left).
  rewrite bool_decide_eq_true_2 in Eu by done. split; [done|exact Eu].
Qed.

Lemma live_lease f now s e :
  ws_state (observe_lease f now s e) ≠ Health.UNKNOWN → ∃ l, _load f = Some l ∧ ws_worker (observe_lease f now s e) = Some (l_worker l) ∧
    ws_generation (observe_lease f now s e) = Some (l_generation l).
Proof. unfold observe_lease. destruct (_load f) as [l|]; [|done]. intros _. by exists l. Qed.

Lemma other_worker f l w g now : _load f = Some l → w ≠ l_worker l → mutation_allowed f w g now = false.
Proof.
  intros Hl Hw. unfold mutation_allowed, eqs. rewrite Hl, (bool_decide_eq_false_2 (l_worker l = w)) by congruence. by rewrite andb_false_r.
Qed.

Lemma replace_steps f w now s e b l :
  nonempty (strip w) = true → replace_worker f w now s e b = Replaced l → rtc step f (Some l).
Proof.
  intros Hw (l0 & l1 & _ & _ & Hf & Ha)%replace_Ok. apply (rtc_l _ _ (Some l1)).
  - by apply (step_fence f (l_worker l0) (l_generation l0) now).
  - apply rtc_once. by apply (step_acquire _ w now b).
Qed.

(** The authority a worker takes is its own and nobody else's: the lease the file then
    holds is of this worker and of the generation it is told, it got there by the
    operations of the lease alone, and no other worker may mutate under it. A lease
    that was live and of another worker is not taken. *)
Theorem authority_taken x w now s e b :
  nonempty (strip w) = true → authority_ok (take_authority x w now s e b) = true →
  let a := take_authority x w now s e b in
  (∃ l, _load (au_store a) = Some l ∧ l_worker l = w ∧ au_generation a = Some (l_generation l)) ∧
  rtc step (sc_lease x) (au_store a) ∧
  (∀ w' g now', w' ≠ w → mutation_allowed (au_store a) w' g now' = false) ∧
  (∀ l0, _load (sc_lease x) = Some l0 → l_worker l0 ≠ w →
     health_of l0 now s e = Health.EXPIRED ∨ health_of l0 now s e = Health.TERMINAL).
Proof.
  intros Hw Hok a. subst a. assert (∀ f l, _load f = Some l → l_worker l = w → ∀ w' g now', w' ≠ w → mutation_allowed f w' g now' = false) as Hother.
  { intros f l Hl E w' g now' Hne. apply (other_worker f l); [done|congruence]. }
  revert Hok. unfold take_authority, decide. pose proof (mutating_verdict (observe x now s e) (Some w)) as Hv.
  destruct (de_verdict _); cbn [au_code authority_ok pc_lease observe] in *; try done.
  - destruct Hv as [Hu _]. destruct (acquire_lease (sc_lease x) w now b) as [l|] eqn:Ha; [|done]. intros _. cbn [au_store au_generation].
    assert (_load (sc_lease x) = None) as Hn by (unfold observe_lease in Hu; destruct (_load (sc_lease x)) as [l0|]; [|done];
      cbn in Hu; unfold health_of in Hu; by repeat case_match).
    pose proof (acquire_Ok _ _ _ _ _ Ha) as (Hlw & _ & _ & H). rewrite Hn in H |- *. destruct H as [Hg _].
    assert (_load (Some l) = Some l) as Hl by (apply load_intro; [lia|by rewrite Hlw]).
    split_and!; [by exists l|by apply rtc_once, (step_acquire _ w now b)|by apply (Hother _ l)|done].
  - destruct Hv as (Hst & _ & Hwk & ->). intros _. cbn [au_store au_generation]. destruct (live_lease (sc_lease x) now s e) as (l & Hl & E1 & E2).
    { rewrite !elem_of_cons in Hst. destruct Hst as [->|[->|[]%elem_of_nil]]; done. }
    rewrite Hwk in E1. injection E1 as E1. split_and!; [by exists l|done|by apply (Hother _ l)|]. intros l0 Hl0 Hne. congruence.
  - destruct (replace_worker _ _ _ _ _ _) as [| | |l] eqn:Hr; try done. intros _. cbn [au_store au_generation].
    pose proof (replace_Ok _ _ _ _ _ _ _ Hr) as (l0 & l1 & Hl0 & Hh & Hf & Ha).
    pose proof (acquire_Ok _ _ _ _ _ Ha) as (Hlw & _ & _ & H).
    assert (_load (Some l) = Some l) as Hl.
    { apply load_intro; [|by rewrite Hlw]. destruct (_load (Some l1)) as [l2|] eqn:E2; [|destruct H as [-> _]; lia].
      apply load_Some in E2 as (_ & ? & _). destruct H as [-> _]. lia. }
    split_and!; [by exists l|by eapply replace_steps|by apply (Hother _ l)|]. intros l2 Hl2 _. rewrite Hl2 in Hl0. by injection Hl0 as ->.
Qed.

(** A human is asked exactly when no work is left and a gate is due, or the authority
    of the run has ended. *)
Lemma human_stop_exact p worker_id :
  decision_requires_human (decide_picture p worker_id) = true ↔
  (ws_state (pc_lease p) = Health.UNKNOWN → pc_file_exists p = false) ∧ executable p = None ∧
  (pc_due p ≠ [] ∨ as_class (pc_assessment p) ∈ [WAIT_AUTHORITY; SAFETY_STOP]).
Proof.
  unfold decision_requires_human. rewrite bool_decide_eq_true. unfold decide_picture. cbv zeta.
  destruct (bool_decide (ws_state (pc_lease p) = Health.UNKNOWN) && pc_file_exists p) eqn:Eu.
  { bool_tac. split; [done|]. intros [Hx _]. rewrite Hx in * by done. done. }
  assert (ws_state (pc_lease p) = Health.UNKNOWN → pc_file_exists p = false) as Hu.
  { intros E. rewrite bool_decide_eq_true_2 in Eu by done. exact Eu. }
  destruct (base.decide (executable p = None)) as [E|E].
  - rewrite E, (bool_decide_eq_true_2 (@None pystr = None)), !andb_true_r by done.
    destruct (base.decide (pc_due p = [])) as [Ed|Ed].
    + rewrite Ed, (bool_decide_eq_true_2 (@nil pystr = [])) by done. cbn [negb].
      destruct (bool_decide (as_class _ ∈ [WAIT_AUTHORITY; SAFETY_STOP])) eqn:Ec; bool_tac; [tauto|].
      split; [|tauto]. destruct (bool_decide (pc_progress p = _)); [done|].
      destruct (ws_state _); match goal with |- context [if ?c then _ else Decision _ _ _ _] => destruct c end; try done;
        cbn [de_verdict]; by destruct (bool_decide (as_class _ = INVALID_RUNTIME)).
    + rewrite (bool_decide_eq_false_2 (pc_due p = [])) by done. cbn. tauto.
  - rewrite (bool_decide_eq_false_2 (executable p = None)), !andb_false_r by done. split; [|tauto].
    destruct (bool_decide (pc_progress p = _)); [done|]. cbn [andb].
    destruct (ws_state _); try done; by match goal with |- context [if ?c then _ else Decision _ _ _ _] => destruct c end.
Qed.

(** ** Concrete projects *)

Definition scene_of (state board : pystr) (f : store) : scene :=
  Scene state board f (bool_decide (is_Some f)) sample_install (sound_world state) false None None None None RUNNING.
Definition verdict_at (x : scene) (w : pystr) : Verdict.t * option pystr :=
  let d := decide x noon SUSPECT_AFTER EXPIRE_AFTER (Some w) in (de_verdict d, de_work d).
Definition lease_at (age : Z) : lease := Lease "w-1" 4 (noon - age) "HEALTHY" no_binding None [].

Lemma sample_verdicts :
  (verdict_at (scene_of building_state building_board None) "w-2",
   verdict_at (scene_of building_state building_board (Some (lease_at 0))) "w-1",
   verdict_at (scene_of building_state building_board (Some (lease_at 0))) "w-2",
   verdict_at (scene_of building_state building_board (Some (lease_at EXPIRE_AFTER))) "w-2",
   verdict_at (scene_of done_state (board_lines [] [] ["- [x] T-1 built"] []) None) "w-2")
  = ((RUN_WORK, Some (py "T-1")), (ADOPT_WORKER, None), (AWAIT_WORKER, None), (REPLACE_WORKER, Some (py "T-1")), (IDLE, None)).
Proof. vm_compute. reflexivity. Qed.

Lemma authority_taken_witness :
  let a := take_authority (scene_of building_state building_board (Some (lease_at EXPIRE_AFTER))) "w-2" noon SUSPECT_AFTER EXPIRE_AFTER no_binding in
  au_code a = LEASE_REPLACED ∧ mutation_allowed (au_store a) "w-1" 4 noon = false.
Proof.
  set (x := scene_of building_state building_board (Some (lease_at EXPIRE_AFTER))).
  destruct (authority_taken x "w-2" noon SUSPECT_AFTER EXPIRE_AFTER no_binding) as (_ & _ & H & _);
    [vm_compute; reflexivity|vm_compute; reflexivity|].
  split; [vm_compute; reflexivity|]. apply H. discriminate.
Defined.

(** ** Where code and documents part *)

(** A due human boundary is said to come before the work; a braked project with a
    workable ticket is told to run it. *)
Definition user_braked_state : pystr := state_lines "BUILD" "none" "WAIT: user brake -- stop here" ["blocker: none"].
Definition todo_board : pystr := board_lines [] ["- [ ] T-2 next | verify: tests"] [] [].
Lemma braked_project_runs :
  let r := sample_route user_braked_state todo_board None None in
  (r_reason r, r_behavior r) = (WaitStop, Some RESTATE_AND_STOP) ∧
  requires_human (assess_sample user_braked_state todo_board quiet) = true ∧
  verdict_at (scene_of user_braked_state todo_board None) "w-2" = (RUN_WORK, Some (py "T-2")).
Proof. vm_compute. split_and!; reflexivity. Qed.

(** The supervisor hands the router no pending operation and no snapshot: recovery,
    which outranks all work, is never seen. *)
Lemma pending_operation_unseen :
  as_class (assess_sample building_state building_board (Projections [] [py "op-1"] [] None None None None)) = RECOVERY_AVAILABLE ∧
  ∀ x now s e, pc_assessment (observe x now s e) =
    assess_continuation (sc_install x) (sc_world x) (sc_protocol_home x) (Some (sc_state x)) (Some (sc_board x))
      (Projections [] [] [] (sc_inbox x) (sc_queued x) (sc_append x) (sc_gate x)) now None None.
Proof. split; [vm_compute; reflexivity|done]. Qed.
