(* ===== verification/Requires.v ===== *)
(** * What a step requires of its executor

    The capability half of [tools/saipen_engine/iteration_verdict.py]: what a host
    advertises on the vocabulary of the engine, what a phase and a ticket require, and
    the field [requires:] of a ticket, parsed and written. *)

From S2P Require Import Prelude PyStr PyStrFacts PyUnicode PyRegex PyDict BoardBlockers Phases StateDoc StateWait Iteration.

(** ** The vocabulary *)

Definition FILESYSTEM_READ : pystr := "filesystem_read".
Definition FILESYSTEM_WRITE : pystr := "filesystem_write".
Definition PROCESS_EXECUTION : pystr := "process_execution".
Definition GIT : pystr := "git".
Definition PYTHON : pystr := "python".
Definition PATCH_APPLICATION : pystr := "patch_application".
Definition SAIPEN_CONTROL : pystr := "saipen_control".
Definition SEMANTIC_CAPABILITIES : gset pystr :=
  list_to_set [FILESYSTEM_READ; FILESYSTEM_WRITE; PROCESS_EXECUTION; GIT; PYTHON; PATCH_APPLICATION; SAIPEN_CONTROL].

(** What a phase executes beyond reading and reaching the control plane; a phase not
    named here needs the whole set. *)
Definition _PHASE_EXECUTION : dict pystr (gset pystr) :=
  [(py "SCOUT", ∅); (py "VERIFY", {[PROCESS_EXECUTION]}); (py "REVIEW", {[PROCESS_EXECUTION]})].
Definition _TREE_MUTATION : gset pystr := {[FILESYSTEM_WRITE; PATCH_APPLICATION]}.

Definition _RUNS_PROCESSES : gset pystr := {[PROCESS_EXECUTION; SAIPEN_CONTROL]}.
Definition _HOST_TOOL_ALIASES : dict pystr (gset pystr) :=
  let named (l : list string) (s : gset pystr) := (λ n, (py n, s)) <$> l in
  [(py "filesystem", {[FILESYSTEM_READ; FILESYSTEM_WRITE; PATCH_APPLICATION]})]
  ++ named ["filesystem_read"; "file_read"; "read"] {[FILESYSTEM_READ]}
  ++ named ["filesystem_write"; "file_write"; "write_file"] {[FILESYSTEM_WRITE; PATCH_APPLICATION]}
  ++ named ["shell"; "bash"; "sh"; "terminal"; "process_execution"; "command_execution"; "exec"] _RUNS_PROCESSES
  ++ named ["saipen_control"; "saipen"; "saipen_cli"; "control_plane"] {[SAIPEN_CONTROL]}
  ++ named ["patch"; "patch_application"; "apply_patch"] {[PATCH_APPLICATION]}
  ++ [(py "git", {[GIT]}); (py "python", {[PYTHON]}); (py "python3", {[PYTHON]})].
Definition _STATE_TOKEN_REQUIRES : dict pystr (gset pystr) :=
  dset (py "filesystem") {[FILESYSTEM_READ; FILESYSTEM_WRITE]} _HOST_TOOL_ALIASES.

Definition _IDENTITY_KEYS : list pystr :=
  strs ["model"; "provider"; "route"; "candidate"; "id"; "name"; "executor"; "incarnation"; "variant"; "effort"; "harness"].

(** ** What a candidate is granted *)

Definition _cap_truthy (v : advertised) : bool := _truthy v.

Definition normalize_capabilities (raw : capabilities) : gset pystr :=
  ⋃ ((λ e : pystr * advertised,
        let name := lower (strip e.1) in
        if mem name _IDENTITY_KEYS || negb (_cap_truthy e.2) then ∅ else default ∅ (dget name _HOST_TOOL_ALIASES)) <$> raw)
  ∩ SEMANTIC_CAPABILITIES.

Definition _EXPLICIT_NAME_CHARS : nat := 64.
Definition _EXPLICIT_NAME_LIMIT : nat := 64.

(** A name no alias translates. *)
Definition own_name (name : pystr) : bool :=
  nonempty name && (length name <=? _EXPLICIT_NAME_CHARS)%nat && negb (mem name _IDENTITY_KEYS)
  && negb (dmem name _HOST_TOOL_ALIASES) && negb (bool_decide (name ∈ SEMANTIC_CAPABILITIES)).

Definition explicit_grants (raw : capabilities) : gset pystr :=
  let names := omap (λ e : pystr * advertised,
                       let name := lower (strip e.1) in if own_name name && _cap_truthy e.2 then Some name else None) raw in
  list_to_set (take _EXPLICIT_NAME_LIMIT (sorted names)).

Definition granted_capabilities (raw : capabilities) : gset pystr := normalize_capabilities raw ∪ explicit_grants raw.

(** ** What a step requires *)

(** [str(phase or "").strip().upper()] *)
Definition phase_name (phase : option pystr) : pystr := upper (strip (default [] phase)).

Definition required_for_state (state_requires : list pystr) (phase : option pystr) : gset pystr :=
  let tokens := base.filter (λ t, nonempty t && negb (mem t _IDENTITY_KEYS) = true) ((λ n, lower (strip n)) <$> state_requires) in
  let required := ⋃ ((λ t, default {[t]} (dget t _STATE_TOKEN_REQUIRES)) <$> tokens) ∪ {[SAIPEN_CONTROL]} in
  match dget (phase_name phase) _PHASE_EXECUTION with
  | None => required ∪ {[PROCESS_EXECUTION; PATCH_APPLICATION]}
  | Some execution => (required ∖ _TREE_MUTATION) ∪ execution
  end.

Definition READ_ONLY : pystr := "read_only".
Definition TICKET_REQUIRES_INVALID : pystr := "ticket_requires_invalid".
Definition _READ_ONLY_SET : gset pystr := {[FILESYSTEM_READ; SAIPEN_CONTROL]}.
Definition name_start (c : N) : bool := is_az c.
Definition name_char (c : N) : bool := is_az c || is_ascii_digit c || (c =? 95)%N.
(** [[a-z][a-z0-9_]{0,63}] *)
Definition _REQUIRE_NAME : re := Seq (Chr name_start) (rep_upto 63 name_char).

(** [phases.all] of REGISTRY. *)
Definition _known_phases : list pystr := ALL_PHASES.

(** The capabilities of a ticket, each with the phases it is needed in, none for all. *)
Abbreviation requirements := (dict pystr (list pystr)).

Inductive requires_error : Type := NotAName (item : pystr) | NoPhase (item : pystr) | ScopedReadOnly.

(** One item of the comma list. *)
Definition merge_requirement (name : pystr) (phases : list pystr) (spec : requirements) : requirements :=
  match dget name spec with
  | Some old =>
      if bool_decide (old = []) || bool_decide (phases = []) then dset name [] spec else dset name (fromkeys (old ++ phases)) spec
  | None => dset name (fromkeys phases) spec
  end.

Definition parse_item (item : pystr) (p : requirements * bool) : res requires_error (requirements * bool) :=
  let '(name, scope) := partition "@" item in
  let name := lower (strip name) in
  if negb (is_full _REQUIRE_NAME name) || mem name _IDENTITY_KEYS then Err (NotAName item)
  else
    let phases := match scope with Some s => (λ q, upper (strip q)) <$> split "+" s | None => [] end in
    if negb (forallb (λ q, mem q _known_phases) phases) then Err (NoPhase item)
    else if name =s READ_ONLY then
      if bool_decide (is_Some scope) then Err ScopedReadOnly else Ok (p.1, true)
    else Ok (merge_requirement name phases p.1, p.2).

Fixpoint parse_items (parts : list pystr) (p : requirements * bool) : res requires_error (requirements * bool) :=
  match parts with
  | [] => Ok p
  | part :: parts' =>
      match strip part with
      | [] => parse_items parts' p
      | item => p' ← parse_item item p; parse_items parts' p'
      end
  end.
Definition parse_ticket_requires (raw : pystr) : res requires_error (requirements * bool) := parse_items (split "," raw) ([], false).

Definition format_item (e : pystr * list pystr) : pystr :=
  match e.2 with [] => e.1 | phases => e.1 +s "@" +s join "+" phases end.
Definition format_ticket_requires (spec : requirements) (read_only : bool) : pystr :=
  join ", " ((if read_only then [READ_ONLY] else []) ++ (format_item <$> spec)).

Definition required_for_ticket (base : gset pystr) (raw : option pystr) (phase : option pystr) : gset pystr :=
  match raw with
  | None | Some [] => base
  | Some raw =>
      match parse_ticket_requires raw with
      | Err _ => base ∪ {[TICKET_REQUIRES_INVALID]}
      | Ok (spec, read_only) =>
          let current := phase_name phase in
          (if read_only then _READ_ONLY_SET else base)
          ∪ ⋃ ((λ e : pystr * list pystr,
                 if bool_decide (e.2 = []) || mem current e.2 then default {[e.1]} (dget e.1 _STATE_TOKEN_REQUIRES) else ∅) <$> spec)
      end
  end.

(** ** Admission *)

Definition admit_normalized (candidate : capabilities) (required : gset pystr) : bool * gset pystr :=
  admit_candidate ((λ name, (name, ABool true)) <$> elements (granted_capabilities candidate)) required.

(** ** The field is read back *)

(** The characters of a written requirement that are no separators. *)
Definition word_char (c : N) : bool := name_char c || is_AZ c.

Lemma ascii_all (P : N → bool) c : forallb P (N.of_nat <$> seq 0 128) = true → (c < 128)%N → P c = true.
Proof.
  intros H Hc. rewrite forallb_forall in H. apply H. apply list_elem_of_In, list_elem_of_fmap. exists (N.to_nat c).
  split; [lia|]. apply elem_of_seq. lia.
Qed.

Lemma word_char_ascii c : word_char c = true → (c < 128)%N.
Proof. unfold word_char, name_char, is_az, is_AZ, is_ascii_digit, in_range. intros H.
  repeat (apply orb_true_iff in H as [H|H]); bool_tac; N_bounds; lia.
Qed.

Lemma word_char_plain c : word_char c = true →
  is_space c = false ∧ c ≠ 44%N ∧ c ≠ 64%N ∧ c ≠ 43%N ∧ (name_char c = true → lower_char c = [c]).
Proof.
  intros Hc. pose proof (word_char_ascii c Hc) as Ha.
  assert (implb (word_char c) (negb (is_space c) && negb (c =? 44)%N && negb (c =? 64)%N && negb (c =? 43)%N
    && implb (name_char c) (bool_decide (lower_char c = [c]))) = true) as H.
  { refine (ascii_all (λ c, implb (word_char c) (negb (is_space c) && negb (c =? 44)%N && negb (c =? 64)%N && negb (c =? 43)%N
    && implb (name_char c) (bool_decide (lower_char c = [c])))) c _ Ha). vm_compute. reflexivity. }
  rewrite Hc in H. cbn [implb] in H. bool_tac. split_and!; [done|by apply N.eqb_neq..|]. intros Hn. rewrite Hn in *. cbn [implb] in *. by bool_tac.
Qed.

Definition wordy (s : pystr) : Prop := Forall (λ c, word_char c = true) s.

Lemma wordy_free s : wordy s → (44%N ∉ s) ∧ (64%N ∉ s) ∧ (43%N ∉ s).
Proof.
  intros Hs. unfold wordy in Hs. rewrite Forall_forall in Hs. split_and!; intros H; by destruct (word_char_plain _ (Hs _ H)) as (? & ? & ? & ? & _).
Qed.

Lemma wordy_trimmed s : wordy s → trimmed s.
Proof.
  intros Hs. unfold wordy in Hs. rewrite Forall_forall in Hs. split; intros c Hc; apply (word_char_plain c), Hs.
  - destruct s; [done|]. injection Hc as ->. by left.
  - by apply last_Some_elem_of.
Qed.

(** A name the grammar reads. *)
Definition named (n : pystr) : Prop := is_full _REQUIRE_NAME n = true.

Lemma lang_rep_upto n P p : lang (rep_upto n P) p ↔ length p ≤ n ∧ Forall (λ d, P d = true) p.
Proof.
  revert p. induction n as [|n IH]; intros p; cbn [rep_upto lang].
  - split; [by intros ->|]. intros [Hl _]. destruct p; [done|simpl in Hl; lia].
  - split.
    + intros [(? & p2 & -> & (d & -> & Hd) & [Hl Hp]%IH)| ->]; [|split; [simpl; lia|constructor]]. simpl. split; [lia|by constructor].
    + intros [Hl Hp]. destruct p as [|d p]; [by right|left]. inversion_clear Hp. exists [d], p.
      split_and!; [done|by exists d|]. apply IH. split; [simpl in Hl; lia|done].
Qed.

Lemma named_exact n : named n ↔ length n ≤ 64 ∧ (∃ c, head n = Some c ∧ is_az c = true) ∧ Forall (λ c, name_char c = true) n.
Proof.
  unfold named, _REQUIRE_NAME. rewrite is_full_spec by reflexivity. cbn [lang]. setoid_rewrite lang_rep_upto. split.
  - intros (? & p & -> & (c & -> & Hc) & Hl & Hp). split_and!; [simpl; lia|by exists c|]. constructor; [|done].
    unfold name_char. unfold name_start in Hc. by rewrite Hc.
  - intros (Hl & (c & Hh & Hc) & Hf). destruct n as [|d n]; [done|]. injection Hh as ->. inversion_clear Hf.
    exists [c], n. split_and!; [done|by exists c|simpl in Hl; lia|done].
Qed.

Lemma named_wordy n : named n → n ≠ [] ∧ wordy n ∧ lower n = n.
Proof.
  intros (_ & (c & Hh & _) & Hf)%named_exact. split_and!; [by destruct n| |].
  - eapply Forall_impl; [exact Hf|]. intros d Hd. unfold word_char. by rewrite Hd.
  - unfold lower. clear Hh. induction Hf as [|d n Hd _ IH]; [done|]. rewrite bind_cons, IH.
    assert (word_char d = true) as Hw by (unfold word_char; by rewrite Hd).
    destruct (word_char_plain d Hw) as (_ & _ & _ & _ & ->); [done|by rewrite Hd].
Qed.

Lemma phase_wordy p : p ∈ _known_phases → p ≠ [] ∧ wordy p ∧ upper p = p.
Proof.
  intros Hp. assert (nonempty p && forallb word_char p && bool_decide (upper p = p) = true) as H.
  { refine (known_cases (λ p, nonempty p && forallb word_char p && bool_decide (upper p = p)) p _ Hp). by vm_compute. }
  apply andb_true_iff in H as [[Hn Hf]%andb_true_iff Hu%bool_decide_eq_true]. split_and!; [by destruct p| |done].
  unfold wordy. rewrite Forall_forall. intros c Hc. rewrite forallb_forall in Hf. by apply Hf, list_elem_of_In.
Qed.

(** Cutting at one character. *)
Lemma split_at c a s : c ∉ a → split [c] (a ++ c :: s) = a :: split [c] s.
Proof.
  unfold split. intros Ha. assert (∀ acc, split_go [c] 0 acc (a ++ c :: s) = (reverse acc ++ a) :: split_go [c] 0 [] s) as H; [|by rewrite H].
  induction a as [|d a IH]; intros acc.
  - change ([] ++ c :: s) with ([c] ++ s). rewrite split_go_hit by done. by rewrite app_nil_r.
  - rewrite not_elem_of_cons in Ha. destruct Ha as [Hd Ha]. cbn [app]. rewrite split_go_miss by (apply startswith_head; cbn; congruence).
    rewrite (IH Ha). by rewrite reverse_cons, <-(assoc_L (++)).
Qed.

Lemma split_joined c (pad : pystr) l :
  c ∉ pad → l ≠ [] → Forall (λ s, c ∉ s) l →
  split [c] (join (c :: pad) l) = match l with [] => [] | s :: l' => s :: ((app pad) <$> l') end.
Proof.
  intros Hp Hne Hl. assert (∀ s0 s l, c ∉ s0 → Forall (λ s, c ∉ s) (s :: l) →
    split [c] (s0 ++ join (c :: pad) (s :: l)) = (s0 ++ s) :: ((app pad) <$> l)) as H.
  { clear l Hne Hl. intros s0 s l. revert s0 s. induction l as [|t l IH]; intros s0 s Hs0 Hl.
    - cbn. rewrite (split_one [c] c) by (done || rewrite not_elem_of_app; by inversion_clear Hl). done.
    - inversion_clear Hl as [|? ? Hs Hl']. rewrite join_cons by done. rewrite (assoc_L (++)). cbn [app].
      rewrite split_at by (rewrite not_elem_of_app; done). by rewrite (IH pad t) by done. }
  destruct l as [|s l]; [done|]. by apply (H [] s l); [apply not_elem_of_nil|].
Qed.

Lemma partition_at c a s : c ∉ a → partition [c] (a ++ c :: s) = (a, Some s).
Proof.
  unfold partition. intros Ha. assert (∀ acc, partition_go [c] acc (a ++ c :: s) = (reverse acc ++ a, Some s)) as H; [|by rewrite H].
  induction a as [|d a IH]; intros acc; cbn.
  - by rewrite N.eqb_refl, app_nil_r.
  - rewrite not_elem_of_cons in Ha. rewrite (proj2 (N.eqb_neq c d)) by naive_solver. rewrite IH by naive_solver.
    by rewrite reverse_cons, <-(assoc_L (++)).
Qed.
Lemma partition_none c a : c ∉ a → partition [c] a = (a, None).
Proof.
  unfold partition. intros Ha. assert (∀ acc, partition_go [c] acc a = (reverse acc ++ a, None)) as H; [|by rewrite H].
  induction a as [|d a IH]; intros acc; cbn; [by rewrite app_nil_r|].
  rewrite not_elem_of_cons in Ha. rewrite (proj2 (N.eqb_neq c d)) by naive_solver. rewrite IH by naive_solver.
  by rewrite reverse_cons, <-(assoc_L (++)).
Qed.

(** A requirement in its stored form. *)
Definition stored (e : pystr * list pystr) : Prop :=
  named e.1 ∧ (e.1 ∉ _IDENTITY_KEYS) ∧ e.1 ≠ READ_ONLY ∧ NoDup e.2 ∧ Forall (λ p, p ∈ _known_phases) e.2.

Lemma fromkeys_NoDup (l : list pystr) : NoDup l → fromkeys l = l.
Proof.
  unfold fromkeys. intros Hl. assert (∀ seen, (∀ x, x ∈ l → x ∉ seen) → nub seen l = l) as H; [|apply H; intros; apply not_elem_of_nil].
  induction Hl as [|x l Hx _ IH]; intros seen Hs; [done|]. cbn [nub]. rewrite bool_decide_eq_false_2 by (apply Hs; left).
  f_equal. apply IH. intros y Hy. rewrite not_elem_of_cons. split; [by intros ->|]. apply Hs. by right.
Qed.

Lemma parse_name n : named n → strip n = n ∧ lower n = n.
Proof. intros (_ & Hw & Hl)%named_wordy. split; [by apply strip_trimmed, wordy_trimmed|done]. Qed.

Lemma fmap_fixed (f : pystr → pystr) l : Forall (λ s, f s = s) l → f <$> l = l.
Proof. induction 1 as [|s l Hs _ IH]; [done|]. cbn. by rewrite Hs, IH. Qed.

Lemma parse_phases l : l ≠ [] → Forall (λ p, p ∈ _known_phases) l → (λ q, upper (strip q)) <$> split "+" (join "+" l) = l.
Proof.
  intros Hne Hl. change (py "+") with [43%N]. rewrite (split_joined 43 []); [|apply not_elem_of_nil|done|].
  - assert ((match l with [] => [] | s :: l' => s :: (app [] <$> l') end) = l) as ->.
    { destruct l as [|p l]; [done|]. f_equal. induction l as [|q l' IH]; [done|]. cbn. f_equal. apply IH; [done|].
      inversion_clear Hl as [|? ? Hp Hl']. inversion_clear Hl'. by constructor. }
    apply fmap_fixed. eapply Forall_impl; [exact Hl|]. intros q (_ & Hw & Hu)%phase_wordy. cbv beta.
    by rewrite strip_trimmed by by apply wordy_trimmed.
  - eapply Forall_impl; [exact Hl|]. intros q (_ & Hw & _)%phase_wordy. by apply wordy_free.
Qed.

Lemma parse_stored e spec ro :
  stored e → dget e.1 spec = None →
  parse_item (format_item e) (spec, ro) = Ok (spec ++ [e], ro).
Proof.
  destruct e as [n ps]. unfold stored. cbn [fst snd]. intros (Hn & Hi & Hr & Hnd & Hps) Hd.
  pose proof (named_wordy n Hn) as (_ & Hw & _). destruct (parse_name n Hn) as [Hs Hlo]. pose proof (wordy_free n Hw) as (_ & Hat & _).
  assert (partition "@" (format_item (n, ps)) = (n, match ps with [] => None | _ => Some (join "+" ps) end)) as Hp.
  { change (py "@") with [64%N]. unfold format_item. cbn [fst snd]. destruct ps as [|p ps]; [by apply partition_none|].
    unfold cat. change (py "@") with [64%N]. cbn [app]. by apply partition_at. }
  unfold parse_item. rewrite Hp, Hs, Hlo. unfold named in Hn. rewrite Hn. cbn [negb orb]. unfold mem at 1.
  rewrite bool_decide_eq_false_2 by done.
  assert ((match (match ps with [] => None | _ => Some (join "+" ps) end) with
           | Some s => (λ q, upper (strip q)) <$> split "+" s | None => [] end) = ps) as ->.
  { destruct ps as [|p ps]; [done|]. by apply parse_phases. }
  assert (forallb (λ q, mem q _known_phases) ps = true) as ->.
  { apply forallb_forall. intros q Hq%list_elem_of_In. apply mem_true. rewrite Forall_forall in Hps. by apply Hps. }
  cbn [negb]. unfold eqs. rewrite bool_decide_eq_false_2 by done. unfold merge_requirement. cbn [fst snd]. rewrite Hd.
  by rewrite fromkeys_NoDup, dset_new.
Qed.

Definition item_char (c : N) : bool := word_char c || (c =? 64)%N || (c =? 43)%N.

Lemma join_chars (P : N → bool) sep l :
  Forall (λ c, P c = true) sep → Forall (λ s, Forall (λ c, P c = true) s) l → Forall (λ c, P c = true) (join sep l).
Proof.
  intros Hs. induction 1 as [|s l Hp Hl IH]; [constructor|]. destruct l as [|t l]; [done|]. rewrite join_cons by done.
  by rewrite !Forall_app.
Qed.

Lemma wordy_items s : wordy s → Forall (λ c, item_char c = true) s.
Proof. intros H. eapply Forall_impl; [exact H|]. intros c Hc. unfold item_char. by rewrite Hc. Qed.

Lemma format_chars e : stored e → format_item e ≠ [] ∧ Forall (λ c, item_char c = true) (format_item e).
Proof.
  intros (Hn & _ & _ & _ & Hps). destruct (named_wordy _ Hn) as (Hne & Hw%wordy_items & _). destruct e as [n ps].
  unfold format_item. cbn [fst snd] in *. destruct ps as [|p ps]; [done|]. split; [by destruct n|]. unfold cat. rewrite !Forall_app. split_and!; [done| |].
  - by repeat constructor.
  - apply join_chars; [by repeat constructor|]. eapply Forall_impl; [exact Hps|]. intros q (_ & Hq & _)%phase_wordy. by apply wordy_items.
Qed.

Lemma item_clean s : Forall (λ c, item_char c = true) s → (44%N ∉ s) ∧ trimmed s.
Proof.
  intros H. rewrite Forall_forall in H. assert (∀ c, c ∈ s → c ≠ 44%N ∧ is_space c = false) as Hc.
  { intros c Hin. specialize (H c Hin). unfold item_char in H. apply orb_true_iff in H as [[H|H]%orb_true_iff|H].
    - by destruct (word_char_plain c H) as (? & ? & _).
    - apply N.eqb_eq in H as ->. done.
    - apply N.eqb_eq in H as ->. done. }
  split; [by intros [? _]%Hc|]. split; intros c E; apply (Hc c); [destruct s; [done|]; injection E as ->; by left|by apply last_Some_elem_of].
Qed.

Lemma parse_items_strip parts p : parse_items (strip <$> parts) p = parse_items parts p.
Proof.
  revert p. induction parts as [|s parts IH]; intros p; [done|]. cbn. rewrite strip_idemp. destruct (strip s) eqn:E; [done|].
  destruct (parse_item _ p); [apply IH|done].
Qed.

Lemma strip_pieces l :
  l ≠ [] → Forall (λ s, Forall (λ c, item_char c = true) s) l → strip <$> split "," (join ", " l) = l.
Proof.
  intros Hne Hl. change (py ",") with [44%N]. change (py ", ") with (44%N :: [32%N]).
  rewrite split_joined; [|by rewrite list_elem_of_singleton|done|eapply Forall_impl; [exact Hl|]; intros s Hs; by apply item_clean].
  assert (Forall (λ s, strip s = s ∧ strip ([32%N] ++ s) = s) l) as H.
  { eapply Forall_impl; [exact Hl|]. intros s (_ & Ht)%item_clean. split; [by apply strip_trimmed|]. by apply (strip_trimmed s). }
  destruct H as [|s l [Hs _] H]; [done|]. change (strip s :: (strip <$> (app [32%N] <$> l)) = s :: l).
  rewrite Hs, <-list_fmap_compose. f_equal. apply fmap_fixed. eapply Forall_impl; [exact H|]. by intros t [_ Ht].
Qed.

Lemma parse_items_cons s l p : strip s = s → s ≠ [] → parse_items (s :: l) p = (p' ← parse_item s p; parse_items l p').
Proof. intros Hs Hne. cbn [parse_items]. rewrite Hs. by destruct s. Qed.

Lemma parse_items_stored l spec ro :
  Forall stored l → NoDup (dkeys (spec ++ l)) → parse_items (format_item <$> l) (spec, ro) = Ok (spec ++ l, ro).
Proof.
  intros Hl. revert spec. induction Hl as [|e l He _ IH]; intros spec Hnd; [by rewrite app_nil_r|].
  destruct (format_chars e He) as (Hne & Hc). destruct (item_clean _ Hc) as (_ & Ht).
  cbn [fmap list_fmap]. rewrite (parse_items_cons _ _ _ (strip_trimmed _ Ht) Hne).
  assert (dget e.1 spec = None) as Hd.
  { apply dget_None. unfold dkeys in Hnd. rewrite fmap_app, NoDup_app in Hnd. destruct Hnd as (_ & Hdis & _). intros Hin. apply (Hdis _ Hin). left. }
  rewrite parse_stored by done. cbn. rewrite IH; by rewrite <-(assoc_L (++)).
Qed.

Lemma parse_read_only p : parse_item READ_ONLY p = Ok (p.1, true).
Proof.
  unfold parse_item. assert (partition "@" READ_ONLY = (READ_ONLY, None)) as -> by (vm_compute; reflexivity).
  assert (lower (strip READ_ONLY) = READ_ONLY) as -> by (vm_compute; reflexivity).
  assert (is_full _REQUIRE_NAME READ_ONLY = true) as -> by (vm_compute; reflexivity).
  assert (mem READ_ONLY _IDENTITY_KEYS = false) as -> by (vm_compute; reflexivity).
  cbn [negb orb forallb]. unfold eqs. rewrite bool_decide_eq_true_2 by done. by rewrite bool_decide_eq_false_2 by by intros [].
Qed.

(** What is parsed is stored. *)
Definition stored_spec (spec : requirements) : Prop := Forall stored spec ∧ NoDup (dkeys spec).

Lemma stored_dset n ps spec : stored (n, ps) → stored_spec spec → stored_spec (dset n ps spec).
Proof.
  intros Hs [Hf Hnd]. split; [|by apply wf_dset]. rewrite Forall_forall in *. intros e [->|He]%elem_of_dset; [done|by apply Hf].
Qed.

Lemma parse_item_keeps item p p' : stored_spec p.1 → parse_item item p = Ok p' → stored_spec p'.1.
Proof.
  intros Hp. unfold parse_item. destruct (partition "@" item) as [name scope]. set (n := lower (strip name)).
  destruct (is_full _REQUIRE_NAME n) eqn:En; [|done]. destruct (mem n _IDENTITY_KEYS) eqn:Ei; [done|]. cbn [negb orb].
  set (phases := match scope with Some s => _ | None => [] end). destruct (forallb _ phases) eqn:Ef; [|done]. cbn [negb].
  destruct (n =s READ_ONLY) eqn:Er; [destruct (bool_decide _); [done|]; by intros [= <-]|]. intros [= <-]. cbn [fst].
  assert (∀ l, (∀ q, q ∈ l → q ∈ _known_phases) → NoDup l → stored (n, l)) as Hst.
  { intros l Hk Hnd. split_and!; [done| | |done|by apply Forall_forall]; cbn.
    - intros Hin%mem_true. change (mem n _IDENTITY_KEYS = true) in Hin. by rewrite Hin in Ei.
    - intros En'. change (n = READ_ONLY) in En'. unfold eqs in Er. by rewrite bool_decide_eq_true_2 in Er. }
  assert (∀ q, q ∈ phases → q ∈ _known_phases) as Hph.
  { intros q Hq. rewrite forallb_forall in Ef. apply mem_true, Ef. by apply list_elem_of_In. }
  unfold merge_requirement. destruct (dget n p.1) as [old|] eqn:Ed.
  - destruct (_ || _); (apply stored_dset; [apply Hst|done]); [by intros ? ?%elem_of_nil|constructor| |apply NoDup_nub].
    intros q [[Hq|Hq]%elem_of_app _]%elem_of_nub; [|by apply Hph]. destruct Hp as [Hf _]. rewrite Forall_forall in Hf.
    apply dget_Some_elem in Ed. destruct (Hf _ Ed) as (_ & _ & _ & _ & Hk). rewrite Forall_forall in Hk. by apply Hk.
  - apply stored_dset; [|done]. apply Hst; [|apply NoDup_nub]. intros q [Hq _]%elem_of_nub. by apply Hph.
Qed.

Lemma parse_items_keeps parts p p' : stored_spec p.1 → parse_items parts p = Ok p' → stored_spec p'.1.
Proof.
  revert p. induction parts as [|s parts IH]; intros p Hp; cbn; [by intros [= <-]|]. destruct (strip s) as [|c t]; [by apply IH|].
  intros (p1 & H1 & H2)%res_bind_Ok. apply (IH p1); [|done]. by apply (parse_item_keeps (c :: t) p).
Qed.

(** The field [requires:] of a ticket, once parsed, is written in one spelling that
    reads back as what was parsed: the requirements in their order, each with its
    phases, and whether the ticket only reads. *)
Theorem requires_roundtrip raw spec ro :
  parse_ticket_requires raw = Ok (spec, ro) → parse_ticket_requires (format_ticket_requires spec ro) = Ok (spec, ro).
Proof.
  intros H. apply parse_items_keeps in H as [Hf Hnd]; [|split; constructor]. cbn [fst] in *. unfold parse_ticket_requires, format_ticket_requires.
  assert (Forall (λ s, Forall (λ c, item_char c = true) s) (format_item <$> spec)) as Hc.
  { apply Forall_fmap. eapply Forall_impl; [exact Hf|]. intros e He. by apply format_chars. }
  rewrite <-parse_items_strip. destruct ro.
  - rewrite strip_pieces by (done || (constructor; [by apply wordy_items, (named_wordy READ_ONLY)|done])).
    cbn [app]. rewrite parse_items_cons by (done || vm_compute; reflexivity). rewrite parse_read_only. cbn. by apply (parse_items_stored spec []).
  - cbn [app]. destruct spec as [|e spec]; [vm_compute; reflexivity|]. rewrite strip_pieces by done. by apply (parse_items_stored (e :: spec) []).
Qed.

(** ** Admission *)

(** The capabilities of a list of names. *)
Definition all_of (l : list pystr) : capabilities := (λ n, (n, ABool true)) <$> l.

Lemma granted_dget (s : gset pystr) (name : pystr) : _truthy (default (ABool false) (dget name (all_of (elements s)))) = bool_decide (name ∈ s).
Proof.
  assert (∀ l : list pystr, _truthy (default (ABool false) (dget name (all_of l))) = bool_decide (name ∈ l)) as H.
  { induction l as [|n l IH]; [done|]. change (all_of (n :: l)) with ((n, ABool true) :: all_of l). cbn [dget].
    destruct (decide (name = n)) as [->|Hne].
    { rewrite (bool_decide_eq_true_2 (n = n)) by done. cbn. by rewrite (bool_decide_eq_true_2 (n ∈ n :: l)) by left. }
    rewrite (bool_decide_eq_false_2 (name = n)) by done. etrans; [exact IH|]. apply bool_decide_ext. rewrite elem_of_cons. naive_solver. }
  rewrite H. apply bool_decide_ext. by rewrite elem_of_elements.
Qed.

(** A candidate is admitted exactly when it was granted all that the step requires. *)
Lemma admit_exact candidate required :
  (admit_normalized candidate required).1 = true ↔ required ⊆ granted_capabilities candidate.
Proof.
  unfold admit_normalized. rewrite admit_true. change ((λ name, (name, ABool true)) <$> elements (granted_capabilities candidate)) with (all_of (elements (granted_capabilities candidate))).
  setoid_rewrite granted_dget. setoid_rewrite bool_decide_eq_true. done.
Qed.

Lemma charge_reading (r t e : gset pystr) c : c ∉ t → t ## e → c ∈ (r ∪ {[c]}) ∖ t ∪ e ∧ t ## (r ∪ {[c]}) ∖ t ∪ e.
Proof. set_solver. Qed.
Lemma charge_all (r e : gset pystr) c : c ∈ r ∪ {[c]} ∪ e ∧ e ⊆ r ∪ {[c]} ∪ e.
Proof. set_solver. Qed.

(** Reaching the control plane is always required; the phases that read or run do not
    charge for editing the tree, and every other phase requires running and patching. *)
Lemma phase_charge requires phase :
  SAIPEN_CONTROL ∈ required_for_state requires phase ∧
  if decide (phase_name phase ∈ strs ["SCOUT"; "VERIFY"; "REVIEW"])
  then _TREE_MUTATION ## required_for_state requires phase
  else {[PROCESS_EXECUTION; PATCH_APPLICATION]} ⊆ required_for_state requires phase.
Proof.
  unfold required_for_state. generalize (⋃ ((λ t, default {[t]} (dget t _STATE_TOKEN_REQUIRES)) <$>
    base.filter (λ t, nonempty t && negb (mem t _IDENTITY_KEYS) = true) ((λ n, lower (strip n)) <$> requires))). intros r.
  assert (SAIPEN_CONTROL ∉ _TREE_MUTATION) as Hc by (apply (bool_decide_unpack _); by vm_compute).
  destruct (decide _) as [Hin|Hin].
  - assert (∃ e, dget (phase_name phase) _PHASE_EXECUTION = Some e ∧ _TREE_MUTATION ## e) as (e & -> & He); [|by apply charge_reading].
    assert (_TREE_MUTATION ## ({[PROCESS_EXECUTION]} : gset pystr)) as Hp.
    { apply disjoint_singleton_r. apply (bool_decide_unpack _). by vm_compute. }
    apply elem_of_cons in Hin as [->|[->|[->|[]%elem_of_nil]%elem_of_cons]%elem_of_cons];
      [exists ∅; split; [done|apply disjoint_empty_r]|by exists {[PROCESS_EXECUTION]}..].
  - assert (dget (phase_name phase) _PHASE_EXECUTION = None) as ->; [apply dget_None; exact Hin|apply charge_all].
Qed.

(** ** Where code and documents part *)

(** The mark of a declaration that cannot be read is said to be granted by nobody: a
    candidate that advertises its name is granted it, and is admitted. *)
Lemma unreadable_requirement_admits :
  let candidate : capabilities := [(py "shell", ABool true); (py "patch", ABool true); (py "ticket_requires_invalid", ABool true)] in
  let required := required_for_ticket (required_for_state [] (Some (py "BUILD"))) (Some (py "gpu@NEVER")) (Some (py "BUILD")) in
  parse_ticket_requires "gpu@NEVER" = Err (NoPhase "gpu@NEVER") ∧ (admit_normalized candidate required).1 = true.
Proof. split; vm_compute; reflexivity. Qed.

Lemma sample_requires :
  parse_ticket_requires " GUI@BUILD+verify, git ,gui@SHIP, read_only, gui@BUILD" =
    Ok ([(py "gui", strs ["BUILD"; "VERIFY"; "SHIP"]); (py "git", [])], true).
Proof. vm_compute. reflexivity. Qed.

Lemma requires_roundtrip_witness :
  parse_ticket_requires (format_ticket_requires [(py "gui", strs ["BUILD"; "VERIFY"; "SHIP"]); (py "git", [])] true)
  = Ok ([(py "gui", strs ["BUILD"; "VERIFY"; "SHIP"]); (py "git", [])], true).
Proof. apply (requires_roundtrip " GUI@BUILD+verify, git ,gui@SHIP, read_only, gui@BUILD"). vm_compute. reflexivity. Defined.
