(* ===== verification/IterationVerdict.v ===== *)
(** * The verdict after a turn

    [project_iteration_verdict] of [tools/saipen_engine/iteration_verdict.py]: the
    decision of [Iteration], on what the documents, the assessment and the advertised
    tools of the executor say. *)

From S2P Require Import Prelude PyStr PyStrFacts PyDict BoardClock BoardParse BoardClaims BoardGraph BoardBlockers.
From S2P Require Import StateDoc StateWait StateContract AuditInbox Router RouterFacts Gates GateFacts Assessment Iteration Requires.

Definition ITERATION_VERDICT_SCHEMA : Z := 1.

Inductive admission : Type := ADMISSION_UNASSESSED | ADMISSION_ADMIT | ADMISSION_REJECT.
Inductive admission_next : Type := NEXT_NONE | NEXT_FAILOVER | NEXT_NO_COMPATIBLE_EXECUTOR.

Record turn_verdict : Type := TurnVerdict {
  tv_schema : Z;
  tv_decision : turn_decision;
  tv_goal_complete : bool;
  tv_executable_action_remains : bool;
  tv_operator_due : bool;
  tv_valve_tripped : bool;
  tv_task : pystr;
  tv_assessed : bool;
  tv_compatible : bool;
  tv_required : gset pystr;
  tv_missing : gset pystr;
  tv_admission : admission;
  tv_next : admission_next;
  tv_route_reason : pystr;
  tv_readable : bool;
}.
Definition tv_requires_human (v : turn_verdict) : bool := bool_decide (tv_decision v = OPERATOR_WAIT).

Definition _unreadable (d : turn_decision) (reason task : pystr) : turn_verdict :=
  TurnVerdict ITERATION_VERDICT_SCHEMA d false false false false task false false ∅ ∅ ADMISSION_UNASSESSED NEXT_NONE reason false.

(** [str] of a list item. *)
Definition scalar_text (s : scalar) : pystr :=
  match s with SStr s => s | SBool b => if b then py "True" else py "False" | SInt n => str_of_int n end.
Definition state_requires (st : fields) : list pystr :=
  match dget (py "requires") st with Some (VList items) => scalar_text <$> items | _ => [] end.

(** [str(v or fallback)] *)
Definition text_or (v : option value) (fallback : pystr) : pystr := default fallback (given (Some (text_or_empty v))).

(** What a turn finds: the documents, what the assessment reads, the recall of the
    turn entry, and what the executor advertises. *)
Record turn : Type := Turn {
  tn_state : option pystr;
  tn_board : option pystr;
  tn_install : install;
  tn_world : world;
  tn_protocol_home : bool;
  tn_inbox : option inbox;
  tn_queued : option queued_source;
  tn_append : option pending_append;
  tn_gate : option future_gate;
  tn_now : Z;
  tn_recall : option pystr;
  tn_caps : option capabilities;
  tn_exhausted : bool;
}.

Section verdict.
Context (x : turn) (st : fields) (ts : tickets).

Definition checkpoint : bool := persistent st || protocol_home_checkpoint (tn_protocol_home x) st.
Definition canonical_task : pystr :=
  match text_or_empty (dget (py "task") st) with [] => py "none" | t => t end.

Definition valve_tripped : bool :=
  negb checkpoint && budget_exhausted (dget (py "execution_intent") st) (counter st "goal_waves") (counter st "goal_tickets").

Definition empty_board : bool := negb (existsb (λ t, in_section t TODO) (dvalues ts)).
Definition brake_due : bool :=
  match binding_brake st empty_board with
  | None => false
  | Some b => negb (checkpoint && bool_decide (b = Wait) && at_safety_valve st)
  end.

Definition turn_assessment : assessment :=
  assess_continuation (tn_install x) (tn_world x) (tn_protocol_home x) (tn_state x) (tn_board x)
    (Projections [] [] [] (tn_inbox x) (tn_queued x) (tn_append x) (tn_gate x)) (tn_now x) None None.

Definition operator_due : bool :=
  brake_due || from_option (λ r, mem r (strs ["OPERATOR_WAIT"; "USER_INPUT"])) false (tn_recall x)
  || (requires_human turn_assessment && negb (actionable turn_assessment)).

Definition goal_complete : bool :=
  str_is (dget (py "phase") st) "DONE" && (canonical_task =s "none")
  && forallb (λ t, negb (in_section t DOING || in_section t TODO || in_section t BLOCKED)) (dvalues ts)
  && negb (actionable turn_assessment) && bool_decide (as_class turn_assessment = QUIESCENT).

Definition step_phase : option pystr := Some (text_or (dget (py "phase") st) "UNKNOWN").
Definition required : gset pystr :=
  let base := required_for_state (state_requires st) step_phase in
  if canonical_task =s "none" then base
  else match dget canonical_task ts with
       | Some t => required_for_ticket base (dget (py "requires") (t_fields t)) step_phase
       | None => base
       end.

Definition admitted : bool * gset pystr :=
  match tn_caps x with Some caps => admit_normalized caps required | None => (true, ∅) end.
Definition compatible : bool := admitted.1 && negb (tn_exhausted x && bool_decide (tn_caps x = None)).

Definition turn_verdict_of : turn_verdict :=
  let assessed := bool_decide (is_Some (tn_caps x)) in
  TurnVerdict ITERATION_VERDICT_SCHEMA
    (decide_turn compatible goal_complete (actionable turn_assessment) operator_due valve_tripped (tn_exhausted x && negb compatible))
    goal_complete (actionable turn_assessment) operator_due valve_tripped canonical_task assessed compatible required admitted.2
    (if negb assessed then ADMISSION_UNASSESSED else if compatible then ADMISSION_ADMIT else ADMISSION_REJECT)
    (if compatible then NEXT_NONE else if tn_exhausted x then NEXT_NO_COMPATIBLE_EXECUTOR else NEXT_FAILOVER)
    (as_reason turn_assessment) true.
End verdict.

Definition project_iteration_verdict (x : turn) : turn_verdict :=
  match tn_state x, tn_board x with
  | Some state_text, Some board_text =>
      match parse_state_or_error (tn_install x) state_text with
      | Err _ | Ok [] => _unreadable RUNTIME_PAUSED "state-unreadable" "none"
      | Ok st =>
          let board := parse_board board_text in
          match b_errors board with
          | _ :: _ => _unreadable OPERATOR_WAIT "board-malformed" (text_or (dget (py "task") st) "none")
          | [] =>
              if w_grant_proved (tn_world x) then turn_verdict_of x st (b_tickets board)
              else _unreadable RUNTIME_PAUSED "state-unreadable" "none"
          end
      end
  | _, _ => _unreadable RUNTIME_PAUSED "state-unreadable" "none"
  end.

Definition verdict_allows_goal_complete_ui (v : turn_verdict) : bool :=
  (tv_schema v =? ITERATION_VERDICT_SCHEMA)%Z && tv_readable v && tv_goal_complete v && may_report_goal_complete (tv_decision v).

(** ** What a decision means *)

(** Nothing is left on the board. *)
Definition board_drained (ts : tickets) : Prop :=
  ∀ t, t ∈ dvalues ts → in_section t DOING = false ∧ in_section t TODO = false ∧ in_section t BLOCKED = false.

Definition readable (x : turn) (st : fields) (ts : tickets) : Prop :=
  ∃ state_text board_text, tn_state x = Some state_text ∧ tn_board x = Some board_text ∧
    parse_state_or_error (tn_install x) state_text = Ok st ∧ st ≠ [] ∧ ts = b_tickets (parse_board board_text) ∧
    b_errors (parse_board board_text) = [] ∧ w_grant_proved (tn_world x) = true.

Lemma projected x :
  (tv_readable (project_iteration_verdict x) = false ∧
     (tv_decision (project_iteration_verdict x) = RUNTIME_PAUSED ∨ tv_decision (project_iteration_verdict x) = OPERATOR_WAIT) ∧
     tv_goal_complete (project_iteration_verdict x) = false) ∨
  ∃ st ts, readable x st ts ∧ project_iteration_verdict x = turn_verdict_of x st ts.
Proof.
  unfold project_iteration_verdict, readable. destruct (tn_state x) as [s|]; [|left; cbn; split_and!; auto]. destruct (tn_board x) as [b|]; [|left; cbn; split_and!; auto].
  destruct (parse_state_or_error _ s) as [[|f st]|] eqn:Ep; [left; cbn; split_and!; auto| |left; cbn; split_and!; auto].
  destruct (b_errors (parse_board b)) eqn:Eb; [|left; cbn; split_and!; auto]. destruct (w_grant_proved (tn_world x)) eqn:Eg; [|left; cbn; split_and!; auto].
  right. exists (f :: st), (b_tickets (parse_board b)). split; [|done]. exists s, b. by split_and!.
Qed.

Lemma projected_readable x st ts : readable x st ts → project_iteration_verdict x = turn_verdict_of x st ts.
Proof.
  intros (s & b & Hs & Hb & Hp & Hne & -> & He & Hg). unfold project_iteration_verdict. rewrite Hs, Hb, Hp, He, Hg. by destruct st.
Qed.

(** No brake stands on the step, but for a pause at the safety valve that a checkpoint
    lifts. *)
Definition unbraked (x : turn) (st : fields) (ts : tickets) : Prop :=
  binding_brake st (empty_board ts) = None ∨
  binding_brake st (empty_board ts) = Some Wait ∧ checkpoint x st = true ∧ at_safety_valve st = true.

Lemma no_brake_due x st ts : brake_due x st ts = false ↔ unbraked x st ts.
Proof.
  unfold brake_due, unbraked. destruct (binding_brake _ _) as [b|]; [|naive_solver].
  rewrite negb_false_iff, !andb_true_iff, bool_decide_eq_true. naive_solver.
Qed.

(** Nobody is owed an answer: no brake, and no recall of the turn for the operator. *)
Lemma nobody_due x st ts :
  actionable (turn_assessment x) = true →
  operator_due x st ts = false ↔ unbraked x st ts ∧ ∀ r, tn_recall x = Some r → r ≠ py "OPERATOR_WAIT" ∧ r ≠ py "USER_INPUT".
Proof.
  intros Ha. unfold operator_due. rewrite Ha, !orb_false_iff, no_brake_due, andb_false_r.
  assert (from_option (λ r, mem r (strs ["OPERATOR_WAIT"; "USER_INPUT"])) false (tn_recall x) = false ↔
          ∀ r, tn_recall x = Some r → r ≠ py "OPERATOR_WAIT" ∧ r ≠ py "USER_INPUT") as ->; [|naive_solver].
  destruct (tn_recall x) as [r|]; cbn [from_option]; [|naive_solver]. rewrite <-not_true_iff_false, mem_true.
  change (strs ["OPERATOR_WAIT"; "USER_INPUT"]) with [py "OPERATOR_WAIT"; py "USER_INPUT"]. rewrite !elem_of_cons, elem_of_nil.
  split; [intros H r' [= <-]; tauto|intros H; destruct (H r eq_refl); tauto].
Qed.

Lemma drained ts :
  forallb (λ t, negb (in_section t DOING || in_section t TODO || in_section t BLOCKED)) (dvalues ts) = true → board_drained ts.
Proof. intros H t Ht%list_elem_of_In. rewrite forallb_forall in H. specialize (H t Ht). by bool_tac. Qed.

(** The executor may take the step: it was granted what the step requires, when it
    advertises its tools at all; one that advertises none is not assessed, and takes
    any step until the executors are exhausted. *)
Definition executor_fits (x : turn) (st : fields) (ts : tickets) : Prop :=
  match tn_caps x with Some caps => required st ts ⊆ granted_capabilities caps | None => tn_exhausted x = false end.

Lemma compatible_exact x st ts : compatible x st ts = true ↔ executor_fits x st ts.
Proof.
  unfold compatible, admitted, executor_fits. destruct (tn_caps x) as [caps|].
  - rewrite (bool_decide_eq_false_2 (Some caps = None)), andb_false_r, andb_true_r by done. apply admit_exact.
  - rewrite (bool_decide_eq_true_2 (None = None)) by done. rewrite andb_true_r. by destruct (tn_exhausted x).
Qed.

(** C25: What the decision after a turn means. The host may report the goal complete only
    when the documents are readable, the phase is DONE, nothing is left on the board,
    no brake stands but a pause at the safety valve that a checkpoint lifts, and the
    assessment is quiescent. It is told to go on exactly when the documents are
    readable, the assessment leaves work, no brake stands but such a pause, the turn
    recalls no wait for the operator, the budget stands or is renewed by a checkpoint,
    and the executor fits: its advertised tools grant what the step requires, or it
    advertises none, is therefore not assessed, and is not the last one left. *)
Theorem turn_decision_sound x :
  let v := project_iteration_verdict x in
  (verdict_allows_goal_complete_ui v = true →
     ∃ st ts, readable x st ts ∧ str_is (dget (py "phase") st) "DONE" = true ∧ canonical_task st = py "none" ∧ board_drained ts ∧
       unbraked x st ts ∧ as_class (turn_assessment x) = QUIESCENT) ∧
  (tv_decision v = AUTO_KICK ↔
     ∃ st ts, readable x st ts ∧ actionable (turn_assessment x) = true ∧ unbraked x st ts ∧
       (∀ r, tn_recall x = Some r → r ≠ py "OPERATOR_WAIT" ∧ r ≠ py "USER_INPUT") ∧
       (checkpoint x st = true ∨
        budget_exhausted (dget (py "execution_intent") st) (counter st "goal_waves") (counter st "goal_tickets") = false) ∧
       executor_fits x st ts).
Proof.
  intros v. split.
  - pose proof (projected x) as Hp. fold v in Hp. destruct Hp as [(Hr & Hd & Hg)|(st & ts & Hread & E)].
    { unfold verdict_allows_goal_complete_ui. by rewrite Hr, andb_false_r. }
    rewrite E. unfold verdict_allows_goal_complete_ui, may_report_goal_complete. cbn [tv_schema tv_readable tv_goal_complete tv_decision turn_verdict_of].
    intros H. apply andb_true_iff in H as [[_ Hgc]%andb_true_iff Hdec]. bool_tac. unfold decide_turn in Hdec.
    destruct (compatible x st ts); [|by destruct (_ && _)]. cbn [negb] in Hdec. destruct (operator_due x st ts) eqn:Ho; [done|].
    unfold operator_due in Ho. bool_tac. exists st, ts. unfold goal_complete in Hgc. bool_tac. unfold eqs in *. bool_tac.
    split_and!; try done; [by apply drained|by apply no_brake_due].
  - assert (∀ st, valve_tripped x st = false ↔ checkpoint x st = true ∨
      budget_exhausted (dget (py "execution_intent") st) (counter st "goal_waves") (counter st "goal_tickets") = false) as Hvalve.
    { intros st. unfold valve_tripped. destruct (checkpoint x st), (budget_exhausted _ _ _); naive_solver. }
    split.
    + intros Hk. pose proof (projected x) as Hp. fold v in Hp. destruct Hp as [(_ & [Hd|Hd] & _)|(st & ts & Hread & E)]; [congruence..|].
      rewrite E in Hk. cbn [tv_decision turn_verdict_of] in Hk. unfold decide_turn in Hk.
      destruct (compatible x st ts) eqn:Ec; [|by destruct (_ && _) in Hk]. cbn [negb] in Hk. destruct (operator_due x st ts) eqn:Ho; [done|].
      destruct (valve_tripped x st) eqn:Hv; [done|]. destruct (actionable (turn_assessment x)) eqn:Ha; [|by rewrite andb_true_r in Hk; destruct (goal_complete x st ts)].
      exists st, ts. apply (nobody_due x st ts Ha) in Ho as [Hb Hr]. apply Hvalve in Hv. apply compatible_exact in Ec. by split_and!.
    + intros (st & ts & Hread & Ha & Hb & Hr & Hv%Hvalve & Hc%compatible_exact). unfold v. rewrite (projected_readable _ _ _ Hread).
      cbn [tv_decision turn_verdict_of]. unfold decide_turn. rewrite Hc, Hv, Ha. cbn [negb].
      rewrite (proj2 (nobody_due x st ts Ha) (conj Hb Hr)). cbn [orb]. unfold goal_complete. rewrite Ha. cbn [negb]. by rewrite !andb_false_r.
Qed.

(** ** Concrete turns *)

Definition turn_of (state board : pystr) (caps : option capabilities) : turn :=
  Turn (Some state) (Some board) sample_install
    (World (Some (parsed state)) [] true None (Some sample_conformance) (λ _, Some (Readiness true None)))
    false None None None None noon None caps false.
Definition decided (state board : pystr) (caps : option capabilities) : turn_decision * bool :=
  let v := project_iteration_verdict (turn_of state board caps) in (tv_decision v, verdict_allows_goal_complete_ui v).
Definition full_caps : capabilities := [(py "shell", ABool true); (py "patch", AText "yes")].
Definition drained_board : pystr := board_lines [] [] ["- [x] T-1 built"] [].

Lemma sample_turns :
  (decided building_state building_board (Some full_caps), decided building_state building_board (Some [(py "shell", ABool true)]),
   decided done_state drained_board None, decided braked_state building_board None)
  = ((AUTO_KICK, false), (EXECUTOR_CAPABILITY_MISMATCH, false), (VALID_TERMINAL, true), (OPERATOR_WAIT, false)).
Proof. vm_compute. reflexivity. Qed.

Lemma turn_decision_sound_witness :
  as_class (turn_assessment (turn_of done_state drained_board None)) = QUIESCENT.
Proof.
  destruct (turn_decision_sound (turn_of done_state drained_board None)) as [H _].
  assert (verdict_allows_goal_complete_ui (project_iteration_verdict (turn_of done_state drained_board None)) = true) as Hv
    by (vm_compute; reflexivity).
  destruct (H Hv) as (st & ts & _ & _ & _ & _ & _ & Hq). exact Hq.
Defined.

(** An open hunt, which the router continues, is a wait for the operator. *)
Lemma open_hunt_waits :
  let state := state_lines "HUNT" "none" "PHASE HUNT" ["blocker: none"] in
  r_reason (sample_route state (board_lines [] [] [] []) None None) = HuntContinue ∧
  decided state (board_lines [] [] [] []) (Some full_caps) = (OPERATOR_WAIT, false).
Proof. split; vm_compute; reflexivity. Qed.
