(* ===== verification/Automation.v ===== *)
(** * The automation block

    [tools/saipen_engine/automation.py]: the disposition of a routed answer, the
    closure gate of eight conditions, and the block a host reads to know whether it
    may send the next command by itself. *)

From S2P Require Import Prelude PyStr PyStrFacts PyUnicode PyRegex PyDict BoardClock BoardParse BoardClaims BoardGraph BoardBlockers.
From S2P Require Import StateDoc StateWait StateContract AuditInbox Router RouterFacts Gates GateFacts Assessment.
From S2P Require LogLine.

Module Disposition.
Inductive t : Type := CONTINUE | COMPLETE | WAIT_USER | WAIT_EXTERNAL | BLOCKED | INVALID.
Global Instance t_eq_dec : EqDecision t.
Proof. solve_decision. Defined.
End Disposition.

(** Only [CONTINUE] transports a command. *)
Definition _NEXT_COMMAND (d : Disposition.t) : option pystr := match d with Disposition.CONTINUE => Some (py "cc") | _ => None end.
Definition _HUMAN_WAIT_CATEGORIES : list pystr := strs ["user brake"; "manual-verify"; "destructive-op"; "first-publish"; "safety valve"].
Definition _PREAUTHORIZED_WAIT_CATEGORIES : list pystr := strs ["init"].
Definition _HUMAN_ACTION_WAIT_CATEGORIES : list pystr := strs ["init"].

(** ** The disposition of an answer *)

Definition hyphens (s : pystr) : pystr := replace " " "-" s.

Definition named_dispositions : dict pystr (Disposition.t * pystr) :=
  (λ e : string * (Disposition.t * string), (py e.1, (e.2.1, py e.2.2))) <$>
  [("foreign-live", (Disposition.WAIT_EXTERNAL, "foreign-live")); ("read-only-mode", (Disposition.BLOCKED, "read-only-mode"));
   ("unblock", (Disposition.BLOCKED, "unblock")); ("audit-inbox-residue", (Disposition.WAIT_USER, "audit-inbox-residue"));
   ("audit-inbox-invalid", (Disposition.INVALID, "audit-inbox-invalid"));
   ("queued-source-invalid", (Disposition.INVALID, "queued-source-invalid"));
   ("audit-inbox", (Disposition.CONTINUE, "audit-inbox")); ("audit-inbox-unworkable", (Disposition.BLOCKED, "audit-inbox-unworkable"));
   ("bootstrap", (Disposition.CONTINUE, "bootstrap")); ("conformance-remediation", (Disposition.BLOCKED, "conformance-remediation"));
   ("conformance-unhealthy", (Disposition.BLOCKED, "conformance-remediation"));
   ("conformance-unknown", (Disposition.INVALID, "conformance-unknown"))]%string.

(** [None] for a route that is no dictionary. *)
Definition _routing_disposition (routed : option answer) (action reason : pystr) : Disposition.t * pystr :=
  match routed with
  | None => (Disposition.INVALID, py "automation-invalid-route")
  | Some r =>
      if negb (a_ok r) then
        if mem reason (strs ["recovery-conflict"; "recovery-pending"]) then (Disposition.CONTINUE, reason)
        else if mem reason (strs ["conformance-remediation"; "conformance-unhealthy"]) then (Disposition.BLOCKED, py "conformance-remediation")
        else if reason =s "conformance-unknown" then (Disposition.INVALID, py "conformance-unknown")
        else if reason =s "reconcile-decision" then (Disposition.WAIT_USER, py "reconcile-decision")
        else if reason =s "reconcile-refused" then (Disposition.BLOCKED, py "reconcile-refused")
        else (Disposition.INVALID, default (py "route-refused") (given (Some reason)))
      else if (reason =s "wait") && startswith "WAIT:" action then
        match parse_wait (Some (Scalar (SStr action))) with
        | Some category =>
            if mem category _HUMAN_WAIT_CATEGORIES then (Disposition.WAIT_USER, "wait-" +s hyphens category)
            else if mem category _PREAUTHORIZED_WAIT_CATEGORIES then (Disposition.CONTINUE, "wait-" +s hyphens category)
            else (Disposition.BLOCKED, "wait-" +s default (py "unknown") (given (Some category)))
        | None => (Disposition.BLOCKED, py "wait-unknown")
        end
      else if (reason =s "audit-inbox-unworkable") && bool_decide (gr_cause <$> a_blocker r = Some (py "publication-staging"))
      then (Disposition.WAIT_USER, reason)
      else match dget reason named_dispositions with
           | Some d => d
           | None => (Disposition.CONTINUE, default (py "routed") (given (Some reason)))
           end
  end.

(** ** The closure gate *)

(** The status of the audit transport. *)
Record transport : Type := Transport {
  tr_ok : bool;
  tr_clean : bool;
  tr_closed_pending_delete : list layer_key;
  tr_invalid : list layer_key;
  tr_orphans : list pystr;
}.
Definition audit_quiescent (s : option transport) : bool :=
  match s with
  | Some s =>
      tr_ok s && tr_clean s && bool_decide (tr_closed_pending_delete s = []) && bool_decide (tr_invalid s = [])
      && negb (existsb (λ o, o =s "MISSING_AFTER_CAPTURE") (tr_orphans s))
  | None => false
  end.

(** [^(\d{2})\.(\d{2})\.(\d{2})(?: (\d{2}):(\d{2}))?$] *)
Definition two (n : nat) : re := Grp n (rep 2 is_digit).
Definition _LOG_STAMP_RE : re := seqs [two 1; lit "."; two 2; lit "."; two 3; Opt (seqs [lit " "; two 4; lit ":"; two 5]); Eol].
Definition _stamp_to_instant (date : option pystr) : option Z :=
  match date with
  | None | Some [] => None
  | Some s =>
      match re_match _LOG_STAMP_RE (strip s) with
      | None => None
      | Some m =>
          let num (n : nat) := int_of (default [] (group n m)) in
          let st := Stamp (2000 + num 3%nat) (num 2%nat) (num 1%nat) (num 4%nat) (num 5%nat) 0 0 in
          if valid_stamp st then Some (instant st) else None
      end
  end.
Definition _iso_instant (value : option pystr) : option Z := instant <$> (value ≫= iso_utc_sort_key).

Definition is_consume (e : LogLine.event) : bool :=
  (LogLine.e_taxonomy e =s "RUN") && contains "AUDIT_INBOX_CLOSED" (LogLine.e_text e).
(** The instants of the audit consume boundaries, one for each event id; a stamp that
    cannot be read is dropped. *)
Definition _audit_consume_instants (events : list LogLine.event) : dict N Z :=
  foldl (λ (d : dict N Z) e,
           if is_consume e then
             match _stamp_to_instant (LogLine.e_date e) with
             | Some i => if dmem (LogLine.e_event e) d then d else dset (LogLine.e_event e) i d
             | None => d
             end
           else d) [] events.
(** [sorted(...)[-1]] *)
Definition last_consume (events : list LogLine.event) : option Z :=
  match dvalues (_audit_consume_instants events) with
  | [] => None
  | i :: l => Some (foldl Z.max i l)
  end.

(** The convergence verdict: whether it holds, and its stages with their stamps. *)
Record convergence : Type := Convergence { cv_ok : bool; cv_stages : list (pystr * option pystr) }.
Definition _latest_i_created_at (c : option convergence) : option pystr :=
  match c with
  | Some c => match find_first (λ e, e.1 =s "I") (reverse (cv_stages c)) with Some e => e.2 | None => None end
  | None => None
  end.

Definition minute_us : Z := 60000000.

Record closure : Type := Closure { cl_conditions : list bool; cl_current : bool }.
Definition complete (g : closure) : bool := forallb id (cl_conditions g).

Section closure.
Context (status : option transport) (conv : option convergence) (events : list LogLine.event) (b : board) (state : option fields)
  (agent : option pystr) (now : Z).

Definition i_instant : option Z := _iso_instant (_latest_i_created_at conv).
Definition proven_after_boundary : bool :=
  match i_instant, last_consume events with
  | None, _ => false
  | Some _, None => true
  | Some i, Some c => (c + minute_us <? i)%Z
  end.
Definition no_new_generation : bool :=
  match last_consume events, i_instant with
  | None, _ => true
  | Some _, None => false
  | Some c, Some i => (c <? i)%Z
  end.
Definition convergence_ok : bool := from_option cv_ok false conv.
Definition wait_text : pystr :=
  match state with Some st => match dget (py "next_action") st with Some (Scalar (SStr s)) => s | _ => [] end | None => [] end.

Definition closure_gate : closure :=
  Closure
    [audit_quiescent status; audit_quiescent status; proven_after_boundary; proven_after_boundary; no_new_generation; convergence_ok;
     bool_decide (convergence_closure_problems b agent [] now = []); negb (startswith "WAIT:" wait_text)]
    (match last_consume events, i_instant with
     | None, _ => convergence_ok && bool_decide (is_Some (_latest_i_created_at conv))
     | Some _, None => false
     | Some c, Some i => convergence_ok && (c <? i)%Z
     end).
End closure.

(** ** The block *)

Record automation : Type := Automation {
  au_disposition : Disposition.t;
  au_next_command : option pystr;
  au_operator_action_due : bool;
  au_reason_code : pystr;
  au_convergence_current : bool;
  au_closure_complete : bool;
  au_completed_at : option pystr;
}.

Definition condition_names : list pystr := strs ["C1"; "C2"; "C3"; "C4"; "C5"; "C6"; "C7"; "C8"].
(** The names of the conditions that fail. *)
Definition missing_conditions (g : closure) : list pystr :=
  omap (λ e : pystr * bool, if e.2 then None else Some e.1) (zip condition_names (cl_conditions g)).

(** [fingerprint] tells whether the source identity has a fingerprint. *)
Definition automation_block (routed : option answer) (g : closure) (conv : option convergence) (state : option fields)
    (protocol_home fingerprint : bool) : automation :=
  let action := default [] (routed ≫= a_action) in
  let reason := default [] (a_reason <$> routed) in
  let '(disposition, reason_code) := _routing_disposition routed action reason in
  let completes := bool_decide (disposition = Disposition.CONTINUE) && complete g in
  let reason_code :=
    if completes then py "closure-complete"
    else if bool_decide (disposition = Disposition.CONTINUE) && (reason =s "maintain")
         then "closure-conditions-" +s join "-" (missing_conditions g) else reason_code in
  let disposition :=
    if completes then Disposition.COMPLETE
    else if (reason_code =s "wait-safety-valve") && from_option (protocol_home_checkpoint protocol_home) false state
         then Disposition.CONTINUE else disposition in
  let blocked_human_wait :=
    (reason_code =s "unblock")
    && match state with
       | Some st => match parse_wait (dget (py "next_action") st) with Some c => mem c _HUMAN_WAIT_CATEGORIES | None => false end
       | None => false
       end in
  Automation disposition (_NEXT_COMMAND disposition)
    (bool_decide (disposition = Disposition.WAIT_USER) || blocked_human_wait
     || (startswith "wait-" reason_code && mem (replace "-" " " (drop 5 reason_code)) _HUMAN_ACTION_WAIT_CATEGORIES))
    reason_code (cl_current g) (completes && fingerprint) (if completes then _latest_i_created_at conv else None).

(** ** What the closure gate proves *)

Lemma last_consume_spec events :
  match last_consume events with
  | None => dvalues (_audit_consume_instants events) = []
  | Some c => c ∈ dvalues (_audit_consume_instants events) ∧ ∀ i, i ∈ dvalues (_audit_consume_instants events) → (i ≤ c)%Z
  end.
Proof.
  unfold last_consume. destruct (dvalues _) as [|i l]; [done|].
  assert (∀ l i, foldl Z.max i l ∈ i :: l ∧ ∀ j, j ∈ i :: l → (j ≤ foldl Z.max i l)%Z) as H; [|apply H].
  clear. induction l as [|k l IH]; intros i; cbn [foldl]; [split; [left|by intros j ->%list_elem_of_singleton]|].
  destruct (IH (Z.max i k)) as [Hin Hle]. split.
  - apply elem_of_cons in Hin as [->|Hin]; [|by right; right]. destruct (Z.max_spec i k) as [[_ ->]|[_ ->]]; [by right; left|by left].
  - assert (Z.max i k ≤ foldl Z.max (Z.max i k) l)%Z by (apply Hle; left).
    intros j [->|[->|Hj]%elem_of_cons]%elem_of_cons; [lia|lia|]. apply Hle. by right.
Qed.

(** C36: When the closure gate of the code is complete: exactly when the audit transport is
    quiet, the convergence pass holds and is stamped more than a minute after every
    audit consume boundary of the history whose stamp can be read, the board has no
    problem of closure, and no WAIT is persisted. Two things the comments promise are
    not asked for: C8 is described as no binding WAIT and no blocked phase, and looks at
    the WAIT alone, so a project in BLOCKED may be complete; and a consume boundary
    whose stamp cannot be read, on which the gate is said to fail closed, is passed
    over. *)
Theorem closure_complete_exact status conv events b state agent now :
  complete (closure_gate status conv events b state agent now) = true ↔
  audit_quiescent status = true ∧ convergence_ok conv = true ∧ convergence_closure_problems b agent [] now = [] ∧
  startswith "WAIT:" (wait_text state) = false ∧
  ∃ i, i_instant conv = Some i ∧ ∀ c, c ∈ dvalues (_audit_consume_instants events) → (c + minute_us < i)%Z.
Proof.
  unfold complete, closure_gate. cbn [cl_conditions forallb]. unfold id. rewrite !andb_true_iff, bool_decide_eq_true, negb_true_iff.
  assert (proven_after_boundary conv events = true ↔
    ∃ i, i_instant conv = Some i ∧ ∀ c, c ∈ dvalues (_audit_consume_instants events) → (c + minute_us < i)%Z) as Hp.
  { unfold proven_after_boundary. pose proof (last_consume_spec events) as Hs. destruct (i_instant conv) as [i|]; [|naive_solver].
    destruct (last_consume events) as [c|].
    - rewrite Z.ltb_lt. destruct Hs as [Hin Hle]. split; [intros H; exists i; split; [done|]; intros c' Hc'; specialize (Hle c' Hc'); lia|].
      intros (i' & [= <-] & H). by apply H.
    - rewrite Hs. split; [|done]. intros _. exists i. split; [done|]. by intros ? ?%elem_of_nil. }
  rewrite Hp. split; [naive_solver|]. intros (H1 & H2 & H3 & H4 & i & Hi & H5). split_and!; try done; [by exists i..|].
  unfold no_new_generation. rewrite Hi. pose proof (last_consume_spec events) as Hs. destruct (last_consume events) as [c|]; [|done].
  destruct Hs as [Hin _]. apply Z.ltb_lt. specialize (H5 c Hin). unfold minute_us in H5. lia.
Qed.

(** ** The two surfaces *)

(** The disposition the block starts from. *)
Definition routed_disposition (a : answer) : Disposition.t := (_routing_disposition (Some a) (default [] (a_action a)) (a_reason a)).1.

(** The answers of the router that are transported as a command. *)
Definition transports (r : route) : bool :=
  match r_reason r with
  | RecoveryPending | RecoveryConflict | Bootstrap | GoalCheckpoint | UnprojectedAppend | Adopt | Finish | MarkhuntContinue
  | QueuedSourceStart | CrewConverge | AuditInboxRoute | Start _ | OperatorGateDue | OperatorGateDeferred | GoalBlocked | ImproveGate
  | FutureGateRefresh | FutureGateRefinement | FutureGatePromotion | HuntContinue | Maintain => true
  | WaitStop =>
      negb (startswith "WAIT:" (r_action r))
      || match parse_wait (Some (Scalar (SStr (r_action r)))) with
         | Some c => negb (mem c _HUMAN_WAIT_CATEGORIES) && mem c _PREAUTHORIZED_WAIT_CATEGORIES
         | None => false
         end
  | _ => false
  end.

Ltac closed_lookups :=
  repeat match goal with
  | |- context [dget (py ?a) named_dispositions] =>
      let v := eval vm_compute in (dget (py a) named_dispositions) in change (dget (py a) named_dispositions) with v
  end; cbv iota.

Lemma transports_exact r : proper r → bool_decide (routed_disposition (answer_of r) = Disposition.CONTINUE) = transports r.
Proof.
  intros (Hok & _ & Hp). unfold routed_disposition, _routing_disposition, transports. cbn [answer_of a_ok a_reason a_action default from_option id].
  rewrite Hok. destruct (r_reason r) eqn:E; cbn [refuses negb reason_text].
  all: try (change (pick ∈ [py "start"; py "start-user-explicit"; py "dependency-continuation"]) in Hp; rewrite !elem_of_cons in Hp;
            destruct Hp as [->|[->|[->|[]%elem_of_nil]]]).
  all: closed_texts; closed_lookups; cbn [andb]; try reflexivity.
  - destruct (startswith "WAIT:" (r_action r)); [|reflexivity]. cbn [negb orb].
    destruct (parse_wait _) as [c|]; [|reflexivity]. destruct (mem c _HUMAN_WAIT_CATEGORIES); [reflexivity|]. cbn [negb andb].
    by destruct (mem c _PREAUTHORIZED_WAIT_CATEGORIES).
  - by destruct (bool_decide (gr_cause <$> _ = _)).
Qed.

Lemma human_not_actionable a : requires_human a = true → actionable a = false.
Proof. unfold requires_human, actionable. by destruct (as_class a); vm_compute. Qed.

(** The answers that stop for a human and are transported nevertheless. *)
Definition transported_stops : list reason := [WaitStop; OperatorGateDue; OperatorGateDeferred; ImproveGate; GoalBlocked; Maintain].
(** The answers that leave work and are not transported. *)
Definition withheld_work : list reason := [WaitStop; Unblock; AuditInboxUnworkable; QueuedSourceInvalid; AuditInboxInvalid; AuditInboxResidue].

(** The successful answers that can be assessed as a human boundary. *)
Definition may_wait_for_human (r : route) : bool :=
  match r_reason r with
  | ReadOnlyMode | ForeignLive | OperatorGateDue | OperatorGateDeferred | ImproveGate | WaitStop | Unblock | GoalBlocked
  | Maintain | AuditInboxUnworkable => true
  | _ => false
  end.

Lemma human_ok w home state r :
  proper r → r_ok r = true → requires_human (_classify_effective_route w home state (answer_of r)) = true → may_wait_for_human r = true.
Proof.
  intros (Hok & _ & Hp) Hr. unfold _classify_effective_route, may_wait_for_human. cbn [answer_of a_ok a_reason a_action]. rewrite Hr. cbn [negb].
  rewrite Hr in Hok. destruct (r_reason r) eqn:E; cbn [refuses negb] in Hok; try discriminate Hok; cbn [reason_text]; try reflexivity.
  all: try (change (pick ∈ [py "start"; py "start-user-explicit"; py "dependency-continuation"]) in Hp; rewrite !elem_of_cons in Hp;
            destruct Hp as [->|[->|[->|[]%elem_of_nil]]]).
  all: rewrite ?some_decide; cbn [default from_option id]; closed_texts; cbn [orb]; try done.
  all: repeat match goal with |- context [if ?c then _ else _] => destruct c end.
  all: unfold requires_human, with_ticket, as_is, plain; cbn [as_class]; intros H; vm_compute in H; discriminate H.
Qed.

(** The two surfaces that tell a host whether a human is needed, the assessment and the
    automation block, agree on every delivered answer but those of two short lists:
    what the assessment calls a human boundary and the block transports as [cc] is a
    WAIT, an operator gate, the hold on improvement, a blocked goal or an idle answer;
    and the work the block withholds is a checkpointed WAIT, a foreign blocker under a
    proven campaign, or an inbox that needs a look. *)
Theorem surfaces_agree w protocol_home state x :
  let r := route_next x in
  let a := effective w (answer_of r) in
  let s := _classify_effective_route w protocol_home state a in
  a_ok a = true →
  (requires_human s = true → routed_disposition a = Disposition.CONTINUE → r_reason r ∈ transported_stops) ∧
  (actionable s = true → routed_disposition a ≠ Disposition.CONTINUE → r_reason r ∈ withheld_work).
Proof.
  intros r a s Ha. pose proof (route_proper x) as Hp. fold r in Hp. destruct (effective_ok _ _ Ha) as [E _].
  unfold s, a in *. rewrite E in *. change (r_ok r = true) in Ha. pose proof (transports_exact r Hp) as Ht. split.
  - intros Hh Hd. rewrite (bool_decide_eq_true_2 _ Hd) in Ht. pose proof (human_ok w protocol_home state r Hp Ha Hh) as Hm.
    clear -Ht Hm. unfold may_wait_for_human, transports in Hm, Ht. apply (bool_decide_unpack _).
    by destruct (r_reason r).
  - intros Hw Hd. rewrite (bool_decide_eq_false_2 _ Hd) in Ht. rewrite (classify_ok w protocol_home state r Hp Ha) in Hw.
    clear -Ht Hw. unfold leaves_work, transports in Hw, Ht. apply (bool_decide_unpack _).
    by destruct (r_reason r).
Qed.

(** ** Concrete projects *)

Definition settled : transport := Transport true true [] [] [].
Definition passed_at (stamp : string) : convergence := Convergence true [(py "H", Some (py stamp)); (py "I", Some (py stamp))].
Definition consumed (date : option pystr) : LogLine.event :=
  LogLine.Event date 7 None None None None (py "RUN") (py "AUDIT_INBOX_CLOSED SRC-1").
Definition closed_board : pystr := board_lines [] [] ["- [x] T-1 built"] [].
Definition gate_sample (state board : pystr) (pass : string) (events : list LogLine.event) : closure :=
  closure_gate (Some settled) (Some (passed_at pass)) events (parse_board board) (Some (parsed state)) (Some (py "alpha")) noon.
Definition block_sample (state board : pystr) (pending : list pystr) (g : closure) : automation :=
  let x := inputs_of state board pending None None in
  automation_block (Some (effective (sound_world state) (answer_of (route_next x)))) g (Some (passed_at "2024-05-01T10:00:00Z"))
    (Some (parsed state)) false true.
Definition block_verdict (a : automation) : Disposition.t * option pystr * pystr :=
  (au_disposition a, au_next_command a, au_reason_code a).

(** A finished project is complete; a consume boundary in the minute of the pass leaves
    the conditions that it races unproven; work in hand is transported. *)
Lemma sample_blocks :
  (block_verdict (block_sample done_state closed_board [] (gate_sample done_state closed_board "2024-05-01T10:00:00Z" [])),
   block_verdict (block_sample done_state closed_board []
                    (gate_sample done_state closed_board "2024-05-01T10:00:00Z" [consumed (Some (py "01.05.24 10:00"))])),
   block_verdict (block_sample building_state building_board [] (gate_sample building_state building_board "2024-05-01T10:00:00Z" [])))
  = ((Disposition.COMPLETE, None, py "closure-complete"),
     (Disposition.CONTINUE, Some (py "cc"), py "closure-conditions-C3-C4-C5"),
     (Disposition.CONTINUE, Some (py "cc"), py "finish")).
Proof. vm_compute. reflexivity. Qed.

Definition gated_board : pystr :=
  board_lines [] [] [] ["- [ ] T-3 sign it | blocker: WAIT_USER_DECISION -- sign the release | retry_not_before: 2024-05-01T09:00:00Z"].
Definition gated_inputs : inputs := inputs_of done_state gated_board [] None None.
Definition gated_answer : answer := effective (sound_world done_state) (answer_of (route_next gated_inputs)).
Definition gated_assessment : assessment := _classify_effective_route (sound_world done_state) false (parsed done_state) gated_answer.

Lemma surfaces_agree_witness : OperatorGateDue ∈ transported_stops.
Proof.
  assert (a_ok gated_answer = true) as Ha by (vm_compute; reflexivity).
  destruct (surfaces_agree (sound_world done_state) false (parsed done_state) gated_inputs Ha) as [H _].
  assert (r_reason (route_next gated_inputs) = OperatorGateDue) as <- by (vm_compute; reflexivity).
  apply H; vm_compute; reflexivity.
Defined.

(** ** Where code and documents part *)

(** A due operator gate, at which the router restates and stops and which the
    assessment calls a human boundary, is transported as [cc] with no operator action,
    and with a convergence pass the project is complete. *)
Lemma due_gate_is_transported :
  let b conv := automation_block (Some gated_answer)
                  (closure_gate (Some settled) conv [] (parse_board gated_board) (Some (parsed done_state)) (Some (py "alpha")) noon)
                  conv (Some (parsed done_state)) false true in
  (a_behavior gated_answer, requires_human gated_assessment, block_verdict (b None), au_operator_action_due (b None),
   au_disposition (b (Some (passed_at "2024-05-01T10:00:00Z"))))
  = (Some RESTATE_AND_STOP, true, (Disposition.CONTINUE, Some (py "cc"), py "operator-gate-due"), false, Disposition.COMPLETE).
Proof. vm_compute. reflexivity. Qed.

(** A pending operation, which the router refuses to route past, completes the block
    when the closure conditions hold: no [cc] is sent that would recover it. *)
Lemma pending_recovery_completes :
  block_verdict (block_sample done_state closed_board [py "op-1"] (gate_sample done_state closed_board "2024-05-01T10:00:00Z" []))
  = (Disposition.COMPLETE, None, py "closure-complete").
Proof. vm_compute. reflexivity. Qed.

(** A consume boundary whose stamp cannot be read is no boundary: the gate, which is
    documented to fail closed on it, is complete. *)
Lemma unreadable_boundary_completes :
  (complete (gate_sample done_state closed_board "2024-05-01T10:00:00Z" [consumed (Some (py "02.05.24 25:00"))]),
   complete (gate_sample done_state closed_board "2024-05-01T10:00:00Z" [consumed (Some (py "02.05.24 23:00"))])) = (true, false).
Proof. vm_compute. reflexivity. Qed.

(** C8 is described as no binding WAIT and no blocked phase: a project whose phase is
    BLOCKED is complete. *)
Lemma blocked_phase_completes :
  let state := state_lines "BLOCKED" "none" "saipen status" ["blocker: none"] in
  (text_or_empty (dget (py "phase") (parsed state)), complete (gate_sample state closed_board "2024-05-01T10:00:00Z" []))
  = (py "BLOCKED", true).
Proof. vm_compute. reflexivity. Qed.
