(* ===== verification/Floor.v ===== *)
(** * The raw floor

    [tools/saipen_engine/floor.py]: the checks of the three documents that use none
    of the parsers. *)

From Stdlib Require Import Sorting.Sorted.
From S2P Require Import Prelude PyStr PyStrFacts PyRegex PyDict.

(** [\[[ xX/]\]\s+[A-Z]+-\d+] after a dash. *)
Definition is_box_char (c : N) : bool := (c =? 32)%N || (c =? 120)%N || (c =? 88)%N || (c =? 47)%N.
Definition _TICKET_ID : re := seqs [plus is_AZ; lit "-"; plus is_digit].
Definition _BOX : re := seqs [lit "- ["; Chr is_box_char; lit "]"; plus is_space].
Definition _OPENER : re := Seq _BOX _TICKET_ID.

Inductive floor_error : Type :=
  | SeveralOpeners (line : nat) (n : nat)
  | DuplicateEvent (line : nat) (id : pystr)
  | NotIncreasing (line : nat) (id : pystr) (last : N)
  | NoDoingSection (task : pystr)
  | DoingEmpty (task : pystr)
  | DoingSeveral (task : pystr)
  | DoingOther (task opener : pystr).

(** Lines with their numbers, from one. *)
Definition numbered (text : pystr) : list (nat * pystr) := imap (λ i l, (S i, l)) (splitlines text).

Definition board_floor (board_text : pystr) : list floor_error :=
  numbered board_text ≫= λ e,
    let openers := re_findall _OPENER e.2 in
    if (1 <? length openers)%nat then [SeveralOpeners e.1 (length openers)] else [].

(** [\[(E-(\d+))\]] *)
Definition _EVENT_ID : re := seqs [lit "["; Grp 1 (Seq (lit "E-") (Grp 2 (plus is_digit))); lit "]"].
(** The event id a line names first, as text and as number. *)
Definition named_event (line : pystr) : option (pystr * N) :=
  m ← re_search _EVENT_ID line; Some (default [] (group 1 m), int_of (default [] (group 2 m))).

Fixpoint log_floor_go (seen : list pystr) (last : option N) (lines : list (nat * pystr)) : list floor_error :=
  match lines with
  | [] => []
  | (i, line) :: lines' =>
      match named_event line with
      | None => log_floor_go seen last lines'
      | Some (id, n) =>
          (if mem id seen then [DuplicateEvent i id]
           else match last with
                | Some l => if (n <=? l)%N then [NotIncreasing i id l] else []
                | None => []
                end)
          ++ log_floor_go (id :: seen) (Some n) lines'
      end
  end.
Definition log_floor (log_text : pystr) : list floor_error := log_floor_go [] None (numbered log_text).

(** [$] of a multi-line pattern. *)
Definition Eoll : re := Ahead false (Alt (Chr (λ c, (c =? 10)%N)) Eos).
(** [(?m)^task:\s*(\S+)\s*$] *)
Definition _TASK_RE : re := seqs [Bol; lit "task:"; Star is_space; Grp 1 (plus (λ c, negb (is_space c))); Star is_space; Eoll].
(** [(?m)^## DOING\s*\n(.*?)(?=^## )], whose dot is any character. *)
Definition _DOING_RE : re :=
  seqs [Bol; lit "## DOING"; Star is_space; Chr (λ c, (c =? 10)%N); Grp 1 (LazyStar (λ _, true)); Ahead false (Seq Bol (lit "## "))].
(** [(?m)^- \[[ xX/]\]\s+([A-Z]+-\d+)] *)
Definition _DOING_OPENER : re := seqs [Bol; _BOX; Grp 1 _TICKET_ID].

Definition state_board_floor (state_text board_text : pystr) : list floor_error :=
  match re_search _TASK_RE state_text with
  | None => []
  | Some m =>
      let task := default [] (group 1 m) in
      if negb (is_full _TICKET_ID task) then []
      else match re_search _DOING_RE board_text with
           | None => [NoDoingSection task]
           | Some d =>
               match (λ m, default [] (group 1 m.2)) <$> re_finditer _DOING_OPENER (default [] (group 1 d)) with
               | [] => [DoingEmpty task]
               | [opener] => if opener =s task then [] else [DoingOther task opener]
               | _ => [DoingSeveral task]
               end
           end
  end.

Definition raw_floor (state_text board_text log_text : pystr) : list floor_error :=
  board_floor board_text ++ log_floor log_text ++ state_board_floor state_text board_text.

(** ** What a silent floor proves *)

(** The numbers of the events the lines name. *)
Definition named_numbers (lines : list (nat * pystr)) : list N := omap (λ e, snd <$> named_event e.2) lines.

Lemma log_floor_go_increasing seen last lines :
  log_floor_go seen last lines = [] →
  StronglySorted N.lt (named_numbers lines) ∧ (∀ l, last = Some l → Forall (λ n, l < n)%N (named_numbers lines)).
Proof.
  revert seen last. induction lines as [|[i line] lines IH]; intros seen last; cbn [log_floor_go named_numbers omap list_omap]; [split; [constructor|by constructor]|].
  unfold named_numbers in *. cbn [omap list_omap snd]. destruct (named_event line) as [[id n]|]; cbn [fmap option_fmap option_map snd]; [|apply IH].
  intros [Hh Ht]%app_nil. destruct (IH _ _ Ht) as [Hs Hl]. split; [constructor; [done|by apply Hl]|].
  intros l ->. destruct (mem id seen); [done|]. destruct (n <=? l)%N eqn:E; [done|]. apply N.leb_gt in E.
  constructor; [done|]. eapply Forall_impl; [apply (Hl n); done|]. intros k Hk. cbn in Hk. lia.
Qed.

(** A log the floor is silent on names its events in strictly increasing order. *)
Lemma log_floor_increasing text : log_floor text = [] → StronglySorted N.lt (named_numbers (numbered text)).
Proof. intros H. by apply log_floor_go_increasing in H as [? _]. Qed.

(** ** Concrete documents *)

Lemma sample_floor :
  (board_floor "- [ ] T-1 one - [ ] T-2 two", log_floor (py "- [E-1] RUN: a" ++ [10%N] ++ py "- [E-1] RUN: b"),
   state_board_floor (join [10%N] (strs ["---"; "task: T-1"; "---"])) (join [10%N] (strs ["## DOING"; "- [/] T-2 x"; "## TODO"])),
   raw_floor (join [10%N] (strs ["---"; "task: T-1"; "---"])) (join [10%N] (strs ["## DOING"; "- [/] T-1 x"; "## TODO"]))
     (py "- [E-1] RUN: a" ++ [10%N] ++ py "- [E-2] [E-1] RUN: b"))
  = ([SeveralOpeners 1 2], [DuplicateEvent 2 "E-1"], [DoingOther "T-1" "T-2"], []).
Proof. vm_compute. reflexivity. Qed.
