(* ===== verification/FastCheck.v ===== *)
(** * The gate of a proposed mutation

    [tools/saipen_engine/fast_check.py]: the checks every operation runs over the
    three texts it is about to write, and the checks of a checkpoint that is only
    read. *)

From S2P Require Import Prelude PyStr PyStrFacts PyUnicode PyRegex PyDict Phases BoardClock BoardParse BoardClaims BoardClosure BoardGraph.
From S2P Require Import LogLine LogHistory LogLedger Attempt Ownership StateDoc StateWait StateContract AuditInbox Router Floor.

(** ** The log *)

(** [^LEDGER-GAP AMNESTY E-(\d+)\s*->\s*E-(\d+)\b] *)
Definition _GAP_AMNESTY_RE : re :=
  seqs [lit "LEDGER-GAP AMNESTY E-"; Grp 1 (plus is_digit); Star is_space; lit "->"; Star is_space; lit "E-"; Grp 2 (plus is_digit); Wordb].

(** The exempted gaps, each with the newest event that decides it. *)
Definition _ledger_gap_amnesties (log_text : pystr) : dict (N * N) N :=
  foldl (λ (out : dict (N * N) N) line,
           match parse_log_line line with
           | Some e =>
               if negb (e_taxonomy e =s "DEC") then out
               else match re_match _GAP_AMNESTY_RE (strip (e_text e)) with
                    | Some m =>
                        let pair := (int_of (default [] (group 1 m)), int_of (default [] (group 2 m))) in
                        dset pair (N.max (default 0%N (dget pair out)) (e_event e)) out
                    | None => out
                    end
           | None => out
           end) [] (splitlines log_text).

Inductive line_error : Type :=
  | NotLegal (line : nat)
  | DuplicateEventId (line : nat) (id : N)
  | NotConsecutive (line : nat) (id previous : N)
  | ParentTooNew (line : nat) (parent id : N).

(** The single pass over the log: the events, the errors, the ids seen, the id the next
    one must follow, the highest id, and the lines of exempted gaps. *)
Record LogAnalysis : Type := Analysis {
  la_events : list event;
  la_errors : list line_error;
  la_seen : list N;
  la_prev : option N;
  la_tail : option N;
  la_amnestied : list nat;
}.

Definition skipped (line : pystr) : bool := negb (nonempty (strip line)) || startswith "#" (lstrip line).
Definition above (n : N) (o : option N) : bool := match o with Some m => (m <? n)%N | None => true end.
Definition raise (n : N) (o : option N) : option N := if above n o then Some n else o.

(** A line that is no event spends the id it claims. *)
Definition illegal_step (a : LogAnalysis) (i : nat) (line : pystr) : LogAnalysis :=
  match declared_event_id line with
  | None => Analysis (la_events a) (la_errors a ++ [NotLegal i]) (la_seen a) (la_prev a) (la_tail a) (la_amnestied a)
  | Some n =>
      Analysis (la_events a) (la_errors a ++ [NotLegal i] ++ report (bool_decide (n ∈ la_seen a)) (DuplicateEventId i n))
        (n :: la_seen a) (raise n (la_prev a)) (raise n (la_tail a)) (la_amnestied a)
  end.

Definition exempted (amnesties : dict (N * N) N) (previous n : N) : bool :=
  match dget (previous, n) amnesties with Some d => (n <=? d)%N | None => false end.

Definition event_step (amnesties : dict (N * N) N) (a : LogAnalysis) (i : nat) (e : event) : LogAnalysis :=
  let n := e_event e in
  let gap := match la_prev a with Some p => if (n =? p + 1)%N then None else Some p | None => None end in
  let exempt := match gap with Some p => exempted amnesties p n | None => false end in
  Analysis (la_events a ++ [e])
    (la_errors a ++ report (bool_decide (n ∈ la_seen a)) (DuplicateEventId i n)
     ++ match gap with Some p => report (negb exempt) (NotConsecutive i n p) | None => [] end
     ++ match e_parent e with Some p => report (n <=? p)%N (ParentTooNew i p n) | None => [] end)
    (n :: la_seen a) (Some n) (raise n (la_tail a)) (la_amnestied a ++ report exempt i).

Definition analysis_step (amnesties : dict (N * N) N) (a : LogAnalysis) (l : nat * pystr) : LogAnalysis :=
  if skipped l.2 then a
  else match parse_log_line l.2 with
       | None => illegal_step a l.1 l.2
       | Some e => event_step amnesties a l.1 e
       end.
Definition _analyze_log (log_text : pystr) : LogAnalysis :=
  foldl (analysis_step (_ledger_gap_amnesties log_text)) (Analysis [] [] [] None None []) (numbered log_text).

(** ** The parked block *)

Inductive parked_error : Type := DetailIntegrity (event : N) | NotParked (source : pystr).

Definition PHASE_EVENT_OPS : list pystr := strs ["claim-"; "transition-"; "finish-"; "goal-entry-"].
Definition MID_FLIGHT : list pystr := strs ["SCOUT"; "BUILD"; "VERIFY"; "REVIEW"; "SHIP"].

Definition is_block_text (e : event) : bool := startswith ACTIVE_TICKET_BLOCK_MARKER (e_text e).
Definition claims_detail (e : event) : bool :=
  is_block_text e && (contains "detail_ref:" (e_text e) || contains "structural_event:" (e_text e)).
(** A compact detail proves itself from disk, or is planned in the same operation. *)
Definition detail_authority_valid (planned : list N) (h : hevent) : bool :=
  let e := h_event h in
  if negb (claims_detail e) then true
  else if match compact_detail_reference (e_text e) with Some (_, None) => true | _ => false end then false
  else match h_detail h with Some (_, true) => true | _ => bool_decide (e_event e ∈ planned) end.
Definition op_id_of (e : event) : pystr := default [] (e_op_id e).
Definition is_active_block (planned : list N) (b : board) (h : hevent) : bool :=
  let e := h_event h in
  match e_ticket e ≫= λ t, (if nonempty t then dget t (b_tickets b) else None) with
  | Some t => in_section t BLOCKED && (e_taxonomy e =s "DEC") && startswith "ticket-" (op_id_of e) && is_block_text e
              && detail_authority_valid planned h
  | None => false
  end.
Definition is_phase_event (h : hevent) : bool :=
  existsb (λ p, startswith p (op_id_of (h_event h))) PHASE_EVENT_OPS || is_block_text (h_event h).
(** [max(l, key=event id)], the first of the greatest. *)
Definition newest (l : list hevent) : option hevent :=
  foldl (λ best h, match best with
                   | Some b => if (e_event (h_event b) <? e_event (h_event h))%N then Some h else Some b
                   | None => Some h
                   end) None l.

(** The shape the contract of the state lets through for a parked ticket: DONE out of a
    phase in mid-flight. *)
Definition parked_shape (st : fields) : option pystr :=
  match text_field st "transition_from" with
  | Some source =>
      if str_is (dget (py "phase") st) "DONE" && mem source MID_FLIGHT && negb (transition_legal source "DONE")
      then Some source else None
  | None => None
  end.

(** The newest phase-changing event up to the last event of the state. *)
Definition latest_phase_event (st : fields) (events : list hevent) : option hevent :=
  let relevant :=
    match dget (py "last_event") st with
    | Some (Scalar (SInt n)) => base.filter (λ h, (Z.of_N (e_event (h_event h)) ≤ n)%Z) events
    | _ => []
    end in
  newest (base.filter (λ h, is_phase_event h = true) relevant).

Definition block_parked_evidence_error (planned : list N) (st : fields) (b : board) (events : list hevent) : option parked_error :=
  match parked_shape st with
  | None => None
  | Some source =>
      match latest_phase_event st events with
      | None => Some (NotParked source)
      | Some h =>
          if is_active_block planned b h then None
          else if is_block_text (h_event h) && negb (detail_authority_valid planned h) then Some (DetailIntegrity (e_event (h_event h)))
          else Some (NotParked source)
      end
  end.

(** ** The defects *)

Module Defect.
Inductive t : Type :=
  | Floor (e : floor_error)
  | Malformed (p : state_problem)
  | MissingField (key : pystr)
  | PhaseUnknown
  | ActionInvalid (e : na_error)
  | ActionPrefix
  | ActionNames (ticket : pystr)
  | GoalCounters
  | GoalTarget
  | ConvergeTarget
  | ConvergeCounters
  | StrayCounters
  | StrayTarget
  | IntentUnknown
  | SourceUnknown
  | Board (e : board_error)
  | Graph (e : graph_error)
  | SeveralDoing
  | Semantic (ticket : pystr) (e : closure_error)
  | NeedNotDone (ticket need : pystr)
  | Parked (e : parked_error)
  | NotAllocated (ticket : pystr)
  | Line (e : line_error)
  | Ledger (e : ledger_error)
  | LastEventAbsent
  | LastEventNotTail
  | HomeNotAbsolute
  | Seat (e : seat_error)
  | NoDoing
  | TaskNotReal
  | TaskNotActive (active : pystr)
  | ActionNotActive (ticket active : pystr)
  | StrayDoing
  | StrayTask
  | AttemptText (e : text_error)
  | AttemptFold (e : attempt_error)
  | AttemptTorn (pointer : pystr)
  | AttemptOther (pointer : pystr)
  | SeveralOpen
  | OpenWithoutPointer (attempt : pystr)
  | PointerMismatch (pointer attempt : pystr)
  | ForeignState
  | ForeignBoard.
End Defect.
Import Defect.

(** ** The board *)

Definition doing (b : board) : list ticket := base.filter (λ t, in_section t DOING = true) (dvalues (b_tickets b)).

Definition ticket_surface_errors (ts : tickets) (t : ticket) : list Defect.t :=
  (Semantic (t_id t) <$> board_semantic_errors t)
  ++ (t_needs t ≫= λ need,
        match dget need ts with
        | Some n => report (in_section t DOING && negb (in_section n DONE)) (NeedNotDone (t_id t) need)
        | None => []
        end).
(** The defects of a board that do not depend on the state. *)
Definition surface_errors (b : board) : list Defect.t :=
  (Board <$> b_errors b) ++ (Graph <$> board_graph_errors (b_tickets b))
  ++ report (1 <? length (doing b))%nat SeveralDoing
  ++ (dvalues (b_tickets b) ≫= ticket_surface_errors (b_tickets b)).
Definition board_surface_errors (board_text : pystr) : list Defect.t := surface_errors (parse_board board_text).
Definition log_surface_errors (log_text : pystr) : list Defect.t := Line <$> la_errors (_analyze_log log_text).

(** ** The fields of the state *)

Definition CHECKED_FIELDS : list pystr := strs ["phase"; "task"; "next_action"; "blocker"; "agent"; "saipen_version"; "mode"; "updated"].
Definition in_enum (v : option value) : bool :=
  match v with Some (Scalar (SStr s)) => dmem s VALID_TRANSITIONS || mem s ANY_FROM | _ => false end.
Definition ticket_bearing (st : fields) : bool := val_in (dget (py "phase") st) TICKET_BEARING_PHASES.
Definition ACTION_PREFIXES : list pystr := strs ["WAIT:"; "saipen "; "RUN:"; "RESUME:"].

(** [^PHASE\s+([A-Za-z_-]+)(?:\s+(T-\d+))?] *)
Definition _PHASE_SUBJECT_RE : re :=
  seqs [lit "PHASE"; plus is_space; Grp 1 (plus is_phase_char); Opt (Seq (plus is_space) (Grp 2 ticket_id_re))].
(** The ticket a next action names. *)
Definition action_ticket (na : pystr) : option pystr := m ← re_match _PHASE_SUBJECT_RE (strip na); group 2 m.

Definition action_errors (st : fields) : list Defect.t :=
  match dget (py "next_action") st with
  | Some (Scalar (SStr na)) =>
      (if startswith "PHASE " na then match phase_next_action_error na with Some e => [ActionInvalid e] | None => [] end
       else report (negb (existsb (λ p, startswith p na) ACTION_PREFIXES)) ActionPrefix)
      ++ match action_ticket na, text_field st "task" with
         | Some t, Some task => report (nonempty task && negb (t =s task) && ticket_bearing st) (ActionNames t)
         | _, _ => []
         end
  | _ => []
  end.

Definition has (st : fields) (key : string) : bool := dmem (py key) st.
Definition intent_errors (st : fields) : list Defect.t :=
  let counters := has st "goal_waves" || has st "goal_tickets" in
  match dget (py "execution_intent") st with
  | Some v =>
      if str_in v (strs ["goal"]) then
        report (negb (has st "goal_waves" && has st "goal_tickets")) GoalCounters ++ report (has st "converge_target") GoalTarget
      else if str_in v (strs ["converge"]) then
        report (negb (val_in (dget (py "converge_target") st) (strs ["done"; "ship"; "crew"]))) ConvergeTarget ++ report counters ConvergeCounters
      else if str_in v (strs ["normal"]) then report counters StrayCounters ++ report (has st "converge_target") StrayTarget
      else [IntentUnknown]
  | None => report counters StrayCounters ++ report (has st "converge_target") StrayTarget
  end.

Definition source_errors (st : fields) : list Defect.t :=
  let set (key : string) := nonempty (text_or_empty (dget (py key) st)) in
  report (set "phase" && set "transition_from" && negb (str_is (dget (py "phase") st) "INIT") && negb (in_enum (dget (py "transition_from") st)))
    SourceUnknown.

Definition state_field_errors (st : fields) : list Defect.t :=
  (MissingField <$> base.filter (λ k, dmem k st = false) CHECKED_FIELDS)
  ++ report (negb (in_enum (dget (py "phase") st))) PhaseUnknown
  ++ action_errors st ++ intent_errors st ++ source_errors st.

(** ** The checks across the documents *)

Section cross.
(** [parse_runtime_provenance] of [attempt.py], as in [Attempt]. *)
Context (parse_runtime_provenance : pystr → res pystr pystr).
Context (home : install) (current_agent : option pystr) (now : Z) (st : fields) (b : board).

Definition current_schema : bool :=
  match is_schema home with Some version => eq_int (dget (py "schema_version") st) version | None => false end.

Definition last_event_errors (tail : option N) : list Defect.t :=
  match tail, dget (py "last_event") st with
  | Some _, None => report current_schema LastEventAbsent
  | Some tail, last => report (negb (eq_int last (Z.of_N tail))) LastEventNotTail
  | None, _ => []
  end.
Definition home_errors : list Defect.t :=
  let pointer := dget (py "saipen_home") st in
  report (current_schema && nonempty (text_or_empty pointer) && negb (is_absolute_home pointer)) HomeNotAbsolute.

Definition active_id : option pystr := t_id <$> head (doing b).
Definition task_text : pystr := default [] (text_field st "task").
Definition real_task : bool := nonempty task_text && negb (task_text =s "none").

(** The binding of the state to the active ticket, in both directions. *)
Definition binding_errors : list Defect.t :=
  if ticket_bearing st then
    report (bool_decide (active_id = None)) NoDoing
    ++ (if negb real_task then [TaskNotReal]
        else match active_id with Some a => report (negb (task_text =s a)) (TaskNotActive a) | None => [] end)
    ++ match dget (py "next_action") st with
       | Some (Scalar (SStr na)) =>
           match action_ticket na, active_id with
           | Some t, Some a => report (negb (t =s a)) (ActionNotActive t a)
           | _, _ => []
           end
       | _ => []
       end
  else
    match head (doing b) with
    | Some t =>
        let actor := match current_agent ≫= some_text with Some a => Some a | None => text_field st "agent" end in
        report (bool_decide (claim_status t actor now ∈ [SELF; INVALID])) StrayDoing
    | None => []
    end
    ++ report real_task StrayTask.

Definition attempt_pointer : option pystr := text_field st "attempt".
Definition attempt_surface_errors (events : list event) : list Defect.t :=
  let '(records, fold_errors) := build_attempts parse_runtime_provenance events in
  omap (λ e, match parse_attempt_event parse_runtime_provenance e with Err x => Some (AttemptText x) | Ok _ => None end) events
  ++ (AttemptFold <$> fold_errors)
  ++ match attempt_pointer with
     | None => []
     | Some p =>
         match dget p records with
         | None => [AttemptTorn p]
         | Some a => if negb (is_open a) then [AttemptTorn p]
                     else report (negb (bool_decide (text_field st "task" = at_ticket a))) (AttemptOther p)
         end
     end
  ++ match on_task (StateView (text_field st "task") attempt_pointer) records with
     | [] => []
     | [aid] => match attempt_pointer with
                | None => [OpenWithoutPointer aid]
                | Some p => report (negb (p =s aid)) (PointerMismatch p aid)
                end
     | _ => [SeveralOpen]
     end.
End cross.

(** ** The write gate *)

(** [detached_ticket_id_known_ids] of [board.py]. *)
Definition detached_ticket_id_known_ids (events : list hevent) : list pystr :=
  omap (λ h, t ← e_ticket (h_event h); if is_full ticket_id_re t then Some t else None) events.

(** The complete history of the proposal: the sealed events, then those the log adds. *)
Definition complete_events (sealed : option snapshot) (added : list event) : list hevent :=
  match sealed with
  | Some s =>
      let prior := id_of <$> s_events s in
      s_events s ++ ((λ e, HEvent e None) <$> base.filter (λ e, e_event e ∉ prior) added)
  | None => (λ e, HEvent e None) <$> added
  end.

Definition allocation_errors (sealed : option snapshot) (events : list hevent) (ts : tickets) : list Defect.t :=
  match sealed with
  | Some s =>
      if (s_max_ticket s =? 0)%N then []
      else
        let known := py "T-none" :: omap (λ h, e_ticket (h_event h) ≫= some_text) events ++ detached_ticket_id_known_ids (s_events s) in
        dkeys ts ≫= λ tid,
          match dget tid ts with
          | Some t => report ((in_section t TODO || in_section t DOING) && negb (mem tid known)) (NotAllocated tid)
          | None => []
          end
  | None => []
  end.

Section gate.
Context (parse_runtime_provenance : pystr → res pystr pystr) (home : install) (current_agent : option pystr) (sealed : option snapshot) (planned : list N) (now : Z).

Definition validate_texts (state_text board_text log_text : pystr) : list Defect.t :=
  (Floor <$> raw_floor state_text board_text log_text)
  ++ match parse_state_or_error home state_text with
     | Err p => Malformed p :: board_surface_errors board_text ++ log_surface_errors log_text
     | Ok st =>
         let b := parse_board board_text in
         let log := _analyze_log log_text in
         let events := complete_events sealed (la_events log) in
         let seat := SeatState (text_field st "task") (text_field st "agent") in
         state_field_errors st ++ board_surface_errors board_text
         ++ option_list (Parked <$> block_parked_evidence_error planned st b events)
         ++ allocation_errors sealed events (b_tickets b)
         ++ log_surface_errors log_text ++ last_event_errors home st (la_tail log) ++ home_errors home st
         ++ (Seat <$> ownership_invariant_errors seat (b_tickets b) current_agent now)
         ++ binding_errors current_agent now st b
         ++ attempt_surface_errors parse_runtime_provenance st (h_event <$> events)
     end.
End gate.

(** ** The read gate *)

(** What a checkpoint snapshot holds. *)
Record project_snapshot : Type := ProjectSnapshot { ps_state : pystr; ps_board : pystr; ps_history : snapshot }.

Definition validate_checkpoint_surface (home : install) (current_agent : option pystr) (now : Z) (state_text board_text : pystr)
    (snap : project_snapshot) : list Defect.t :=
  match report (negb (state_text =s ps_state snap)) ForeignState ++ report (negb (board_text =s ps_board snap)) ForeignBoard with
  | (_ :: _) as errors => errors
  | [] =>
      (Floor <$> state_board_floor state_text board_text ++ board_floor board_text)
      ++ match parse_state_or_error home state_text with
         | Err p => Malformed p :: board_surface_errors board_text ++ (Ledger ∘ IllegalSyntax <$> s_illegal (ps_history snap))
         | Ok st =>
             let b := parse_board board_text in
             state_field_errors st ++ surface_errors b
             ++ option_list (Parked <$> block_parked_evidence_error [] st b (s_events (ps_history snap)))
             ++ (Ledger <$> snapshot_contract_errors (ps_history snap))
             ++ last_event_errors home st (s_tail (ps_history snap)) ++ home_errors home st
             ++ binding_errors current_agent now st b
         end
  end.

