(* ===== verification/FastCheckFacts.v ===== *)
(** * What the gate of a mutation proves

    The write gate [validate_texts] is silent exactly on three documents that agree
    with one another; what it accepts the read gate accepts. *)

From S2P Require Import Prelude PyStr PyStrFacts PyUnicode PyRegex PyDict Phases BoardClock BoardParse BoardClaims BoardClosure BoardGraph.
From S2P Require Import LogLine LogHistory LogLedger Attempt AttemptFacts Ownership StateDoc StateWait StateContract AuditInbox Router RouterFacts Floor FastCheck.

(** ** The log *)

(** Events that follow each other: each after the one before it or through an exempted
    gap, and after its parent. *)
Fixpoint chained (amnesties : dict (N * N) N) (prev : option N) (events : list event) : Prop :=
  match events with
  | [] => True
  | e :: events' =>
      (∀ p, prev = Some p → e_event e = p + 1 ∨ exempted amnesties p (e_event e) = true)%N ∧
      (∀ p, e_parent e = Some p → p < e_event e)%N ∧
      chained amnesties (Some (e_event e)) events'
  end.

(** The lines that are neither blank nor comments. *)
Definition event_lines (log_text : pystr) : list pystr := base.filter (λ l, skipped l = false) (splitlines log_text).
Definition tail_from (t : option N) (events : list event) : option N := foldl (λ o e, raise (e_event e) o) t events.

(** A log of legal lines, with distinct ids, that follow each other. *)
Definition legal_log (log_text : pystr) (events : list event) : Prop :=
  mapM parse_log_line (event_lines log_text) = Some events ∧ NoDup (e_event <$> events) ∧
  chained (_ledger_gap_amnesties log_text) None events.

Lemma numbered_snd text : (numbered text).*2 = splitlines text.
Proof. unfold numbered. rewrite fmap_imap. etransitivity; [apply imap_const|]. apply list_fmap_id. Qed.

Section analysis.
Context (am : dict (N * N) N).

Lemma step_errors_grow a l : ∃ more, la_errors (analysis_step am a l) = la_errors a ++ more.
Proof.
  unfold analysis_step, illegal_step, event_step. destruct (skipped _); [exists []; by rewrite app_nil_r|].
  destruct (parse_log_line _); [by eexists|]. destruct (declared_event_id _); by eexists.
Qed.
Lemma errors_grow ls a : (la_errors (foldl (analysis_step am) a ls) = []) → la_errors a = [].
Proof.
  revert a. induction ls as [|l ls IH]; intros a; [done|]. cbn [foldl]. intros H%IH. destruct (step_errors_grow a l) as [m E].
  rewrite E in H. by apply app_nil in H as [? _].
Qed.

Lemma event_step_silent a i e :
  la_errors (event_step am a i e) = [] ↔
  la_errors a = [] ∧ (e_event e ∉ la_seen a) ∧
  (∀ p, la_prev a = Some p → (e_event e = p + 1)%N ∨ exempted am p (e_event e) = true) ∧ (∀ p, e_parent e = Some p → (p < e_event e)%N).
Proof.
  unfold event_step. cbn [la_errors]. rewrite !app_nil_iff, report_nil, bool_decide_eq_false.
  assert (match e_parent e with Some p => report (e_event e <=? p)%N (ParentTooNew i p (e_event e)) | None => [] end = []
          ↔ ∀ p, e_parent e = Some p → p < e_event e)%N as ->.
  { destruct (e_parent e) as [p|]; [|naive_solver]. rewrite report_nil, N.leb_gt. naive_solver. }
  assert (match (match la_prev a with Some p => if (e_event e =? p + 1)%N then None else Some p | None => None end) with
          | Some p => report (negb (exempted am p (e_event e))) (NotConsecutive i (e_event e) p) | None => [] end = []
          ↔ ∀ p, la_prev a = Some p → e_event e = p + 1 ∨ exempted am p (e_event e) = true)%N as Hp; [|].
  { destruct (la_prev a) as [p|]; [|naive_solver]. destruct (e_event e =? p + 1)%N eqn:E.
    - apply N.eqb_eq in E. naive_solver.
    - apply N.eqb_neq in E. rewrite report_nil, negb_false_iff. naive_solver. }
  destruct (la_prev a) as [p|]; [destruct (e_event e =? p + 1)%N|]; cbn in Hp |- *; naive_solver.
Qed.

Lemma analysis_silent ls a :
  la_errors (foldl (analysis_step am) a ls) = [] ↔
  la_errors a = [] ∧ ∃ evs, mapM parse_log_line (base.filter (λ l, skipped l = false) ls.*2) = Some evs ∧
    NoDup (e_event <$> evs) ∧ (∀ n, n ∈ e_event <$> evs → n ∉ la_seen a) ∧ chained am (la_prev a) evs ∧
    la_events (foldl (analysis_step am) a ls) = la_events a ++ evs ∧
    la_tail (foldl (analysis_step am) a ls) = tail_from (la_tail a) evs.
Proof.
  revert a. induction ls as [|[i l] ls IH]; intros a; cbn [foldl fmap list_fmap snd].
  { split; [intros H; split; [done|]; exists []; repeat split; try constructor; [by intros ? ?%elem_of_nil|by rewrite app_nil_r]|naive_solver]. }
  unfold analysis_step at 2 4 6. cbn [fst snd]. destruct (skipped l) eqn:E; [rewrite filter_cons_False by congruence; apply IH|].
  rewrite filter_cons_True by done. cbn [mapM]. destruct (parse_log_line l) as [e|]; cycle 1.
  { split; [intros H%errors_grow|by intros (_ & ? & ? & _)]. unfold illegal_step in H.
    destruct (declared_event_id l); cbn [la_errors] in H; apply app_nil in H as [_ H]; [by apply app_nil in H as [? _]|done]. }
  rewrite IH, event_step_silent. cbn [mbind option_bind mret option_ret la_events la_seen la_prev la_tail event_step].
  split.
  - intros ((H1 & H2 & H3 & H4) & evs & -> & Hn & Hs & Hc & Ee & Et). split; [done|]. exists (e :: evs). split; [done|].
    split; [constructor; [|done]|]; [intros Hin; apply (Hs _ Hin); left|]. split; [|split; [done|]]; cycle 1.
    { split; [by rewrite Ee, <-app_assoc|done]. }
    intros n [->|Hn']%elem_of_cons; [done|]. intros Hseen. apply (Hs n Hn'). by right.
  - intros (H1 & evs & Hm & Hn & Hs & Hc & Ee & Et). destruct (mapM parse_log_line _) as [evs'|]; [|done]. injection Hm as <-.
    cbn [fmap list_fmap] in Hn, Hs. apply NoDup_cons in Hn as [Hnin Hn]. destruct Hc as (Hc1 & Hc2 & Hc).
    split; [split_and!; [done|apply Hs; left|done|done]|]. exists evs'. split_and!; try done.
    + intros n Hn' [->|Hseen]%elem_of_cons; [done|]. apply (Hs n); [by right|done].
    + by rewrite Ee, <-app_assoc.
Qed.

Lemma analysis_outputs ls a evs :
  mapM parse_log_line (base.filter (λ l, skipped l = false) ls.*2) = Some evs →
  la_events (foldl (analysis_step am) a ls) = la_events a ++ evs ∧ la_tail (foldl (analysis_step am) a ls) = tail_from (la_tail a) evs.
Proof.
  revert a evs. induction ls as [|[i l] ls IH]; intros a evs; cbn [foldl fmap list_fmap snd]; [intros [= <-]; by rewrite app_nil_r|].
  unfold analysis_step at 2 4. cbn [fst snd]. destruct (skipped l) eqn:E; [rewrite filter_cons_False by congruence; apply IH|].
  rewrite filter_cons_True by done. cbn [mapM]. destruct (parse_log_line l) as [e|]; [|done].
  cbn [mbind option_bind]. destruct (mapM parse_log_line _) as [evs'|]; [|done]. intros [= <-].
  destruct (IH (event_step am a i e) evs' eq_refl) as [-> ->]. split; [|done]. cbn [la_events event_step]. by rewrite <-app_assoc.
Qed.
End analysis.

Lemma legal_analysis log_text events :
  legal_log log_text events → la_events (_analyze_log log_text) = events ∧ la_tail (_analyze_log log_text) = tail_from None events.
Proof.
  intros (Hm & _). unfold event_lines in Hm. rewrite <-numbered_snd in Hm.
  exact (analysis_outputs (_ledger_gap_amnesties log_text) _ (Analysis [] [] [] None None []) _ Hm).
Qed.

(** The pass is silent exactly on a legal log, and then gives its events and the
    greatest of their ids. *)
Lemma analysis_exact log_text :
  la_errors (_analyze_log log_text) = [] ↔
  ∃ events, legal_log log_text events ∧ la_events (_analyze_log log_text) = events ∧ la_tail (_analyze_log log_text) = tail_from None events.
Proof.
  unfold _analyze_log. rewrite analysis_silent. cbn [la_errors la_seen la_prev la_events la_tail]. rewrite numbered_snd. unfold legal_log, event_lines.
  split; [intros (_ & evs & ? & ? & _ & ? & ? & ?); by exists evs|].
  intros (evs & (? & ? & ?) & ? & ?). split; [done|]. exists evs. split_and!; try done. by intros ? _ ?%elem_of_nil.
Qed.

(** Without an amnesty the ids are consecutive numbers. *)
Lemma chained_consecutive n events :
  chained [] (Some n) events → ∀ i e, events !! i = Some e → e_event e = (n + 1 + N.of_nat i)%N.
Proof.
  revert n. induction events as [|e events IH]; intros n; [done|]. cbn [chained]. intros (H1 & _ & Hc) [|i] x; cbn.
  - intros [= <-]. destruct (H1 n eq_refl) as [->|H]; [lia|done].
  - intros Hx. rewrite (IH _ Hc i x Hx). destruct (H1 n eq_refl) as [->|H]; [lia|done].
Qed.

(** ** The attempts *)

Section attempts.
Context (prov : pystr → res pystr pystr).

(** The pointer of the state names the open attempt on its task, and there is no other. *)
Lemma attempts_exact st events :
  let records := (build_attempts prov events).1 in
  attempt_surface_errors prov st events = [] ↔
  (∀ e, e ∈ events → ∃ t, parse_attempt_event prov e = Ok t) ∧ (build_attempts prov events).2 = [] ∧
  on_task (StateView (text_field st "task") (attempt_pointer st)) records = option_list (attempt_pointer st).
Proof.
  pose proof (build_ok prov events) as [Hwf _]. unfold attempt_surface_errors. destruct (build_attempts prov events) as [records errors].
  cbv zeta. cbn [fst snd] in *. set (sv := StateView _ _). rewrite !app_nil_iff.
  assert (omap (λ e, match parse_attempt_event prov e with Ok _ => None | Err x => Some (Defect.AttemptText x) end) events = []
          ↔ ∀ e, e ∈ events → ∃ t, parse_attempt_event prov e = Ok t) as ->.
  { induction events as [|e events IH]; cbn; [split; [by intros _ ? ?%elem_of_nil|done]|]. destruct (parse_attempt_event prov e) as [t|x] eqn:E.
    - rewrite IH. split; [intros H e' [->|He']%elem_of_cons; eauto|intros H e' He'; apply H; by right].
    - split; [done|]. intros H. destruct (H e) as [t Ht]; [left|congruence]. }
  apply Morphisms_Prop.and_iff_morphism; [done|].
  assert (Defect.AttemptFold <$> errors = [] ↔ errors = []) as -> by (destruct errors; cbn; split; done).
  apply Morphisms_Prop.and_iff_morphism; [done|].
  assert (∀ aid, aid ∈ on_task sv records ↔ ∃ a, dget aid records = Some a ∧ is_open a = true ∧ at_ticket a = text_field st "task") as Hon
    by (intros aid; by apply elem_of_on_task).
  destruct (attempt_pointer st) as [p|] eqn:Ep; cbn [option_list].
  - split.
    + intros [H1 H2]. destruct (dget p records) as [a|] eqn:Ea; [|done]. destruct (is_open a) eqn:Eo; [|done]. cbn [negb] in H1.
      apply report_nil in H1. bool_tac. assert (p ∈ on_task sv records) as Hp by (apply Hon; eauto).
      destruct (on_task sv records) as [|x [|y l]]; [by apply elem_of_nil in Hp| |done].
      apply list_elem_of_singleton in Hp as <-. done.
    + intros E. assert (p ∈ on_task sv records) as Hp by (rewrite E; left). apply Hon in Hp as (a & Ha & Ho & Et).
      rewrite Ha, Ho, E. cbn. rewrite bool_decide_eq_true_2 by done. by rewrite eqs_refl.
  - split; [intros [_ H]|intros ->; done]. by destruct (on_task sv records) as [|x [|y l]].
Qed.
End attempts.

(** ** The binding *)

(** The text of the next action. *)
Definition na_of (st : fields) : option pystr := text_field st "next_action".

(** In a phase that works on a ticket the board has an active ticket and the task and
    the next action name it; in another phase the task is none and an active ticket
    is not the actor's own. *)
Definition bound (actor : option pystr) (now : Z) (st : fields) (b : board) : Prop :=
  if ticket_bearing st then
    ∃ t, head (doing b) = Some t ∧ task_text st = t_id t ∧ real_task st = true ∧
         ∀ na x, na_of st = Some na → action_ticket na = Some x → x = t_id t
  else
    real_task st = false ∧
    ∀ t, head (doing b) = Some t →
      claim_status t (match actor ≫= some_text with Some a => Some a | None => text_field st "agent" end) now ∉ [SELF; INVALID].

Lemma binding_exact actor now st b : binding_errors actor now st b = [] ↔ bound actor now st b.
Proof.
  unfold binding_errors, bound, active_id, na_of, text_field. destruct (ticket_bearing st).
  - rewrite !app_nil_iff, report_nil, bool_decide_eq_false. destruct (head (doing b)) as [t|]; cbn [fmap option_fmap option_map]; [|naive_solver].
    destruct (real_task st) eqn:Er; cbn [negb]; [|naive_solver].
    rewrite report_nil, negb_false_iff. split.
    + intros (_ & Ht%eqs_true & Ha). exists t. split_and!; try done. intros na x Hna Hx.
      destruct (dget _ st) as [[[s| |]|]|]; try done. injection Hna as <-. rewrite Hx, report_nil, negb_false_iff in Ha. by apply eqs_true in Ha.
    + intros (t' & [= <-] & Ht & _ & Ha). rewrite Ht, eqs_refl. split_and!; try done.
      destruct (dget _ st) as [[[s| |]|]|]; try done. destruct (action_ticket s) as [x|] eqn:Ex; [|done].
      by rewrite report_nil, (Ha s x), eqs_refl.
  - rewrite app_nil_iff, report_nil. destruct (head (doing b)) as [t|]; [rewrite report_nil, bool_decide_eq_false|]; naive_solver.
Qed.

(** ** The board *)

Record clean_board (b : board) : Prop := {
  cb_errors : b_errors b = [];
  cb_graph : board_graph_errors (b_tickets b) = [];
  cb_doing : length (doing b) ≤ 1;
  cb_semantic : ∀ t, t ∈ dvalues (b_tickets b) → board_semantic_errors t = [];
  cb_needs : ∀ t need n, t ∈ dvalues (b_tickets b) → need ∈ t_needs t → dget need (b_tickets b) = Some n →
    in_section t DOING = true → in_section n DONE = true;
}.

Lemma fmap_nil_iff {A B} (f : A → B) l : f <$> l = [] ↔ l = [].
Proof. destruct l; cbn; split; done. Qed.

Lemma surface_exact b : surface_errors b = [] ↔ clean_board b.
Proof.
  unfold surface_errors, ticket_surface_errors. rewrite !app_nil_iff, !fmap_nil_iff, report_nil, Nat.ltb_ge, bind_nil_iff. split.
  - intros (H1 & H2 & H3 & H4). split; try done.
    + intros t Ht. specialize (H4 t Ht). apply app_nil_iff in H4 as [H4 _]. by apply fmap_nil_iff in H4.
    + intros t need n Ht Hneed Hn Hd. specialize (H4 t Ht). apply app_nil_iff in H4 as [_ H4]. rewrite bind_nil_iff in H4.
      specialize (H4 need Hneed). cbv beta in H4. rewrite Hn, report_nil, Hd in H4. by apply negb_false_iff in H4.
  - intros [H1 H2 H3 H4 H5]. split_and!; try done. intros t Ht. rewrite (H4 t Ht). cbn. apply bind_nil_iff. intros need Hneed.
    destruct (dget need _) as [n|] eqn:En; [|done]. apply report_nil. destruct (in_section t DOING) eqn:Ed; [|done]. cbn.
    by rewrite (H5 t need n).
Qed.

(** ** The whole gate *)

(** The seat of the state document. *)
Definition seat_of (st : fields) : seat_state := SeatState (text_field st "task") (text_field st "agent").

Lemma last_event_exact home st tail :
  last_event_errors home st tail = [] ↔
  ∀ n, tail = Some n →
    dget (py "last_event") st = None ∧ current_schema home st = false ∨ eq_int (dget (py "last_event") st) (Z.of_N n) = true.
Proof.
  unfold last_event_errors. destruct tail as [n|]; [|naive_solver]. destruct (dget _ st) as [v|].
  - rewrite report_nil, negb_false_iff. naive_solver.
  - rewrite report_nil. naive_solver.
Qed.

(** *** The fields of the state *)

(** The counters and the target that go with the intent. *)
Definition intent_shape (st : fields) : Prop :=
  let intent := dget (py "execution_intent") st in
  if str_is intent "goal" then present st "goal_waves" ∧ present st "goal_tickets" ∧ absent st "converge_target"
  else if str_is intent "converge" then
    val_in (dget (py "converge_target") st) (strs ["done"; "ship"; "crew"]) = true ∧ absent st "goal_waves" ∧ absent st "goal_tickets"
  else (intent = None ∨ str_is intent "normal" = true) ∧
    absent st "goal_waves" ∧ absent st "goal_tickets" ∧ absent st "converge_target".

Record shaped (st : fields) : Prop := {
  sh_fields : ∀ k, k ∈ CHECKED_FIELDS → is_Some (dget k st);
  sh_phase : in_enum (dget (py "phase") st) = true;
  sh_action : ∀ na, na_of st = Some na →
    (startswith "PHASE " na = true → phase_next_action_error na = None) ∧
    (startswith "PHASE " na = false → ∃ p, p ∈ ACTION_PREFIXES ∧ startswith p na = true) ∧
    ∀ t task, action_ticket na = Some t → text_field st "task" = Some task → task ≠ [] → ticket_bearing st = true → t = task;
  sh_intent : intent_shape st;
  sh_source : text_or_empty (dget (py "phase") st) ≠ [] → text_or_empty (dget (py "transition_from") st) ≠ [] →
    str_is (dget (py "phase") st) "INIT" = false → in_enum (dget (py "transition_from") st) = true;
}.

Lemma has_false st key : has st key = false ↔ absent st key.
Proof. apply dmem_absent. Qed.

Lemma str_in_one v s : str_in v [s] = str_is (Some v) s.
Proof.
  unfold str_in, val_in, str_is. destruct v as [[t| |]|]; try (by rewrite bool_decide_eq_false_2).
  unfold mem. apply bool_decide_ext. rewrite list_elem_of_singleton. naive_solver.
Qed.

Lemma intent_exact st : intent_errors st = [] ↔ intent_shape st.
Proof.
  unfold intent_errors, intent_shape. destruct (dget (py "execution_intent") st) as [v|].
  - change (strs ["goal"]) with [py "goal"]. change (strs ["converge"]) with [py "converge"]. change (strs ["normal"]) with [py "normal"].
    rewrite !str_in_one. repeat (destruct (str_is _ _)); rewrite ?app_nil_iff, ?report_nil, ?negb_false_iff, ?andb_true_iff, ?orb_false_iff, ?has_false;
      unfold has; rewrite ?dmem_present; intuition (done || congruence).
  - unfold str_is. rewrite !bool_decide_eq_false_2 by done. rewrite app_nil_iff, !report_nil, orb_false_iff, !has_false. intuition.
Qed.

Lemma action_exact st :
  action_errors st = [] ↔ ∀ na, na_of st = Some na →
    (startswith "PHASE " na = true → phase_next_action_error na = None) ∧
    (startswith "PHASE " na = false → ∃ p, p ∈ ACTION_PREFIXES ∧ startswith p na = true) ∧
    ∀ t task, action_ticket na = Some t → text_field st "task" = Some task → task ≠ [] → ticket_bearing st = true → t = task.
Proof.
  unfold action_errors, na_of, text_field at 2. destruct (dget (py "next_action") st) as [[[na| |]|]|]; try (split; [by intros _ ?|done]).
  assert ((if startswith "PHASE " na then match phase_next_action_error na with Some e => [Defect.ActionInvalid e] | None => [] end
           else report (negb (existsb (λ p, startswith p na) ACTION_PREFIXES)) Defect.ActionPrefix) = []
          ↔ (startswith "PHASE " na = true → phase_next_action_error na = None) ∧
            (startswith "PHASE " na = false → ∃ p, p ∈ ACTION_PREFIXES ∧ startswith p na = true)) as H1.
  { destruct (startswith "PHASE " na); [destruct (phase_next_action_error na); naive_solver|]. rewrite report_nil, negb_false_iff, existsb_exists.
    split; [intros (p & Hp%list_elem_of_In & Hs); split; [done|by exists p]|].
    intros [_ H]. destruct (H eq_refl) as (p & Hp%list_elem_of_In & Hs). by exists p. }
  assert (match action_ticket na, text_field st "task" with
          | Some t, Some task => report (nonempty task && negb (t =s task) && ticket_bearing st) (Defect.ActionNames t)
          | _, _ => []
          end = []
          ↔ ∀ t task, action_ticket na = Some t → text_field st "task" = Some task → task ≠ [] → ticket_bearing st = true → t = task) as H2.
  { destruct (action_ticket na) as [t|], (text_field st "task") as [task|]; try (split; [intros _ ? ?; done|done]). rewrite report_nil. split.
    - intros H ? ? [= <-] [= <-] Hne%nonempty_true Hb. rewrite Hb, Hne, andb_true_r in H. cbn in H. apply negb_false_iff in H. by apply eqs_true.
    - intros H. destruct (nonempty task) eqn:E; [|done]. apply nonempty_true in E.
      destruct (ticket_bearing st) eqn:Eb; [|by rewrite andb_false_r]. by rewrite (H t task), eqs_refl. }
  rewrite app_nil_iff, H1, H2. split; [by intros [[? ?] ?] ? [= <-]|]. intros H. by destruct (H na eq_refl) as (? & ? & ?).
Qed.

Lemma source_exact st :
  source_errors st = [] ↔
  (text_or_empty (dget (py "phase") st) ≠ [] → text_or_empty (dget (py "transition_from") st) ≠ [] →
   str_is (dget (py "phase") st) "INIT" = false → in_enum (dget (py "transition_from") st) = true).
Proof.
  unfold source_errors. rewrite report_nil, <-!nonempty_true. destruct (nonempty (text_or_empty (dget (py "phase") st))); [|naive_solver].
  destruct (nonempty (text_or_empty _)); [|naive_solver]. destruct (str_is _ _); [naive_solver|]. cbn [andb negb]. rewrite negb_false_iff. naive_solver.
Qed.

Lemma fields_exact st : state_field_errors st = [] ↔ shaped st.
Proof.
  unfold state_field_errors. rewrite !app_nil_iff, fmap_nil_iff, report_nil, negb_false_iff, action_exact, intent_exact, source_exact.
  assert (base.filter (λ k, dmem k st = false) CHECKED_FIELDS = [] ↔ ∀ k, k ∈ CHECKED_FIELDS → is_Some (dget k st)) as ->.
  { split.
    - intros H k Hk. pose proof (none_missing (λ k, dmem k st) _ H k Hk) as Hm. unfold dmem in Hm. by apply bool_decide_eq_true in Hm.
    - intros H. apply elem_of_nil_inv. intros k [Hk Hin]%list_elem_of_filter. apply H in Hin. unfold dmem in Hk.
      by apply bool_decide_eq_false in Hk. }
  split; [intros (? & ? & ? & ? & ?); by split|by intros []].
Qed.

(** *** The tickets *)

(** Where tickets have been allocated, every workable ticket is named by an event. *)
Definition allocated (sealed : option snapshot) (events : list hevent) (ts : tickets) : Prop :=
  ∀ s tid t, sealed = Some s → s_max_ticket s ≠ 0%N → dget tid ts = Some t → in_section t TODO || in_section t DOING = true →
    tid = py "T-none" ∨ tid ≠ [] ∧ ∃ h, h ∈ events ∧ e_ticket (h_event h) = Some tid.

Lemma allocation_exact sealed added ts :
  allocation_errors sealed (complete_events sealed added) ts = [] ↔ allocated sealed (complete_events sealed added) ts.
Proof.
  unfold allocation_errors, allocated. destruct sealed as [s|]; [|naive_solver]. set (events := complete_events _ _).
  destruct (s_max_ticket s =? 0)%N eqn:E; [apply N.eqb_eq in E; naive_solver|apply N.eqb_neq in E]. rewrite bind_nil_iff.
  assert (∀ tid, mem tid (py "T-none" :: omap (λ h, e_ticket (h_event h) ≫= some_text) events ++ detached_ticket_id_known_ids (s_events s)) = true
          ↔ tid = py "T-none" ∨ tid ≠ [] ∧ ∃ h, h ∈ events ∧ e_ticket (h_event h) = Some tid) as Hm.
  { intros tid. rewrite mem_true, elem_of_cons, elem_of_app. unfold detached_ticket_id_known_ids. rewrite !list_elem_of_omap. split.
    - intros [->|[(h & Hh & (t & Ht & [-> Hn]%some_text_Some)%bind_Some)|(h & Hh & (t & Ht & H)%bind_Some)]]; [by left|right; split; [done|by exists h]|right].
      destruct (is_full ticket_id_re t) eqn:Ef; [|done]. injection H as <-. split; [by intros ->|]. exists h. split; [|done].
      unfold events, complete_events. apply elem_of_app. by left.
    - intros [->|(Hn & h & Hh & Ht)]; [by left|right; left]. exists h. split; [done|]. rewrite Ht. cbn. by apply some_text_Some. }
  split.
  - intros H s' tid t [= <-] _ Ht Hs. assert (tid ∈ dkeys ts) as Hin by (apply dmem_spec; unfold dmem; rewrite Ht; by apply bool_decide_eq_true_2).
    specialize (H tid Hin). cbv beta in H. rewrite Ht, report_nil, Hs in H. apply Hm. cbn in H. by apply negb_false_iff in H.
  - intros H tid Hin. destruct (dget tid ts) as [t|] eqn:Et; [|done]. apply report_nil.
    destruct (in_section t TODO || in_section t DOING) eqn:Es; [|done]. apply negb_false_iff, Hm. by apply (H s tid t).
Qed.

Lemma home_exact home st :
  home_errors home st = [] ↔
  (current_schema home st = true → text_or_empty (dget (py "saipen_home") st) ≠ [] → is_absolute_home (dget (py "saipen_home") st) = true).
Proof.
  unfold home_errors. rewrite report_nil, <-nonempty_true. destruct (current_schema home st); [|naive_solver].
  destruct (nonempty _); [|naive_solver]. cbn [andb]. rewrite negb_false_iff. naive_solver.
Qed.

Section gate.
Context (prov : pystr → res pystr pystr) (home : install) (actor : option pystr) (sealed : option snapshot) (planned : list N) (now : Z).

(** Three documents that agree: fields in the shapes of the state; a clean board; a last
    event that is the tail of the log; a parked ticket with the event that parked it;
    tickets that were allocated; a seat its holder may have; the binding of the task;
    and the attempts that go with it. *)
Record coherent (st : fields) (b : board) (log : list event) : Prop := {
  co_fields : shaped st;
  co_board : clean_board b;
  co_last : ∀ n, tail_from None log = Some n →
    dget (py "last_event") st = None ∧ current_schema home st = false ∨ eq_int (dget (py "last_event") st) (Z.of_N n) = true;
  co_home : current_schema home st = true → text_or_empty (dget (py "saipen_home") st) ≠ [] →
    is_absolute_home (dget (py "saipen_home") st) = true;
  co_parked : ∀ source, parked_shape st = Some source →
    ∃ h, latest_phase_event st (complete_events sealed log) = Some h ∧ is_active_block planned b h = true;
  co_allocated : allocated sealed (complete_events sealed log) (b_tickets b);
  co_seat : ∀ t l, doing b = t :: l → bound_task (seat_of st) = Some (t_id t) → seat_agrees (seat_of st) t now;
  co_bound : bound actor now st b;
  co_parse : ∀ e, e ∈ complete_events sealed log → ∃ t, parse_attempt_event prov (h_event e) = Ok t;
  co_fold : (build_attempts prov (h_event <$> complete_events sealed log)).2 = [];
  co_attempt : on_task (StateView (text_field st "task") (attempt_pointer st)) (build_attempts prov (h_event <$> complete_events sealed log)).1
               = option_list (attempt_pointer st);
}.

Lemma parked_exact st b events :
  option_list (Defect.Parked <$> block_parked_evidence_error planned st b events) = [] ↔
  ∀ source, parked_shape st = Some source → ∃ h, latest_phase_event st events = Some h ∧ is_active_block planned b h = true.
Proof.
  unfold block_parked_evidence_error. destruct (parked_shape st) as [source|]; [|naive_solver].
  destruct (latest_phase_event st events) as [h|]; [|split; [done|]; intros H; by destruct (H source eq_refl) as (? & ? & _)].
  destruct (is_active_block planned b h) eqn:E; [naive_solver|]. split; [by destruct (_ && _)|].
  intros H. destruct (H source eq_refl) as (? & [= <-] & ?). congruence.
Qed.

(** What a silent gate says of the three documents. *)
Lemma gate_coherent state_text board_text log_text :
  validate_texts prov home actor sealed planned now state_text board_text log_text = [] ↔
  raw_floor state_text board_text log_text = [] ∧
  ∃ st events, parse_state_or_error home state_text = Ok st ∧ legal_log log_text events ∧
    coherent st (parse_board board_text) events.
Proof.
  unfold validate_texts. rewrite app_nil_iff, fmap_nil_iff. apply Morphisms_Prop.and_iff_morphism; [done|].
  destruct (parse_state_or_error home state_text) as [st|p]; [|split; [done|]; by intros (? & ? & ? & _)].
  unfold board_surface_errors, log_surface_errors. cbv zeta.
  rewrite !app_nil_iff, !fmap_nil_iff, fields_exact, surface_exact, parked_exact, allocation_exact, analysis_exact, last_event_exact, home_exact, binding_exact, attempts_exact, ownership_invariant_exact.
  split.
  - intros (H1 & H2 & H3 & H4 & (evs & Hl & Ee & Et) & H6 & H7 & H8 & H9 & H10 & H11 & H12). rewrite Ee, Et in *.
    exists st, evs. split_and!; try done. split; try done. intros e He. apply H10. apply list_elem_of_fmap. by exists e.
  - intros (st' & evs & [= <-] & Hl & H). destruct (legal_analysis _ _ Hl) as [Ee Et]. rewrite Ee, Et. destruct H.
    split_and!; try done; [by exists evs|]. intros e (h & -> & Hh)%list_elem_of_fmap. by apply co_parse0.
Qed.

(** C8: The gate every mutation passes is silent exactly when the floor is, the state parses,
    every line of the log is a legal event that follows the one before, and the three
    documents agree. *)
Theorem write_gate_exact state_text board_text log_text :
  validate_texts prov home actor sealed planned now state_text board_text log_text = [] ↔
  raw_floor state_text board_text log_text = [] ∧
  ∃ st events, parse_state_or_error home state_text = Ok st ∧ legal_log log_text events ∧
    coherent st (parse_board board_text) events.
Proof. apply gate_coherent. Qed.

(** C9: What the write gate accepted, the read gate accepts when it is read back: the
    snapshot holds the texts that were written and the history they make. *)
Theorem written_is_readable state_text board_text log_text snap :
  validate_texts prov home actor sealed [] now state_text board_text log_text = [] →
  ps_state snap = state_text → ps_board snap = board_text →
  snapshot_contract_errors (ps_history snap) = [] → s_tail (ps_history snap) = la_tail (_analyze_log log_text) →
  s_events (ps_history snap) = complete_events sealed (la_events (_analyze_log log_text)) →
  validate_checkpoint_surface home actor now state_text board_text snap = [].
Proof.
  intros H Hs Hb Hc Ht He. unfold validate_checkpoint_surface, validate_texts in *. rewrite Hs, Hb, !eqs_refl, Hc, Ht, He. cbn [negb report app].
  apply app_nil_iff in H as [Hf H]. apply fmap_nil_iff in Hf. unfold raw_floor in Hf. rewrite !app_nil_iff in Hf.
  destruct Hf as (Hf1 & _ & Hf2). rewrite Hf1, Hf2. destruct (parse_state_or_error home state_text) as [st|p]; [|done].
  cbv zeta in H. rewrite !app_nil_iff in H. destruct H as (H1 & H2 & H3 & _ & _ & H6 & H7 & _ & H9 & _).
  unfold board_surface_errors in H2. by rewrite H1, H2, H3, H6, H7, H9.
Qed.
End gate.

(** ** Concrete documents *)

Definition no_runtime (token : pystr) : res pystr pystr := Err (py "unknown").
Definition sample_log : pystr :=
  join [10%N] (strs ["# LOG"; "- 01.05.24 10:00 [E-1] [T-1] [agent: alpha] RUN: opened"; "- [E-2] [parent: E-1] [T-2] DEC: planned"; ""]).
Definition gate_verdict (actor : string) (state board log : pystr) : list Defect.t :=
  validate_texts no_runtime sample_install (Some (py actor)) None [] noon state board log.
Definition sample_history : snapshot :=
  Snapshot [] [] (Some 2%N) (complete_events None (la_events (_analyze_log sample_log))) [] [] 0.

Lemma sample_accepted : gate_verdict "alpha" building_state building_board sample_log = [].
Proof. vm_compute. reflexivity. Qed.

Lemma written_is_readable_witness :
  validate_checkpoint_surface sample_install (Some (py "alpha")) noon building_state building_board
    (ProjectSnapshot building_state building_board sample_history) = [].
Proof.
  apply (written_is_readable no_runtime sample_install (Some (py "alpha")) None noon building_state building_board sample_log);
    [exact sample_accepted|reflexivity|reflexivity|vm_compute; reflexivity..].
Defined.

(** A gap in the ids is a defect, and a decision at or after it exempts it. *)
Definition gapped_log (rest : list string) : pystr := join [10%N] (strs (["- [E-1] RUN: a"; "- [E-5] [parent: E-1] RUN: b"] ++ rest)).
Lemma sample_gap :
  (la_errors (_analyze_log (gapped_log [])),
   let a := _analyze_log (gapped_log ["- [E-6] [parent: E-5] DEC: LEDGER-GAP AMNESTY E-1 -> E-5 lost in a merge"]) in (la_errors a, la_amnestied a, la_tail a))
  = ([NotConsecutive 2 5 1], ([], [2%nat], Some 6%N)).
Proof. vm_compute. reflexivity. Qed.

(** ** Where code and documents part *)

(** The two gates are said to apply the same set of invariants: a seat the claim of the
    active ticket contradicts passes the read gate and not the write gate. *)
Definition split_board : pystr :=
  board_lines ["- [/] T-1 build it | owner: beta | claim_time: 2024-05-01T10:00:00Z"] ["- [ ] T-2 next | verify: tests"] [] [].
Lemma read_gate_misses_the_seat :
  (validate_checkpoint_surface sample_install (Some (py "alpha")) noon building_state split_board
     (ProjectSnapshot building_state split_board sample_history),
   gate_verdict "alpha" building_state split_board sample_log)
  = ([], [Defect.Seat (OwnerSplit "alpha" "beta" (Some (py "T-1")))]).
Proof. vm_compute. reflexivity. Qed.
