(* ===== verification/BoardEdit.v ===== *)
(** * Edits of the board text

    The functions of [tools/saipen_engine/operations.py] that write the board: they
    parse it, rewrite or move one line, and leave every other line as it stands. *)

From S2P Require Import Prelude PyStr PyStrFacts PyUnicode PyRegex PyDict BoardRecord BoardParse BoardClaims LogLine LogVerdict LogEvidence LogLedger.

(** ** Lines with their ends *)

(** [s.splitlines(keepends=True)] *)
Fixpoint keeplines_go (acc s : pystr) : list pystr :=
  match s with
  | [] => match acc with [] => [] | _ => [reverse acc] end
  | c :: s' =>
      if (c =? 13)%N then
        match s' with
        | d :: s'' => if (d =? 10)%N then reverse (d :: c :: acc) :: keeplines_go [] s''
                      else reverse (c :: acc) :: keeplines_go [] s'
        | [] => [reverse (c :: acc)]
        end
      else if is_linebreak c then reverse (c :: acc) :: keeplines_go [] s'
      else keeplines_go (c :: acc) s'
  end.
Definition keeplines (s : pystr) : list pystr := keeplines_go [] s.

Definition LF : pystr := [10%N].
(** [s.rstrip] of line feeds. *)
Definition rstrip_lf (s : pystr) : pystr := reverse (drop_while (λ c, c =? 10)%N (reverse s)).

(** [lines[idx] = new + suffix], where the line feed of the old line stays. *)
Definition replace_line (text : pystr) (idx : nat) (new : pystr) : pystr :=
  let lines := keeplines text in
  let suffix := if endswith LF (default [] (lines !! idx)) then LF else [] in
  List.concat (<[idx := new ++ suffix]> lines).

Inductive edit_error : Type :=
  | NotDoing (ticket : pystr)
  | NotOnBoard (ticket : pystr)
  | NoRecord (ticket : pystr)
  | NoSection (section : pystr)
  | BadRecord (e : record_error).

Definition on_record {A} (r : res record_error A) : res edit_error A :=
  match r with Ok x => Ok x | Err e => Err (BadRecord e) end.

(** [for key, value in fields.items(): new = set_ticket_field(...)] *)
Fixpoint set_fields (enforce_cap : bool) (fields : dict pystr pystr) (raw : pystr) : res record_error pystr :=
  match fields with
  | [] => Ok raw
  | (key, value) :: fields' => new ← set_ticket_field raw key value enforce_cap; set_fields enforce_cap fields' new
  end.
Fixpoint remove_fields (keys : list pystr) (raw : pystr) : res record_error pystr :=
  match keys with
  | [] => Ok raw
  | key :: keys' => new ← remove_ticket_field raw key; remove_fields keys' new
  end.
Definition capped (enforce_cap : bool) (new : pystr) : res record_error pystr :=
  if enforce_cap then assert_live_record new else Ok new.

(** ** Fields of a ticket, in place *)

Definition CLAIM_WITNESSES : list pystr := strs ["claim_run"; "claim_generation"].

(** The seat fields of an active ticket. A binding this process cannot present is
    removed, and a change of binding drops the witnesses of the run. *)
Definition with_session (session_binding : option pystr) (enforce_cap : bool) (raw : pystr) : res record_error pystr :=
  match truthy session_binding with
  | Some binding => set_ticket_field raw "claim_session" binding enforce_cap
  | None => remove_ticket_field raw "claim_session"
  end.
Definition with_witnesses (run_witnesses : option (dict pystr pystr)) (enforce_cap : bool) (raw : pystr) : res record_error pystr :=
  match run_witnesses with
  | Some w => bare ← remove_fields CLAIM_WITNESSES raw; set_fields enforce_cap w bare
  | None => Ok raw
  end.
Definition claim_record (t : ticket) (fields : dict pystr pystr) (enforce_cap : bool) (session_binding : option pystr)
    (run_witnesses : option (dict pystr pystr)) : res record_error pystr :=
  let run_witnesses :=
    match run_witnesses with
    | Some w => Some w
    | None => if bool_decide (session_binding = dget (py "claim_session") (t_fields t)) then None else Some []
    end in
  new ← with_session session_binding enforce_cap (t_raw t);
  new ← with_witnesses run_witnesses enforce_cap new;
  new ← set_fields enforce_cap fields new;
  capped enforce_cap new.

Definition _claim_fields_in_place (board_text ticket_id : pystr) (fields : dict pystr pystr) (enforce_cap : bool)
    (session_binding : option pystr) (run_witnesses : option (dict pystr pystr)) : res edit_error pystr :=
  match dget ticket_id (b_tickets (parse_board board_text)) with
  | Some t =>
      if in_section t DOING then
        new ← on_record (claim_record t fields enforce_cap session_binding run_witnesses);
        Ok (replace_line board_text (t_line_no t - 1) new)
      else Err (NotDoing ticket_id)
  | None => Err (NotDoing ticket_id)
  end.

Definition _ticket_fields_in_place (board_text ticket_id : pystr) (fields : dict pystr pystr) (remove : list pystr)
    (enforce_cap : bool) : res edit_error pystr :=
  match dget ticket_id (b_tickets (parse_board board_text)) with
  | Some t =>
      new ← on_record (bare ← remove_fields remove (t_raw t); new ← set_fields enforce_cap fields bare; capped enforce_cap new);
      Ok (replace_line board_text (t_line_no t - 1) new)
  | None => Err (NotOnBoard ticket_id)
  end.

(** ** Records in and out of a section *)

(** [lines.insert(i, x)] *)
Definition list_insert_at {A} (i : nat) (x : A) (l : list A) : list A := take i l ++ x :: drop i l.

Definition _insert_todo (board_text line : pystr) : res edit_error pystr :=
  record ← on_record (assert_live_record line);
  let lines := keeplines board_text in
  match first_index (startswith TODO) lines with
  | Some todo_idx => Ok (List.concat (list_insert_at (S todo_idx) (record ++ LF) lines))
  | None => Err (NoSection TODO)
  end.

(** The record of the ticket opens the line. *)
Definition opened (marks : list pystr) (ticket_id stripped : pystr) : bool :=
  existsb (λ mark, startswith (mark ++ ticket_id ++ [32%N]) stripped) marks.
Definition opens (marks : list pystr) (ticket_id line : pystr) : bool := opened marks ticket_id (rstrip_lf line).
Definition OPEN_MARKS : list pystr := strs ["- [/] "; "- [ ] "].
Definition ANY_MARKS : list pystr := strs ["- [/] "; "- [ ] "; "- [x] "].
Definition SECTIONS : list pystr := [DOING; TODO; DONE; BLOCKED].

(** One pass over the lines: what is kept, the last record of the ticket, and where
    each heading was seen last. *)
Record sifted : Type := Sifted { sf_out : list pystr; sf_record : option pystr; sf_heading : dict pystr nat }.
Definition sift_step (ticket_id : pystr) (s : sifted) (line : pystr) : sifted :=
  if opens OPEN_MARKS ticket_id line then Sifted (sf_out s) (Some (rstrip_lf line)) (sf_heading s)
  else Sifted (sf_out s ++ [line]) (sf_record s)
         (foldl (λ d h, if startswith h (rstrip_lf line) then dset h (length (sf_out s)) d else d) (sf_heading s) SECTIONS).
Definition sift (ticket_id board_text : pystr) : sifted :=
  foldl (sift_step ticket_id) (Sifted [] None []) (keeplines board_text).

(** [s.replace(old, new, 1)] *)
Definition replace_one (old new s : pystr) : pystr :=
  match partition old s with (before, Some after) => before ++ new ++ after | (_, None) => s end.

Inductive move_action : Type := Done | Supersede | Resolve | Block | Unblock | Resume | Demote.

(** [^- \[[/ ]\] ] *)
Definition OPEN_BOX_RE : re := seqs [lit "- ["; Chr (λ c, (c =? 47) || (c =? 32))%N; lit "] "].
Definition close_box (s : pystr) : pystr :=
  match match_at OPEN_BOX_RE None s with Some (_, rest) => py "- [x] " ++ rest | None => s end.
Definition DEFAULT_BLOCKER_SCOPE : pystr := "ticket".
(** [value or fallback] *)
Definition or_else (o : option pystr) (fallback : pystr) : pystr := default fallback (truthy o).

Definition mark_record (action : move_action) (payload : pystr) (blocker_scope retry_not_before : option pystr) (enforce_cap : bool)
    (line : pystr) : res record_error pystr :=
  match action with
  | Done => Ok (replace_one "- [/] " "- [x] " line)
  | Supersede | Resolve => Ok (close_box line)
  | Block =>
      body ← escape_ticket_description (or_else (Some payload) "blocked");
      new ← set_ticket_field (replace_one "- [/] " "- [ ] " line) "blocker" body enforce_cap;
      new ← set_ticket_field new "blocker_scope" (or_else blocker_scope DEFAULT_BLOCKER_SCOPE) enforce_cap;
      let due := strip (default [] retry_not_before) in
      if nonempty due then set_ticket_field new "retry_not_before" due enforce_cap else Ok new
  | Unblock => remove_fields (strs ["blocker"; "blocker_scope"; "verify_attempts"; "retry_not_before"]) (replace_one "- [/] " "- [ ] " line)
  | Resume => Ok (replace_one "- [ ] " "- [/] " line)
  | Demote => Ok (replace_one "- [/] " "- [ ] " line)
  end.

Definition _move_ticket (board_text ticket_id target_section : pystr) (action : move_action) (payload : pystr)
    (blocker_scope retry_not_before : option pystr) (enforce_cap : bool) : res edit_error pystr :=
  let s := sift ticket_id board_text in
  match sf_record s with
  | None => Err (NoRecord ticket_id)
  | Some ticket_line =>
      match dget target_section (sf_heading s) with
      | None => Err (NoSection target_section)
      | Some target_idx =>
          marked ← on_record (mark_record action payload blocker_scope retry_not_before enforce_cap ticket_line);
          _ ← on_record (capped enforce_cap (rstrip marked));
          Ok (List.concat (list_insert_at (S target_idx) (rstrip marked ++ LF) (sf_out s)))
      end
  end.

(** The board without the record, the record, and the heading it stood under. *)
Record removal : Type := Removal { rm_out : list pystr; rm_record : option pystr; rm_section : pystr; rm_seen : pystr }.
Definition removal_step (ticket_id : pystr) (s : removal) (line : pystr) : removal :=
  let seen := foldl (λ seen h, if startswith h (rstrip_lf line) then h else seen) (rm_seen s) SECTIONS in
  if opens ANY_MARKS ticket_id line then Removal (rm_out s) (Some (rstrip_lf line)) seen seen
  else Removal (rm_out s ++ [line]) (rm_record s) (rm_section s) seen.
Definition _remove_ticket (board_text ticket_id : pystr) : res edit_error (pystr * pystr * pystr) :=
  let s := foldl (removal_step ticket_id) (Removal [] None [] []) (keeplines board_text) in
  match rm_record s with
  | Some record => Ok (List.concat (rm_out s), record, rm_section s)
  | None => Err (NoRecord ticket_id)
  end.

(** ** Ticket numbers *)

(** [^-\s*\[[ x/]\]\s*T-(\d+)\b] *)
Definition _BOARD_TICKET_LINE_RE : re :=
  seqs [lit "-"; Star is_space; lit "["; Chr is_checkbox; lit "]"; Star is_space; lit "T-"; Grp 1 (plus is_digit); Wordb].
Definition board_ids (board_text : pystr) : list N :=
  omap (λ line, m ← re_match _BOARD_TICKET_LINE_RE (strip line); int_of <$> group 1 m) (splitlines board_text).
(** [T-(\d+)] *)
Definition TICKET_NUMBER_RE : re := Seq (lit "T-") (Grp 1 (plus is_digit)).
Definition log_ids (log_text : pystr) : list N :=
  omap (λ line, e ← parse_log_line line; t ← truthy (e_ticket e);
          m ← re_fullmatch TICKET_NUMBER_RE t; int_of <$> group 1 m) (splitlines log_text).

Definition next_ticket_id (board_text log_text : pystr) (history_max_ticket_id : option N) : N :=
  let ids :=
    board_ids board_text
    ++ match history_max_ticket_id with
       | Some m => if (0 <? m)%N then [m] else []
       | None => log_ids log_text
       end in
  match ids with [] => 1 | _ => foldr N.max 0 ids + 1 end%N.

(** ** Texts as lists of lines *)

(** The text of lines that all end in a line feed. *)
Definition with_lf (l : pystr) : pystr := l ++ LF.
Definition text_of (ls : list pystr) : pystr := List.concat (with_lf <$> ls).

Lemma with_lf_lookup (ls : list pystr) i : (with_lf <$> ls) !! i = with_lf <$> ls !! i.
Proof. apply list_lookup_fmap. Qed.

Lemma keeplines_line acc l t : line_clean l → keeplines_go acc (l ++ LF ++ t) = (reverse acc ++ l ++ LF) :: keeplines t.
Proof.
  intros Hl. revert acc. induction Hl as [|c l Hc Hl IH]; intros acc; [simpl; by rewrite reverse_cons|].
  cbn [app keeplines_go]. destruct (N.eqb_spec c 13) as [->|_]; [by vm_compute in Hc|].
  rewrite Hc, IH. by rewrite reverse_cons, <-(assoc_L (++)).
Qed.
Lemma keeplines_text ls : Forall line_clean ls → keeplines (text_of ls) = with_lf <$> ls.
Proof.
  induction 1 as [|l ls Hl _ IH]; [done|]. unfold text_of, keeplines. rewrite fmap_cons. cbn [List.concat]. unfold with_lf at 1.
  rewrite <-(assoc_L (++)), keeplines_line by done. f_equal. exact IH.
Qed.
Lemma splitlines_text ls : Forall line_clean ls → splitlines (text_of ls) = ls.
Proof.
  induction 1 as [|l ls Hl _ IH]; [done|]. unfold text_of, splitlines. rewrite fmap_cons. cbn [List.concat]. unfold with_lf at 1.
  rewrite <-(assoc_L (++)). unfold LF at 1. cbn [app]. rewrite splitlines_go_line by done. f_equal. exact IH.
Qed.
Lemma concat_keeplines_go acc s : List.concat (keeplines_go acc s) = reverse acc ++ s.
Proof.
  assert (∀ n s acc, length s ≤ n → List.concat (keeplines_go acc s) = reverse acc ++ s) as H; [|by apply (H (length s))].
  clear s acc. induction n as [|n IH]; intros [|c s] acc; simpl; intros Hn; try lia.
  - destruct acc; simpl; [done|]. by rewrite !app_nil_r.
  - destruct acc; simpl; [done|]. by rewrite !app_nil_r.
  - assert (∀ l t, List.concat (reverse l :: keeplines_go [] t) = reverse l ++ List.concat (keeplines_go [] t)) as Hc by done.
    destruct (c =? 13)%N; [destruct s as [|d s]|].
    + simpl. by rewrite reverse_cons, app_nil_r.
    + simpl in Hn. destruct (d =? 10)%N; rewrite Hc, IH, !reverse_cons by (simpl; lia); [by rewrite <-!(assoc_L (++))|by rewrite <-(assoc_L (++))].
    + destruct (is_linebreak c); [rewrite Hc, IH by lia|rewrite IH by lia]; by rewrite reverse_cons, <-(assoc_L (++)).
Qed.
(** No byte is lost. *)
Lemma concat_keeplines s : List.concat (keeplines s) = s.
Proof. apply concat_keeplines_go. Qed.

(** A text whose lines all end in a line feed. *)
Definition lined (t : pystr) : Prop := lf_only t ∧ ends_line t.
Lemma lined_text ls : Forall line_clean ls → lined (text_of ls).
Proof.
  intros H. split.
  - unfold lf_only, text_of. apply Forall_concat, Forall_fmap. eapply Forall_impl; [exact H|]. intros l Hl. apply Forall_app. split.
    + eapply Forall_impl; [exact Hl|]. simpl. intros c Hc. by rewrite Hc.
    + by repeat constructor.
  - unfold text_of. destruct ls as [|l ls _] using rev_ind; [by left|]. right. rewrite fmap_app, concat_app. simpl. unfold with_lf at 2. rewrite app_nil_r, (assoc_L (++)).
    by eexists.
Qed.
Lemma text_lined t : lined t → ∃ ls, t = text_of ls ∧ Forall line_clean ls.
Proof.
  intros [Hlf [->|[t' ->]]]; [exists []; split; [done|constructor]|].
  exists (split LF t'). assert (lf_only t') as Hlf'. { unfold lf_only in *. by apply Forall_app in Hlf as [? _]. }
  split; [|by apply split_lf_clean]. rewrite <-(join_split LF t') at 1 by done. generalize (split_go_nonempty LF 0 [] t').
  fold (split LF t'). induction (split LF t') as [|l ls IH]; [done|]. intros _. destruct ls as [|k ls].
  - unfold text_of, with_lf. simpl. by rewrite app_nil_r.
  - rewrite join_cons by done. unfold text_of. rewrite fmap_cons. cbn [List.concat]. unfold with_lf at 1. rewrite <-!(assoc_L (++)). do 2 f_equal. by apply IH.
Qed.

Lemma clean_no_lf l : line_clean l → 10%N ∉ l.
Proof. intros H Hin. unfold line_clean in H. rewrite Forall_forall in H. specialize (H _ Hin). by vm_compute in H. Qed.
Lemma rstrip_lf_line l : line_clean l → rstrip_lf (with_lf l) = l.
Proof.
  intros H%clean_no_lf. unfold rstrip_lf, with_lf. rewrite reverse_app. cbn [LF reverse rev_append app]. change (rev_append [10%N] []) with [10%N]. cbn [app drop_while].
  change (10 =? 10)%N with true. cbn iota. destruct l as [|c l _] using rev_ind; [done|].
  rewrite reverse_snoc. cbn [drop_while]. destruct (N.eqb_spec c 10) as [->|_]; [|by rewrite <-reverse_snoc, reverse_involutive].
  exfalso. apply H, elem_of_app. right. left.
Qed.

Lemma startswith_reversed suffix s : endswith suffix (s ++ suffix) = true.
Proof. unfold endswith. rewrite reverse_app. apply startswith_app. Qed.

(** A replaced line is the only line that changes. *)
Lemma replace_line_text ls i new : Forall line_clean ls → i < length ls → replace_line (text_of ls) i new = text_of (<[i := new]> ls).
Proof.
  intros Hls Hi. unfold replace_line. rewrite keeplines_text by done. cbn zeta.
  destruct (lookup_lt_is_Some_2 ls i Hi) as [l El]. rewrite with_lf_lookup, El. cbn [fmap option_fmap option_map default from_option].
  match goal with |- context [endswith LF ?x] => assert (endswith LF x = true) as -> by apply (startswith_reversed LF l) end.
  unfold text_of. f_equal. symmetry. apply (list_fmap_insert with_lf).
Qed.

Lemma lines_of_line t idx new text' :
  lined t → idx < length (splitlines t) → text' = replace_line t idx new → line_clean new →
  lined text' ∧ splitlines text' = <[idx := new]> (splitlines t).
Proof.
  intros (ls & -> & Hls)%text_lined. rewrite splitlines_text by done. intros Hi -> Hn. rewrite replace_line_text by done.
  assert (Forall line_clean (<[idx := new]> ls)) by by apply Forall_insert.
  split; [by apply lined_text|by apply splitlines_text].
Qed.

Lemma capped_clean new r : capped true new = Ok r → r = new ∧ line_clean new.
Proof.
  unfold capped. intros H%assert_live_Ok. destruct H as (-> & Hs & _). split; [done|]. by apply record_separator_None.
Qed.

(** ** Insertion, moves and removals *)

Lemma first_index_Some {A} (P : A → bool) l i :
  first_index P l = Some i → ∃ x, l !! i = Some x ∧ P x = true ∧ Forall (λ y, P y = false) (take i l).
Proof.
  revert i. induction l as [|x l IH]; intros i; [done|]. cbn [first_index]. destruct (P x) eqn:E.
  - intros [= <-]. by exists x.
  - destruct (first_index P l) as [j|]; [|done]. intros [= <-]. destruct (IH j eq_refl) as (y & ? & ? & ?). exists y.
    split_and!; try done. simpl. by constructor.
Qed.

Lemma insert_at_fmap {A B} (f : A → B) i x l : list_insert_at i (f x) (f <$> l) = f <$> list_insert_at i x l.
Proof. unfold list_insert_at. by rewrite fmap_app, fmap_cons, fmap_take, fmap_drop. Qed.

Lemma startswith_line h l : line_clean h → startswith h (with_lf l) = startswith h l.
Proof.
  unfold with_lf.
  intros Hh. revert l. induction Hh as [|c h Hc Hh IH]; intros l; [done|]. destruct l as [|d l]; simpl.
  - destruct (N.eqb_spec c 10) as [->|_]; [by vm_compute in Hc|done].
  - by rewrite IH.
Qed.

(** A new record stands right below the first heading. *)
Lemma insert_todo_text ls line text' :
  Forall line_clean ls → _insert_todo (text_of ls) line = Ok text' →
  ∃ i h, ls !! i = Some h ∧ startswith TODO h = true ∧ Forall (λ l, startswith TODO l = false) (take i ls) ∧
    line_clean line ∧ text' = text_of (list_insert_at (S i) line ls).
Proof.
  intros Hls. unfold _insert_todo. destruct (assert_live_record line) as [r|] eqn:Er; [|done].
  apply assert_live_Ok in Er as (-> & Hs & _). cbn [on_record mbind res_bind]. rewrite keeplines_text by done.
  destruct (first_index _ _) as [i|] eqn:Ei; [|done]. intros [= <-].
  apply first_index_Some in Ei as (x & Hx & Hp & Hb). rewrite with_lf_lookup in Hx. destruct (ls !! i) as [h|] eqn:El; [|done].
  injection Hx as <-. assert (line_clean TODO) as Ht by (apply (bool_decide_unpack _); by vm_compute).
  rewrite startswith_line in Hp by done. exists i, h. split_and!; try done.
  - rewrite <-fmap_take, Forall_fmap in Hb. eapply Forall_impl; [exact Hb|]. intros l. cbn. by rewrite startswith_line.
  - by apply record_separator_None.
  - unfold text_of. f_equal. apply (insert_at_fmap with_lf).
Qed.

(** What the sift keeps and what it takes out. *)
Definition kept (ticket_id : pystr) (ls : list pystr) : list pystr := base.filter (λ l, opened OPEN_MARKS ticket_id l = false) ls.
Definition taken (ticket_id : pystr) (ls : list pystr) : list pystr := base.filter (λ l, opened OPEN_MARKS ticket_id l = true) ls.

Definition heading_step (n : nat) (l : pystr) (d : dict pystr nat) : dict pystr nat :=
  foldl (λ d h, if startswith h l then dset h n d else d) d SECTIONS.
Lemma heading_step_get n l d h :
  h ∈ SECTIONS → dget h (heading_step n l d) = if startswith h l then Some n else dget h d.
Proof.
  unfold heading_step. assert (NoDup SECTIONS) as Hnd by (apply (bool_decide_unpack _); by vm_compute).
  revert d. induction SECTIONS as [|k ks IH]; intros d Hin; [by apply elem_of_nil in Hin|]. cbn [foldl].
  apply NoDup_cons in Hnd as [Hk Hnd]. apply elem_of_cons in Hin as [->|Hin].
  - assert (∀ ks d, k ∉ ks → dget k (foldl (λ d h, if startswith h l then dset h n d else d) d ks) = dget k d) as Hno.
    { clear. induction ks as [|j ks IH]; intros d Hj; [done|]. cbn [foldl]. apply not_elem_of_cons in Hj as [Hne Hj].
      rewrite IH by done. destruct (startswith j l); [|done]. by rewrite dget_dset_ne. }
    rewrite Hno by done. destruct (startswith k l); [by rewrite dget_dset_eq|done].
  - rewrite IH by done. destruct (startswith k l); [|done]. rewrite dget_dset_ne; [done|]. by intros <-.
Qed.

Lemma sift_lines ticket_id h ls s :
  Forall line_clean ls → h ∈ SECTIONS →
  let s' := foldl (sift_step ticket_id) s (with_lf <$> ls) in
  sf_out s' = sf_out s ++ (with_lf <$> kept ticket_id ls) ∧
  sf_record s' = (match last (taken ticket_id ls) with Some r => Some r | None => sf_record s end) ∧
  dget h (sf_heading s') = (match last_index (startswith h) (kept ticket_id ls) with
                            | Some i => Some (length (sf_out s) + i) | None => dget h (sf_heading s) end).
Proof.
  intros Hls Hh. revert s. induction Hls as [|l ls Hl Hls IH]; intros s; [cbn; by rewrite app_nil_r|].
  rewrite fmap_cons. cbn [foldl]. specialize (IH (sift_step ticket_id s (with_lf l))). cbn zeta in IH |- *.
  destruct IH as (-> & -> & ->). unfold sift_step, opens. rewrite rstrip_lf_line by done.
  unfold kept, taken. rewrite !list.filter_cons. destruct (opened OPEN_MARKS ticket_id l) eqn:E.
  - rewrite decide_False, decide_True by congruence. cbn [sf_out sf_record sf_heading]. split_and!; try done.
    rewrite last_cons. by destruct (last _).
  - rewrite decide_True, decide_False by congruence. cbn [sf_out sf_record sf_heading]. split_and!.
    + by rewrite fmap_cons, <-(assoc_L (++)).
    + done.
    + fold (heading_step (length (sf_out s)) l (sf_heading s)). rewrite length_app. cbn [last_index length].
      destruct (last_index _ _) as [i|]; [f_equal; lia|]. rewrite heading_step_get by done.
      destruct (startswith h l); [f_equal; lia|done].
Qed.

(** A moved record leaves its line, and stands, marked, right below the last
    heading of its section; every other line is kept, in its order. *)
Lemma move_ticket_text ls ticket_id section action payload scope retry cap text' :
  Forall line_clean ls → section ∈ SECTIONS →
  _move_ticket (text_of ls) ticket_id section action payload scope retry cap = Ok text' →
  ∃ record marked i h,
    last (taken ticket_id ls) = Some record ∧
    kept ticket_id ls !! i = Some h ∧ startswith section h = true ∧
    Forall (λ l, startswith section l = false) (drop (S i) (kept ticket_id ls)) ∧
    mark_record action payload scope retry cap record = Ok marked ∧
    text' = text_of (list_insert_at (S i) (rstrip marked) (kept ticket_id ls)).
Proof.
  intros Hls Hsec. unfold _move_ticket, sift. rewrite keeplines_text by done.
  destruct (sift_lines ticket_id section ls (Sifted [] None []) Hls Hsec) as (-> & -> & ->). cbn [sf_out sf_record sf_heading length app Nat.add].
  destruct (last (taken ticket_id ls)) as [record|]; [|done].
  destruct (last_index (startswith section) (kept ticket_id ls)) as [i|] eqn:Ei; [|done].
  destruct (mark_record action payload scope retry cap record) as [marked|] eqn:Em; [|done]. cbn [on_record mbind res_bind].
  destruct (capped cap (rstrip marked)) as [?|]; [|done]. cbn [on_record mbind res_bind]. intros [= <-].
  apply last_index_Some in Ei as (l1 & h & l2 & E & <- & Hh & Hl2). exists record, marked, (length l1), h.
  split_and!; try done.
  - rewrite E. by apply list_lookup_middle.
  - rewrite E, cons_middle, (assoc_L (++)), drop_app_length' by (rewrite length_app; simpl; lia). done.
  - unfold text_of. f_equal. apply (insert_at_fmap with_lf).
Qed.

Lemma removal_lines ticket_id ls s :
  Forall line_clean ls →
  let s' := foldl (removal_step ticket_id) s (with_lf <$> ls) in
  rm_out s' = rm_out s ++ (with_lf <$> base.filter (λ l, opened ANY_MARKS ticket_id l = false) ls) ∧
  rm_record s' = (match last (base.filter (λ l, opened ANY_MARKS ticket_id l = true) ls) with Some r => Some r | None => rm_record s end).
Proof.
  intros Hls. revert s. induction Hls as [|l ls Hl Hls IH]; intros s; [cbn; by rewrite app_nil_r|].
  rewrite fmap_cons. cbn [foldl]. specialize (IH (removal_step ticket_id s (with_lf l))). cbn zeta in IH |- *.
  destruct IH as (-> & ->). unfold removal_step, opens. rewrite rstrip_lf_line by done.
  rewrite !list.filter_cons. destruct (opened ANY_MARKS ticket_id l) eqn:E.
  - rewrite decide_False, decide_True by congruence. cbn [rm_out rm_record]. split; [done|]. rewrite last_cons. by destruct (last _).
  - rewrite decide_True, decide_False by congruence. cbn [rm_out rm_record]. by rewrite fmap_cons, <-(assoc_L (++)).
Qed.

(** A removal hands back the record it took out of the text. *)
Lemma remove_ticket_text ls ticket_id text' record section :
  Forall line_clean ls → _remove_ticket (text_of ls) ticket_id = Ok (text', record, section) →
  text' = text_of (base.filter (λ l, opened ANY_MARKS ticket_id l = false) ls) ∧
  last (base.filter (λ l, opened ANY_MARKS ticket_id l = true) ls) = Some record.
Proof.
  intros Hls. unfold _remove_ticket. rewrite keeplines_text by done.
  destruct (removal_lines ticket_id ls (Removal [] None [] []) Hls) as (Eo & Er). cbn zeta in Eo, Er.
  destruct (rm_record _) as [r|]; [|done]. intros [= <- <- _]. rewrite Eo. cbn [rm_out rm_record app] in *. split; [done|].
  destruct (last _) as [x|]; [by injection Er as ->|done].
Qed.

(** ** The next ticket number *)

Lemma outcomes_Seq r1 r2 c b s o :
  o ∈ outcomes (Seq r1 r2) c b s → ∃ c1 b1 s1, (c1, b1, s1) ∈ outcomes r1 c b s ∧ o ∈ outcomes r2 c1 b1 s1.
Proof. cbn [outcomes]. intros ([[c1 b1] s1] & H2 & H1)%list_elem_of_bind. by exists c1, b1, s1. Qed.
Lemma outcomes_lit p c b s o : o ∈ outcomes (lit p) c b s → s = p ++ o.2 ∧ o.1.1 = c.
Proof.
  revert b s. induction p as [|d p IH]; intros b s; [by intros ->%list_elem_of_singleton|].
  intros (c1 & b1 & s1 & H1 & H2)%outcomes_Seq. cbn [outcomes] in H1. destruct s as [|x s]; [by apply elem_of_nil in H1|].
  destruct (N.eqb_spec d x) as [->|]; [|by apply elem_of_nil in H1]. apply list_elem_of_singleton in H1 as [= -> -> ->].
  apply IH in H2 as [-> ->]. done.
Qed.

(** A record opens with its checkbox and its id. *)
Lemma TICKET_RE_opening s m :
  re_match TICKET_RE s = Some m →
  ∃ c ds sp rest, s = py "- [" ++ [c] ++ py "] T-" ++ ds ++ sp :: rest ∧ is_checkbox c = true ∧ ds ≠ [] ∧
    Forall (λ d, is_digit d = true) ds ∧ is_space sp = true ∧ group 2 m = Some (py "T-" ++ ds).
Proof.
  unfold re_match, match_at. rewrite <-option_fmap_compose. destruct (head (outcomes TICKET_RE [] None s)) as [[[cs b] s']|] eqn:E; [|done].
  intros [= <-]. apply head_elem in E. unfold TICKET_RE in E. cbn [seqs] in E.
  apply outcomes_Seq in E as (c1 & b1 & s1 & H & E); apply outcomes_lit in H as [Hs Hc]; cbn [fst snd] in Hs, Hc; subst.
  apply outcomes_Seq in E as (c2 & b2 & s2 & H2 & E). cbn [outcomes] in H2. apply list_elem_of_fmap in H2 as ([[cx bx] sx] & [= -> -> ->] & H2).
  destruct s1 as [|k s1]; [by apply elem_of_nil in H2|]. destruct (is_checkbox k) eqn:Hk; [|by apply elem_of_nil in H2].
  apply list_elem_of_singleton in H2 as [= -> -> ->].
  apply outcomes_Seq in E as (c3 & b3 & s3 & H & E); apply outcomes_lit in H as [Hs Hc]; cbn [fst snd] in Hs, Hc; subst.
  apply outcomes_Seq in E as (c4 & b4 & s4 & H4 & E). cbn [outcomes] in H4. apply list_elem_of_fmap in H4 as ([[cy by'] sy] & [= -> -> ->] & H4).
  apply outcomes_lang in H4 as (p & E4 & Hp). cbn [fst snd] in *. destruct Hp as (p1 & ds & -> & ->%lang_lit & [Hne Hd]%lang_plus).
  subst s3. rewrite <-?(assoc_L (++)) in E.
  apply outcomes_Seq in E as (c5 & b5 & s5 & H5 & E). destruct (outcomes_lang _ _ _ _ _ H5) as (q & E5 & (q1 & q2 & -> & Hq)). cbn [fst snd] in *.
  destruct Hq as ((sp & -> & Hsp) & Hq). subst sy. rewrite <-?(assoc_L (++)) in E.
  exists k, ds, sp, (q2 ++ s5). split_and!; try done.
  assert (c5 = (2, py "T-" ++ ds) :: cy) as ->.
  { apply outcomes_Seq in H5 as (cz & bz & sz & Hz & H5). cbn [outcomes app] in Hz, H5. rewrite Hsp in Hz.
    apply list_elem_of_singleton in Hz as [= -> -> ->]. apply star_outcomes_lang in H5 as [H5 _]. cbn [fst] in H5. rewrite H5.
    do 2 f_equal. apply (take_consumed (py "T-" ++ ds) (sp :: q2 ++ s5)). }
  apply outcomes_Seq in E as (c6 & b6 & s6 & H6 & E). cbn [outcomes] in H6. apply list_elem_of_fmap in H6 as ([[cx bx] sx] & [= -> -> ->] & H6).
  apply star_outcomes_lang in H6 as [H6 _]. cbn [fst] in H6. subst cx.
  assert (cs = (3, take (length s5 - length sx) s5) :: (2, py "T-" ++ ds) :: cy) as ->; [|done].
  cbn [outcomes] in E. destruct sx as [|x [|? ?]]; [|destruct (x =? 10)%N|];
    first [by apply elem_of_nil in E|by apply list_elem_of_singleton in E as [= -> _ _]].
Qed.

Lemma digit_is_word c : is_digit c = true → is_word c = true.
Proof.
  unfold is_digit, digit_val. destruct (find_first _ _) as [z|] eqn:E; [|done]. intros _.
  apply find_first_Some in E as [Hz Hr]. apply andb_true_iff in Hr as [H1%N.leb_le H2%N.ltb_lt].
  assert (forallb (λ z, forallb (λ i, is_word (z + N.of_nat i)) (seq 0 10)) nd_zeros = true) as Hall by (vm_compute; reflexivity).
  rewrite forallb_forall in Hall. specialize (Hall z (proj1 (list_elem_of_In _ _) Hz)). rewrite forallb_forall in Hall.
  replace c with (z + N.of_nat (N.to_nat (c - z)))%N by lia. apply Hall, in_seq. lia.
Qed.
Lemma space_not_word c : is_space c = true → is_word c = false.
Proof.
  unfold is_space. rewrite bool_decide_eq_true. intros H. apply negb_true_iff.
  match type of H with c ∈ ?l => assert (forallb (λ c, negb (is_word c)) l = true) as Hall by (vm_compute; reflexivity) end.
  rewrite forallb_forall in Hall. apply Hall. by apply list_elem_of_In.
Qed.

Lemma replaced_prefix p s r : 0%N ∉ p → replace "\|" PIPE_SENTINEL s = p ++ r → ∃ r', s = p ++ r'.
Proof.
  revert s. induction p as [|c p IH]; intros s Hp E; [by exists s|]. apply not_elem_of_cons in Hp as [Hc Hp].
  destruct (startswith "\|" s) eqn:Eh.
  - apply startswith_spec in Eh as [s' ->]. rewrite replace_hit in E by done. injection E as Ec _. by destruct Hc.
  - destruct s as [|d s]; [done|]. rewrite replace_miss in E by done. injection E as -> E.
    destruct (IH s Hp E) as [r' ->]. by exists r'.
Qed.

(** A line the parser takes for a record counts for the allocation. *)
Lemma record_counts line m :
  re_match TICKET_RE (replace "\|" PIPE_SENTINEL (strip line)) = Some m →
  ∃ ds, group 2 m = Some (py "T-" ++ ds) ∧ (∃ c, re_match _BOARD_TICKET_LINE_RE (strip line) = Some c ∧ group 1 c = Some ds).
Proof.
  intros (k & ds & sp & rest & E & Hk & Hne & Hds & Hsp & Hg)%TICKET_RE_opening. exists ds. split; [done|].
  assert (0%N ∉ py "- [" ++ [k] ++ py "] T-" ++ ds ++ [sp]) as H0.
  { assert (∀ P : N → bool, P 0%N = false → ∀ c, P c = true → 0%N ≠ c) as Hz by (intros P H0 c Hc Heq; subst c; congruence).
    rewrite !not_elem_of_app. split_and!.
    - by apply (bool_decide_unpack _).
    - intros Hin%list_elem_of_singleton. by apply (Hz is_checkbox eq_refl k Hk).
    - by apply (bool_decide_unpack _).
    - intros Hin. rewrite Forall_forall in Hds. by specialize (Hds _ Hin).
    - intros Hin%list_elem_of_singleton. by apply (Hz is_space eq_refl sp Hsp). }
  destruct (replaced_prefix _ (strip line) rest H0) as [r Er]; [by rewrite E, <-!(assoc_L (++))|]. rewrite Er, <-!(assoc_L (++)).
  assert (∃ d, last ds = Some d ∧ is_digit d = true) as (d & El & Hd).
  { destruct ds as [|d ds _] using rev_ind; [done|]. exists d. rewrite last_snoc. by apply Forall_app in Hds as [_ [? _]%Forall_cons]. }
  exists [(1, ds)]. split; [|done]. eapply first_match. unfold _BOARD_TICKET_LINE_RE. cbn [seqs].
  eapply first_Seq; [apply (first_lit "-" [] None (py " [" ++ [k] ++ py "] T-" ++ ds ++ [sp] ++ r))|].
  eapply first_Seq; [apply (first_Star is_space _ _ (py " ") (py "[" ++ [k] ++ py "] T-" ++ ds ++ [sp] ++ r)); [by repeat constructor|done]|].
  eapply first_Seq; [apply first_lit|]. eapply first_Seq; [unfold first; cbn [outcomes app]; by rewrite Hk|].
  eapply first_Seq; [apply (first_lit "]" _ _ (py " T-" ++ ds ++ [sp] ++ r))|].
  eapply first_Seq; [apply (first_Star is_space _ _ (py " ") (py "T-" ++ ds ++ [sp] ++ r)); [by repeat constructor|done]|].
  eapply first_Seq; [apply first_lit|]. eapply first_Seq.
  - apply first_Grp, first_plus; [done..|]. cbn. destruct (is_digit sp) eqn:Ed; [|done]. apply digit_not_space in Ed. congruence.
  - unfold first. cbn [outcomes]. unfold is_wordb. cbn [app]. rewrite (space_not_word _ Hsp).
    unfold lastb. rewrite El. cbn [from_option]. by rewrite (digit_is_word _ Hd).
Qed.

Lemma parse_lines_ids lines n b k :
  k ∈ dkeys (b_tickets (BoardParse.parse_lines n lines b)) →
  k ∈ dkeys (b_tickets b) ∨
  ∃ line m, line ∈ lines ∧ re_match TICKET_RE (replace "\|" PIPE_SENTINEL (strip line)) = Some m ∧ k = default [] (group 2 m).
Proof.
  revert n b. induction lines as [|line lines IH]; intros n b; [by left|]. cbn [BoardParse.parse_lines].
  intros [H|(l & m & ? & ?)]%IH; [|right; exists l, m; split; [by right|done]].
  assert (k ∈ dkeys (b_tickets b) ∨ ∃ m, re_match TICKET_RE (replace "\|" PIPE_SENTINEL (strip line)) = Some m ∧ k = default [] (group 2 m)) as [?|[m Hm]];
    [|by left|right; exists line, m; split; [by left|done]]. clear IH.
  unfold BoardParse.parse_line in H. destruct (startswith "## " line); [by left|]. destruct (negb _); [by left|].
  destruct (startswith "- [" _).
  - unfold parse_ticket_line in H. destruct (re_match _ _) as [m|] eqn:Em; [|by left]. destruct (is_found _ _); [by left|].
    destruct (b_section b) as [s|]; [|by left]. destruct (negb _); [by left|]. destruct (parse_fields _ _ _ _ _) as [[nn ff] es]. cbn [b_tickets] in H.
    match type of H with context [match ?x with Some _ => _ | None => _ end] => destruct x end; cbn [b_tickets] in H; apply elem_of_dkeys_dset in H as [->|H]; eauto.
  - destruct (b_section b); [|by left]. destruct (mem _ _); by left.
Qed.

Lemma max_above l n : n ∈ l → (n <= foldr N.max 0 l)%N.
Proof. induction l as [|x l IH]; [by intros ?%elem_of_nil|]. cbn [foldr]. intros [->|H%IH]%elem_of_cons; lia. Qed.

Definition number_of (tid : pystr) : N := int_of (drop 2 tid).

Lemma next_above board_text log_text history n :
  n ∈ board_ids board_text ∨ (∃ m, history = Some m ∧ n = m ∧ (0 < m)%N) ∨ (history = None ∧ n ∈ log_ids log_text) →
  (n < next_ticket_id board_text log_text history)%N.
Proof.
  intros H. unfold next_ticket_id. set (l := board_ids board_text ++ _). assert (n ∈ l) as Hl.
  { unfold l. apply elem_of_app. destruct H as [?|[(m & -> & -> & Hm)|[-> ?]]]; [by left|right|by right].
    destruct (N.ltb_spec 0 m) as [_|?]; [by left|lia]. }
  clearbody l. destruct l as [|x l']; [by apply elem_of_nil in Hl|]. pose proof (max_above _ _ Hl). lia.
Qed.

(** C18: A number the board, the history or the log has spent is never issued again: the
    next number is above those of all tickets the parser reads, above the greatest
    of the history, and without that above every ticket the log names. *)
Theorem next_ticket_id_fresh board_text log_text history :
  (∀ tid, tid ∈ dkeys (b_tickets (parse_board board_text)) →
     startswith "T-" tid = true ∧ (number_of tid < next_ticket_id board_text log_text history)%N) ∧
  (∀ m, history = Some m → (m < next_ticket_id board_text log_text history)%N) ∧
  (history = None → ∀ line e tid m ds, line ∈ splitlines log_text → parse_log_line line = Some e → truthy (e_ticket e) = Some tid →
     re_fullmatch TICKET_NUMBER_RE tid = Some m → group 1 m = Some ds → (int_of ds < next_ticket_id board_text log_text history)%N).
Proof.
  split_and!.
  - intros tid. unfold parse_board. cbn [b_tickets]. intros [H|(line & m & Hl & Hm & ->)]%parse_lines_ids; [by apply elem_of_nil in H|].
    destruct (record_counts _ _ Hm) as (ds & -> & c & Hc & Hg). cbn [default from_option]. split; [apply startswith_app|].
    change (number_of (py "T-" ++ ds)) with (int_of ds). apply next_above. left. unfold board_ids. apply list_elem_of_omap.
    exists line. split; [done|]. rewrite Hc. cbn [mbind option_bind]. by rewrite Hg.
  - intros m ->. destruct (N.eq_dec m 0%N) as [->|Hm]; [unfold next_ticket_id; case_match; lia|].
    apply next_above. right. left. exists m. split_and!; [done..|lia].
  - intros -> line e tid m ds Hl He Ht Hm Hg. apply next_above. right. right. split; [done|]. unfold log_ids. apply list_elem_of_omap.
    exists line. split; [done|]. rewrite He. cbn [mbind option_bind]. rewrite Ht. cbn [mbind option_bind]. rewrite Hm. cbn [mbind option_bind].
    by rewrite Hg.
Qed.

Definition sample_board : pystr := text_of (strs ["# BOARD"; "## DOING"; "- [/] T-7 a | owner: x"; "## TODO"; "- [ ] T-12 b"; "## DONE"; "## BLOCKED"]).
Lemma next_ticket_id_fresh_witness :
  (12 < next_ticket_id sample_board [] (Some 9%N))%N ∧ (9 < next_ticket_id sample_board [] (Some 9%N))%N ∧ next_ticket_id sample_board [] (Some 9%N) = 13%N.
Proof.
  destruct (next_ticket_id_fresh sample_board [] (Some 9%N)) as (Hb & Hh & _). split_and!.
  - apply (Hb "T-12"). apply (bool_decide_unpack _). vm_compute. exact I.
  - by apply Hh.
  - vm_compute. reflexivity.
Defined.

(** A closed ticket on a well formed board. *)
Example sample_move :
  _move_ticket sample_board "T-7" DONE Done [] None None true =
  Ok (text_of (strs ["# BOARD"; "## DOING"; "## TODO"; "- [ ] T-12 b"; "## DONE"; "- [x] T-7 a | owner: x"; "## BLOCKED"])).
Proof. vm_compute. reflexivity. Qed.

(** On a board that ends, without a line feed, in the heading of the target section
    the record is glued to the heading, and the section is gone. *)
Definition unended_board : pystr := text_of (strs ["## DOING"; "- [/] T-7 a"; "## TODO"; "## BLOCKED"]) ++ py "## DONE".
Lemma unended_heading_swallows_the_record :
  b_errors (parse_board unended_board) = [] ∧
  ∃ text', _move_ticket unended_board "T-7" DONE Done [] None None true = Ok text' ∧
    b_errors (parse_board text') = [HeadingCount DONE 0] ∧ dkeys (b_tickets (parse_board text')) = [].
Proof.
  split; [vm_compute; reflexivity|]. eexists. split; [vm_compute; reflexivity|]. split; vm_compute; reflexivity.
Qed.
