(* ===== verification/BoardCompact.v ===== *)
(** * The compaction of board records

    [tools/saipen_engine/board_compaction.py]: the bounded projection of a record over
    the live cap, whose complete line goes into a detail file of the same plan. *)

From Stdlib Require Import Sorting.Sorted.
From S2P Require Import Prelude PyStr PyStrFacts PyRegex PyDict Sha256 JournalFs BoardRecord BoardParse Codec JournalRecord LogLine BoardEdit.

(** ** The authored policy *)

Definition COMPACTION_ROOT : pystr := ".saipen/recovery/board-compaction".
Definition _TITLE_LIMIT : nat := 180.
Definition _VERIFY_LIMIT : nat := 220.
Definition _FIELD_LIMIT : nat := 200.
Definition _MIN_PART : nat := 16.
Definition _MIN_CRITICAL_PART : nat := 40.

Inductive mode : Type := Inline | Compact | Tokenized | Head | Replaced.

(** [SRC-\d+(?::R\d+)?] *)
Definition SOURCE_TOKEN : re := Seq (ident_re "SRC-") (Opt (ident_re ":R")).
(** [[^,\s]+] *)
Definition PATH_TOKEN : re := plus (λ c, negb (c =? 44)%N && negb (is_space c)).
Definition _TOKEN_PATTERNS : dict pystr re :=
  (λ e : string * re, (py e.1, e.2)) <$>
  [("needs", ticket_id_re); ("source_reports", SOURCE_TOKEN); ("source_receipts", SOURCE_TOKEN); ("closure_paths", PATH_TOKEN)].

Definition COMPACTION_DISPOSITION : dict pystr mode :=
  (λ e : string * mode, (py e.1, e.2)) <$>
  [("blocked_on", Inline); ("blocker", Head); ("blocker_scope", Inline); ("claim_time", Inline); ("claim_session", Inline);
   ("claim_run", Inline); ("claim_generation", Inline); ("closure_cohort", Inline); ("closure_mode", Inline);
   ("closure_paths", Tokenized); ("detail_ref", Replaced); ("external_authority", Inline); ("external_evidence", Inline);
   ("external_implementation", Inline); ("verification_contract", Inline); ("implementation_delta", Inline);
   ("implementation_source", Inline); ("invalidation_evidence", Inline); ("publication_state", Inline); ("publication", Inline);
   ("resolution_reason", Inline); ("needs", Tokenized); ("owner", Inline); ("recurrence", Inline); ("regression", Inline);
   ("regression_evidence", Inline); ("resume_phase", Inline); ("resume_transition_from", Inline); ("retry_not_before", Inline);
   ("review_passes", Inline); ("source_receipts", Tokenized); ("source_reports", Tokenized); ("superseded_by", Inline);
   ("supersession_authority", Inline); ("supersession_evidence", Inline); ("user_explicit", Inline); ("request_witness", Inline);
   ("requires", Inline); ("verify", Compact); ("verify_attempts", Inline); ("weak_model", Inline)].

Definition _CRITICAL_FIELDS : list pystr :=
  strs ["blocker"; "blocker_scope"; "blocked_on"; "closure_cohort"; "closure_mode"; "detail_ref"; "external_authority";
        "external_evidence"; "external_implementation"; "invalidation_evidence"; "needs"; "resolution_reason"; "resume_phase";
        "resume_transition_from"; "review_passes"; "source_receipts"; "superseded_by"; "supersession_authority";
        "supersession_evidence"; "user_explicit"; "request_witness"; "requires"; "regression_evidence"; "verify"; "verify_attempts"].

(** [validate_compaction_disposition], run when the module is loaded. *)
Definition validate_compaction_disposition (policy : dict pystr mode) : bool :=
  forallb (λ k, mem k KNOWN_FIELDS) (dkeys policy) && forallb (λ k, dmem k policy) KNOWN_FIELDS.
Lemma disposition_closed : validate_compaction_disposition COMPACTION_DISPOSITION = true.
Proof. vm_compute. reflexivity. Qed.

Inductive compact_error : Type :=
  | NoDisposition (name : pystr)
  | CannotRepresent
  | OnLine (e : record_error)
  | BadTicketId (ticket : pystr)
  | BoardUnparsed (errors : list board_error)
  | NotListed (ticket : pystr)
  | OutsideBoard (line : nat)
  | PathEscapes
  | NoEvent (ticket : pystr)
  | NoDetail (problem : pystr).
Definition on_line {A} (r : res record_error A) : res compact_error A := match r with Ok x => Ok x | Err e => Err (OnLine e) end.

(** ** Bounded prefixes *)

(** The [start] and [end] of the matches [re.finditer] yields, for a pattern that
    matches no empty string; [i] is the index of the first character. *)
Fixpoint spans_go (r : re) (skip i : nat) (b : option N) (s : pystr) : list (nat * nat) :=
  match s with
  | [] => []
  | d :: s' =>
      match skip with
      | S k => spans_go r k (S i) (Some d) s'
      | O => match match_at r b s with
             | Some (_, rest) => let n := length s - length rest in (i, i + n) :: spans_go r (n - 1) (S i) (Some d) s'
             | None => spans_go r 0 (S i) (Some d) s'
             end
      end
  end.
Definition spans (r : re) (s : pystr) : list (nat * nat) := spans_go r 0 0 None s.

(** [(?:T-\d+|SRC-\d+(?::R\d+)?|C-\d+|W-\d+|EV-\d+|BB-\d+)] *)
Definition _AUTHORITY_TOKEN_RE : re :=
  Alt (Alt (Alt (Alt (Alt ticket_id_re SOURCE_TOKEN) (ident_re "C-")) (ident_re "W-")) (ident_re "EV-")) (ident_re "BB-").
(** The characters of [_CUT_DELIMITERS]. *)
Definition is_delimiter (c : N) : bool := (c =? 32)%N || (c =? 44)%N || (c =? 59)%N || (c =? 124)%N.
Definition ELLIPSIS : pystr := "...".

Fixpoint last_index {A} (P : A → bool) (l : list A) : option nat :=
  match l with
  | [] => None
  | x :: l' => match last_index P l' with Some j => Some (S j) | None => if P x then Some O else None end
  end.

Definition straddles (cut : nat) (e : nat * nat) : bool := (e.1 <? cut)%nat && (cut <? e.2)%nat.
(** The cut before a token it would split. *)
Definition snap (value : pystr) (cut : nat) : nat :=
  match find_first (straddles cut) (spans _AUTHORITY_TOKEN_RE value) with Some e => e.1 | None => cut end.
(** The cut at the last delimiter before it, unless it already follows one. *)
Definition settle (value : pystr) (cut : nat) : nat :=
  match cut with
  | O => O
  | S before =>
      if (cut <? length value)%nat && negb (from_option is_delimiter false (value !! before))
      then match last_index is_delimiter (take cut value) with Some (S b) => S b | _ => cut end
      else cut
  end.
(** [re.sub(r"\s+", " ", value).strip()] *)
Definition squeeze (value : pystr) : pystr := strip (re_sub (plus is_space) [32%N] value).
Definition _short (value : pystr) (limit : nat) : pystr :=
  let value := squeeze value in
  if (length value <=? limit)%nat then value
  else match limit - 3 with
       | O => ELLIPSIS
       | cut => rstrip (take (settle value (snap value cut)) value) ++ ELLIPSIS
       end.

(** ** The projection of a field *)

Definition verify_suffix (detail_ref : pystr) : pystr := " [detail_ref: " +s detail_ref +s "]".
Definition _compact_verify (value detail_ref : pystr) : pystr :=
  let value := _short value _VERIFY_LIMIT in
  (if nonempty value then value else py "legacy verification externalized") ++ verify_suffix detail_ref.

Definition SEPARATOR : pystr := ", ".
(** The tokens of a value, each once. *)
Definition tokens_of (name value : pystr) : list pystr :=
  match dget name _TOKEN_PATTERNS with Some r => fromkeys (re_findall r value) | None => [] end.

(** [None] leaves the field out. *)
Definition _compact_value (name value detail_ref : pystr) : res compact_error (option pystr) :=
  match dget name COMPACTION_DISPOSITION with
  | None => Err (NoDisposition name)
  | Some Replaced => Ok None
  | Some Compact => Ok (Some (_compact_verify value detail_ref))
  | Some Tokenized => Ok (Some (join SEPARATOR (tokens_of name value)))
  | Some (Inline | Head) => Ok (Some (_short value _FIELD_LIMIT))
  end.

(** ** Fitting the record into the cap *)

(** The comprehension over a list, when its body may raise. *)
Fixpoint map_res {E A B} (f : A → res E B) (l : list A) : res E (list B) :=
  match l with
  | [] => Ok []
  | x :: l' => y ← f x; ys ← map_res f l'; Ok (y :: ys)
  end.

(** A part of the record: its name and its value; the first is the description. *)
Definition part : Type := pystr * pystr.

Definition render_part (p : part) : res compact_error pystr := body ← on_line (escape_ticket_description p.2); Ok (p.1 +s ": " +s body).
Definition _render_compact (tid checkbox : pystr) (parts : list part) (detail_ref : pystr) : res compact_error pystr :=
  head ← on_line (escape_ticket_description (from_option snd [] (head parts)));
  segments ← map_res render_part (tail parts);
  Ok (join " | " (("- [" +s checkbox +s "] " +s tid +s " " +s head) :: segments ++ [py "detail_ref: " ++ detail_ref])).

Definition _NON_REDUCIBLE_TOKEN_FIELDS : list pystr := strs ["needs"; "source_receipts"].
(** [ \[detail_ref: [^\]]*\]$] *)
Definition _VERIFY_DETAIL_SUFFIX_RE : re := seqs [lit " [detail_ref: "; Star (λ c, negb (c =? 93)%N); lit "]"; Eol].
Definition _reducible_part (name : pystr) : bool := negb (mem name _NON_REDUCIBLE_TOKEN_FIELDS).

(** [while len(tokens) > 1 and len(", ".join(tokens)) > target: tokens.pop()], in as
    many rounds as there are tokens. *)
Fixpoint pop_tokens (rounds : nat) (tokens : list pystr) (target : nat) : list pystr :=
  match rounds with
  | O => tokens
  | S n => if (1 <? length tokens)%nat && (target <? length (join SEPARATOR tokens))%nat then pop_tokens n (removelast tokens) target else tokens
  end.
Definition is_tokenized (name : pystr) : bool := match dget name COMPACTION_DISPOSITION with Some Tokenized => true | _ => false end.

Definition _shrink_part (name value : pystr) (target : nat) : pystr :=
  if is_tokenized name then
    let tokens := base.filter (λ t, nonempty t = true) (split SEPARATOR value) in
    if (length tokens <=? 1)%nat then value else join SEPARATOR (pop_tokens (length tokens) tokens target)
  else if name =s "verify" then
    let '(head, suffix) := match spans _VERIFY_DETAIL_SUFFIX_RE value with
                           | (i, j) :: _ => (take i value, take (j - i) (drop i value))
                           | [] => (value, [])
                           end in
    rstrip (_short head (Nat.max _MIN_PART (target - length suffix))) ++ suffix
  else _short value target.

Definition floor_of (name : pystr) : nat := if mem name _CRITICAL_FIELDS then _MIN_CRITICAL_PART else _MIN_PART.
Definition candidates (frozen : list nat) (parts : list part) : list (nat * part) :=
  base.filter (λ e : nat * part, negb (bool_decide (e.1 ∈ frozen)) && _reducible_part e.2.1 && (floor_of e.2.1 <? length e.2.2)%nat = true)
    (imap (λ i p, (i, p)) parts).
(** [max(candidates, key=len)], the first of the longest. *)
Definition longest (l : list (nat * part)) : option (nat * part) :=
  foldl (λ best e, match best with
                   | Some b => if (length b.2.2 <? length e.2.2)%nat then Some e else Some b
                   | None => Some e
                   end) None l.
(** [int(len(value) * 0.6)] is the floor of three fifths. *)
Definition target_of (name value : pystr) : nat :=
  let target := Nat.max (floor_of name) (length value * 3 / 5) in
  if (length value <=? target)%nat then length value - 1 else target.

Fixpoint fit_go (guard : nat) (tid checkbox detail_ref : pystr) (frozen : list nat) (parts : list part) (line : pystr)
    : res compact_error (list part * pystr) :=
  match guard with
  | O => Ok (parts, line)
  | S guard' =>
      if (length line <=? MAX_LIVE_RECORD_CHARS)%nat || (length parts <=? 1)%nat then Ok (parts, line)
      else match longest (candidates frozen parts) with
           | None => Ok (parts, line)
           | Some (i, (name, value)) =>
               let shrunk := _shrink_part name value (target_of name value) in
               if shrunk =s value then fit_go guard' tid checkbox detail_ref (i :: frozen) parts line
               else
                 let parts := <[i := (name, shrunk)]> parts in
                 line ← _render_compact tid checkbox parts detail_ref;
                 fit_go guard' tid checkbox detail_ref frozen parts line
           end
  end.
Definition GUARD : nat := N.to_nat 100000.
Definition _fit_compact (tid checkbox : pystr) (parts : list part) (detail_ref : pystr) : res compact_error pystr :=
  line ← _render_compact tid checkbox parts detail_ref;
  fitted ← fit_go GUARD tid checkbox detail_ref [] parts line;
  if (MAX_LIVE_RECORD_CHARS <? length fitted.2)%nat then Err CannotRepresent else Ok fitted.2.

Definition compact_part (detail_ref : pystr) (e : pystr * pystr) : res compact_error (list part) :=
  rendered ← _compact_value e.1 e.2 detail_ref;
  Ok (match rendered with Some value => [(e.1, value)] | None => [] end).
Definition compact_parts (t : ticket) (detail_ref : pystr) : res compact_error (list part) :=
  fields ← map_res (compact_part detail_ref) (t_fields t);
  Ok ((py "description", _short (t_description t) _TITLE_LIMIT) :: List.concat fields).
Definition _compact_line (t : ticket) (detail_ref : pystr) : res compact_error pystr :=
  parts ← compact_parts t detail_ref;
  compact ← _fit_compact (t_id t) (if nonempty (t_checkbox t) then t_checkbox t else [32%N]) parts detail_ref;
  on_line (assert_live_record compact).

(** ** The detail artifact *)

Definition _slug_ticket (tid : pystr) : res compact_error pystr := if is_full ticket_id_re tid then Ok tid else Err (BadTicketId tid).

(** The physical line with its end, which is added where the file ends without one. *)
Definition _record_bytes (board_text : pystr) (line_no : nat) : res compact_error (list N) :=
  match line_no with
  | O => Err (OutsideBoard line_no)
  | S i =>
      match keeplines board_text !! i with
      | Some line =>
          let raw := utf8 line in
          Ok (if bool_decide (last raw = Some 10%N) || bool_decide (last raw = Some 13%N) then raw else raw ++ [10%N])
      | None => Err (OutsideBoard line_no)
      end
  end.

Definition _artifact_paths (tid original_hash : pystr) : res compact_error (pystr * pystr) :=
  slug ← _slug_ticket tid;
  let stem := slug +s "-" +s take 24 original_hash in
  Ok (COMPACTION_ROOT +s "/" +s tid +s "/" +s stem +s ".BOARD.md", COMPACTION_ROOT +s "/" +s tid +s "/" +s stem +s ".json").

(** The event an artifact cites: none, one for the whole plan, or one for each ticket. *)
Inductive event_source : Type := NoEventId | OneEvent (event : pystr) | PerTicket (events : dict pystr pystr).
Definition event_id_for (event_id : event_source) (tid : pystr) : res compact_error (option pystr) :=
  match event_id with
  | NoEventId => Ok None
  | OneEvent e => Ok (Some e)
  | PerTicket events => match dget tid events with Some e => Ok (Some e) | None => Err (NoEvent tid) end
  end.

(** [unrecognized_field_ticket] of an error of the parser. *)
Definition unrecognized_field_ticket (e : board_error) : option pystr :=
  match e with UnrecognizedField _ tid _ => Some tid | _ => None end.

(** [CompactionResult] *)
Record compaction : Type := CompactionResult {
  cp_text : pystr;
  cp_targets : list target_plan;
  cp_ref : pystr;
  cp_hash : pystr;
  cp_tickets : list pystr;
}.

(** The detail files already on disk: why the detail a row names is no authority
    ([detail_integrity_error]), and the checkpoint the lineage behind a detail needs
    ([gather_lineage] and [checkpoint_plan]): its path, its bytes and their digest. *)
Record detail_store : Type := DetailStore {
  ds_integrity : pystr → list pystr → option pystr;
  ds_checkpoint : pystr → pystr → option (pystr * payload * pystr);
}.

Section compaction.
Context (root : path) (project_identity project_lineage_identity : option pystr) (store : detail_store).
Context (op_id : pystr) (event_id : event_source) (reason : pystr).

Definition _metadata (tid : pystr) (original : list N) (original_hash record_path metadata_path : pystr) (event : option pystr)
    (prior_detail_ref : option pystr) (checkpoint : option (pystr * payload * pystr)) : list (pystr * json) :=
  [(py "schema_version", JInt 1); (py "operation", JStr "board_legacy_compaction"); (py "status", JStr "COMMITTED");
   (py "ticket_id", JStr tid); (py "project_identity", json_of project_identity); (py "project_lineage", json_of project_lineage_identity);
   (py "source", JStr ".saipen/BOARD.md"); (py "original_record_path", JStr record_path); (py "original_record_sha256", JStr original_hash);
   (py "original_record_bytes", JInt (Z.of_nat (length original))); (py "metadata_path", JStr metadata_path);
   (py "supersedes_detail_ref", JStr (default [] prior_detail_ref));
   (py "externalization_event", JObj [(py "operation_id", JStr op_id); (py "event_id", json_of event); (py "reason", JStr reason)]);
   (py "lossless", JBool true)]
  ++ match checkpoint with
     | Some (ref, _, digest) => [(py "supersedes_checkpoint", JStr ref); (py "supersedes_checkpoint_sha256", JStr digest)]
     | None => []
     end.

Definition prior_ref (t : ticket) : option pystr := truthy (Some (strip (fget "detail_ref" (t_fields t)))).

(** The row of one ticket, the targets of its detail and the reference to it. *)
Definition _one (board_text tid : pystr) (tolerated foreign : list pystr)
    : res compact_error (pystr * list target_plan * option (pystr * pystr)) :=
  let b := parse_board board_text in
  if negb (forallb (λ e, match unrecognized_field_ticket e with Some t => mem t tolerated | None => false end) (b_errors b))
  then Err (BoardUnparsed (b_errors b))
  else match dget tid (b_tickets b) with
       | None => Err (NotListed tid)
       | Some t =>
           if (length (t_raw t) <=? MAX_LIVE_RECORD_CHARS)%nat && negb (mem tid foreign) then Ok (board_text, [], None)
           else
             original ← _record_bytes board_text (t_line_no t);
             let original_hash := hexdigest original in
             paths ← _artifact_paths tid original_hash;
             let '(record_path, metadata_path) := paths in
             match owned_target_path root record_path, owned_target_path root metadata_path with
             | Some _, Some _ =>
                 let checkpoint := prior_ref t ≫= λ ref, ds_checkpoint store ref tid in
                 event ← event_id_for event_id tid;
                 let metadata := _metadata tid original original_hash record_path metadata_path event (prior_ref t) checkpoint in
                 compact ← _compact_line t metadata_path;
                 Ok (replace_line board_text (t_line_no t - 1) compact,
                     [TargetPlan record_path "generic" (Bytes original); TargetPlan metadata_path "generic" (JsonDocument (JObj metadata))]
                     ++ option_list ((λ c, TargetPlan c.1.1 "generic" c.1.2) <$> checkpoint),
                     Some (metadata_path, original_hash))
             | _, _ => Err PathEscapes
             end
       end.

(** The loop over the tickets, each once. *)
Fixpoint compact_rows (tolerated foreign : list pystr) (tids : list pystr) (c : compaction) : res compact_error compaction :=
  match tids with
  | [] => Ok c
  | tid :: tids' =>
      row ← _one (cp_text c) tid tolerated foreign;
      let '(text, targets, made) := row in
      compact_rows tolerated foreign tids'
        (match made with
         | Some (ref, digest) =>
             let first := match cp_tickets c with [] => true | _ => false end in
             CompactionResult text (cp_targets c ++ targets) (if first then ref else cp_ref c) (if first then digest else cp_hash c)
               (cp_tickets c ++ [tid])
         | None => CompactionResult text (cp_targets c ++ targets) (cp_ref c) (cp_hash c) (cp_tickets c)
         end)
  end.

Definition prepare_existing (board_text : pystr) (tids : list pystr) (tolerated_ids : option (list pystr)) (foreign_ids : list pystr)
    : res compact_error compaction :=
  match ds_integrity store board_text tids with
  | Some problem => Err (NoDetail problem)
  | None => compact_rows (default tids tolerated_ids) foreign_ids (fromkeys tids) (CompactionResult board_text [] [] [] [])
  end.
Definition prepare_expanded (board_text : pystr) (tids : list pystr) : res compact_error compaction :=
  compact_rows [] [] (fromkeys tids) (CompactionResult board_text [] [] [] []).

(** [_project_board_mutation] of [operations.py]: compact, mutate without the cap,
    compact what the mutation made too long. *)
Definition _project_board_mutation {E} (raises : compact_error → E) (board_text : pystr) (propose : pystr → res E pystr) (tids : list pystr)
    : res E compaction :=
  let ok {A} (r : res compact_error A) : res E A := match r with Ok x => Ok x | Err e => Err (raises e) end in
  compacted ← ok (prepare_existing board_text tids None []);
  proposed ← propose (cp_text compacted);
  grown ← ok (prepare_expanded proposed tids);
  Ok (CompactionResult (cp_text grown) (cp_targets compacted ++ cp_targets grown)
        (if nonempty (cp_ref grown) then cp_ref grown else cp_ref compacted)
        (if nonempty (cp_hash grown) then cp_hash grown else cp_hash compacted)
        (fromkeys (cp_tickets compacted ++ cp_tickets grown))).
End compaction.

Definition foreign_go (b : board) : list board_error → list pystr → option (list pystr) :=
  fix go errors found :=
    match errors with
    | [] => Some found
    | e :: errors' =>
        match unrecognized_field_ticket e with
        | Some tid => if dmem tid (b_tickets b) then go errors' (if mem tid found then found else found ++ [tid]) else None
        | None => None
        end
    end.
Definition foreign_field_ticket_ids (board_text : pystr) : list pystr :=
  let b := parse_board board_text in default [] (foreign_go b (b_errors b) []).
Definition oversized_ticket_ids (board_text : pystr) : list pystr :=
  let b := parse_board board_text in
  match foreign_go b (b_errors b) [] with
  | None => []
  | Some tolerated =>
      let oversized := omap (λ e : pystr * ticket, if (MAX_LIVE_RECORD_CHARS <? length (t_raw e.2))%nat then Some e.1 else None) (b_tickets b) in
      if forallb (λ t, mem t oversized) tolerated then oversized else []
  end.

(** ** No token is split *)

Lemma spans_go_spec r skip i b s e :
  e ∈ spans_go r skip i b s → i + skip ≤ e.1 ∧ e.1 ≤ e.2 ≤ i + length s ∧ lang r (take (e.2 - e.1) (drop (e.1 - i) s)).
Proof.
  revert skip i b. induction s as [|d s IH]; intros skip i b; cbn [spans_go]; [by intros ?%elem_of_nil|].
  assert (∀ skip b, e ∈ spans_go r skip (S i) b s → S i + skip ≤ e.1 ∧ e.1 ≤ e.2 ≤ S i + length s ∧ lang r (take (e.2 - e.1) (drop (e.1 - i) (d :: s)))) as IH'.
  { intros k b' H. destruct (IH _ _ _ H) as (H1 & H2 & H3). split_and!; try lia. replace (e.1 - i) with (S (e.1 - S i)) by lia. exact H3. }
  destruct skip as [|k]; [|intros H%IH'; cbn [length]; split_and!; [lia..|apply H]].
  destruct (match_at r b (d :: s)) as [[c rest]|] eqn:Em; [|intros H%IH'; cbn [length]; split_and!; [lia..|apply H]].
  cbv zeta. intros [->|H%IH']%elem_of_cons; [|cbn [length]; split_and!; [lia..|apply H]].
  apply match_at_lang in Em as (p & Hp & Hl). cbn [fst snd]. rewrite Hp, length_app. replace (i + (length p + length rest - length rest) - i) with (length p) by lia.
  rewrite (Nat.sub_diag i). rewrite drop_0. split_and!; [lia..|]. by rewrite take_app_length.
Qed.

Definition apart (e f : nat * nat) : Prop := e.2 ≤ f.1.
Lemma spans_go_sorted r skip i b s : StronglySorted apart (spans_go r skip i b s).
Proof.
  revert skip i b. induction s as [|d s IH]; intros skip i b; cbn [spans_go]; [constructor|].
  destruct skip as [|k]; [|apply IH]. destruct (match_at r b (d :: s)) as [[c rest]|]; [|apply IH]. cbv zeta. constructor; [apply IH|].
  apply Forall_forall. intros e He%spans_go_spec. unfold apart. cbn [snd]. lia.
Qed.
Lemma spans_apart r s e f : e ∈ spans r s → f ∈ spans r s → e = f ∨ apart e f ∨ apart f e.
Proof.
  unfold spans. generalize (spans_go_sorted r 0 0 None s). generalize (spans_go r 0 0 None s). intros l.
  induction 1 as [|x l Hs IH Hf]; [by intros ?%elem_of_nil|]. rewrite Forall_forall in Hf.
  intros [->|He]%elem_of_cons [->|Hf']%elem_of_cons; auto.
Qed.

Lemma last_index_at {A} (P : A → bool) l j : last_index P l = Some j → j < length l ∧ ∃ x, l !! j = Some x ∧ P x = true.
Proof.
  revert j. induction l as [|x l IH]; intros j; cbn [last_index length]; [done|].
  destruct (last_index P l) as [k|].
  - intros [= <-]. destruct (IH k eq_refl) as (Hk & y & Hy & Hp). split; [lia|]. by exists y.
  - destruct (P x) eqn:E; [|done]. intros [= <-]. split; [lia|]. by exists x.
Qed.

(** No character of a token is a delimiter. *)
Lemma token_chars p : lang _AUTHORITY_TOKEN_RE p → Forall (λ c, is_delimiter c = false) p.
Proof.
  assert (∀ prefix q, Forall (λ c, is_delimiter c = false) prefix → lang (ident_re prefix) q → Forall (λ c, is_delimiter c = false) q) as Hid.
  { intros prefix q Hp (q1 & q2 & -> & ->%lang_lit & [_ Hd]%lang_plus). apply Forall_app. split; [done|].
    eapply Forall_impl; [exact Hd|]. intros c Hc. unfold is_delimiter. destruct (N.eqb_spec c 32) as [->|_]; [by vm_compute in Hc|].
    destruct (N.eqb_spec c 44) as [->|_]; [by vm_compute in Hc|]. destruct (N.eqb_spec c 59) as [->|_]; [by vm_compute in Hc|].
    destruct (N.eqb_spec c 124) as [->|_]; [by vm_compute in Hc|]. done. }
  intros [[[[[H|H]|H]|H]|H]|H]; try (eapply Hid; [|exact H]; by repeat constructor).
  destruct H as (q1 & q2 & -> & H1 & H2). apply Forall_app. split; [eapply Hid; [|exact H1]; by repeat constructor|].
  destruct H2 as [H2| ->]; [|constructor]. eapply Hid; [|exact H2]. by repeat constructor.
Qed.

Definition splits (value : pystr) (cut : nat) : Prop := ∃ e, e ∈ spans _AUTHORITY_TOKEN_RE value ∧ e.1 < cut < e.2.

Lemma snap_spec value cut : snap value cut ≤ cut ∧ ¬ splits value (snap value cut).
Proof.
  unfold snap. destruct (find_first _ _) as [e|] eqn:Ef.
  - apply find_first_Some in Ef as [Hin Hs]. unfold straddles in Hs. apply andb_true_iff in Hs as [H1%Nat.ltb_lt H2%Nat.ltb_lt]. split; [lia|].
    intros (f & Hf & Hlt). destruct (spans_apart _ _ _ _ Hin Hf) as [<-|[H|H]]; unfold apart in *; lia.
  - split; [done|]. intros (e & He & H1 & H2). rewrite find_first_None in Ef. specialize (Ef e He). unfold straddles in Ef.
    apply andb_false_iff in Ef as [E%Nat.ltb_ge|E%Nat.ltb_ge]; lia.
Qed.

(** A cut beside a delimiter, or in a text that has none before it but its first
    character. *)
Definition at_boundary (value : pystr) (cut : nat) : Prop :=
  (∃ c, value !! (cut - 1) = Some c ∧ is_delimiter c = true) ∨ (∃ c, value !! cut = Some c ∧ is_delimiter c = true) ∨
  ∀ i c, 0 < i < cut → value !! i = Some c → is_delimiter c = false.

Lemma last_index_later {A} (P : A → bool) l o :
  last_index P l = o → ∀ i x, default 0 o < i → l !! i = Some x → P x = false.
Proof.
  revert o. induction l as [|y l IH]; intros o Ho i x Hi Hx; [done|]. cbn [last_index] in Ho.
  destruct i as [|i]; [lia|]. cbn in Hx. destruct (last_index P l) as [k|] eqn:El.
  - subst o. cbn in Hi. apply (IH _ eq_refl i x); [cbn; lia|done].
  - assert (default 0 o = 0) as E by (subst o; by destruct (P y)).
    destruct i as [|i]; [|apply (IH _ eq_refl (S i) x); [cbn; lia|done]].
    destruct l as [|z l]; [done|]. injection Hx as ->. cbn [last_index] in El. destruct (last_index P l); [done|]. by destruct (P x).
Qed.

Lemma settle_boundary value cut : cut < length value → at_boundary value (settle value cut).
Proof.
  intros Hl. unfold settle, at_boundary. destruct cut as [|before]; [right; right; lia|].
  rewrite (proj2 (Nat.ltb_lt _ _) Hl). cbn [andb]. destruct (value !! before) as [c|] eqn:Eb; cbn [from_option].
  2: { apply lookup_ge_None in Eb. lia. }
  match goal with |- context [from_option is_delimiter false ?o] => assert (o = Some c) as -> by exact Eb end. cbn [from_option].
  destruct (is_delimiter c) eqn:Ec; cbn [negb]; cbv iota.
  { left. exists c. assert (S before - 1 = before) as E by lia. rewrite E. split; [exact Eb|done]. }
  destruct (last_index is_delimiter (take (S before) value)) as [j|] eqn:El.
  - destruct (last_index_at _ _ _ El) as (Hj & x & Hx & Hd). apply lookup_take_Some in Hx as [Hx _]. destruct j as [|j].
    + right; right. intros i d Hi Hd'. apply (last_index_later _ _ _ El i d); [cbn; lia|]. apply lookup_take_Some. split; [done|lia].
    + right; left. by exists x.
  - right; right. intros i d Hi Hd'. apply (last_index_later _ _ _ El i d); [cbn; lia|]. apply lookup_take_Some. split; [done|lia].
Qed.

Lemma settle_spec value cut : ¬ splits value cut → settle value cut ≤ cut ∧ ¬ splits value (settle value cut).
Proof.
  intros Hc. unfold settle. destruct cut as [|before]; [done|]. destruct (_ && _); [|done].
  destruct (last_index _ _) as [[|j]|] eqn:El; [done| |done]. apply last_index_at in El as (Hj & x & Hx & Hd).
  rewrite length_take in Hj. split; [lia|]. intros (e & He & Hlt). apply spans_go_spec in He as (_ & _ & Hl%token_chars).
  rewrite Forall_lookup in Hl. specialize (Hl (S j - e.1) x). rewrite Hl in Hd; [done|]. apply lookup_take_Some. rewrite Nat.sub_0_r. split; [|lia].
  rewrite lookup_drop. apply lookup_take_Some in Hx as [Hx _]. rewrite <-Hx. f_equal. lia.
Qed.

Lemma rstrip_length s : length (rstrip s) ≤ length s.
Proof.
  unfold rstrip. rewrite length_reverse, <-(length_reverse s). generalize (reverse s). intros l. induction l as [|c l IH]; [done|].
  cbn [drop_while]. destruct (is_space c); cbn [length] in *; lia.
Qed.

(** C21: Shortening never fabricates an authority token: the bounded value is the value
    itself, its blanks squeezed, or three dots after a prefix of it that ends inside no
    ticket, source, cohort, work, event or board number. The cut falls beside a blank,
    comma, semicolon or bar whenever one stands before it; a longer run without any,
    such as a path, is no authority token and may be cut inside. The result is no
    longer than the limit, or than the three dots where the limit is below three. *)
Theorem short_splits_no_token value limit :
  let whole := squeeze value in
  length (_short value limit) ≤ Nat.max limit 3 ∧
  (_short value limit = whole ∧ length whole ≤ limit ∨
   limit < length whole ∧
   ∃ cut, cut ≤ limit - 3 ∧ _short value limit = rstrip (take cut whole) ++ ELLIPSIS ∧
     (∀ e, e ∈ spans _AUTHORITY_TOKEN_RE whole → cut ≤ e.1 ∨ e.2 ≤ cut) ∧ at_boundary whole cut).
Proof.
  cbv zeta. unfold _short. cbv zeta. set (whole := squeeze value). destruct (Nat.leb_spec (length whole) limit) as [Hle|Hlt]; [split; [lia|by left]|].
  assert (∃ cut, cut ≤ limit - 3 ∧ ¬ splits whole cut ∧ at_boundary whole cut ∧
            match limit - 3 with O => ELLIPSIS | cut => rstrip (take (settle whole (snap whole cut)) whole) ++ ELLIPSIS end = rstrip (take cut whole) ++ ELLIPSIS)
    as (cut & Hc & Hs & Hb & ->).
  { destruct (limit - 3) as [|n] eqn:En; [exists 0; split_and!; [lia|intros (e & _ & ?); lia|right; right; lia|done]|]. cbv zeta.
    destruct (snap_spec whole (S n)) as [H1 H2]. destruct (settle_spec whole _ H2) as [H3 H4].
    eexists. split_and!; [|exact H4| |reflexivity]; [lia|]. apply settle_boundary. lia. }
  split.
  - rewrite length_app. change (length ELLIPSIS) with 3. pose proof (rstrip_length (take cut whole)) as Hr. rewrite length_take in Hr. lia.
  - right. split; [done|]. exists cut. split_and!; [done|done| |done]. intros e He. destruct (decide (cut ≤ e.1)) as [?|H1]; [by left|].
    destruct (decide (e.2 ≤ cut)) as [?|H2]; [by right|]. destruct Hs. exists e. split; [done|lia].
Qed.

(** ** Lists of tokens *)

Lemma split_clean a sep ts : ts ≠ [] → Forall (λ t, a ∉ t) ts → split (a :: sep) (join (a :: sep) ts) = ts.
Proof.
  intros Hne Hts. assert (∀ t acc s, a ∉ t → split_go (a :: sep) 0 acc (t ++ (a :: sep) ++ s) = (reverse acc ++ t) :: split_go (a :: sep) 0 [] s) as Hcut.
  { intros t. induction t as [|c t IH]; intros acc s Ht; [rewrite app_nil_l, split_go_hit, app_nil_r by done; done|].
    rewrite not_elem_of_cons in Ht. destruct Ht as [Hc Ht]. cbn [app]. rewrite split_go_miss by (apply startswith_head; cbn; congruence).
    change (a :: sep ++ s) with ((a :: sep) ++ s). rewrite IH by done. by rewrite reverse_cons, <-(assoc_L (++)). }
  induction Hts as [|t ts Ht Hts IH]; [done|]. destruct ts as [|u ts]; [by apply (split_one _ a)|].
  rewrite join_cons by done. unfold split. rewrite Hcut by done. cbn [reverse app]. f_equal. by apply IH.
Qed.

(** What is left of a list of tokens: whole tokens from the front, and never none of some. *)
Definition whole_tokens (tokens : list pystr) (value : pystr) : Prop :=
  ∃ k, value = join SEPARATOR (take k tokens) ∧ (tokens = [] ∨ 1 ≤ k).
Definition plain_token (t : pystr) : Prop := t ≠ [] ∧ 44%N ∉ t.

Lemma pop_tokens_take n tokens target : ∃ k, pop_tokens n tokens target = take k tokens ∧ (1 ≤ length tokens → 1 ≤ k).
Proof.
  revert tokens. induction n as [|n IH]; intros tokens; cbn [pop_tokens]; [exists (length tokens); by rewrite firstn_all|].
  destruct (1 <? length tokens) eqn:E; cbn [andb]; [|exists (length tokens); by rewrite firstn_all].
  destruct (target <? length (join SEPARATOR tokens)); [|exists (length tokens); by rewrite firstn_all].
  apply Nat.ltb_lt in E. destruct (IH (removelast tokens)) as (k & Hk & H1). rewrite Hk, removelast_firstn_len, take_take.
  eexists. split; [reflexivity|]. intros _. assert (1 ≤ length (removelast tokens)) as Hl by (rewrite removelast_firstn_len, length_take; lia).
  specialize (H1 Hl). lia.
Qed.

Lemma shrink_tokens name tokens value target :
  is_tokenized name = true → Forall plain_token tokens → whole_tokens tokens value → whole_tokens tokens (_shrink_part name value target).
Proof.
  intros Hn Ht (k & -> & Hk). unfold _shrink_part. rewrite Hn. cbv zeta. set (ts := take k tokens).
  assert (Forall plain_token ts) as Hts by by apply Forall_take.
  destruct ts as [|t ts'] eqn:Ets; [exists k; split; [unfold ts in Ets; rewrite Ets; reflexivity|done]|]. rewrite <-Ets in *.
  assert (split SEPARATOR (join SEPARATOR ts) = ts) as ->.
  { apply (split_clean 44 [32%N]); [by rewrite Ets|]. eapply Forall_impl; [exact Hts|]. by intros ? []. }
  assert (base.filter (λ t, nonempty t = true) ts = ts) as ->.
  { clear Ets. induction Hts as [|x l [Hx _] _ IH]; [done|]. rewrite filter_cons_True; [by rewrite IH|]. destruct x; [congruence|reflexivity]. }
  destruct (_ <=? 1); [by exists k|]. destruct (pop_tokens_take (length ts) ts target) as (j & -> & Hj). unfold ts. rewrite take_take.
  exists (j `min` k). split; [done|]. right. rewrite Ets in Hj. destruct Hk as [->|Hk]; [unfold ts in Ets; by rewrite take_nil in Ets|]. cbn [length] in Hj. lia.
Qed.

Lemma tokens_plain name value : Forall plain_token (tokens_of name value).
Proof.
  unfold tokens_of. destruct (dget name _TOKEN_PATTERNS) as [r|] eqn:Er; [|constructor]. apply Forall_forall. intros t Ht.
  unfold fromkeys in Ht. apply elem_of_nub in Ht as [Ht%findall_lang _].
  assert (∀ prefix q, plain_token prefix → lang (ident_re prefix) q → plain_token q) as Hid.
  { intros prefix q [Hp1 Hp2] (q1 & q2 & -> & ->%lang_lit & [_ Hd]%lang_plus). split; [by destruct prefix|]. rewrite not_elem_of_app. split; [done|].
    intros Hin. rewrite Forall_forall in Hd. specialize (Hd _ Hin). by vm_compute in Hd. }
  assert (∀ q, lang SOURCE_TOKEN q → plain_token q) as Hsrc.
  { intros q (q1 & q2 & -> & H1 & H2). apply Hid in H1 as [H3 H4]; [|split; [done|apply (bool_decide_unpack _); by vm_compute]].
    split; [by destruct q1|]. rewrite not_elem_of_app. split; [done|]. destruct H2 as [H2| ->]; [|apply not_elem_of_nil].
    by apply Hid in H2 as [_ ?]; [|split; [done|apply (bool_decide_unpack _); by vm_compute]]. }
  apply dget_Some_elem in Er. unfold _TOKEN_PATTERNS in Er. cbn [fmap list_fmap fst snd] in Er.
  repeat (apply elem_of_cons in Er as [Er|Er]; [injection Er as -> ->|]); [..|by apply elem_of_nil in Er].
  - eapply Hid; [|exact Ht]. split; [done|apply (bool_decide_unpack _); by vm_compute].
  - by apply Hsrc.
  - by apply Hsrc.
  - apply lang_plus in Ht as [Hn Hc]. split; [done|]. intros Hin. rewrite Forall_forall in Hc. specialize (Hc _ Hin). by vm_compute in Hc.
Qed.

(** ** What the projection keeps *)

Definition kept_part (p q : part) : Prop :=
  q.1 = p.1 ∧ (_reducible_part p.1 = false → q.2 = p.2) ∧
  ∀ tokens, is_tokenized p.1 = true → Forall plain_token tokens → whole_tokens tokens p.2 → whole_tokens tokens q.2.
Global Instance kept_part_preorder : PreOrder kept_part.
Proof.
  split; [intros p; unfold kept_part; auto|]. intros p q r (H1 & H2 & H3) (H4 & H5 & H6). unfold kept_part. rewrite H1 in *.
  split_and!; [done|intros H; rewrite H5, H2; done|auto].
Qed.

Lemma longest_elem l e : longest l = Some e → e ∈ l.
Proof.
  unfold longest. assert (∀ best, foldl (λ best e, match best with Some b => if length b.2.2 <? length e.2.2 then Some e else Some b | None => Some e end) best l = Some e →
    e ∈ l ∨ best = Some e) as H; [|intros H'; by destruct (H None H')].
  induction l as [|x l IH]; intros best; cbn [foldl]; [by right|]. intros H. destruct (IH _ H) as [?|E]; [left; by right|].
  destruct best as [b|]; [destruct (_ <? _) in E|]; try (injection E as <-; left; left). by right.
Qed.

Lemma candidate_part frozen parts i p : (i, p) ∈ candidates frozen parts → parts !! i = Some p ∧ _reducible_part p.1 = true.
Proof.
  unfold candidates. rewrite list_elem_of_filter. intros [H Hin]. cbn [fst snd] in H. rewrite !andb_true_iff in H. destruct H as [[_ Hr] _].
  split; [|done]. apply list_elem_of_lookup in Hin as [j Hj]. rewrite list_lookup_imap in Hj. destruct (parts !! j) as [q|] eqn:E; [|done].
  injection Hj as -> ->. done.
Qed.

Lemma fit_go_spec guard tid checkbox ref frozen parts line parts' line' :
  _render_compact tid checkbox parts ref = Ok line → fit_go guard tid checkbox ref frozen parts line = Ok (parts', line') →
  _render_compact tid checkbox parts' ref = Ok line' ∧ Forall2 kept_part parts parts'.
Proof.
  revert frozen parts line. induction guard as [|guard IH]; intros frozen parts line Hr; cbn [fit_go]; [intros [= <- <-]; by split|].
  destruct (_ || _); [intros [= <- <-]; by split|]. destruct (longest _) as [[i [name value]]|] eqn:El; [|intros [= <- <-]; by split].
  apply longest_elem, candidate_part in El as [Hi Hred]. cbv zeta. set (shrunk := _shrink_part name value (target_of name value)).
  destruct (shrunk =s value); [by apply IH|]. intros (line1 & Hr1 & H)%res_bind_Ok. destruct (IH _ _ _ Hr1 H) as [H1 H2]. split; [done|].
  etrans; [|exact H2]. rewrite <-(list_insert_id _ _ _ Hi) at 1. apply Forall2_insert; [reflexivity|]. cbn [fst] in Hred. unfold kept_part. cbn [fst snd].
  split_and!; [done|congruence|]. intros tokens Ht Hp. by apply shrink_tokens.
Qed.

Lemma map_res_Ok {E A B} (f : A → res E B) l ys : map_res f l = Ok ys → Forall2 (λ x y, f x = Ok y) l ys.
Proof.
  revert ys. induction l as [|x l IH]; intros ys; cbn [map_res]; [intros [= <-]; constructor|].
  intros (y & Hy & (zs & Hz & H)%res_bind_Ok)%res_bind_Ok. injection H as <-. constructor; auto.
Qed.

Definition others_of (l : list (pystr * pystr)) : list (pystr * pystr) := base.filter (λ e, e.1 ≠ py "detail_ref") l.
Definition others (t : ticket) : list (pystr * pystr) := others_of (t_fields t).

Lemma disposition_replaced name : name ∈ KNOWN_FIELDS → (∃ m, dget name COMPACTION_DISPOSITION = Some m ∧ (m = Replaced ↔ name = py "detail_ref")).
Proof.
  assert (forallb (λ name, match dget name COMPACTION_DISPOSITION with
                           | Some Replaced => name =s "detail_ref" | Some _ => negb (name =s "detail_ref") | None => false end) KNOWN_FIELDS = true) as H
    by (vm_compute; reflexivity).
  rewrite forallb_forall in H. intros Hn%list_elem_of_In. specialize (H name Hn). destruct (dget name COMPACTION_DISPOSITION) as [m|]; [|done].
  exists m. split; [done|]. unfold eqs in H. destruct m; rewrite ?negb_true_iff, ?bool_decide_eq_true, ?bool_decide_eq_false in H; naive_solver.
Qed.

(** The parts of a ticket: its fields in order but for the reference to a detail, each
    a function of its own value. *)
Lemma compact_parts_spec t ref parts :
  (∀ name, name ∈ dkeys (t_fields t) → name ∈ KNOWN_FIELDS) → compact_parts t ref = Ok parts →
  ∃ rest, parts = (py "description", _short (t_description t) _TITLE_LIMIT) :: rest ∧
    Forall2 (λ e p, p.1 = e.1 ∧ _compact_value e.1 e.2 ref = Ok (Some p.2)) (others t) rest.
Proof.
  unfold compact_parts, others. intros Hk (fields & Hf%map_res_Ok & H)%res_bind_Ok. injection H as <-. eexists. split; [reflexivity|].
  unfold dkeys in Hk. revert Hf Hk. generalize (t_fields t). intros l0 Hf. induction Hf as [|[name value] ps l pss Hp _ IH]; intros Hk; [constructor|]. cbn [List.concat].
  assert (name ∈ KNOWN_FIELDS) as (m & Hm & Hrep)%disposition_replaced by (apply Hk; rewrite fmap_cons; left).
  assert (∀ name, name ∈ l.*1 → name ∈ KNOWN_FIELDS) as Hk' by (intros n Hn; apply Hk; rewrite fmap_cons; by right).
  specialize (IH Hk'). unfold compact_part in Hp. cbn [fst snd] in Hp. apply res_bind_Ok in Hp as (rendered & Hv & Hp). injection Hp as <-.
  destruct (decide (name = py "detail_ref")) as [E|E].
  - assert (others_of ((name, value) :: l) = others_of l) as -> by (unfold others_of; apply filter_cons_False; cbn; tauto). unfold _compact_value in Hv. rewrite Hm in Hv. destruct m; try (by rewrite (proj2 Hrep E) in Hm); try (by apply Hrep in E).
    injection Hv as <-. exact IH.
  - assert (others_of ((name, value) :: l) = (name, value) :: others_of l) as -> by (unfold others_of; by apply filter_cons_True). assert (∃ v, rendered = Some v) as [v ->].
    { unfold _compact_value in Hv. rewrite Hm in Hv. destruct m; try (by injection Hv as <-; eexists). by destruct E; apply Hrep. }
    cbn [app]. constructor; [by split|exact IH].
Qed.

Lemma tokenized_value name value ref v :
  is_tokenized name = true → _compact_value name value ref = Ok (Some v) → v = join SEPARATOR (tokens_of name value).
Proof.
  unfold is_tokenized, _compact_value. destruct (dget name _) as [[]|]; try done. by intros _ [= <-].
Qed.
Lemma pinned_tokenized name : _reducible_part name = false → is_tokenized name = true.
Proof.
  unfold _reducible_part. rewrite negb_false_iff, mem_true. unfold _NON_REDUCIBLE_TOKEN_FIELDS, strs. rewrite !fmap_cons, fmap_nil, !elem_of_cons, elem_of_nil.
  intros [->|[->|[]]]; vm_compute; reflexivity.
Qed.

(** C20: A compacted record keeps what machines read: it fits the live cap on one line,
    has every field of the ticket in its order but for the reference to its detail, lists
    the needs and the source receipts complete, and drops from other lists of identifiers
    whole identifiers at the end only. *)
Theorem compacted_keeps_identity t ref line :
  ticket_ok t → _compact_line t ref = Ok line →
  length line ≤ MAX_LIVE_RECORD_CHARS ∧ record_separator_in line = None ∧
  ∃ description parts, _render_compact (t_id t) (t_checkbox t) ((py "description", description) :: parts) ref = Ok line ∧
    parts.*1 = (others t).*1 ∧
    ∀ name value, dget name (t_fields t) = Some value → is_tokenized name = true →
      ∃ v, (name, v) ∈ parts ∧ whole_tokens (tokens_of name value) v ∧ (_reducible_part name = false → v = join SEPARATOR (tokens_of name value)).
Proof.
  intros Hok. unfold _compact_line. intros (parts & Hp & H)%res_bind_Ok. apply res_bind_Ok in H as (compact & Hf & Ha).
  assert (compact = line ∧ length line ≤ MAX_LIVE_RECORD_CHARS ∧ record_separator_in line = None) as (-> & Hlen & Hsep).
  { unfold on_line in Ha. destruct (assert_live_record compact) eqn:E; [|done]. injection Ha as ->. by apply assert_live_Ok in E as (-> & ? & ?). }
  split_and!; [done..|]. apply (compact_parts_spec _ _ _ (ok_known _ Hok)) in Hp as (rest & -> & Hrest).
  destruct (ok_checkbox _ Hok) as (box & Hbox & _). rewrite Hbox in Hf. cbn [nonempty] in Hf. rewrite Hbox.
  unfold _fit_compact in Hf. apply res_bind_Ok in Hf as (line0 & Hr & Hf). apply res_bind_Ok in Hf as ([parts' fitted] & Hf & H). cbn [snd] in H.
  destruct (_ <? _) in H; [done|]. injection H as ->. destruct (fit_go_spec _ _ _ _ _ _ _ _ _ Hr Hf) as [Hr' Hk].
  inversion Hk as [|? [dn description] ? parts1 (Hdn & _) Hk' E1 E2]. subst parts'. cbn [fst] in Hdn. subst dn. exists description, parts1. split_and!; [done| |].
  - clear -Hrest Hk'. revert parts1 Hk'. induction Hrest as [|e p l l' [He _] _ IH]; intros parts1 Hk'; inversion Hk' as [|? q ? parts2 (Hq & _) Hk2]; [done|].
    rewrite !fmap_cons, Hq, He. f_equal. by apply IH.
  - intros name value Hv%dget_Some_elem Ht. assert ((name, value) ∈ others t) as Hin.
    { unfold others, others_of. apply list_elem_of_filter. split; [|done]. cbn. intros ->. by vm_compute in Ht. }
    apply list_elem_of_lookup in Hin as [i Hi]. destruct (Forall2_lookup_l _ _ _ _ _ Hrest Hi) as ([pn pv] & Hpi & Hn & Hpv). cbn [fst snd] in *. subst pn.
    destruct (Forall2_lookup_l _ _ _ _ _ Hk' Hpi) as ([qn v] & Hqi & Hq & Hpin & Htok). cbn [fst snd] in *. subst qn.
    apply (tokenized_value _ _ _ _ Ht) in Hpv. subst pv. exists v. split_and!; [by apply list_elem_of_lookup; exists i| |done].
    apply Htok; [done|apply tokens_plain|]. exists (S (length (tokens_of name value))). rewrite firstn_all2 by lia. split; [done|right; lia].
Qed.

(** ** Nothing is lost *)

Lemma parse_lines_rows lines n b t :
  t ∈ dvalues (b_tickets (BoardParse.parse_lines n lines b)) →
  (∃ t0, t0 ∈ dvalues (b_tickets b) ∧ t_raw t0 = t_raw t ∧ t_line_no t0 = t_line_no t) ∨ ∃ i, lines !! i = Some (t_raw t) ∧ t_line_no t = n + i.
Proof.
  revert n b. induction lines as [|line lines IH]; intros n b; cbn [BoardParse.parse_lines]; [intros H; left; by exists t|].
  intros [(t0 & Ht0 & Hr & Hn)|(i & Hi & Hn)]%IH; [|right; exists (S i); split; [done|lia]].
  assert ((∃ t1, t1 ∈ dvalues (b_tickets b) ∧ t_raw t1 = t_raw t0 ∧ t_line_no t1 = t_line_no t0) ∨ t_raw t0 = line ∧ t_line_no t0 = n) as [(t1 & ? & ? & ?)|[H1 H2]].
  - revert Ht0. destruct (parse_line_effect b n line) as [hs Hl|e Hh|section tid first es e Hh Hd|section x es Hl Hs Hok Hraw Hsec Hno Hsh Hd]; cbn [b_tickets add_error].
    1, 2: intros Ht; left; by exists t0.
    + unfold dvalues. intros ([k y] & -> & [[= -> ->]|Hin]%elem_of_dset)%list_elem_of_fmap; cbn [snd].
      * left. exists first. split; [|done]. apply dget_Some_elem in Hd. by apply (list_elem_of_fmap_2 snd _ (tid, first)).
      * left. exists y. split; [|done]. by apply (list_elem_of_fmap_2 snd _ (k, y)).
    + unfold dvalues. intros ([k y] & -> & [[= -> ->]|Hin]%elem_of_dset)%list_elem_of_fmap; cbn [snd]; [by right|].
      left. exists y. split; [|done]. by apply (list_elem_of_fmap_2 snd _ (k, y)).
  - left. exists t1. split_and!; congruence.
  - right. exists 0. split; [|lia]. cbn. congruence.
Qed.

(** A ticket of a board is its line. *)
Lemma ticket_line text tid t : dget tid (b_tickets (parse_board text)) = Some t → ∃ i, t_line_no t = S i ∧ splitlines text !! i = Some (t_raw t).
Proof.
  intros Ht%dget_Some_elem. assert (t ∈ dvalues (b_tickets (BoardParse.parse_lines 1 (splitlines text) empty_board))) as H by (by apply (list_elem_of_fmap_2 snd _ (tid, t))).
  destruct (parse_lines_rows _ _ _ _ H) as [(t0 & Ht0 & _)|(i & Hi & Hn)]; [by apply elem_of_nil in Ht0|]. exists i. split; [lia|done].
Qed.

Lemma record_bytes_line text i raw : lined text → splitlines text !! i = Some raw → _record_bytes text (S i) = Ok (utf8 (raw ++ LF)).
Proof.
  intros (ls & -> & Hls)%text_lined. rewrite splitlines_text by done. intros Hi. unfold _record_bytes. rewrite keeplines_text by done.
  
  rewrite (eq_trans (with_lf_lookup ls i) (f_equal (fmap with_lf) Hi)). cbn [fmap option_fmap option_map]. cbv zeta. unfold with_lf, utf8. rewrite bind_app. change (LF ≫= utf8_char) with [10%N].
  rewrite last_snoc. by rewrite bool_decide_eq_true_2.
Qed.

Section compacted.
Context (root : path) (project_identity project_lineage_identity : option pystr) (store : detail_store).
Context (op_id : pystr) (event_id : event_source) (reason : pystr).
Local Abbreviation _one := (_one root project_identity project_lineage_identity store op_id event_id reason).

(** C19: Compaction loses nothing. On a board of whole lines a row is either left as it
    stands, or replaced by one line within the cap while its complete former line goes
    into a new file named by its digest, which the line cites; every other line of the
    board is kept. *)
Theorem compaction_is_lossless board_text tid tolerated foreign text' targets made :
  lined board_text → _one board_text tid tolerated foreign = Ok (text', targets, made) →
  ∃ t, dget tid (b_tickets (parse_board board_text)) = Some t ∧
    match made with
    | None => text' = board_text ∧ targets = [] ∧ length (t_raw t) ≤ MAX_LIVE_RECORD_CHARS
    | Some (ref, digest) =>
        let original := utf8 (t_raw t ++ LF) in
        let file (suffix : pystr) :=
          COMPACTION_ROOT +s "/" +s tid +s "/" +s (tid +s "-" +s take 24 (hexdigest original)) +s suffix in
        digest = hexdigest original ∧ ref = file ".json" ∧
        head targets = Some (TargetPlan (file ".BOARD.md") "generic" (Bytes original)) ∧
        ∃ line, _compact_line t ref = Ok line ∧ length line ≤ MAX_LIVE_RECORD_CHARS ∧
          lined text' ∧ splitlines text' = <[t_line_no t - 1 := line]> (splitlines board_text)
    end.
Proof.
  intros Hl. unfold _one. cbv zeta. destruct (negb _); [done|]. destruct (dget tid _) as [t|] eqn:Et; [|done].
  destruct (_ && _) eqn:Ec.
  { intros [= <- <- <-]. exists t. split_and!; [done..|]. apply andb_true_iff in Ec as [Ec%Nat.leb_le _]. done. }
  destruct (ticket_line _ _ _ Et) as (i & Hi & Hraw). rewrite Hi, (record_bytes_line _ _ _ Hl Hraw).
  intros (original & [= <-] & H)%res_bind_Ok. cbv zeta in H. apply res_bind_Ok in H as ([record_path ref] & Hp & H).
  destruct (owned_target_path root record_path); [|done]. destruct (owned_target_path root ref); [|done].
  apply res_bind_Ok in H as (event & _ & H). apply res_bind_Ok in H as (line & Hc & H). injection H as <- <- <-.
  exists t. split; [done|]. cbv zeta. unfold _artifact_paths, _slug_ticket in Hp. destruct (is_full _ tid); [|done]. cbn [mbind res_bind] in Hp. injection Hp as <- <-.
  split_and!; [done..|]. exists line. unfold _compact_line in Hc. apply res_bind_Ok in Hc as (parts & Hp & H). apply res_bind_Ok in H as (compact & Hf & Ha).
  assert (compact = line ∧ length line ≤ MAX_LIVE_RECORD_CHARS ∧ record_separator_in line = None) as (-> & Hlen & Hsep).
  { unfold on_line in Ha. destruct (assert_live_record compact) eqn:E; [|done]. injection Ha as ->. by apply assert_live_Ok in E as (-> & ? & ?). }
  assert (S i - 1 < length (splitlines board_text)) as Hlt by (replace (S i - 1) with i by lia; exact (lookup_lt_Some _ _ _ Hraw)).
  destruct (lines_of_line board_text (S i - 1) line _ Hl Hlt eq_refl) as [H1 H2]; [by apply record_separator_None|].
  split_and!; [|done|exact H1|rewrite Hi; exact H2]. unfold _compact_line. rewrite Hp. cbn [mbind res_bind]. by rewrite Hf.
Qed.
End compacted.

(** ** Concrete records *)

Definition wordy (n : nat) : pystr := List.concat (replicate n (py "lorem ipsum ")).
Definition long_board : pystr :=
  text_of [py "## DOING"; py "## TODO"; py "- [ ] T-7 short";
           "- [ ] T-9 " +s wordy 90 +s " | needs: T-3, T-4, T-3 | verify: " +s wordy 30; py "## DONE"; py "## BLOCKED"].
Definition no_details : detail_store := DetailStore (λ _ _, None) (λ _ _, None).
Local Abbreviation compacted :=
  (_one [py "r"] None None no_details (py "op-1") (OneEvent (py "E-5")) (py "legacy row") long_board (py "T-9") [] []).
Lemma long_board_lined : lined long_board.
Proof. apply lined_text. repeat constructor. Qed.

Lemma compaction_is_lossless_witness :
  ∃ text' targets made, compacted = Ok (text', targets, made) ∧ is_Some made ∧ splitlines text' !! 2 = Some (py "- [ ] T-7 short").
Proof.
  assert (match compacted with Ok _ => true | Err _ => false end = true) as Hc by (vm_compute; reflexivity).
  destruct compacted as [[[text' targets] made]|] eqn:E; [|discriminate Hc]. clear Hc. exists text', targets, made. split; [reflexivity|].
  destruct (compaction_is_lossless [py "r"] None None no_details (py "op-1") (OneEvent (py "E-5")) (py "legacy row") long_board (py "T-9") [] [] text' targets made
              long_board_lined E) as (t & Ht & H).
  assert (t_line_no <$> dget (py "T-9") (b_tickets (parse_board long_board)) = Some 4) as Hn by (vm_compute; reflexivity).
  destruct made as [[ref digest]|].
  - destruct H as (_ & _ & _ & line & _ & _ & _ & Hs). split; [by eexists|]. rewrite Hs. rewrite Ht in Hn. injection Hn as Hn. rewrite Hn.
    rewrite list_lookup_insert_ne by done. vm_compute. reflexivity.
  - exfalso. destruct H as (_ & _ & Hlen). assert ((λ t, MAX_LIVE_RECORD_CHARS <? length (t_raw t)) <$> dget (py "T-9") (b_tickets (parse_board long_board)) = Some true) as Hb
      by (vm_compute; reflexivity). rewrite Ht in Hb. injection Hb as Hb%Nat.ltb_lt. lia.
Defined.

Definition long_ticket : option ticket := dget (py "T-9") (b_tickets (parse_board long_board)).
Lemma compacted_keeps_identity_witness :
  ∃ t line v, long_ticket = Some t ∧ _compact_line t "d.json" = Ok line ∧ length line ≤ MAX_LIVE_RECORD_CHARS ∧ v = py "T-3, T-4" ∧
    ∃ parts, (py "needs", v) ∈ parts ∧ _render_compact (t_id t) (t_checkbox t) parts "d.json" = Ok line.
Proof.
  assert (match long_ticket with Some _ => true | None => false end = true) as Hb by (vm_compute; reflexivity).
  destruct long_ticket as [t|] eqn:Et; [|discriminate Hb]. clear Hb. exists t.
  assert (ticket_ok t) as Hok.
  { destruct (parse_board_ok long_board) as [_ H]. apply (H "T-9" t). apply dget_Some_elem. exact Et. }
  assert (t = match long_ticket with Some t => t | None => t end) as Ex by (by rewrite Et).
  assert (match _compact_line t "d.json" with Ok _ => true | Err _ => false end = true) as Hb by (rewrite Ex; vm_compute; reflexivity).
  destruct (_compact_line t "d.json") as [line|] eqn:El; [|discriminate Hb]. clear Hb.
  destruct (compacted_keeps_identity t "d.json" line Hok El) as (Hlen & _ & d & parts & Hr & _ & H).
  assert (match dget (py "needs") (t_fields t) with Some v => join SEPARATOR (tokens_of "needs" v) =s "T-3, T-4" | None => false end = true) as Hb
    by (rewrite Ex; vm_compute; reflexivity).
  destruct (dget (py "needs") (t_fields t)) as [value|] eqn:Hv; [|discriminate Hb]. apply eqs_true in Hb.
  destruct (H _ _ Hv) as (v & Hin & _ & Hp); [vm_compute; reflexivity|]. exists line, v. split_and!; [reflexivity|reflexivity|exact Hlen| |].
  - rewrite (Hp ltac:(vm_compute; reflexivity)). exact Hb.
  - exists ((py "description", d) :: parts). split; [by right|exact Hr].
Defined.

(** Shortening is said never to cut a path or another identifier: a value without a
    delimiter is cut in its middle. *)
Lemma unbroken_value_is_cut :
  _short ("evidence/" +s List.concat (replicate 24 (py "0123456789")) +s "/record.json") 40 = "evidence/" +s List.concat (replicate 2 (py "0123456789")) +s "01234567...".
Proof. vm_compute. reflexivity. Qed.
