(* ===== verification/Transition.v ===== *)
(** * The planner of a phase transition

    [_plan_transition] of [tools/saipen_engine/operations.py] and what it calls of
    [reconcile.py], [retirement.py] and [goal_authority.py]: from the three documents
    and the history to the texts the transition writes, or to its refusal. *)

From S2P Require Import Prelude PyStr PyStrFacts PyUnicode PyRegex PyDict Phases BoardClock BoardRecord BoardParse BoardClaims BoardEdit.
From S2P Require Import JournalFs SafeId LogLine LogHistory LogVerdict LogEvidence LogLedger LogRegression Ownership StateDoc StateWait StateContract Router FastCheck.

(** ** Refusals *)

(** The code of a refusal, with the other ticket it names, if it names one. *)
Inductive code : Type :=
  | TICKET_NOT_WORKABLE | VALIDATION_FAILED | ILLEGAL_TRANSITION | ACTIVE_TICKET_MISMATCH | TICKET_NOT_FOUND
  | INCOMPLETE_TICKET | OPERATOR_DECISION_REQUIRED | STALE_WORK_CONTEXT | LOG_EVENT_OVERSIZE | BOARD_RECORD_OVERSIZE
  | FENCED_LEASE_GENERATION | ALREADY_CLAIMED
  | CONTINUATION_RESERVED (blocked_on : pystr) | NOT_TOP_WORKABLE (top_workable : option pystr) | SourceCode (code : pystr).
Global Instance code_eq_dec : EqDecision code.
Proof. solve_decision. Defined.

(** [Result(ok=False)], without the sentence for the reader. *)
Record refusal : Type := Refusal {
  rf_code : code;
  rf_ticket : option pystr;
  rf_phase : option pystr;
  rf_next_command : option pystr;
  rf_defects : list Defect.t;
}.
Definition plain (c : code) (t : option pystr) : refusal := Refusal c t None None [].

(** How planning stops short of a plan: a refusal, or what a callee raises. *)
Inductive stop : Type :=
  | Refused (r : refusal)
  | StateRaises (e : state_error)
  | LogRaises (e : log_error)
  | BoardRaises (e : edit_error)
  | KeyRaises (key : string).

(** [_state_guard]: the exceptions the public operations answer as refusals. *)
Definition _state_guard (s : stop) : option refusal :=
  match s with
  | Refused r => Some r
  | LogRaises (EventOversize _) => Some (plain LOG_EVENT_OVERSIZE None)
  | LogRaises (IllegalCharacter _ _ _ | BadNow | BadTicket | NotGrammar) => Some (plain VALIDATION_FAILED None)
  | BoardRaises (BadRecord (RecordOversize _)) => Some (plain BOARD_RECORD_OVERSIZE None)
  | _ => None
  end.

Definition lift {E A} (f : E → stop) (r : res E A) : res stop A := match r with Ok x => Ok x | Err e => Err (f e) end.
Definition guard (o : option refusal) : res stop () := match o with Some r => Err (Refused r) | None => Ok tt end.
(** [if b: return _refuse(...)] *)
Definition refuse_if (b : bool) (r : refusal) : option refusal := if b then Some r else None.

(** ** The documents of an operation *)

(** What [_read] hands over: the three texts with normalised line ends, and the
    complete history. *)
Record documents : Type := Documents { d_state : pystr; d_board : pystr; d_log : pystr; d_history : snapshot }.
Definition history_events (d : documents) : list event := h_event <$> s_events (d_history d).

(** The instants at which the wall clock is read, as the display stamp and the stamp
    of the state, and as the instants of the three checks that read it themselves. *)
Record clock : Type := Clock { c_now : pystr; c_utc : pystr; c_seat : Z; c_refresh : Z; c_route : Z; c_check : Z }.

(** [state.get(key)] for a field the contract keeps a string. *)
Definition text_at (st : fields) (key : string) : pystr := default [] (text_field st (py key)).

(** ** The seat of the active ticket *)

Definition bound_active (st : fields) (b : board) : option ticket :=
  let active := text_at st "task" in
  if negb (nonempty active) || (active =s "none") then None
  else match dget active (b_tickets b) with
       | Some t => if in_section t DOING then Some t else None
       | None => None
       end.
Definition seat_of (st : fields) (b : board) (agent : pystr) (now : Z) : ActiveOwnership :=
  classify_active_ownership (SeatState (text_field st "task") (text_field st "agent")) (b_tickets b) (Some agent) now None.

Definition _active_claim_refusal (st : fields) (b : board) (agent : pystr) (now : Z) : option refusal :=
  match bound_active st b with
  | None => None
  | Some _ =>
      let active := text_at st "task" in
      let own := seat_of st b agent now in
      if negb (has_active own) || negb (bool_decide (ow_active_ticket own = Some active)) then None
      else match ow_status own with
           | NO_ACTIVE | Seat SELF => None
           | Seat FOREIGN_LIVE => Some (plain TICKET_NOT_WORKABLE (Some active))
           | Seat INVALID => Some (plain VALIDATION_FAILED (Some active))
           | Seat _ => Some (plain TICKET_NOT_WORKABLE (Some active))
           end
  end.

(** The own claim on the active ticket is moved to the stamp; nothing else is. *)
Definition _refresh_active_claim (st : fields) (board_text : pystr) (agent utc : pystr) (now : Z) (session : option pystr)
    : res stop (option pystr) :=
  let b := parse_board board_text in
  if negb (ticket_bearing st) then Ok None
  else match bound_active st b with
       | None => Ok None
       | Some _ =>
           if bool_decide (ow_status (seat_of st b agent now) = Seat SELF)
           then text ← lift BoardRaises
                         (_claim_fields_in_place board_text (text_at st "task") [(py "claim_time", utc)] true session None);
                Ok (Some text)
           else Ok None
       end.

(** ** The blocker of the state *)

(** [\bT-\d+\b] *)
Definition _ids_in (text : pystr) : list pystr := re_findall (seqs [Wordb; ticket_id_re; Wordb]) text.

(** The blocked tickets that govern a blocker, and the others. *)
Definition governs (task blocker : pystr) (ts : tickets) (tid : pystr) : bool :=
  let active := if nonempty task && negb (lower task =s "none") then task else [] in
  let needs_of (t : pystr) := from_option t_needs [] (dget t ts) in
  nonempty active && (mem active (needs_of tid) || mem tid (needs_of active) || mem tid (_ids_in blocker)).
Definition _causally_related_blocks (task : pystr) (live_blocked : list pystr) (ts : tickets) (blocker : pystr)
    : list pystr * list pystr :=
  (base.filter (λ tid, governs task blocker ts tid = true) live_blocked,
   base.filter (λ tid, governs task blocker ts tid = false) live_blocked).

(** The order of code points, as [sorted] compares strings. *)
Fixpoint str_leb (s t : pystr) : bool :=
  match s, t with
  | [], _ => true
  | _ :: _, [] => false
  | a :: s', b :: t' => if (a =? b)%N then str_leb s' t' else (a <? b)%N
  end.
Fixpoint insert_sorted (x : pystr) (l : list pystr) : list pystr :=
  match l with
  | [] => [x]
  | y :: l' => if str_leb x y then x :: l else y :: insert_sorted x l'
  end.
Definition sorted (l : list pystr) : list pystr := foldr insert_sorted [] l.

Inductive blocker_repair : Type :=
  | LiveGate (gate_class : option pystr) (related unrelated : list pystr)
  | StaleBlocker (unrelated : list pystr).

Definition no_blocker (blocker : pystr) : bool := negb (nonempty (strip blocker)) || (lower (strip blocker) =s "none").
Definition live_blocked (ts : tickets) : list pystr :=
  sorted (omap (λ e : pystr * ticket, if in_section e.2 BLOCKED then Some e.1 else None) ts).

Definition _state_blocker_repairs (st : fields) (b : board) : option blocker_repair :=
  match dget (py "blocker") st with
  | Some (Scalar (SStr blocker)) =>
      let phase := text_at st "phase" in
      if no_blocker blocker then None
      else if (upper phase =s "BLOCKED") || negb (mem phase ALL_PHASES) then None
      else
        let ts := b_tickets b in
        let '(related, unrelated) := _causally_related_blocks (strip (text_at st "task")) (live_blocked ts) ts blocker in
        match blocker_class blocker, related with
        | None, [] => Some (StaleBlocker unrelated)
        | cls, _ => Some (LiveGate cls related unrelated)
        end
  | _ => None
  end.

(** What the transition does with the blocker of the phase it leaves. *)
Definition RESOLVE_COMMAND : pystr := "saipen recover resolve-blocker <SRC-###>".
Definition blocker_owned (st : fields) (b : board) (destination : pystr) (subject : option pystr) : res stop fields :=
  let none := [(py "blocker", Scalar (SStr "none"))] in
  if no_blocker (text_at st "blocker") then Ok []
  else if upper (text_at st "phase") =s "BLOCKED" then Ok none
  else if destination =s "BLOCKED" then Ok []
  else match _state_blocker_repairs st b with
       | Some (LiveGate _ _ _) =>
           Err (Refused (Refusal OPERATOR_DECISION_REQUIRED subject (Some destination) (Some RESOLVE_COMMAND) []))
       | Some (StaleBlocker _) => Ok none
       | None => Ok []
       end.

(** ** Gates of a phase *)

(** [(?:^| -- )INVALID_INVOCATION(?: -- |$)] *)
Definition INVALID_INVOCATION_RE : re := seqs [Alt Bol (lit " -- "); lit "INVALID_INVOCATION"; Alt (lit " -- ") Eol].
Definition classifies (ticket_id : pystr) (e : event) : bool :=
  bool_decide (e_ticket e = Some ticket_id) && (e_taxonomy e =s "DEC") && startswith "ticket-" (default [] (e_op_id e))
  && contains "ticket block via SAIOPS" (e_text e) && is_found INVALID_INVOCATION_RE (e_text e).
(** The newest event that classifies the ticket as no work. *)
Definition non_work_event (ticket_id : pystr) (events : list event) : option event :=
  find_first (classifies ticket_id) (reverse events).

(** What the components the planner asks answer: [None] lets the transition pass. *)
Record verdicts : Type := Verdicts {
  v_boundary : pystr → pystr → option pystr;                (** [boundary_gate]: the code of its diagnostic *)
  v_ship : pystr → list event → option pystr;               (** [ship_gate] *)
  v_executed : pystr → option pystr;                        (** [evidence_gate] of an executed regression *)
  v_acceptance : pystr → pystr → list event → option pystr; (** [gate] of the acceptance contract *)
  v_codes : list pystr;                                     (** [errors.CODES] *)
  v_protocol_home : bool;                                   (** [protocol_home] *)
  v_grant : fields → option (list pystr);                   (** [prove]; [None] when it raises *)
  v_session : option pystr;                                 (** [host_session_binding] *)
}.

Definition _source_refusal_code (v : verdicts) (diagnostic default : pystr) : code :=
  SourceCode (if mem diagnostic (v_codes v) then diagnostic else default).
Definition evidence_command (ticket_id : pystr) : pystr := "python tools/core_unit.py evidence " +s ticket_id.
Definition _verification_command (ticket_id : pystr) : pystr :=
  "saipen checkpoint RUN " +s ticket_id +s " " +s [34%N] +s "verify -> PASS [target: " +s ticket_id
  +s "] conf: high -- <the command that ran and what it reported>" +s [34%N].

Inductive regression_problem : Type := NoPair (why : regression_reason) | NotExecuted (why : pystr).

Section planner.
(** [parse_runtime_provenance] of [attempt.py], as in [Attempt]; the project root with
    its identities, and the running install. *)
Context (parse_runtime_provenance : pystr → res pystr pystr).
Context (root : path) (project_identity project_lineage_identity : option pystr) (home : install).

Definition _regression_gate (v : verdicts) (b : board) (events : list event) (ticket_id : pystr) : option regression_problem :=
  match dget ticket_id (b_tickets b) with
  | None => None
  | Some t =>
      if negb (regression_required t) then None
      else match regression_evidence parse_runtime_provenance ticket_id events with
           | (true, _) => if fget "regression_evidence" (t_fields t) =s "executed" then NotExecuted <$> v_executed v ticket_id else None
           | (false, why) => Some (NoPair why)
           end
  end.
Definition _acceptance_gate (v : verdicts) (b : board) (events : list event) (ticket_id : pystr) : option pystr :=
  v_acceptance v ticket_id (from_option (λ t, fget "verify" (t_fields t)) [] (dget ticket_id (b_tickets b))) events.

(** ** The lines a plan appends *)

(** The proposed log, the id of its last event, and the detail files its lines need. *)
Record draft : Type := Draft { dr_log : pystr; dr_tail : option N; dr_details : list target_plan }.

(** [log.rstrip] of line feeds, then the line. *)
Definition append_line (log line : pystr) : pystr := rstrip_lf log ++ LF ++ line ++ LF.

Definition _event_line (d : draft) (taxonomy : pystr) (ticket : option pystr) (agent message now op_id : pystr) : res stop draft :=
  prepared ← lift LogRaises
               (prepare_bounded_event root project_identity project_lineage_identity (dr_tail d) taxonomy message
                  ticket (Some agent) now (Some op_id) None);
  let '(event, line, targets) := prepared in
  Ok (Draft (append_line (dr_log d) line) (Some event) (dr_details d ++ targets)).

Definition event_id (d : draft) : value := Scalar (SInt (Z.of_N (default 0%N (dr_tail d)))).

(** ** The goal budget *)

Definition str_value (s : pystr) : value := Scalar (SStr s).
Definition int_value (n : Z) : value := Scalar (SInt n).
(** [{**d, **e}] *)
Definition dupdate (d e : fields) : fields := foldl (λ d x, dset x.1 x.2 d) d e.

(** Who renews an exhausted budget without an operator. *)
Definition trip_checkpoint (v : verdicts) (st : fields) : option pystr :=
  if negb (budget_exhausted (dget (py "execution_intent") st) (counter st "goal_waves") (counter st "goal_tickets")) then None
  else if v_protocol_home v then Some (py "protocol_home")
  else if persistent st then
    match v_grant v st with Some [] => Some (text_or_empty (dget (py "authority_source") st)) | _ => None end
  else None.

Section trip.
Context (v : verdicts) (st : fields) (agent op_id : pystr) (c : clock).

Definition checkpoint_message (waves tickets : Z) (source : pystr) : pystr :=
  "goal checkpoint -- goal_waves " +s str_of_int waves +s "->0, goal_tickets " +s str_of_int tickets
  +s "->0; authority_source " +s source +s "; budget reached, continuing under the same grant".
Definition _trip_checkpoint (waves tickets : Z) (d : draft) : res stop (option (draft * fields)) :=
  match trip_checkpoint v (dupdate st [(py "goal_waves", int_value waves); (py "goal_tickets", int_value tickets)]) with
  | None => Ok None
  | Some source =>
      d' ← _event_line d "DEC" None agent (checkpoint_message waves tickets source) (c_now c) op_id;
      Ok (Some (d', [(py "goal_waves", int_value 0); (py "goal_tickets", int_value 0); (py "last_event", event_id d');
                     (py "updated", str_value (c_utc c))]))
  end.

Definition valve_wait (waves tickets : Z) : pystr :=
  "WAIT: safety valve reached (" +s str_of_int waves +s " waves / " +s str_of_int tickets
  +s " tickets) -- run 'cc' to continue".

(** One counter moves by one; at its cap the valve trips, or is renewed. *)
Definition count_goal (key : string) (reached : Z → bool) (waves tickets : Z → Z) (d : draft) (owned : fields) : res stop (draft * fields) :=
  let old := counter st key in
  let new := (old + 1)%Z in
  d ← _event_line d "DEC" None agent (py key +s " " +s str_of_int old +s "->" +s str_of_int new) (c_now c) op_id;
  let owned := dset (py "last_event") (event_id d) (dset (py key) (int_value new) owned) in
  if negb (reached new) then Ok (d, owned)
  else
    cleared ← _trip_checkpoint (waves new) (tickets new) d;
    match cleared with
    | None => Ok (d, dset (py "next_action") (str_value (valve_wait (waves new) (tickets new))) owned)
    | Some (d, extra) => Ok (d, dupdate owned extra)
    end.

Definition goal : bool := str_is (dget (py "execution_intent") st) "goal".
Definition count_budget (current destination : pystr) (d : draft) (owned : fields) : res stop (draft * fields) :=
  if (destination =s "REVIEW") && (current =s "VERIFY") && goal
  then count_goal "goal_tickets" (Z.leb GOAL_TICKET_CAP) (λ _, counter st "goal_waves") (λ n, n) d owned
  else if (destination =s "ADD") && (current =s "HUNT") && goal
  then count_goal "goal_waves" (Z.leb GOAL_WAVE_CAP) (λ n, n) (λ _, counter st "goal_tickets") d owned
  else Ok (d, owned).
End trip.

(** ** The guards of a transition, in their order *)

Section transition.
Context (v : verdicts) (d : documents) (st : fields) (b : board) (c : clock) (agent : pystr).

Definition current : pystr := text_at st "phase".
Definition the_doing : list pystr := t_id <$> doing b.

Definition edge_guard (destination : pystr) : option refusal :=
  if mem destination TICKET_BEARING_PHASES && bool_decide (is_Some (non_work_event (text_at st "task") (history_events d)))
  then Some (plain TICKET_NOT_WORKABLE (text_field st "task"))
  else if negb (dmem destination VALID_TRANSITIONS) && negb (mem destination ANY_FROM)
  then Some (Refusal ILLEGAL_TRANSITION None (Some destination) None [])
  else if negb (transition_legal current destination)
  then Some (Refusal ILLEGAL_TRANSITION None (Some destination)
               (match the_doing with [] => forward_route (Some current) None
                                | [t] => forward_route (Some current) (Some t) | _ => None end) [])
  else None.

(** The subject of the transition: the one active ticket, which the caller may name. *)
Definition subject_of (destination : pystr) (ticket_id : option pystr) : res stop (option pystr) :=
  if negb (mem destination TICKET_BEARING_PHASES) then Ok None
  else
    let mismatch := Refusal ACTIVE_TICKET_MISMATCH None (Some destination) None [] in
    match head the_doing with
    | None => Err (Refused mismatch)
    | Some active =>
        let task := text_at st "task" in
        _ ← guard (refuse_if (nonempty task && negb (active =s task)) mismatch);
        _ ← guard (match ticket_id with
                   | Some t => if t =s active then None
                               else Some (if dmem t (b_tickets b) then plain ACTIVE_TICKET_MISMATCH (Some t) else plain TICKET_NOT_FOUND (Some t))
                   | None => None
                   end);
        _ ← guard (refuse_if (negb (dmem active (b_tickets b))) (plain TICKET_NOT_FOUND (Some active)));
        Ok (Some active)
    end.

(** What a phase asks of the work it is entered for. *)
Definition boundary_guard (destination subject : pystr) : option refusal :=
  if mem destination (strs ["BUILD"; "REVIEW"; "SHIP"]) then
    (λ diagnostic, plain (_source_refusal_code v diagnostic "SOURCE_CORRUPTION") (Some subject)) <$> v_boundary v subject destination
  else None.
Definition ship_guard (destination subject : pystr) : option refusal :=
  if destination =s "SHIP" then
    (λ _, Refusal INCOMPLETE_TICKET (Some subject) (Some destination) (Some (evidence_command subject)) []) <$> v_ship v subject (history_events d)
  else None.
Definition review_guard (destination subject : pystr) : option refusal :=
  let incomplete command := Refusal INCOMPLETE_TICKET (Some subject) (Some destination) command [] in
  if (destination =s "REVIEW") && (current =s "VERIFY") then
    if negb (verification_evidence subject (history_events d)).1 then Some (incomplete (Some (_verification_command subject)))
    else match _regression_gate v b (history_events d) subject, _acceptance_gate v b (history_events d) subject with
         | Some _, _ | None, Some _ => Some (incomplete None)
         | None, None => None
         end
  else None.
Definition work_guards (destination : pystr) (subject : option pystr) : res stop () :=
  match subject with
  | None => Ok tt
  | Some s =>
      _ ← guard (boundary_guard destination s);
      _ ← guard (ship_guard destination s);
      guard (review_guard destination s)
  end.

Definition transition_guards (destination : pystr) (ticket_id : option pystr) : res stop (option pystr) :=
  _ ← guard (_active_claim_refusal st b agent (c_seat c));
  _ ← guard (edge_guard destination);
  subject ← subject_of destination ticket_id;
  _ ← work_guards destination subject;
  Ok subject.

(** ** The plan *)

(** The texts a transition writes, in the order of its targets: the detail files and
    the log, the board when a claim moved, the state. *)
Record plan : Type := Plan {
  pl_details : list target_plan;
  pl_log : pystr;
  pl_board : option pystr;
  pl_state : pystr;
  pl_event : N;
  pl_ticket : option pystr;
}.
(** The board as it will stand. *)
Definition board_after (board_text : pystr) (p : plan) : pystr := default board_text (pl_board p).

Definition is_wait (st : fields) : bool := startswith "WAIT:" (text_at st "next_action").
Definition provisional_action (destination : pystr) (subject : option pystr) : pystr :=
  match subject with
  | Some s => "PHASE " +s destination +s " " +s s
  | None => if destination =s "DONE" then "saipen continue" else "PHASE " +s destination
  end.

(** The fields a transition owns, before the budget is counted. *)
Definition owned_fields (destination : pystr) (subject : option pystr) (event : value) (blocker : fields) : fields :=
  let owned :=
    [(py "phase", str_value destination); (py "next_action", str_value (provisional_action destination subject));
     (py "transition_from", str_value current); (py "last_event", event); (py "updated", str_value (c_utc c)); (py "agent", str_value agent)] in
  let owned := dupdate owned blocker in
  let owned := if is_wait st then dset (py "next_action") (str_value (text_at st "next_action")) owned else owned in
  if destination =s "DONE" then dset (py "task") (str_value "none") owned else owned.

Definition transition_message (destination event_text : pystr) : pystr :=
  let marker := "transition to " +s destination in
  if nonempty event_text then marker +s " -- " +s event_text else marker.

(** A finished project takes the route the router gives on the proposed texts. *)
Definition settle_route (destination new_state new_board : pystr) : res stop pystr :=
  if destination =s "DONE" then
    let r := route_documents home new_state new_board [] [] (c_route c) None (Some agent) None None None None in
    if r_ok r && negb (r_action r =s "saipen continue")
    then lift StateRaises (patch_state new_state [(py "next_action", str_value (r_action r))])
    else Ok new_state
  else Ok new_state.

Definition validated (p : plan) : res stop plan :=
  match validate_texts parse_runtime_provenance home (Some agent) (Some (d_history d)) [] (c_check c) (pl_state p)
          (board_after (d_board d) p) (pl_log p) with
  | [] => Ok p
  | errors => Err (Refused (Refusal VALIDATION_FAILED None None None errors))
  end.

Definition transition_texts (op_id destination event_text : pystr) (subject : option pystr) : res stop plan :=
  first ← _event_line (Draft (d_log d) (s_tail (d_history d)) []) "RUN" subject agent (transition_message destination event_text) (c_now c) op_id;
  blocker ← blocker_owned st b destination subject;
  let owned := owned_fields destination subject (event_id first) blocker in
  _ ← lift StateRaises (patch_state (d_state d) owned);
  counted ← count_budget v st agent op_id c current destination first owned;
  let '(log, owned) := counted in
  new_state ← lift StateRaises (patch_state (d_state d) owned);
  refreshed ← _refresh_active_claim st (d_board d) agent (c_utc c) (c_refresh c) (v_session v);
  new_state ← settle_route destination new_state (default (d_board d) refreshed);
  validated (Plan (dr_details log) (dr_log log) refreshed new_state (default 0%N (dr_tail first)) subject).
End transition.

(** [_plan_transition], from the documents [_read] accepts. *)
Definition read_state (d : documents) : res stop fields :=
  if negb (nonempty (strip (d_state d))) then Err (Refused (plain VALIDATION_FAILED None))
  else match parse_state_or_error home (d_state d) with
       | Ok st => Ok st
       | Err _ => Err (Refused (plain VALIDATION_FAILED None))
       end.
Definition _plan_transition (v : verdicts) (d : documents) (c : clock) (op_id destination agent : pystr) (ticket_id : option pystr)
    (event_text : pystr) : res stop plan :=
  st ← read_state d;
  let b := parse_board (d_board d) in
  let destination := upper destination in
  subject ← transition_guards v d st b c agent destination ticket_id;
  transition_texts v d st b c agent op_id destination event_text subject.

(** ** The operation *)

(** [ensure_debt_baseline], the id of the snapshot it commits, and [load_snapshot], the
    work a snapshot is bound to; [None] where they refuse. *)
Record debt_store : Type := DebtStore { ensure_debt_baseline : pystr → option (option pystr); load_snapshot : pystr → option (option pystr) }.

Definition _establish_pre_build_baseline (s : debt_store) (from_phase destination : pystr) (p : plan) : option refusal :=
  if (destination =s "BUILD") && (from_phase =s "SCOUT") then
    match truthy (pl_ticket p) with
    | None => None
    | Some subject =>
        let refused := Some (plain VALIDATION_FAILED (Some subject)) in
        match ensure_debt_baseline s subject with
        | None => refused
        | Some snapshot_id =>
            match truthy snapshot_id with
            | None => refused
            | Some id => if bool_decide (load_snapshot s id = Some (Some subject)) then None else refused
            end
        end
    end
  else None.

(** [transition_phase], up to the plan it applies; the preview asks for no baseline. *)
Definition transition_phase (s : debt_store) (v : verdicts) (d : documents) (c : clock) (op_id destination agent : pystr)
    (ticket_id : option pystr) (event_text : pystr) (dry_run : bool) : res stop plan :=
  p ← _plan_transition v d c op_id destination agent ticket_id event_text;
  if dry_run then Ok p
  else
    st ← read_state d;
    _ ← guard (_establish_pre_build_baseline s (text_at st "phase") (upper destination) p);
    Ok p.
End planner.
