(* ===== verification/TransitionFacts.v ===== *)
(** * What the planner of a transition proves

    A planned transition is entitled to its edge, passes the write gate, and writes
    exactly the fields, the lines and the claim it owns. *)

From S2P Require Import Prelude PyStr PyStrFacts PyUnicode PyRegex PyDict Phases BoardClock BoardRecord BoardParse BoardClaims BoardEdit.
From S2P Require Import JournalFs SafeId LogLine LogHistory LogVerdict LogEvidence LogLedger LogRegression Ownership StateDoc StateDocFacts StatePatch.
From S2P Require Import StateWait StateContract Router RouterFacts FastCheck FastCheckFacts Transition.

(** ** Stops and results *)

Lemma guard_Ok o x : guard o = Ok x ↔ o = None.
Proof. destruct o, x; cbn; split; congruence. Qed.
Lemma lift_Ok {E A} (f : E → stop) (r : res E A) x : lift f r = Ok x ↔ r = Ok x.
Proof. destruct r; cbn; split; congruence. Qed.
Lemma refuse_if_None b r : refuse_if b r = None ↔ b = false.
Proof. by destruct b. Qed.
Lemma bind_is_Ok {E A B} (f : A → res E B) (r : res E A) y : (r ≫= f) = Ok y ↔ ∃ x, r = Ok x ∧ f x = Ok y.
Proof. split; [by apply res_bind_Ok|]. by intros (x & -> & H). Qed.
Lemma bind_guard {B} o (k : res stop B) y : (_ ← guard o; k) = Ok y ↔ o = None ∧ k = Ok y.
Proof. destruct o; cbn; split; naive_solver. Qed.

(** ** Patches of scalars *)

(** The owned fields are no lists in the document. *)
Lemma parse_body_keeps_list body cur d st k items :
  parse_body (cur, d) body = Some st → dget k d = Some (VList items) → ∃ items', dget k st.2 = Some (VList items').
Proof.
  revert cur d items. induction body as [|line body IH]; intros cur d items; cbn [parse_body]; [intros [= <-]; by eexists|].
  destruct (parse_line (cur, d) line) as [[cur1 d1]|] eqn:E; [|done]. cbn [mbind option_bind]. intros Hp Hk.
  assert (∃ items', dget k d1 = Some (VList items')) as [items' Hk']; [|by eapply IH]. revert E. unfold parse_line. cbn [fst snd].
  destruct (negb _); [intros [= <- <-]; by eexists|]. destruct (item_line line) as [raw|].
  - destruct cur as [key|]; [|done]. intros [= <- <-]. unfold append_item. destruct (decide (key = k)) as [->|Hne].
    + rewrite Hk. rewrite dget_dset_eq. by eexists.
    + destruct (dget key d) as [[]|]; try (by eexists). rewrite dget_dset_ne by done. by eexists.
  - destruct (key_line line) as [[key raw]|]; [|done]. destruct (dmem key d) eqn:Em; [done|].
    assert (key ≠ k) as Hne. { intros ->. unfold dmem in Em. rewrite Hk in Em. by rewrite bool_decide_eq_true_2 in Em by by eexists. }
    destruct (nonempty raw); intros [= <- <-]; rewrite dget_dset_ne by done; by eexists.
Qed.

Lemma tidy_scalar owned body cur d st fresh :
  parse_body (cur, d) body = Some st → (∀ k, is_Some (dget k owned) → ∀ items, dget k st.2 ≠ Some (VList items)) →
  match cur with Some k => dget k owned = None | None => True end → tidy owned cur fresh body.
Proof.
  intros Hp Hn. revert cur d fresh Hp. induction body as [|line body IH]; intros cur d fresh Hp Hc; [done|]. cbn [parse_body] in Hp.
  destruct (parse_line (cur, d) line) as [[cur1 d1]|] eqn:E; [|done]. cbn [mbind option_bind] in Hp. cbn [tidy].
  destruct (item_head line) eqn:Hi.
  - assert (cur ≫= (λ k, dget k owned) = None) as -> by (by destruct cur).
    assert (cur1 = cur) as ->; [|by eapply IH]. unfold parse_line in E. destruct (negb _); [by injection E|].
    destruct (item_line line); [by destruct cur; [injection E|]|]. destruct (key_line line) as [[key raw]|] eqn:Ek; [|done].
    apply key_line_no_item in Ek. congruence.
  - destruct (key_line line) as [[key raw]|] eqn:Ek.
    + destruct (parse_key _ _ _ _ _ _ E Ek) as (_ & w & Ew & Hw). injection Ew as -> ->. eapply IH; [exact Hp|].
      destruct (nonempty raw) eqn:Er; [done|]. destruct (dget key owned) as [v|] eqn:Ev; [|done]. exfalso.
      unfold parse_line in E. cbn [fst snd] in E. rewrite (key_line_nonblank _ _ _ Ek), (key_line_item _ _ _ Ek), Ek in E. cbn [negb] in E.
      destruct (dmem key d); [done|]. rewrite Er in E. injection E as E. rewrite <-E in Hp.
      destruct (parse_body_keeps_list _ _ _ _ key [] Hp) as [items H]; [by rewrite dget_dset_eq|].
      exact (Hn key ltac:(by eexists) items H).
    + assert (cur1 = cur) as ->; [|by eapply IH]. unfold parse_line in E.
      destruct (negb _); [by injection E|]. destruct (item_line line); [by destruct cur; [injection E|]|by rewrite Ek in E].
Qed.

Lemma tidy_text_scalar owned text d :
  lf_only text → parse_frontmatter text = Ok d → (∀ k, is_Some (dget k owned) → ∀ items, dget k d ≠ Some (VList items)) →
  startswith "---" text = true → tidy_text owned text.
Proof.
  intros Hlf Hd Hn Hs. unfold tidy_text. destruct (split_fence _) as [[body suffix]|] eqn:Ef; [|done].
  destruct (rewritten text (λ b, Ok b) (py "---" ++ [10%N] ++ join [10%N] body ++ [10%N] ++ join [10%N] suffix) d Hlf Hd)
    as (body' & suffix' & c & out & Ef' & Hb & _).
  { unfold rewrite_body. rewrite Hs, Hd. cbn [negb mbind res_bind]. by rewrite Ef. }
  rewrite Ef in Ef'. injection Ef' as <- <-. by eapply tidy_scalar.
Qed.

(** A text the rewriters of the state can work on, with its fields. *)
Definition holds (text : pystr) (d : fields) : Prop := lf_only text ∧ startswith "---" text = true ∧ parse_frontmatter text = Ok d.

Lemma patch_scalars text owned d text' :
  holds text d → (∀ k, is_Some (dget k owned) → ∀ items, dget k d ≠ Some (VList items)) →
  Forall key_ok (dkeys owned) → wf_dict owned → patch_state text owned = Ok text' →
  ∃ d', holds text' d' ∧ ∀ k, dget k d' = match dget k owned with Some v => Some v | None => dget k d end.
Proof.
  intros (Hlf & Hs & Hd) Hn Hk Hw Hp. exists (overlay owned d ++ unseen owned d). split; [|apply dget_patched].
  destruct (parse_patched owned Hk Hw text text' d Hlf (tidy_text_scalar _ _ _ Hlf Hd Hn Hs) Hd Hp) as (? & ? & ?). done.
Qed.

(** ** The fields a transition owns *)

Definition OWNED : list pystr :=
  strs ["phase"; "next_action"; "transition_from"; "last_event"; "updated"; "agent"; "blocker"; "task"; "goal_waves"; "goal_tickets"].
(** The fields the count of the budget may write. *)
Definition COUNTED : list pystr := strs ["next_action"; "last_event"; "updated"; "goal_waves"; "goal_tickets"].

Definition key_okb (key : pystr) : bool :=
  match key with c :: s => is_key_start c && forallb is_key_char s | [] => false end.
Lemma key_okb_spec key : key_okb key = true → key_ok key.
Proof.
  destruct key as [|c s]; [done|]. cbn. intros [Hc Hs]%andb_true_iff. exists c, s. split_and!; [done|done|].
  apply Forall_forall. intros x Hx. rewrite forallb_forall in Hs. apply Hs. by apply list_elem_of_In.
Qed.
Lemma owned_keys_ok : Forall key_ok OWNED.
Proof.
  apply Forall_forall. intros k Hk. apply key_okb_spec.
  assert (forallb key_okb OWNED = true) as H by (vm_compute; reflexivity). rewrite forallb_forall in H. apply H. by apply list_elem_of_In.
Qed.

(** Scalars under keys of a list. *)
Definition scalar (w : value) : Prop := match w with Scalar _ => True | VList _ => False end.
Definition within (l : list pystr) (d : fields) : Prop :=
  wf_dict d ∧ (∀ k, k ∈ dkeys d → k ∈ l) ∧ ∀ k w, dget k d = Some w → scalar w.
Lemma within_dset l k w d : within l d → k ∈ l → scalar w → within l (dset k w d).
Proof.
  intros (Hw & Hd & Hs) Hk Hv. split_and!; [by apply wf_dset|intros j [->|Hj]%elem_of_dkeys_dset; auto|].
  intros j x. destruct (decide (k = j)) as [->|Hne]; [rewrite dget_dset_eq; by intros [= <-]|]. rewrite dget_dset_ne by done. apply Hs.
Qed.
Lemma within_dupdate l d e : within l d → Forall (λ x : pystr * value, x.1 ∈ l ∧ scalar x.2) e → within l (dupdate d e).
Proof.
  unfold dupdate. intros Hd He. revert d Hd. induction He as [|[k v] e [Hk Hv] _ IH]; intros d Hd; [done|]. cbn [foldl fst snd]. apply IH.
  by apply within_dset.
Qed.
Lemma dget_dupdate d e k : wf_dict e → dget k (dupdate d e) = match dget k e with Some v => Some v | None => dget k d end.
Proof.
  unfold dupdate, wf_dict. revert d. induction e as [|[j v] e IH]; intros d Hw; [done|]. cbn [foldl fst snd dget].
  unfold dkeys in Hw. rewrite fmap_cons in Hw. apply NoDup_cons in Hw as [Hj Hw]. rewrite (IH _ Hw). case_bool_decide as E.
  - subst j. assert (dget k e = None) as -> by by apply dget_None. by rewrite dget_dset_eq.
  - destruct (dget k e); [done|]. rewrite dget_dset_ne; [done|]. by intros ->.
Qed.
Lemma owned_within l d : within l d → Forall key_ok l → Forall key_ok (dkeys d).
Proof. intros (_ & H & _) Hl. rewrite Forall_forall in Hl. apply Forall_forall. eauto. Qed.

Section planner.
Context (parse_runtime_provenance : pystr → res pystr pystr).
Context (root : path) (project_identity project_lineage_identity : option pystr) (home : install).
Local Abbreviation _event_line := (_event_line root project_identity project_lineage_identity).
Local Abbreviation count_budget := (count_budget root project_identity project_lineage_identity).
Local Abbreviation count_goal := (count_goal root project_identity project_lineage_identity).
Local Abbreviation _trip_checkpoint := (_trip_checkpoint root project_identity project_lineage_identity).
Local Abbreviation transition_texts := (transition_texts parse_runtime_provenance root project_identity project_lineage_identity home).
Local Abbreviation _plan_transition := (_plan_transition parse_runtime_provenance root project_identity project_lineage_identity home).
Local Abbreviation gate := (validate_texts parse_runtime_provenance home).

(** ** The lines *)

(** A draft grown by legal lines, each after the one before it. *)
Record grown (d : draft) (lines : list pystr) (d' : draft) : Prop := {
  gr_log : dr_log d' = foldl append_line (dr_log d) lines;
  gr_tail : default 0%N (dr_tail d') = (default 0 (dr_tail d) + N.of_nat (length lines))%N;
  gr_lines : Forall (λ l, is_Some (parse_log_line l) ∧ length (splitlines l) = 1) lines;
}.
Lemma grown_trans d l d1 l' d2 : grown d l d1 → grown d1 l' d2 → grown d (l ++ l') d2.
Proof.
  intros [H1 H2 H3] [H4 H5 H6]. split; [by rewrite foldl_app, <-H1|rewrite length_app; lia|by apply Forall_app].
Qed.

Lemma event_grown d taxonomy ticket agent message now op_id d' :
  _event_line d taxonomy ticket agent message now op_id = Ok d' → ∃ line, grown d [line] d'.
Proof.
  unfold _event_line. intros ([[event line] targets] & Hp%lift_Ok & E)%bind_is_Ok. injection E as <-. exists line.
  unfold prepare_bounded_event in Hp. apply bind_is_Ok in Hp as (p & Hp & E).
  destruct (prepare_event_cases _ _ _ _ _ _ _ _ _ _ _ _ Hp) as (Ev & _). destruct (_ || _) eqn:Eb; [done|]. injection E as <- <- <-.
  apply orb_false_iff in Eb as [E1%negb_false_iff%Nat.eqb_eq E2%negb_false_iff]. rewrite bool_decide_eq_true in E2.
  split; cbn [dr_log dr_tail foldl default from_option length]; [done| |by repeat constructor].
  rewrite Ev. unfold next_event. simpl. unfold id. lia.
Qed.

(** ** The budget *)

Section budget.
Context (v : verdicts) (st : fields) (agent op_id : pystr) (c : clock).

(** The two ways a count ends: the counter moves, with a stop at its cap, or the
    budget is renewed by an authority that is not the count. *)
Definition counted (key : string) (reached : Z → bool) (waves tickets : Z → Z) (owned owned' : fields) : Prop :=
  let n := (counter st key + 1)%Z in
  (reached n = false ∧ dget (py key) owned' = Some (int_value n) ∧ dget (py "next_action") owned' = dget (py "next_action") owned) ∨
  (reached n = true ∧
   let after := dupdate st [(py "goal_waves", int_value (waves n)); (py "goal_tickets", int_value (tickets n))] in
   (trip_checkpoint v after = None ∧ dget (py key) owned' = Some (int_value n) ∧
    dget (py "next_action") owned' = Some (str_value (valve_wait (waves n) (tickets n))))
   ∨ (is_Some (trip_checkpoint v after) ∧ dget (py "goal_waves") owned' = Some (int_value 0) ∧
      dget (py "goal_tickets") owned' = Some (int_value 0) ∧ dget (py "next_action") owned' = dget (py "next_action") owned)).

Lemma count_goal_spec key reached waves tickets d owned d' owned' :
  py key ∈ strs ["goal_waves"; "goal_tickets"] → within OWNED owned → dget (py "updated") owned = Some (str_value (c_utc c)) →
  count_goal v st agent op_id c key reached waves tickets d owned = Ok (d', owned') →
  within OWNED owned' ∧ (∃ lines, 1 ≤ length lines ≤ 2 ∧ grown d lines d') ∧
  dget (py "last_event") owned' = Some (event_id d') ∧ dget (py "updated") owned' = Some (str_value (c_utc c)) ∧
  (∀ k, k ∉ COUNTED → dget k owned' = dget k owned) ∧ counted key reached waves tickets owned owned'.
Proof.
  intros Hkey Hw Hu. unfold Transition.count_goal. cbn zeta. set (n := (counter st key + 1)%Z).
  intros (d1 & He & H)%bind_is_Ok. apply event_grown in He as [line Hg].
  set (o1 := dset (py "last_event") (event_id d1) (dset (py key) (int_value n) owned)) in *.
  assert (py key ∈ OWNED ∧ py key ∈ COUNTED ∧ py key ≠ py "last_event" ∧ py key ≠ py "next_action" ∧ py key ≠ py "updated") as (K1 & K2 & K3 & K4 & K5).
  { assert (∀ P : pystr → Prop, P (py "goal_waves") → P (py "goal_tickets") → P (py key)) as HP.
    { intros P H1 H2. apply elem_of_cons in Hkey as [->|[->|[]%elem_of_nil]%elem_of_cons]; done. }
    split_and!; apply HP; (apply (bool_decide_unpack _); by vm_compute). }
  assert (within OWNED o1) as Hw1.
  { apply within_dset; [by apply within_dset| |done]. apply (bool_decide_unpack _). by vm_compute. }
  assert (dget (py "last_event") o1 = Some (event_id d1)) as L1 by apply dget_dset_eq.
  assert (dget (py key) o1 = Some (int_value n)) as L2 by (unfold o1; rewrite dget_dset_ne by done; apply dget_dset_eq).
  assert (∀ k, k ≠ py "last_event" → k ≠ py key → dget k o1 = dget k owned) as L3.
  { intros k H1 H2. unfold o1. by rewrite !dget_dset_ne. }
  assert (dget (py "next_action") o1 = dget (py "next_action") owned) as L4 by by apply L3.
  assert (dget (py "updated") o1 = Some (str_value (c_utc c))) as L5 by (rewrite L3 by done; exact Hu).
  assert (∀ k, k ∉ COUNTED → dget k o1 = dget k owned) as L6.
  { intros k Hk. apply L3; intros ->; apply Hk; [apply (bool_decide_unpack _); by vm_compute|done]. }
  destruct (reached n) eqn:Er; cbn [negb] in H; cycle 1.
  { injection H as <- <-. split_and!; try done; [exists [line]; split; [simpl; lia|done]|]. by left. }
  apply bind_is_Ok in H as (cleared & Ht & H). unfold Transition._trip_checkpoint in Ht.
  set (after := dupdate st [(py "goal_waves", int_value (waves n)); (py "goal_tickets", int_value (tickets n))]) in *.
  destruct (trip_checkpoint v after) as [source|] eqn:Es; cycle 1.
  - injection Ht as <-. injection H as <- <-. split_and!.
    + apply within_dset; [done| |done]. apply (bool_decide_unpack _). by vm_compute.
    + exists [line]. split; [simpl; lia|done].
    + by rewrite dget_dset_ne.
    + by rewrite dget_dset_ne.
    + intros k Hk. rewrite dget_dset_ne; [by apply L6|]. intros <-. apply Hk. by left.
    + right. split; [done|]. left. split; [exact Es|]. split; [by rewrite dget_dset_ne|by apply dget_dset_eq].
  - apply bind_is_Ok in Ht as (d2 & He & E). injection E as <-. apply event_grown in He as [line2 Hg2].
    match type of H with context [dupdate o1 ?e] => set (extra := e) in H end.
    assert (d' = d2 ∧ owned' = dupdate o1 extra) as [-> ->] by (split; congruence).
    assert (wf_dict extra) as We by (apply (bool_decide_unpack _); by vm_compute).
    assert (∀ k, k ∈ dkeys extra → k ∈ COUNTED ∧ k ∈ OWNED) as He.
    { intros k Hk. assert (Forall (λ k, k ∈ COUNTED ∧ k ∈ OWNED) (dkeys extra)) as HF by (apply (bool_decide_unpack _); by vm_compute).
      rewrite Forall_forall in HF. by apply HF. }
    assert (∀ k, k ∉ dkeys extra → dget k (dupdate o1 extra) = dget k o1) as Hk.
    { intros k Hk%dget_None. by rewrite dget_dupdate, Hk. }
    split_and!.
    + apply within_dupdate; [done|]. repeat constructor; apply (bool_decide_unpack _); by vm_compute.
    + exists ([line] ++ [line2]). split; [simpl; lia|]. by eapply grown_trans.
    + by rewrite dget_dupdate.
    + by rewrite dget_dupdate.
    + intros k Hin. rewrite Hk; [by apply L6|]. intros Hex. apply Hin. by apply He.
    + right. split; [done|]. right. split; [eapply mk_is_Some; exact Es|]. rewrite !dget_dupdate by done. split_and!; [done|done|].
      rewrite <-L4. reflexivity.
Qed.

Definition budget_moves (current destination : pystr) (owned owned' : fields) : Prop :=
  if (destination =s "REVIEW") && (current =s "VERIFY") && goal st
  then counted "goal_tickets" (Z.leb GOAL_TICKET_CAP) (λ _, counter st "goal_waves") (λ n, n) owned owned'
  else if (destination =s "ADD") && (current =s "HUNT") && goal st
  then counted "goal_waves" (Z.leb GOAL_WAVE_CAP) (λ n, n) (λ _, counter st "goal_tickets") owned owned'
  else owned' = owned.

Lemma count_budget_spec current destination d owned d' owned' :
  within OWNED owned → dget (py "updated") owned = Some (str_value (c_utc c)) → dget (py "last_event") owned = Some (event_id d) →
  count_budget v st agent op_id c current destination d owned = Ok (d', owned') →
  within OWNED owned' ∧ (∃ lines, length lines ≤ 2 ∧ grown d lines d') ∧
  dget (py "last_event") owned' = Some (event_id d') ∧ dget (py "updated") owned' = Some (str_value (c_utc c)) ∧
  (∀ k, k ∉ COUNTED → dget k owned' = dget k owned) ∧ budget_moves current destination owned owned'.
Proof.
  intros Hw Hu Hl. unfold Transition.count_budget, budget_moves.
  destruct (_ && _ && _) eqn:E1; [|destruct (_ && _ && _) eqn:E2 in |- *].
  1, 2: intros H; eapply count_goal_spec in H as (? & (lines & Hn & ?) & ? & ? & ? & ?);
    [split_and!; try done; exists lines; split; [lia|done]| |done|done]; apply (bool_decide_unpack _); by vm_compute.
  intros [= <- <-]. split_and!; try done. exists []. split; [simpl; lia|]. split; [done|simpl; lia|constructor].
Qed.
End budget.

(** ** The owned fields *)

Section owned.
Context (st : fields) (c : clock) (agent destination : pystr) (subject : option pystr) (ev : value).

Definition NO_BLOCKER : fields := [(py "blocker", str_value "none")].
Lemma blocker_owned_cases b bl : blocker_owned st b destination subject = Ok bl → bl = [] ∨ bl = NO_BLOCKER.
Proof.
  unfold blocker_owned. destruct (no_blocker _); [intros [= <-]; by left|]. destruct (upper _ =s _); [intros [= <-]; by right|].
  destruct (destination =s _); [intros [= <-]; by left|]. destruct (_state_blocker_repairs st b) as [[]|]; [done|..]; intros [= <-]; [by right|by left].
Qed.

Lemma owned_fields_spec bl :
  bl = [] ∨ bl = NO_BLOCKER → scalar ev →
  let o := owned_fields st c agent destination subject ev bl in
  within OWNED o ∧ dget (py "phase") o = Some (str_value destination) ∧ dget (py "transition_from") o = Some (str_value (current st)) ∧
  dget (py "last_event") o = Some ev ∧ dget (py "updated") o = Some (str_value (c_utc c)) ∧ dget (py "agent") o = Some (str_value agent) ∧
  dget (py "task") o = (if destination =s "DONE" then Some (str_value "none") else None) ∧ dget (py "blocker") o = dget (py "blocker") bl ∧
  dget (py "next_action") o = Some (str_value (if is_wait st then text_at st "next_action" else provisional_action destination subject)) ∧
  dget (py "goal_waves") o = None ∧ dget (py "goal_tickets") o = None.
Proof.
  intros Hbl Hev. unfold owned_fields. generalize (provisional_action destination subject) (text_at st "next_action") (current st) (destination =s "DONE") (is_wait st).
  intros na prior cur done wait.
  assert (∀ d : fields, wf_dict d → Forall (λ k, k ∈ OWNED) (dkeys d) → Forall (λ x, scalar x.2) d → within OWNED d) as HW.
  { intros d Hd Hf Hs. split_and!; [done|by apply Forall_forall|]. intros k w Hk%dget_Some_elem. rewrite Forall_forall in Hs. exact (Hs _ Hk). }
  destruct Hbl as [->| ->], done, wait; cbn zeta;
    (split; [apply HW; [apply (bool_decide_unpack _); vm_compute; exact I..|repeat constructor; exact Hev]|split_and!; reflexivity]).
Qed.
End owned.

(** ** What a planned transition writes *)

Section plan.
Context (v : verdicts) (d : documents) (st : fields) (c : clock) (agent op_id : pystr).
Local Abbreviation b := (parse_board (d_board d)).

(** The route of DONE, as the router answers on the new documents. *)
Definition settled_on (new_state new_board : pystr) : route :=
  route_documents home new_state new_board [] [] (c_route c) None (Some agent) None None None None.

(** The state a plan writes, [st'], and the lines it appends. *)
Record written (destination : pystr) (subject : option pystr) (p : plan) (lines : list pystr) (owned owned' st' : fields) : Prop := {
  wr_state : holds (pl_state p) st';
  wr_lines : 1 ≤ length lines ≤ 3;
  wr_log : pl_log p = foldl append_line (d_log d) lines;
  wr_legal : Forall (λ l, is_Some (parse_log_line l) ∧ length (splitlines l) = 1) lines;
  wr_last_event : dget (py "last_event") st' = Some (int_value (Z.of_N (default 0%N (s_tail (d_history d)) + N.of_nat (length lines))%N));
  wr_blocker : ∃ bl, blocker_owned st b destination subject = Ok bl ∧ dget (py "blocker") owned' = dget (py "blocker") bl ∧
    ∃ ev, scalar ev ∧ owned = owned_fields st c agent destination subject ev bl;
  wr_budget : budget_moves v st (current st) destination owned owned';
  wr_kept : ∀ k, k ∉ COUNTED → dget k owned' = dget k owned;
  wr_updated : dget (py "updated") owned' = Some (str_value (c_utc c));
  wr_fields : ∀ k, k ≠ py "next_action" ∨ destination ≠ py "DONE" → dget k st' = match dget k owned' with Some w => Some w | None => dget k st end;
  wr_route : let kept (fs : fields) := ∀ k, dget k fs = match dget k owned' with Some w => Some w | None => dget k st end in
    kept st' ∨ destination = py "DONE" ∧ ∃ text fs, holds text fs ∧ kept fs ∧
      let r := settled_on text (board_after (d_board d) p) in
      r_ok r = true ∧ r_action r ≠ py "saipen continue" ∧ dget (py "next_action") st' = Some (str_value (r_action r));
}.

Lemma settle_kept destination new_state new_board text :
  settle_route home c agent destination new_state new_board = Ok text →
  text = new_state ∨ destination = py "DONE" ∧ let r := settled_on new_state new_board in
    r_ok r = true ∧ r_action r ≠ py "saipen continue" ∧ patch_state new_state [(py "next_action", str_value (r_action r))] = Ok text.
Proof.
  unfold settle_route, settled_on. destruct (destination =s "DONE") eqn:E; [|intros [= <-]; by left]. cbv zeta.
  destruct (_ && _) eqn:Er; [|intros [= <-]; by left]. intros H%lift_Ok. right. unfold eqs in E, Er.
  rewrite bool_decide_eq_true in E. rewrite andb_true_iff, negb_true_iff, bool_decide_eq_false in Er. by destruct Er.
Qed.

Lemma owned_elem k : mem k OWNED = true → k ∈ OWNED.
Proof. by rewrite mem_true. Qed.

Lemma patch_within text d0 owned text' :
  holds text d0 → (∀ k, k ∈ OWNED → ∀ items, dget k d0 ≠ Some (VList items)) → within OWNED owned → patch_state text owned = Ok text' →
  ∃ d', holds text' d' ∧ ∀ k, dget k d' = match dget k owned with Some w => Some w | None => dget k d0 end.
Proof.
  intros Hh Hn Hw Hp. apply (patch_scalars text owned d0 text'); [done| |by eapply owned_within; [done|apply owned_keys_ok]|by destruct Hw|done].
  intros k [w Hk] items. apply Hn. destruct Hw as (_ & Hw & _). apply Hw. apply dget_Some_elem in Hk. unfold dkeys. by apply (list_elem_of_fmap_2 fst _ (k, w)).
Qed.

Lemma transition_texts_written destination event_text subject p :
  holds (d_state d) st → (∀ k, k ∈ OWNED → ∀ items, dget k st ≠ Some (VList items)) →
  transition_texts v d st b c agent op_id destination event_text subject = Ok p →
  (∃ lines owned owned' st', written destination subject p lines owned owned' st') ∧
  gate (Some agent) (Some (d_history d)) [] (c_check c) (pl_state p) (board_after (d_board d) p) (pl_log p) = [] ∧
  pl_ticket p = subject ∧ _refresh_active_claim st (d_board d) agent (c_utc c) (c_refresh c) (v_session v) = Ok (pl_board p).
Proof.
  intros Hh Hn. unfold Transition.transition_texts. intros (first & (line & Hg)%event_grown & H)%bind_is_Ok.
  apply bind_is_Ok in H as (bl & Hbl & H). cbn zeta in H. apply bind_is_Ok in H as (_ & _ & H).
  apply bind_is_Ok in H as ([log owned'] & Hc & H). apply bind_is_Ok in H as (ns & Hp%lift_Ok & H). apply bind_is_Ok in H as (refreshed & Hr & H).
  apply bind_is_Ok in H as (final & Hs & H).
  destruct (owned_fields_spec st c agent destination subject (event_id first) bl (blocker_owned_cases _ _ _ _ _ Hbl) I)
    as (W & _ & _ & Hl & Hu & _ & _ & Hb & _).
  set (owned := owned_fields st c agent destination subject (event_id first) bl) in *.
  destruct (count_budget_spec _ _ _ _ _ _ _ _ _ _ _ W Hu Hl Hc) as (W' & (more & Hm & Hg') & Hl' & Hu' & Hk & Hmv).
  pose proof (grown_trans _ _ _ _ _ Hg Hg') as Hgr. destruct (patch_within _ _ _ _ Hh Hn W' Hp) as (d1 & Hh1 & Hd1).
  assert (∃ st', holds final st' ∧ (∀ k, k ≠ py "next_action" ∨ destination ≠ py "DONE" → dget k st' = dget k d1) ∧
    (st' = d1 ∨ destination = py "DONE" ∧ let r := settled_on ns (default (d_board d) refreshed) in
       r_ok r = true ∧ r_action r ≠ py "saipen continue" ∧ dget (py "next_action") st' = Some (str_value (r_action r)))) as (st' & Hh' & Hst' & Hrt).
  { destruct (settle_kept _ _ _ _ Hs) as [->|(Hd & Ho & Hc' & Ha)]; [exists d1; split_and!; auto|].
    set (r := settled_on ns (default (d_board d) refreshed)) in *.
    destruct (patch_within ns d1 [(py "next_action", str_value (r_action r))] final) as (st' & ? & Hst'); try done.
    - intros k Hin items. rewrite Hd1. destruct (dget k owned') as [w|] eqn:Ew; [|by apply Hn]. intros [= ->]. by destruct W' as (_ & _ & W'); specialize (W' _ _ Ew).
    - split_and!; [apply (bool_decide_unpack _); vm_compute; exact I|intros k ->%list_elem_of_singleton; apply owned_elem; by vm_compute|].
      intros k w. simpl. case_bool_decide; [by intros [= <-]|done].
    - exists st'. split_and!; [done| |right; split_and!; [done..|by rewrite Hst']].
      intros k Hk'. rewrite Hst'. simpl. case_bool_decide; [|done]. subst k. by destruct Hk'. }
  unfold validated in H. destruct (validate_texts _ _ _ _ _ _ _ _ _) eqn:Eg in H; [|done]. injection H as <-. cbn [pl_state pl_log pl_board pl_ticket] in *.
  split; [|by split_and!]. exists ([line] ++ more), owned, owned', st'. destruct Hgr as [G1 G2 G3]. cbn [dr_log dr_tail] in *. split; try done.
  - rewrite length_app. simpl. lia.
  - rewrite Hst' by (left; done). rewrite Hd1, Hl'. unfold event_id. by rewrite G2.
  - exists bl. split; [done|]. split; [|by eexists; split; [|reflexivity]]. rewrite <-Hb. apply Hk. apply (bool_decide_unpack _). by vm_compute.
  - intros k Hk'. rewrite Hst' by done. apply Hd1.
  - destruct Hrt as [->|[Hd Hr']]; [by left|]. right. split; [exact Hd|]. exists ns, d1. by split_and!.
Qed.
End plan.

(** ** The state that was read *)

Lemma read_state_Ok d st :
  read_state home d = Ok st → parse_frontmatter (d_state d) = Ok st ∧ parse_state_or_error home (d_state d) = Ok st ∧ ∃ style, valid_state (is_major home) style (is_schema home) st.
Proof.
  unfold read_state. destruct (nonempty (strip (d_state d))) eqn:En; [|done]. cbn [negb].
  destruct (parse_state_or_error home (d_state d)) as [fs|] eqn:Ep; [|done]. intros [= ->]. unfold parse_state_or_error in Ep. rewrite En in Ep. cbn [negb] in Ep.
  destruct (parse_frontmatter (d_state d)) as [fs|] eqn:Ef; [|done]. cbv zeta in Ep.
  match type of Ep with context [state_contract_errors ?m ?s ?v fs] => destruct (state_contract_errors m s v fs) as [[|? ?]|] eqn:Ec; [|done|done] end.
  injection Ep as ->. split_and!; [done|done|]. apply contract_valid in Ec. by eexists.
Qed.

Lemma valid_scalars m t vs fs k : valid_state m t vs fs → k ∈ OWNED → ∀ items, dget k fs ≠ Some (VList items).
Proof.
  intros V Hk items E. pose proof (vs_phases _ _ _ _ V) as [Hp Ht].
  assert (∀ s : string, k = py s → (∃ m, (py s, m) ∈ STATE_INTEGER_FIELDS) → False) as Hi.
  { intros s -> [lo Hin]. by destruct (vs_integers _ _ _ _ V _ _ _ Hin E) as (? & ? & _). }
  assert (∀ s : string, k = py s → mem (py s) STATE_STRING_FIELDS = true → False) as Hs.
  { intros s -> Hin%mem_true. destruct (vs_known _ _ _ _ V _ _ (dget_Some_elem _ _ _ E)) as [_ H]. by destruct (H Hin) as (? & ? & _). }
  unfold OWNED, strs in Hk. rewrite !fmap_cons, fmap_nil, !elem_of_cons, elem_of_nil in Hk.
  destruct Hk as [->|[->|[->|[->|[->|[->|[->|[->|[->|[->|[]]]]]]]]]]].
  - by destruct (Hp _ E) as (? & ? & _).
  - by apply (Hs "next_action").
  - by destruct (Ht _ E) as (? & ? & _).
  - apply (Hi "last_event"); [done|]. exists (Some 1%Z). apply (bool_decide_unpack _). by vm_compute.
  - by apply (Hs "updated").
  - by apply (Hs "agent").
  - by apply (Hs "blocker").
  - by apply (Hs "task").
  - apply (Hi "goal_waves"); [done|]. exists (Some 0%Z). apply (bool_decide_unpack _). by vm_compute.
  - apply (Hi "goal_tickets"); [done|]. exists (Some 0%Z). apply (bool_decide_unpack _). by vm_compute.
Qed.

(** ** Who may move *)

(** What entitles a seat to an edge: in the order of the guards. *)
Record entitled (v : verdicts) (d : documents) (st : fields) (c : clock) (agent destination : pystr) (ticket_id subject : option pystr) : Prop := {
  en_seat : ∀ t, head (doing (parse_board (d_board d))) = Some t → t_id t = text_at st "task" → claim_status t (Some agent) (c_seat c) = SELF;
  en_work : destination ∈ TICKET_BEARING_PHASES → non_work_event (text_at st "task") (history_events d) = None;
  en_phase : dmem destination VALID_TRANSITIONS = true ∨ destination ∈ ANY_FROM;
  en_edge : transition_legal (text_at st "phase") destination = true;
  en_subject :
    match subject with
    | None => destination ∉ TICKET_BEARING_PHASES
    | Some s => destination ∈ TICKET_BEARING_PHASES ∧ t_id <$> head (doing (parse_board (d_board d))) = Some s ∧
                (text_at st "task" = [] ∨ text_at st "task" = s) ∧ (ticket_id = None ∨ ticket_id = Some s)
    end;
  en_boundary : ∀ s, subject = Some s → destination ∈ strs ["BUILD"; "REVIEW"; "SHIP"] → v_boundary v s destination = None;
  en_ship : ∀ s, subject = Some s → destination = py "SHIP" → v_ship v s (history_events d) = None;
  en_review : ∀ s, subject = Some s → destination = py "REVIEW" → text_at st "phase" = py "VERIFY" →
    (verification_evidence s (history_events d)).1 = true ∧
    (∀ t, dget s (b_tickets (parse_board (d_board d))) = Some t → regression_required t = true →
       (regression_evidence parse_runtime_provenance s (history_events d)).1 = true ∧
       (fget "regression_evidence" (t_fields t) = py "executed" → v_executed v s = None)) ∧
    _acceptance_gate v (parse_board (d_board d)) (history_events d) s = None;
}.

Lemma head_doing b t : board_ok b → head (doing b) = Some t → in_section t DOING = true ∧ dget (t_id t) (b_tickets b) = Some t ∧ is_full ticket_id_re (t_id t) = true.
Proof.
  intros ((Hw & Hk) & Hok) Ht%head_elem. unfold doing in Ht. apply list_elem_of_filter in Ht as [Hd Hin]. unfold dvalues in Hin.
  apply list_elem_of_fmap in Hin as ([k t'] & -> & Hin). cbn [snd] in *. rewrite (Hk _ _ Hin). split_and!; [done| |].
  - by apply dget_elem.
  - destruct (Hok _ _ Hin). by rewrite <-(Hk _ _ Hin).
Qed.

Lemma seat_guard_exact st b agent now :
  board_ok b →
  _active_claim_refusal st b agent now = None ↔
  ∀ t, head (doing b) = Some t → t_id t = text_at st "task" → claim_status t (Some agent) now = SELF.
Proof.
  intros Hb. unfold _active_claim_refusal, seat_of, classify_active_ownership. fold (doing b).
  destruct (doing b) as [|t ts] eqn:Ed; cbn zeta.
  { destruct (bound_active st b); split; done. }
  destruct (head_doing b t Hb) as (Hs & Hg & Hi); [by rewrite Ed|]. unfold has_active. cbn [ow_active_ticket ow_status head].
  rewrite (bool_decide_eq_true_2 (is_Some (Some (t_id t)))) by by eexists. cbn [negb orb].
  destruct (decide (t_id t = text_at st "task")) as [E|Hne].
  - assert (bound_active st b = Some t) as ->.
    { unfold bound_active. rewrite <-E.
      assert (nonempty (t_id t) = true) as -> by (destruct (t_id t); [by vm_compute in Hi|done]).
      assert ((t_id t =s "none") = false) as ->; [|by rewrite Hg, Hs].
      unfold eqs. rewrite bool_decide_eq_false. intros En. rewrite En in Hi. by vm_compute in Hi. }
    rewrite bool_decide_eq_true_2 by by rewrite E. cbn [negb].
    split; [intros H t' [= <-] _|intros H; specialize (H t eq_refl E)]; destruct (claim_status t (Some agent) now); done.
  - split; [by intros _ t' [= <-]|]. intros _. destruct (bound_active st b); [|done].
    by rewrite bool_decide_eq_false_2 by congruence.
Qed.

Lemma edge_guard_exact d st b destination :
  edge_guard d st b destination = None ↔
  (destination ∈ TICKET_BEARING_PHASES → non_work_event (text_at st "task") (history_events d) = None) ∧
  (dmem destination VALID_TRANSITIONS = true ∨ destination ∈ ANY_FROM) ∧ transition_legal (text_at st "phase") destination = true.
Proof.
  unfold edge_guard, current. rewrite <-!mem_true.
  assert (mem destination TICKET_BEARING_PHASES && bool_decide (is_Some (non_work_event (text_at st "task") (history_events d))) = false ↔
          (mem destination TICKET_BEARING_PHASES = true → non_work_event (text_at st "task") (history_events d) = None)) as Hw.
  { destruct (mem _ _), (non_work_event _ _); cbn; rewrite ?bool_decide_eq_true_2 by (by eexists); try (split; congruence); naive_solver. }
  destruct (mem destination TICKET_BEARING_PHASES && _) eqn:E1; [split; [done|intros (H & _); by apply Hw in H]|].
  destruct (dmem destination VALID_TRANSITIONS), (mem destination ANY_FROM), (transition_legal _ destination); cbn; naive_solver.
Qed.

Lemma subject_of_exact st b destination ticket_id subject :
  board_ok b →
  subject_of st b destination ticket_id = Ok subject ↔
  match subject with
  | None => destination ∉ TICKET_BEARING_PHASES
  | Some s => destination ∈ TICKET_BEARING_PHASES ∧ t_id <$> head (doing b) = Some s ∧
              (text_at st "task" = [] ∨ text_at st "task" = s) ∧ (ticket_id = None ∨ ticket_id = Some s)
  end.
Proof.
  intros Hb. unfold subject_of, the_doing. destruct (mem destination TICKET_BEARING_PHASES) eqn:Em; cbn [negb]; cycle 1.
  { assert (destination ∉ TICKET_BEARING_PHASES) by (rewrite <-mem_true; congruence).
    destruct subject; [split; [done|by intros (? & _)]|]. done. }
  apply mem_true in Em. cbv zeta. destruct (doing b) as [|t ts] eqn:Ed; cbn [fmap list_fmap head].
  { destruct subject; [split; [done|by intros (_ & ? & _)]|]. split; done. }
  destruct (head_doing b t Hb) as (_ & Hg & _); [by rewrite Ed|]. unfold dmem. rewrite Hg, bool_decide_eq_true_2 by by eexists. cbn [negb refuse_if guard].
  assert (nonempty (text_at st "task") && negb (t_id t =s text_at st "task") = false ↔ text_at st "task" = [] ∨ text_at st "task" = t_id t) as Ht.
  { destruct (text_at st "task") as [|x l]; cbn [nonempty andb]; [naive_solver|]. rewrite negb_false_iff. unfold eqs. rewrite bool_decide_eq_true. naive_solver. }
  destruct (nonempty _ && _); cbn [refuse_if guard mbind res_bind].
  { destruct subject; [split; [done|]|by split]. intros (_ & [= <-] & H & _). by apply Ht in H. }
  destruct ticket_id as [tid|]; cbn [guard mbind res_bind].
  - destruct (tid =s t_id t) eqn:E; unfold eqs in E; cbn [guard mbind res_bind].
    + rewrite bool_decide_eq_true in E. subst tid. destruct subject; [|by split]. cbn. split; [intros [= <-]; naive_solver|]. by intros (_ & [= <-] & _).
    + rewrite bool_decide_eq_false in E. destruct subject; [|by split]. split; [done|]. intros (_ & [= <-] & _ & [?|[= ?]]); [done|congruence].
  - destruct subject; [|by split]. cbn. split; [intros [= <-]; naive_solver|]. by intros (_ & [= <-] & _).
Qed.

Lemma regression_gate_exact v b events s :
  _regression_gate parse_runtime_provenance v b events s = None ↔
  ∀ t, dget s (b_tickets b) = Some t → regression_required t = true →
    (regression_evidence parse_runtime_provenance s events).1 = true ∧ (fget "regression_evidence" (t_fields t) = py "executed" → v_executed v s = None).
Proof.
  unfold _regression_gate. destruct (dget s (b_tickets b)) as [t|]; [|split; done]. destruct (regression_required t) eqn:Er; cbn [negb]; [|split; [by intros _ t' [= <-]; rewrite Er|done]].
  destruct (regression_evidence _ s events) as [[|] why]; cbn [fst].
  - destruct (fget _ _ =s _) eqn:E; unfold eqs in E.
    + rewrite bool_decide_eq_true in E. split.
      * intros H t' [= <-] _. split; [done|]. intros _. by destruct (v_executed v s).
      * intros H. destruct (H t eq_refl Er) as [_ H']. by rewrite (H' E).
    + rewrite bool_decide_eq_false in E. split; [|done]. intros _ t' [= <-] _. split; [done|]. by intros ?.
  - split; [done|]. intros H. by destruct (H t eq_refl Er).
Qed.

Lemma review_guard_exact v d st b destination s :
  review_guard parse_runtime_provenance v d st b destination s = None ↔
  (destination = py "REVIEW" → text_at st "phase" = py "VERIFY" →
     (verification_evidence s (history_events d)).1 = true ∧ _regression_gate parse_runtime_provenance v b (history_events d) s = None ∧
     _acceptance_gate v b (history_events d) s = None).
Proof.
  unfold review_guard, current. cbv zeta. destruct (destination =s "REVIEW") eqn:E1; unfold eqs in E1; cbn [andb].
  2: { rewrite bool_decide_eq_false in E1. split; [|done]. by intros _ ?. }
  rewrite bool_decide_eq_true in E1. destruct (text_at st "phase" =s "VERIFY") eqn:E2; unfold eqs in E2.
  2: { rewrite bool_decide_eq_false in E2. split; [|done]. by intros _ _ ?. }
  rewrite bool_decide_eq_true in E2. destruct (verification_evidence s _) as [[|] why]; cbn [fst negb].
  - destruct (_regression_gate _ _ _ _ _), (_acceptance_gate _ _ _ _); (split; [intros H; try done|intros H; by destruct (H E1 E2) as (_ & ? & ?)]).
  - split; [done|]. intros H. by destruct (H E1 E2).
Qed.

Lemma work_guards_exact v d st b destination subject :
  work_guards parse_runtime_provenance v d st b destination subject = Ok tt ↔
  (∀ s, subject = Some s → destination ∈ strs ["BUILD"; "REVIEW"; "SHIP"] → v_boundary v s destination = None) ∧
  (∀ s, subject = Some s → destination = py "SHIP" → v_ship v s (history_events d) = None) ∧
  (∀ s, subject = Some s → review_guard parse_runtime_provenance v d st b destination s = None).
Proof.
  unfold work_guards. destruct subject as [s|]; [|split; [intros _; split_and!; by intros ? ?|done]]. rewrite !bind_guard, guard_Ok.
  assert (boundary_guard v destination s = None ↔ (destination ∈ strs ["BUILD"; "REVIEW"; "SHIP"] → v_boundary v s destination = None)) as ->.
  { unfold boundary_guard. rewrite <-mem_true. destruct (mem _ _); [|split; done]. destruct (v_boundary v s destination); cbn; naive_solver. }
  assert (ship_guard v d destination s = None ↔ (destination = py "SHIP" → v_ship v s (history_events d) = None)) as ->.
  { unfold ship_guard. destruct (destination =s "SHIP") eqn:E; unfold eqs in E.
    - rewrite bool_decide_eq_true in E. destruct (v_ship v s (history_events d)); cbn; naive_solver.
    - rewrite bool_decide_eq_false in E. split; [by intros _ ?|done]. }
  split; [intros (H1 & H2 & H3); split_and!; by intros ? [= <-]|intros (H1 & H2 & H3); split_and!; auto].
Qed.

(** The guards are exact: they answer with a subject exactly when the seat is entitled
    to the edge with it. *)
Lemma guards_exact v d st c agent destination ticket_id subject :
  transition_guards parse_runtime_provenance v d st (parse_board (d_board d)) c agent destination ticket_id = Ok subject ↔
  entitled v d st c agent destination ticket_id subject.
Proof.
  pose proof (parse_board_ok (d_board d)) as Hb. unfold transition_guards.
  rewrite !bind_guard, (seat_guard_exact _ _ _ _ Hb), edge_guard_exact, bind_is_Ok.
  assert ((∃ x, subject_of st (parse_board (d_board d)) destination ticket_id = Ok x ∧
            (_ ← work_guards parse_runtime_provenance v d st (parse_board (d_board d)) destination x; Ok x) = Ok subject) ↔
          subject_of st (parse_board (d_board d)) destination ticket_id = Ok subject ∧
          work_guards parse_runtime_provenance v d st (parse_board (d_board d)) destination subject = Ok tt) as ->.
  { split; [intros (x & Hx & ([] & Hw & [= <-])%bind_is_Ok)|intros [Hx Hw]; exists subject]; rewrite ?Hw; done. }
  rewrite (subject_of_exact _ _ _ _ _ Hb), work_guards_exact.
  setoid_rewrite review_guard_exact. setoid_rewrite regression_gate_exact.
  split; [intros (? & (? & ? & ?) & ? & ? & ? & ?); by split|intros []; by split_and!].
Qed.

Lemma elem_of_insert_sorted x y l : y ∈ insert_sorted x l ↔ y = x ∨ y ∈ l.
Proof.
  induction l as [|z l IH]; cbn [insert_sorted]; [by rewrite elem_of_cons|]. destruct (str_leb x z); rewrite !elem_of_cons; [done|]. rewrite IH. tauto.
Qed.
Lemma elem_of_sorted y l : y ∈ sorted l ↔ y ∈ l.
Proof. unfold sorted. induction l as [|x l IH]; [done|]. cbn [foldr]. by rewrite elem_of_insert_sorted, elem_of_cons, IH. Qed.

Lemma text_at_dget st key : text_at st key ≠ [] → dget (py key) st = Some (str_value (text_at st key)).
Proof. unfold text_at, text_field. destruct (dget (py key) st) as [[[s|?|?]|?]|]; done. Qed.

(** A stale blocker names no gate, and no blocked ticket governs it. *)
Lemma stale_blocker st b unrelated :
  _state_blocker_repairs st b = Some (StaleBlocker unrelated) →
  blocker_class (text_at st "blocker") = None ∧
  ∀ tid t, dget tid (b_tickets b) = Some t → in_section t BLOCKED = true →
    governs (strip (text_at st "task")) (text_at st "blocker") (b_tickets b) tid = false.
Proof.
  unfold _state_blocker_repairs. destruct (dget (py "blocker") st) as [[[blocker|?|?]|?]|] eqn:Eb; try done.
  assert (text_at st "blocker" = blocker) as -> by (unfold text_at, text_field; by rewrite Eb).
  cbv zeta. destruct (no_blocker blocker); [done|]. destruct (_ || _); [done|]. unfold _causally_related_blocks.
  destruct (blocker_class blocker) as [cls|] eqn:Ec; [by destruct (base.filter _ _)|].
  match goal with |- context [base.filter ?P ?l] => destruct (base.filter P l) as [|x xs] eqn:Ef; [|done] end. intros _. split; [done|].
  intros tid t Ht Hs. destruct (governs _ _ _ tid) eqn:Eg; [|done]. exfalso.
  assert (tid ∈ ([] : list pystr)) as H; [|by apply elem_of_nil in H]. rewrite <-Ef. apply list_elem_of_filter. split; [exact Eg|].
  unfold live_blocked. apply elem_of_sorted, list_elem_of_omap. exists (tid, t). split; [by apply dget_Some_elem|]. cbn [snd]. by rewrite Hs.
Qed.

Lemma repairs_answer st b :
  mem (text_at st "phase") ALL_PHASES = true → no_blocker (text_at st "blocker") = false → (upper (text_at st "phase") =s "BLOCKED") = false →
  is_Some (_state_blocker_repairs st b).
Proof.
  intros Hp Hb Hu. unfold _state_blocker_repairs. rewrite text_at_dget by (intros E; by rewrite E in Hb). unfold str_value. cbv zeta.
  rewrite Hb, Hu, Hp. cbn [negb orb]. destruct (_causally_related_blocks _ _ _ _) as [[|r rs] u]; destruct (blocker_class _); by eexists.
Qed.

Lemma valid_phase m t vs st : valid_state m t vs st → mem (text_at st "phase") ALL_PHASES = true.
Proof.
  intros V. destruct (vs_phases _ _ _ _ V) as [Hp _]. destruct (vs_required _ _ _ _ V (py "phase")) as [w Hw]; [by left|].
  destruct (Hp _ Hw) as (s & -> & Hs). unfold text_at, text_field. rewrite Hw. cbn [default from_option]. apply mem_true.
  assert (PHASES_ALL = ALL_PHASES) as <- by (apply (bool_decide_unpack _); by vm_compute). done.
Qed.

(** Conversely, a live blocker that names no gate and that no blocked ticket answers
    to is stale. *)
Lemma blocker_stale st b :
  mem (text_at st "phase") ALL_PHASES = true → no_blocker (text_at st "blocker") = false → (upper (text_at st "phase") =s "BLOCKED") = false →
  blocker_class (text_at st "blocker") = None →
  (∀ tid t, dget tid (b_tickets b) = Some t → in_section t BLOCKED = true →
     governs (strip (text_at st "task")) (text_at st "blocker") (b_tickets b) tid = false) →
  wf_dict (b_tickets b) → ∃ unrelated, _state_blocker_repairs st b = Some (StaleBlocker unrelated).
Proof.
  intros Hp Hb Hu Hc Hg Hw. unfold _state_blocker_repairs. rewrite text_at_dget by (intros E; by rewrite E in Hb). unfold str_value. cbv zeta.
  rewrite Hb, Hu, Hp, Hc. cbn [negb orb]. unfold _causally_related_blocks.
  match goal with |- context [base.filter ?P ?l] => destruct (base.filter P l) as [|x xs] eqn:Ef end; [by eexists|exfalso].
  assert (x ∈ x :: xs) as H by left. rewrite <-Ef in H. apply list_elem_of_filter in H as [Hx (e & He & Ho)%elem_of_sorted%list_elem_of_omap].
  destruct e as [tid t]. cbn [snd fst] in Ho. destruct (in_section t BLOCKED) eqn:Es; [|done]. injection Ho as <-.
  rewrite (Hg tid t) in Hx by (done || by apply dget_elem). done.
Qed.

(** ** The plan *)

(** What is done with the blocker of the state: an empty one stays; BLOCKED gives its
    blocker up on the way out and takes it along on the way in; between other phases
    a blocker of a recognised class, or one a blocked ticket answers to, leaves no
    plan, and any other is cleared. *)
Definition gate_open (st : fields) (b : board) (destination : pystr) (bl : fields) : Prop :=
  let blocker := text_at st "blocker" in
  if no_blocker blocker then bl = []
  else if upper (text_at st "phase") =s "BLOCKED" then bl = NO_BLOCKER
  else if destination =s "BLOCKED" then bl = []
  else bl = NO_BLOCKER ∧ blocker_class blocker = None ∧
       ∀ tid t, dget tid (b_tickets b) = Some t → in_section t BLOCKED = true →
         governs (strip (text_at st "task")) blocker (b_tickets b) tid = false.

Lemma blocker_owned_exact st b destination subject bl :
  mem (text_at st "phase") ALL_PHASES = true → wf_dict (b_tickets b) →
  blocker_owned st b destination subject = Ok bl ↔ gate_open st b destination bl.
Proof.
  intros Hp Hw. unfold blocker_owned, gate_open, NO_BLOCKER, str_value. cbv zeta.
  destruct (no_blocker (text_at st "blocker")) eqn:Hb; [naive_solver|].
  destruct (upper (text_at st "phase") =s "BLOCKED") eqn:Hu; [naive_solver|]. destruct (destination =s "BLOCKED"); [naive_solver|]. split.
  - intros H. destruct (_state_blocker_repairs st b) as [[|unrelated]|] eqn:Er; [done| |].
    + apply stale_blocker in Er as [Hc Hg]. by injection H as <-.
    + by destruct (repairs_answer st b Hp Hb Hu) as [? ?]; congruence.
  - intros (-> & Hc & Hg). by destruct (blocker_stale st b Hp Hb Hu Hc Hg Hw) as [u ->].
Qed.

(** The seat whose claim a transition moves along: a bound phase, the named ticket in
    DOING, and the claim the actor's own. *)
Definition own_seat (st : fields) (b : board) (agent : pystr) (now : Z) : Prop :=
  ticket_bearing st = true ∧ is_Some (bound_active st b) ∧ ow_status (seat_of st b agent now) = Seat SELF.

(** The board a transition writes: the own claim, and it only, at the new stamp. *)
Definition claim_moved (st : fields) (board_text agent utc : pystr) (now : Z) (session refreshed : option pystr) : Prop :=
  (own_seat st (parse_board board_text) agent now ∧ ∃ text, refreshed = Some text ∧
     _claim_fields_in_place board_text (text_at st "task") [(py "claim_time", utc)] true session None = Ok text) ∨
  (¬ own_seat st (parse_board board_text) agent now ∧ refreshed = None).

Lemma refresh_exact st board_text agent utc now session refreshed :
  _refresh_active_claim st board_text agent utc now session = Ok refreshed ↔ claim_moved st board_text agent utc now session refreshed.
Proof.
  unfold _refresh_active_claim, claim_moved, own_seat. cbv zeta. destruct (ticket_bearing st); cbn [negb]; [|naive_solver].
  destruct (bound_active st (parse_board board_text)) as [t|]; [|split; [intros [= <-]; right|]; naive_solver].
  case_bool_decide as Hs; [|split; [intros [= <-]; right|]; naive_solver].
  rewrite bind_is_Ok. setoid_rewrite lift_Ok. split.
  - intros (text & Ht & [= <-]). left. split; [by split_and!|]. by exists text.
  - intros [(_ & text & -> & Ht)|(Hn & _)]; [by exists text|]. destruct Hn. by split_and!.
Qed.

(** The state a transition leaves: on the way to DONE the router, asked about the new
    documents, may name the next action. *)
Definition route_settled (c : clock) (agent destination written new_board final : pystr) : Prop :=
  let r := settled_on c agent written new_board in
  if (destination =s "DONE") && r_ok r && negb (r_action r =s "saipen continue")
  then patch_state written [(py "next_action", str_value (r_action r))] = Ok final else final = written.

Lemma settle_exact c agent destination written new_board final :
  settle_route home c agent destination written new_board = Ok final ↔ route_settled c agent destination written new_board final.
Proof.
  unfold settle_route, route_settled, settled_on. cbv zeta. destruct (destination =s "DONE"); cbn [andb]; [|naive_solver].
  destruct (_ && _); [by rewrite lift_Ok|naive_solver].
Qed.

(** What a transition drafts: the line of the move, the blocker settled, the fields it
    owns with the budget counted, the claim moved, the route of DONE, and the three
    texts together through the write gate. *)
Definition drafted (v : verdicts) (d : documents) (st : fields) (c : clock) (agent op_id destination event_text : pystr)
    (subject : option pystr) (p : plan) : Prop :=
  ∃ first bl log owned written,
    _event_line (Draft (d_log d) (s_tail (d_history d)) []) "RUN" subject agent
      (transition_message destination event_text) (c_now c) op_id = Ok first ∧
    gate_open st (parse_board (d_board d)) destination bl ∧
    let provisional := owned_fields st c agent destination subject (event_id first) bl in
    is_ok (patch_state (d_state d) provisional) = true ∧
    count_budget v st agent op_id c (text_at st "phase") destination first provisional = Ok (log, owned) ∧
    patch_state (d_state d) owned = Ok written ∧
    claim_moved st (d_board d) agent (c_utc c) (c_refresh c) (v_session v) (pl_board p) ∧
    route_settled c agent destination written (board_after (d_board d) p) (pl_state p) ∧
    pl_details p = dr_details log ∧ pl_log p = dr_log log ∧ pl_event p = default 0%N (dr_tail first) ∧ pl_ticket p = subject ∧
    gate (Some agent) (Some (d_history d)) [] (c_check c) (pl_state p) (board_after (d_board d) p) (pl_log p) = [].

Lemma validated_exact d c agent q p :
  validated parse_runtime_provenance home d c agent q = Ok p ↔
  q = p ∧ gate (Some agent) (Some (d_history d)) [] (c_check c) (pl_state p) (board_after (d_board d) p) (pl_log p) = [].
Proof. unfold validated. destruct (validate_texts _ _ _ _ _ _ _ _ _) eqn:E; [|split; [done|intros [-> H]; congruence]]. split; [by intros [= <-]|by intros [-> _]]. Qed.

Lemma texts_exact v d st c agent op_id destination event_text subject p :
  mem (text_at st "phase") ALL_PHASES = true →
  transition_texts v d st (parse_board (d_board d)) c agent op_id destination event_text subject = Ok p ↔
  drafted v d st c agent op_id destination event_text subject p.
Proof.
  intros Hph. destruct (parse_board_ok (d_board d)) as ((Hw & _) & _). unfold Transition.transition_texts, drafted. cbv zeta. split.
  - intros (first & He & H)%bind_is_Ok. apply bind_is_Ok in H as (bl & Hbl%blocker_owned_exact & H); [|done..].
    apply bind_is_Ok in H as (t0 & Ht0%lift_Ok & H). apply bind_is_Ok in H as ([log owned] & Hc & H).
    apply bind_is_Ok in H as (written & Hp%lift_Ok & H). apply bind_is_Ok in H as (refreshed & Hr%refresh_exact & H).
    apply bind_is_Ok in H as (final & Hs%settle_exact & H). apply validated_exact in H as [<- Hg].
    exists first, bl, log, owned, written. rewrite Ht0. by split_and!.
  - intros (first & bl & log & owned & written & He & Hbl & H0 & Hc & Hp & Hr & Hs & E1 & E2 & E3 & E4 & Hg).
    apply bind_is_Ok. exists first. split; [done|]. apply bind_is_Ok. exists bl. split; [by apply blocker_owned_exact|].
    apply bind_is_Ok. destruct (patch_state (d_state d) (owned_fields st c agent destination subject (event_id first) bl)) as [t0|] eqn:E0; [|done].
    exists t0. split; [done|]. apply bind_is_Ok. exists (log, owned). split; [done|].
    apply bind_is_Ok. exists written. split; [by apply lift_Ok|]. apply bind_is_Ok. exists (pl_board p). split; [by apply refresh_exact|].
    apply bind_is_Ok. exists (pl_state p). split; [by apply settle_exact|]. apply validated_exact. split; [|done].
    destruct p. cbn in *. by subst.
Qed.

(** C6: On documents the reader hands over, a transition is planned exactly when the
    state reads, the seat is entitled to
    the edge, the blocker of the state does not hold it (a recognised gate, or a
    blocker a blocked ticket answers to, keeps the project in its phase unless it is
    BLOCKED or goes there), and the texts drafted from it can be written and pass the
    write gate; and then the plan is those texts: the log with the lines of the move
    and of the budget, the state with the owned fields (the route of DONE settled),
    and the board with the own claim at the new stamp, or no board at all. *)
Theorem plan_exact v d c op_id destination agent ticket_id event_text p :
  _plan_transition v d c op_id destination agent ticket_id event_text = Ok p ↔
  ∃ st subject, read_state home d = Ok st ∧ entitled v d st c agent (upper destination) ticket_id subject ∧
    drafted v d st c agent op_id (upper destination) event_text subject p.
Proof.
  unfold Transition._plan_transition. rewrite bind_is_Ok.
  assert (∀ st, read_state home d = Ok st → mem (text_at st "phase") ALL_PHASES = true) as Hph.
  { intros st (_ & _ & style & V)%read_state_Ok. by eapply valid_phase. }
  split.
  - intros (st & Hst & (subject & Hg%guards_exact & H%texts_exact)%bind_is_Ok); [|by apply Hph]. by exists st, subject.
  - intros (st & subject & Hst & Hg%guards_exact & H%texts_exact); [|by apply Hph]. exists st. split; [done|]. cbv zeta. apply bind_is_Ok. by exists subject.
Qed.

Section planned.
Context (v : verdicts) (d : documents) (c : clock) (op_id destination agent : pystr) (ticket_id : option pystr) (event_text : pystr) (p : plan).
Context (Hlf : lf_only (d_state d)) (Hfence : startswith "---" (d_state d) = true).
Context (Hplan : _plan_transition v d c op_id destination agent ticket_id event_text = Ok p).
Local Abbreviation b := (parse_board (d_board d)).

Lemma planned_written :
  ∃ st subject lines owned owned' st', read_state home d = Ok st ∧ entitled v d st c agent (upper destination) ticket_id subject ∧
    written v d st c agent (upper destination) subject p lines owned owned' st' ∧
    gate (Some agent) (Some (d_history d)) [] (c_check c) (pl_state p) (board_after (d_board d) p) (pl_log p) = [] ∧ pl_ticket p = subject.
Proof.
  unfold Transition._plan_transition in Hplan. apply bind_is_Ok in Hplan as (st & Hst & (subject & He%guards_exact & Ht)%bind_is_Ok). destruct (read_state_Ok _ _ Hst) as (Hf & _ & style & V).
  destruct (transition_texts_written v d st c agent op_id _ _ _ _ (conj Hlf (conj Hfence Hf)) (λ k, valid_scalars _ _ _ _ k V) Ht)
    as ((lines & owned & owned' & st' & W) & Hg & Hs & _).
  by exists st, subject, lines, owned, owned', st'.
Qed.
End planned.

Definition text_is (fs : fields) (key : string) (s : pystr) : Prop := dget (py key) fs = Some (str_value s).

Lemma counted_owned k : k ∈ COUNTED → k ∈ OWNED.
Proof. assert (Forall (λ k, k ∈ OWNED) COUNTED) as H by (apply (bool_decide_unpack _); by vm_compute). rewrite Forall_forall in H. apply H. Qed.

(** C7: A planned transition writes exactly what it owns. The new state is at the
    destination, records the phase it left, the acting seat and the stamp, and releases
    the task on the way to DONE; its last event is the id of the last of the one to three
    legal lines the log grew by; every field outside the owned ones is as it was; and the
    three texts pass the write gate. *)
Theorem transition_writes v d c op_id destination agent ticket_id event_text p :
  lf_only (d_state d) → startswith "---" (d_state d) = true →
  _plan_transition v d c op_id destination agent ticket_id event_text = Ok p →
  ∃ st st' lines, read_state home d = Ok st ∧ parse_frontmatter (pl_state p) = Ok st' ∧
    text_is st' "phase" (upper destination) ∧ text_is st' "transition_from" (text_at st "phase") ∧
    text_is st' "agent" agent ∧ text_is st' "updated" (c_utc c) ∧
    dget (py "task") st' = (if upper destination =s "DONE" then Some (str_value "none") else dget (py "task") st) ∧
    (∀ k, k ∉ OWNED → dget k st' = dget k st) ∧
    1 ≤ length lines ≤ 3 ∧ Forall (λ l, is_Some (parse_log_line l) ∧ length (splitlines l) = 1) lines ∧
    pl_log p = foldl append_line (d_log d) lines ∧
    dget (py "last_event") st' = Some (int_value (Z.of_N (default 0%N (s_tail (d_history d)) + N.of_nat (length lines))%N)) ∧
    gate (Some agent) (Some (d_history d)) [] (c_check c) (pl_state p) (board_after (d_board d) p) (pl_log p) = [].
Proof.
  intros Hlf Hs Hp. destruct (planned_written _ _ _ _ _ _ _ _ _ Hlf Hs Hp) as (st & subject & lines & owned & owned' & st' & Hst & _ & W & Hg & _).
  destruct W as [Hh Hn Hl Hleg Hev (bl & Hbl & _ & ev & Hsc & ->) _ Hk Hu Hf _].
  destruct (owned_fields_spec st c agent (upper destination) subject ev bl (blocker_owned_cases _ _ _ _ _ Hbl) Hsc) as (W & F1 & F2 & _ & _ & F3 & F4 & _).
  assert (∀ k : pystr, k ∉ COUNTED → dget k st' = match dget k (owned_fields st c agent (upper destination) subject ev bl) with Some w => Some w | None => dget k st end) as Hfix.
  { intros k Hc. rewrite <-(Hk k Hc). apply Hf. left. intros ->. apply Hc. by left. }
  assert (∀ k : pystr, mem k COUNTED = false → k ∉ COUNTED) as Hm by (intros k Hk' Hin%mem_true; congruence).
  exists st, st', lines. unfold text_is. rewrite (Hfix "phase"), (Hfix "transition_from"), (Hfix "agent"), (Hfix "task") by (apply Hm; vm_compute; reflexivity).
  rewrite F1, F2, F3, F4.
  destruct Hn as [Hn1 Hn2]. split_and!; try done.
  - by destruct Hh as (_ & _ & ?).
  - rewrite Hf by (left; done). by rewrite Hu.
  - by destruct (upper destination =s "DONE").
  - intros k Hk'. rewrite Hfix; [|intros Hc; apply Hk'; by apply counted_owned]. destruct (dget k _) as [w|] eqn:E; [|done].
    destruct W as (_ & W & _). destruct Hk'. apply W. apply dget_Some_elem in E. by apply (list_elem_of_fmap_2 fst _ (k, w)).
Qed.

(** C10: A transition never launders a gate. From a phase other than BLOCKED, to a phase
    other than BLOCKED, no plan exists while the blocker of the state is of a recognised class or a
    blocked ticket governs it; a blocker that is neither is cleared; on the way into
    BLOCKED the blocker stays as it stands. *)
Theorem live_gate_is_kept v d c op_id destination agent ticket_id event_text p :
  lf_only (d_state d) → startswith "---" (d_state d) = true →
  _plan_transition v d c op_id destination agent ticket_id event_text = Ok p →
  ∃ st st', read_state home d = Ok st ∧ parse_frontmatter (pl_state p) = Ok st' ∧
    (no_blocker (text_at st "blocker") = false → upper (text_at st "phase") ≠ py "BLOCKED" →
     (upper destination = py "BLOCKED" ∧ dget (py "blocker") st' = dget (py "blocker") st) ∨
     (upper destination ≠ py "BLOCKED" ∧ text_is st' "blocker" "none" ∧ blocker_class (text_at st "blocker") = None ∧
      ∀ tid t, dget tid (b_tickets (parse_board (d_board d))) = Some t → in_section t BLOCKED = true →
        governs (strip (text_at st "task")) (text_at st "blocker") (b_tickets (parse_board (d_board d))) tid = false)).
Proof.
  intros Hlf Hs Hp. destruct (planned_written _ _ _ _ _ _ _ _ _ Hlf Hs Hp) as (st & subject & lines & owned & owned' & st' & Hst & _ & W & _ & _).
  destruct (read_state_Ok _ _ Hst) as (_ & _ & style & V). destruct W as [(_ & _ & Hh) _ _ _ _ (bl & Hbl & Hb' & _) _ Hk _ Hf _].
  exists st, st'. split_and!; try done. intros Hnb Hu. assert (dget (py "blocker") st' = match dget (py "blocker") bl with Some w => Some w | None => dget (py "blocker") st end) as Hblk.
  { rewrite <-Hb'. apply Hf. by left. }
  unfold blocker_owned in Hbl. rewrite Hnb in Hbl. cbv zeta in Hbl.
  assert ((upper (text_at st "phase") =s "BLOCKED") = false) as Hu' by (unfold eqs; by rewrite bool_decide_eq_false). rewrite Hu' in Hbl.
  destruct (upper destination =s "BLOCKED") eqn:Ed; unfold eqs in Ed.
  - rewrite bool_decide_eq_true in Ed. injection Hbl as <-. left. split; [done|]. exact Hblk.
  - rewrite bool_decide_eq_false in Ed. right. split; [done|].
    destruct (repairs_answer st (parse_board (d_board d)) (valid_phase _ _ _ _ V) Hnb Hu') as [r Er]. rewrite Er in Hbl.
    destruct r as [|unrelated]; [done|]. injection Hbl as <-. split; [exact Hblk|]. by eapply stale_blocker.
Qed.

(** ** The goal budget *)

(** An exhausted budget is renewed only by the protocol home or by a persistent grant
    that is proven. *)
Definition renewed (v : verdicts) (after : fields) : Prop :=
  v_protocol_home v = true ∨ (persistent after = true ∧ v_grant v after = Some []).
Lemma trip_renewed v after : is_Some (trip_checkpoint v after) → renewed v after.
Proof.
  unfold trip_checkpoint, renewed. intros [s H]. destruct (negb _); [done|]. destruct (v_protocol_home v); [by left|]. right.
  destruct (persistent after); [|done]. by destruct (v_grant v after) as [[|? ?]|].
Qed.

(** One count: below the cap the counter moves; at the cap it is renewed, or the next
    action stops at the valve. *)
Definition budget_step (v : verdicts) (st st' : fields) (key : string) (cap : Z) (waves tickets : Z → Z) : Prop :=
  let n := (counter st key + 1)%Z in
  let after := dupdate st [(py "goal_waves", int_value (waves n)); (py "goal_tickets", int_value (tickets n))] in
  ((n < cap)%Z ∧ dget (py key) st' = Some (int_value n)) ∨
  ((cap ≤ n)%Z ∧ renewed v after ∧ dget (py "goal_waves") st' = Some (int_value 0) ∧ dget (py "goal_tickets") st' = Some (int_value 0)) ∨
  ((cap ≤ n)%Z ∧ dget (py key) st' = Some (int_value n) ∧ text_is st' "next_action" (valve_wait (waves n) (tickets n))).

Lemma counted_step v st st' key cap waves tickets owned owned' :
  counted v st key (Z.leb cap) waves tickets owned owned' →
  (∀ k w, dget k owned' = Some w → dget k st' = Some w) → budget_step v st st' key cap waves tickets.
Proof.
  unfold counted, budget_step. cbv zeta. intros [(Hr & Hk & _)|(Hr & [(_ & Hk & Hna)|(Ht & Hw & Htk & _)])] Hf.
  - left. split; [by apply Z.leb_gt|auto].
  - right. right. split_and!; [by apply Z.leb_le|auto|by apply Hf].
  - right. left. split_and!; [by apply Z.leb_le|by apply trip_renewed|auto..].
Qed.

(** C11: The count of a goal is the operation's, and it never renews itself: a step from
    VERIFY to REVIEW moves the ticket counter by one, a step from HUNT to ADD the wave
    counter; at its cap the plan stops at the valve unless the protocol home or a proven
    persistent grant renews the budget; and no other edge touches a counter. *)
Theorem goal_budget_is_counted v d c op_id destination agent ticket_id event_text p :
  lf_only (d_state d) → startswith "---" (d_state d) = true →
  _plan_transition v d c op_id destination agent ticket_id event_text = Ok p →
  ∃ st st', read_state home d = Ok st ∧ parse_frontmatter (pl_state p) = Ok st' ∧
    let review := (upper destination =s "REVIEW") && (text_at st "phase" =s "VERIFY") && goal st in
    let add := (upper destination =s "ADD") && (text_at st "phase" =s "HUNT") && goal st in
    (review = true → budget_step v st st' "goal_tickets" GOAL_TICKET_CAP (λ _, counter st "goal_waves") (λ n, n)) ∧
    (add = true → budget_step v st st' "goal_waves" GOAL_WAVE_CAP (λ n, n) (λ _, counter st "goal_tickets")) ∧
    (review = false → add = false → dget (py "goal_waves") st' = dget (py "goal_waves") st ∧ dget (py "goal_tickets") st' = dget (py "goal_tickets") st).
Proof.
  intros Hlf Hs Hp. destruct (planned_written _ _ _ _ _ _ _ _ _ Hlf Hs Hp) as (st & subject & lines & owned & owned' & st' & Hst & _ & W & _ & _).
  destruct W as [(_ & _ & Hh) _ _ _ _ (bl & Hbl & _ & ev & Hsc & ->) Hm Hk _ Hf _]. exists st, st'. split_and!; [done..|]. cbv zeta.
  unfold budget_moves, current in Hm.
  assert (upper destination ≠ py "DONE" → ∀ k w, dget k owned' = Some w → dget k st' = Some w) as Hall by (intros Hd k w Hw; rewrite Hf by (by right); by rewrite Hw).
  destruct (owned_fields_spec st c agent (upper destination) subject ev bl (blocker_owned_cases _ _ _ _ _ Hbl) Hsc) as (_ & _ & _ & _ & _ & _ & _ & _ & _ & Hw & Ht).
  destruct ((upper destination =s "REVIEW") && _ && _) eqn:E1; [split_and!; try done; [|intros E2; exfalso]|].
  - intros _. eapply counted_step; [exact Hm|]. apply Hall. rewrite !andb_true_iff in E1. destruct E1 as [[E1 _] _]. unfold eqs in E1.
    rewrite bool_decide_eq_true in E1. rewrite E1. apply (bool_decide_unpack _). by vm_compute.
  - rewrite !andb_true_iff in E1, E2. destruct E1 as [[E1 _] _], E2 as [[E2 _] _]. unfold eqs in E1, E2. rewrite bool_decide_eq_true in E1, E2. rewrite E1 in E2.
    by vm_compute in E2.
  - destruct ((upper destination =s "ADD") && _ && _) eqn:E2; (split_and!; [done| |]); try done.
    + intros _. eapply counted_step; [exact Hm|]. apply Hall. rewrite !andb_true_iff in E2. destruct E2 as [[E2 _] _]. unfold eqs in E2.
      rewrite bool_decide_eq_true in E2. rewrite E2. apply (bool_decide_unpack _). by vm_compute.
    + intros _ _. rewrite !Hf, Hm, Hw, Ht by (left; apply (bool_decide_unpack _); by vm_compute). done.
Qed.

(** ** The route that is left *)

(** The count of this edge tripped the valve: the counter reached its cap, nobody may
    renew the budget, and the next action is the stop of the valve. *)
Definition valve_tripped (v : verdicts) (st st' : fields) (key : string) (cap : Z) (waves tickets : Z → Z) : Prop :=
  let n := (counter st key + 1)%Z in
  (cap ≤ n)%Z ∧ goal st = true ∧
  trip_checkpoint v (dupdate st [(py "goal_waves", int_value (waves n)); (py "goal_tickets", int_value (tickets n))]) = None ∧
  text_is st' "next_action" (valve_wait (waves n) (tickets n)).
Definition budget_tripped (v : verdicts) (st st' : fields) (destination : pystr) : Prop :=
  (destination = py "REVIEW" ∧ text_at st "phase" = py "VERIFY" ∧
   valve_tripped v st st' "goal_tickets" GOAL_TICKET_CAP (λ _, counter st "goal_waves") (λ n, n)) ∨
  (destination = py "ADD" ∧ text_at st "phase" = py "HUNT" ∧
   valve_tripped v st st' "goal_waves" GOAL_WAVE_CAP (λ n, n) (λ _, counter st "goal_tickets")).

Lemma budget_next_action v st destination owned owned' :
  budget_moves v st (text_at st "phase") destination owned owned' →
  dget (py "next_action") owned' = dget (py "next_action") owned ∨
  ∀ st', dget (py "next_action") st' = dget (py "next_action") owned' → budget_tripped v st st' destination.
Proof.
  unfold budget_moves, counted. destruct (_ && _ && _) eqn:E1; [|destruct (_ && _ && _) eqn:E2 in |- *; [|intros ->; by left]].
  all: cbv zeta; intros [(_ & _ & H)|(Hr%Z.leb_le & [(Ht & _ & H)|(_ & _ & _ & H)])]; [by left|right|by left]; intros st' Hst'; rewrite H in Hst'.
  - unfold eqs in *. bool_tac. left. split; [done|split; [done|]]. by split_and!.
  - unfold eqs in *. bool_tac. right. split; [done|split; [done|]]. by split_and!.
Qed.

(** C28: A stop the operator owes survives the move: while the state waits, a planned
    transition keeps that action word for word, but for two cases. The count of the
    goal budget tripped on this very edge (VERIFY to REVIEW, or HUNT to ADD, with the
    counter at its cap and nobody to renew it), and its own stop takes the place; or
    the destination is DONE and the router, asked about the new documents, in which
    the wait still stands, answers with another action. *)
Theorem wait_survives v d c op_id destination agent ticket_id event_text p :
  lf_only (d_state d) → startswith "---" (d_state d) = true →
  _plan_transition v d c op_id destination agent ticket_id event_text = Ok p →
  ∃ st st', read_state home d = Ok st ∧ parse_frontmatter (pl_state p) = Ok st' ∧
    (is_wait st = true →
     text_is st' "next_action" (text_at st "next_action") ∨ budget_tripped v st st' (upper destination) ∨
     (upper destination = py "DONE" ∧ ∃ written fs, parse_frontmatter written = Ok fs ∧
        text_is fs "phase" "DONE" ∧ text_is fs "next_action" (text_at st "next_action") ∧
        let r := settled_on c agent written (board_after (d_board d) p) in
        r_ok r = true ∧ r_action r ≠ py "saipen continue" ∧ text_is st' "next_action" (r_action r))).
Proof.
  intros Hlf Hs Hp. destruct (planned_written _ _ _ _ _ _ _ _ _ Hlf Hs Hp) as (st & subject & lines & owned & owned' & st' & Hst & _ & W & _ & _).
  destruct W as [(_ & _ & Hh) _ _ _ _ (bl & Hbl & _ & ev & Hsc & ->) Hm Hk _ Hf Hr]. exists st, st'. split_and!; [done..|]. intros Hwait.
  destruct (owned_fields_spec st c agent (upper destination) subject ev bl (blocker_owned_cases _ _ _ _ _ Hbl) Hsc) as (_ & Hph & _ & _ & _ & _ & _ & _ & Hna & _).
  rewrite Hwait in Hna. unfold text_is. cbv zeta in Hr.
  assert (∀ fs : fields, (∀ k, dget k fs = match dget k owned' with Some w => Some w | None => dget k st end) →
    dget (py "next_action") fs = Some (str_value (text_at st "next_action")) ∨ budget_tripped v st fs (upper destination)) as Hc.
  { intros fs Hfs. destruct (budget_next_action _ _ _ _ _ Hm) as [E|E]; [left; by rewrite Hfs, E, Hna|right]. apply E. rewrite Hfs.
    specialize (E owned' eq_refl). by destruct E as [(_ & _ & _ & _ & _ & ->)|(_ & _ & _ & _ & _ & ->)]. }
  destruct Hr as [Hr|(Hd & text & fs & (_ & _ & Hfs) & Hkept & Hr)]; [destruct (Hc st' Hr); auto|right; right]. split; [exact Hd|].
  exists text, fs. destruct Hr as (Ho & Hcont & Hact). split_and!; try done.
  - rewrite Hkept, Hk by (intros Hin%mem_true; by vm_compute in Hin). rewrite Hph. by rewrite Hd.
  - destruct (Hc fs Hkept) as [E|[(E & _)|(E & _)]]; [exact E| |]; rewrite Hd in E; by vm_compute in E.
Qed.
End planner.

Lemma valve_wait_pause w t : valve_wait (Z.of_N w) (Z.of_N t) = pause_text w t.
Proof.
  unfold valve_wait, pause_text, valve_sentence, str_of_int, cat. rewrite !(proj2 (Z.ltb_ge _ 0)) by lia. rewrite !N2Z.id.
  reflexivity.
Qed.

(** ** Concrete transitions *)

Definition pass_all : verdicts :=
  Verdicts (λ _ _, None) (λ _ _, None) (λ _, None) (λ _ _ _, None) (strs ["SOURCE_CORRUPTION"]) false (λ _, None) None.
Definition sample_docs (state board : pystr) : documents := Documents state board sample_log sample_history.
Definition sample_clock : clock := Clock "01.05.24 10:01" "2024-05-01T10:01:00Z" noon noon noon noon.
Definition planned (state board : pystr) (destination : string) : res stop plan :=
  _plan_transition no_runtime [py "r"] None None sample_install pass_all (sample_docs state board) sample_clock
    "transition-0123" destination "alpha" None "".
Definition outcome (r : res stop plan) : res stop (pystr * pystr * option pystr) :=
  match r with Ok p => Ok (pl_log p, pl_state p, pl_board p) | Err e => Err e end.

Definition state_after (r : res stop plan) : option fields := match r with Ok p => match parse_frontmatter (pl_state p) with Ok fs => Some fs | Err _ => None end | Err _ => None end.
Definition is_lf (s : pystr) : bool := forallb (λ c, negb (is_linebreak c) || (c =? 10)%N) s.
Lemma is_lf_only s : is_lf s = true → lf_only s.
Proof.
  unfold is_lf, lf_only. rewrite forallb_forall. intros H. apply Forall_forall. intros c Hc Hb. specialize (H c (proj1 (list_elem_of_In _ _) Hc)).
  rewrite Hb in H. cbn in H. by apply N.eqb_eq.
Qed.

Definition stale_state : pystr := state_lines "BUILD" "T-1" "PHASE BUILD T-1" ["blocker: 'left behind by an aborted run'"].
Definition gated_state : pystr := state_lines "BUILD" "T-1" "PHASE BUILD T-1" ["blocker: 'HELD -- the operator decides'"].
Definition held_state : pystr := state_lines "BLOCKED" "none" "saipen status" ["blocker: 'HELD -- the operator decides'"].
Definition waiting_state : pystr := state_lines "BUILD" "T-1" "WAIT: user brake -- hold" ["blocker: none"].
Definition hunting_state : pystr :=
  state_lines "HUNT" "none" "PHASE HUNT" ["blocker: none"; "execution_intent: goal"; "goal_waves: 2"; "goal_tickets: 7"].
Definition free_board : pystr := board_lines [] ["- [ ] T-2 next | verify: tests"] [] [].
Definition refused_as (r : res stop plan) : option code := match r with Err (Refused x) => Some (rf_code x) | _ => None end.

Lemma transition_writes_witness :
  ∃ p st', planned building_state building_board "VERIFY" = Ok p ∧ parse_frontmatter (pl_state p) = Ok st' ∧
    text_is st' "phase" "VERIFY" ∧ text_is st' "transition_from" "BUILD" ∧ dget (py "task") st' = Some (str_value "T-1").
Proof.
  destruct (planned building_state building_board "VERIFY") as [p|] eqn:E; [|by vm_compute in E]. exists p.
  destruct (transition_writes _ _ _ _ _ _ (sample_docs building_state building_board) _ _ _ _ _ _ p (is_lf_only building_state ltac:(vm_compute; reflexivity)) ltac:(vm_compute; reflexivity) E)
    as (st & st' & lines & Hst & Hp & H1 & H2 & _ & _ & H3 & _).
  exists st'. assert (st = parsed building_state) as ->.
  { assert (read_state sample_install (sample_docs building_state building_board) = Ok (parsed building_state)) as Hr by (vm_compute; reflexivity).
    congruence. }
  split_and!; [reflexivity|exact Hp|exact H1|exact H2|exact H3].
Defined.

Lemma live_gate_is_kept_witness :
  ∃ p st', planned stale_state building_board "VERIFY" = Ok p ∧ parse_frontmatter (pl_state p) = Ok st' ∧ text_is st' "blocker" "none".
Proof.
  destruct (planned stale_state building_board "VERIFY") as [p|] eqn:E; [|by vm_compute in E]. exists p.
  destruct (live_gate_is_kept _ _ _ _ _ _ (sample_docs stale_state building_board) _ _ _ _ _ _ p (is_lf_only stale_state ltac:(vm_compute; reflexivity)) ltac:(vm_compute; reflexivity) E)
    as (st & st' & Hst & Hp & H).
  exists st'. assert (st = parsed stale_state) as ->.
  { assert (read_state sample_install (sample_docs stale_state building_board) = Ok (parsed stale_state)) as Hr by (vm_compute; reflexivity).
    congruence. }
  destruct H as [(H & _)|(_ & H & _)]; [vm_compute; reflexivity|vm_compute; discriminate|vm_compute in H; discriminate H|exact (conj eq_refl (conj Hp H))].
Defined.

Lemma goal_budget_is_counted_witness :
  ∃ p st', planned hunting_state free_board "ADD" = Ok p ∧ parse_frontmatter (pl_state p) = Ok st' ∧ text_is st' "next_action" (pause_text 3 7).
Proof.
  destruct (planned hunting_state free_board "ADD") as [p|] eqn:E; [|by vm_compute in E]. exists p.
  destruct (goal_budget_is_counted _ _ _ _ _ _ (sample_docs hunting_state free_board) _ _ _ _ _ _ p (is_lf_only hunting_state ltac:(vm_compute; reflexivity)) ltac:(vm_compute; reflexivity) E)
    as (st & st' & Hst & Hp & _ & H & _).
  exists st'. assert (st = parsed hunting_state) as ->.
  { assert (read_state sample_install (sample_docs hunting_state free_board) = Ok (parsed hunting_state)) as Hr by (vm_compute; reflexivity).
    congruence. }
  split_and!; [reflexivity|exact Hp|]. destruct (H ltac:(vm_compute; reflexivity)) as [(Hn & _)|[(_ & [Hr|(Hr & _)] & _)|(_ & _ & Hv)]].
  - vm_compute in Hn. discriminate Hn.
  - vm_compute in Hr. discriminate Hr.
  - vm_compute in Hr. discriminate Hr.
  - assert (counter (parsed hunting_state) "goal_waves" + 1 = 3)%Z as E1 by (vm_compute; reflexivity).
    assert (counter (parsed hunting_state) "goal_tickets" = 7)%Z as E2 by (vm_compute; reflexivity).
    rewrite E1, E2 in Hv. rewrite <-(valve_wait_pause 3 7). exact Hv.
Defined.

Lemma wait_survives_witness :
  ∃ p st', planned waiting_state building_board "VERIFY" = Ok p ∧ parse_frontmatter (pl_state p) = Ok st' ∧
    text_at st' "next_action" = py "WAIT: user brake -- hold".
Proof.
  destruct (planned waiting_state building_board "VERIFY") as [p|] eqn:E; [|by vm_compute in E]. exists p.
  destruct (wait_survives _ _ _ _ _ _ (sample_docs waiting_state building_board) _ _ _ _ _ _ p (is_lf_only waiting_state ltac:(vm_compute; reflexivity)) ltac:(vm_compute; reflexivity) E)
    as (st & st' & Hst & Hp & H).
  exists st'. split_and!; [reflexivity|exact Hp|]. assert (st = parsed waiting_state) as ->.
  { assert (read_state sample_install (sample_docs waiting_state building_board) = Ok (parsed waiting_state)) as Hr by (vm_compute; reflexivity).
    congruence. }
  assert (text_is st' "next_action" "WAIT: user brake -- hold") as Hw.
  { destruct (H ltac:(vm_compute; reflexivity)) as [Hw|[[(E' & _)|(E' & _)]|(E' & _)]]; [exact Hw|vm_compute in E'; discriminate E'..]. }
  unfold text_at, text_field. by rewrite Hw.
Defined.

(** A gate of a recognised class stops the move; so does a step the automaton lacks. *)
Lemma sample_refusals :
  (refused_as (planned gated_state building_board "VERIFY"), refused_as (planned building_state building_board "REVIEW"))
  = (Some OPERATOR_DECISION_REQUIRED, Some ILLEGAL_TRANSITION).
Proof. vm_compute. reflexivity. Qed.

(** ** Where code and comments part *)

(** The blocker of BLOCKED is said to be cleared on the way out: a step from BLOCKED to
    BLOCKED is legal and clears it too, and the gate it held is gone while the phase stays. *)
Lemma blocked_self_step_erases_the_gate :
  transition_legal "BLOCKED" "BLOCKED" = true ∧ blocker_class (text_at (parsed held_state) "blocker") = Some (py "HELD") ∧
  match state_after (planned held_state free_board "BLOCKED") with
  | Some fs => (text_at fs "phase", text_at fs "blocker") = (py "BLOCKED", py "none")
  | None => False
  end.
Proof. split_and!; vm_compute; reflexivity. Qed.

(** The relation of a blocked ticket to the blocker is said to be that the blocker names
    the active ticket: the code asks whether it names the blocked one. *)
Definition blocked_pair : tickets := b_tickets (parse_board (board_lines ["- [/] T-1 a | owner: alpha"] [] [] ["- [ ] T-9 b | blocker: HELD"])).
Lemma blocker_relation_names_the_other :
  (governs "T-1" "waits for T-1" blocked_pair "T-9", governs "T-1" "waits for T-9" blocked_pair "T-9") = (false, true).
Proof. vm_compute. reflexivity. Qed.
