(* ===== verification/Checkpoint.v ===== *)
(** * The planner of a checkpoint, and of the operations that write the state alone

    [_plan_checkpoint], [_state_only_plan] and the helpers they share with the other
    operations of [tools/saipen_engine/operations.py], and the comparison of defects
    of [fast_check.py] a repair is judged by. *)

From S2P Require Import Prelude PyStr PyStrFacts PyUnicode PyRegex PyDict Phases BoardClock BoardRecord BoardParse BoardClaims BoardEdit.
From S2P Require Import JournalFs SafeId LogLine LogHistory LogVerdict LogEvidence LogLedger LogRegression Ownership StateDoc StateDocFacts StatePatch.
From S2P Require Import StateWait StateContract Router RouterFacts FastCheck FastCheckFacts Transition TransitionFacts.

(** ** Defects that move *)

(** [\b([A-Za-z_][A-Za-z_0-9]*\.md):\d+:?], with its start in the class of letters. *)
Definition is_name_start (c : N) : bool := is_AZ c || is_az c || (c =? 95)%N.
Definition is_name_char (c : N) : bool := is_name_start c || is_ascii_digit c.
Definition _DEFECT_POSITION_RE : re :=
  seqs [Wordb; Grp 1 (seqs [Chr is_name_start; Star is_name_char; lit ".md"]); lit ":"; plus is_digit; Opt (lit ":")].
Definition defect_signature (error : pystr) : pystr :=
  strip (re_sub_with _DEFECT_POSITION_RE (λ m, default [] (group 1 m) +s ":") error).

(** The loop of [defect_delta]: each error of the proposal spends one of the same
    signature seen before it, or is introduced. *)
Fixpoint spend (seen : dict pystr nat) (after : list pystr) : list pystr * list pystr :=
  match after with
  | [] => ([], [])
  | error :: after' =>
      let key := defect_signature error in
      match default 0 (dget key seen) with
      | S n => let '(introduced, inherited) := spend (dset key n seen) after' in (introduced, error :: inherited)
      | O => let '(introduced, inherited) := spend seen after' in (error :: introduced, inherited)
      end
  end.
Definition count_signature (seen : dict pystr nat) (error : pystr) : dict pystr nat :=
  dset (defect_signature error) (S (default 0 (dget (defect_signature error) seen))) seen.
Definition defect_delta (before after : list pystr) : list pystr * list pystr :=
  spend (foldl count_signature [] before) after.

(** ** The seat and the stop of the loop *)

Definition _actor_provenance (st : fields) (agent message : pystr) : pystr :=
  let seated := text_at st "agent" in
  if nonempty seated && negb (seated =s agent) then "actor " +s agent +s " (seat " +s seated +s "); " +s message else message.

Inductive split_error : Type := OwnershipSplit (e : seat_error).
Definition _seat_agent (st : fields) (b : board) (agent : pystr) (now : Z) : res split_error pystr :=
  let seated := text_at st "agent" in
  match preexisting_split_error (seat_of st b agent now) (Some seated) with
  | Some e => Err (OwnershipSplit e)
  | None => Ok (if nonempty seated then seated else agent)
  end.

Definition goal_blocked_now (b : board) (agent : option pystr) (now : Z) : list pystr :=
  if existsb (λ t, in_section t DOING) (dvalues (b_tickets b)) then []
  else match workable_tickets (b_tickets b) agent now with
       | [] => goal_blocked_tickets (b_tickets b)
       | _ => []
       end.

Definition GOAL_BLOCKED : value := str_value "GOAL_BLOCKED".
(** [parse_state(text).get(key)], which finds nothing in a document the contract refuses. *)
Definition parsed_field (home : install) (text : pystr) (key : string) : option value :=
  match parse_state (is_major home) text with Ok (Read fs) => dget (py key) fs | _ => None end.
Definition _settle_stop_reason (home : install) (state_text : pystr) (b : board) (agent : option pystr) (now : Z) : res state_error pystr :=
  match goal_blocked_now b agent now with
  | _ :: _ => patch_state state_text [(py "stop_reason", GOAL_BLOCKED)]
  | [] => if bool_decide (parsed_field home state_text "stop_reason" = Some GOAL_BLOCKED)
          then remove_state_fields state_text [py "stop_reason"] else Ok state_text
  end.

(** The route of a free slot to which work was added. *)
Definition _recompute_free_slot_route (home : install) (state_text board_text : pystr) (before : fields) (agent : option pystr) (now : Z)
    : res state_error pystr :=
  let b := parse_board board_text in
  text ← _settle_stop_reason home state_text b agent now;
  if startswith "WAIT:" (text_at before "next_action") then Ok text
  else if negb (mem (text_at before "task") (strs [""; "none"])) then Ok text
  else if existsb (λ t, in_section t DOING) (dvalues (b_tickets b)) then Ok text
  else
    let r := route_documents home text board_text [] [] now None agent None None None None in
    if r_ok r && nonempty (r_action r) then patch_state text [(py "next_action", str_value (r_action r))] else Ok text.

(** ** Planners *)

Section planner.
Context (parse_runtime_provenance : pystr → res pystr pystr).
Context (root : path) (project_identity project_lineage_identity : option pystr) (home : install).
Context (d : documents) (c : clock) (agent op_id : pystr).
Local Abbreviation b := (parse_board (d_board d)).
Local Abbreviation event_line := (_event_line root project_identity project_lineage_identity).
Local Abbreviation gate := (validate_texts parse_runtime_provenance home (Some agent) (Some (d_history d)) [] (c_check c)).

(** A state of an older schema is brought up to the running one; a newer is left. *)
Definition _schema_upgrade_owned (st : fields) : fields :=
  match is_schema home with
  | None => []
  | Some current =>
      if match as_int (dget (py "schema_version") st) with Some have => (current <=? have)%Z | None => false end then []
      else (py "schema_version", int_value current)
           :: match is_style home with Some ((_ :: _) as style) => [(py "style_contract", str_value style)] | _ => [] end
  end.

Definition _stale_work_context_refusal (st : fields) (ticket_id : pystr) : option refusal :=
  let active := text_at st "task" in
  let stale command := Some (Refusal STALE_WORK_CONTEXT (Some ticket_id) None command []) in
  if negb (nonempty active) || (active =s "none") then stale (Some ("saipen claim " +s ticket_id))
  else if negb (active =s ticket_id) then stale (Some ("saipen claim " +s ticket_id))
  else match dget ticket_id (b_tickets b) with
       | Some t => if in_section t DOING then None else stale None
       | None => None
       end.

Definition checkpoint_ticket_guard (st : fields) (ticket_id : option pystr) : option refusal :=
  match ticket_id with
  | None => None
  | Some t =>
      if negb (is_full ticket_id_re t)
      then Some (Refusal VALIDATION_FAILED (Some t) None
                   (Some ("saipen checkpoint RUN <T-###> " +s [34%N] +s "<what happened>" +s [34%N])) [])
      else if negb (dmem t (b_tickets b)) then Some (plain TICKET_NOT_FOUND (Some t))
      else _stale_work_context_refusal st t
  end.

Definition checkpoint_owned (st : fields) (event : value) : fields :=
  dupdate [(py "last_event", event); (py "updated", str_value (c_utc c)); (py "agent", str_value agent)] (_schema_upgrade_owned st).

Definition _plan_checkpoint (v : verdicts) (taxonomy : pystr) (ticket_id : option pystr) (description : pystr) : res stop plan :=
  st ← read_state home d;
  _ ← guard (_active_claim_refusal st b agent (c_seat c));
  _ ← guard (checkpoint_ticket_guard st ticket_id);
  log ← event_line (Draft (d_log d) (s_tail (d_history d)) []) (upper taxonomy) ticket_id agent description (c_now c) op_id;
  new_state ← lift StateRaises (patch_state (d_state d) (checkpoint_owned st (event_id log)));
  refreshed ← _refresh_active_claim st (d_board d) agent (c_utc c) (c_refresh c) (v_session v);
  validated parse_runtime_provenance home d c agent
    (Plan (dr_details log) (dr_log log) refreshed new_state (default 0%N (dr_tail log)) ticket_id).

Definition _CHECKPOINT_TAXONOMIES : list pystr := strs ["DEC"; "RUN"].
Definition checkpoint (v : verdicts) (taxonomy : pystr) (ticket_id : option pystr) (description : pystr) : res stop plan :=
  if mem (upper taxonomy) _CHECKPOINT_TAXONOMIES then _plan_checkpoint v taxonomy ticket_id description
  else Err (Refused (plain VALIDATION_FAILED None)).

(** [_state_only_plan]: the caller's rewriting of the state under one decision line.
    [render] writes the sentence of a defect, which a repair is judged by. *)
Definition _state_only_plan (render : Defect.t → pystr) (mutate : pystr → value → res state_error pystr) (event_message : pystr)
    (ticket_id : option pystr) (log_text : option pystr) (repair : bool) : res stop plan :=
  st ← read_state home d;
  log ← event_line (Draft (default (d_log d) log_text) (s_tail (d_history d)) []) "DEC" ticket_id agent
          (_actor_provenance st agent event_message) (c_now c) op_id;
  mutated ← lift StateRaises (mutate (d_state d) (event_id log));
  match _seat_agent st b agent (c_seat c) with
  | Err _ => Err (Refused (plain VALIDATION_FAILED None))
  | Ok seat =>
      new_state ← (if seat =s agent then Ok mutated else lift StateRaises (patch_state mutated [(py "agent", str_value seat)]));
      let errors := gate new_state (d_board d) (dr_log log) in
      let refused := if repair then (defect_delta (render <$> gate (d_state d) (d_board d) (d_log d)) (render <$> errors)).1
                     else render <$> errors in
      match refused with
      | [] => Ok (Plan (dr_details log) (dr_log log) None new_state (default 0%N (dr_tail log)) ticket_id)
      | _ => Err (Refused (Refusal VALIDATION_FAILED None None None errors))
      end
  end.
End planner.

(** ** What a state-only plan applies *)

(** Its targets: the detail files and the log, the state, and after them those of the
    caller. [encode_log] and [encode_state] are the encoders of the documents read. *)
Definition state_only_targets (encode_log encode_state : pystr → list N) (p : plan) (extra_targets : list target_plan) : list target_plan :=
  pl_details p
  ++ [TargetPlan ".saipen/LOG.md" "log" (Bytes (encode_log (pl_log p)));
      TargetPlan ".saipen/STATE.md" "state" (Bytes (encode_state (pl_state p)))]
  ++ extra_targets.

(** What an extra target must still be when the plan is applied: what the evidence of the
    caller bound it to, or else its live hash, [before], which is empty for a missing file. *)
Definition bind_extra (before : pystr → pystr) (preconditions : dict pystr pystr) (t : target_plan) : dict pystr pystr :=
  let target_before := before (tp_path t) in
  match dget (tp_path t) preconditions with
  | Some bound =>
      if (bound =s MISSING_FILE_DEPENDENCY) && negb (nonempty target_before) then dset (tp_path t) [] preconditions else preconditions
  | None => dset (tp_path t) target_before preconditions
  end.
Definition extra_preconditions (before : pystr → pystr) (preconditions : dict pystr pystr) (extra_targets : list target_plan) : dict pystr pystr :=
  foldl (bind_extra before) preconditions extra_targets.
