(* ===== verification/CheckpointFacts.v ===== *)
(** * What checkpoints and state-only operations prove

    A checkpoint moves nothing but its own fields; a state-only operation keeps the
    seat; the persisted stop of the loop is true; and a repair adds no defect. *)

From S2P Require Import Prelude PyStr PyStrFacts PyUnicode PyRegex PyDict Phases BoardClock BoardRecord BoardParse BoardClaims BoardEdit.
From S2P Require Import JournalFs SafeId LogLine LogHistory LogVerdict LogEvidence LogLedger LogRegression Ownership StateDoc StateDocFacts StatePatch StateRemove.
From S2P Require Import StateWait StateContract Router RouterFacts FastCheck FastCheckFacts Transition TransitionFacts Checkpoint.

(** ** Defects that move *)

Definition occurrences (key : pystr) (errors : list pystr) : nat := length (base.filter (λ e, defect_signature e = key) errors).
Lemma occurrences_cons key e l : occurrences key (e :: l) = (if decide (defect_signature e = key) then 1 else 0) + occurrences key l.
Proof. unfold occurrences. rewrite list.filter_cons. by destruct (decide (defect_signature e = key)). Qed.

Lemma spend_spec after seen :
  let '(introduced, inherited) := spend seen after in
  introduced ++ inherited ≡ₚ after ∧
  ∀ key, occurrences key introduced = occurrences key after - default 0 (dget key seen) ∧
         occurrences key inherited = occurrences key after `min` default 0 (dget key seen).
Proof.
  revert seen. induction after as [|e after IH]; intros seen; cbn [spend]; [by split; [|split; cbn; lia]|]. cbv zeta.
  destruct (default 0 (dget (defect_signature e) seen)) as [|n] eqn:En.
  - specialize (IH seen). destruct (spend seen after) as [intro inh]. destruct IH as [Hp Hc]. split; [by rewrite <-Hp|].
    intros key. destruct (Hc key) as [H1 H2]. rewrite !occurrences_cons, H1, H2. case_decide as E; [rewrite E in En; rewrite En|]; lia.
  - specialize (IH (dset (defect_signature e) n seen)). destruct (spend _ after) as [intro inh]. destruct IH as [Hp Hc].
    split; [by rewrite <-Hp, Permutation_middle|]. intros key. destruct (Hc key) as [H1 H2]. rewrite !occurrences_cons, H1, H2. case_decide as E.
    + subst key. rewrite dget_dset_eq, En. cbn. lia.
    + by rewrite dget_dset_ne.
Qed.
Lemma counted_signatures before seen key :
  default 0 (dget key (foldl count_signature seen before)) = default 0 (dget key seen) + occurrences key before.
Proof.
  revert seen. induction before as [|e before IH]; intros seen; cbn [foldl]; [unfold occurrences; simpl; lia|]. rewrite IH, occurrences_cons.
  unfold count_signature. case_decide as E; [subst key; rewrite dget_dset_eq; simpl; unfold id; lia|by rewrite dget_dset_ne].
Qed.

Lemma delta_introduced before after key : occurrences key (defect_delta before after).1 = occurrences key after - occurrences key before.
Proof.
  unfold defect_delta. pose proof (spend_spec after (foldl count_signature [] before)) as H. destruct (spend _ after) as [intro inh].
  destruct H as [_ Hc]. cbn [fst]. destruct (Hc key) as [-> _]. by rewrite counted_signatures.
Qed.
Lemma nothing_introduced before after : (defect_delta before after).1 = [] ↔ ∀ key, occurrences key after ≤ occurrences key before.
Proof.
  pose proof (delta_introduced before after) as Hi. destruct (defect_delta before after).1 as [|e l].
  - split; [|done]. intros _ key. specialize (Hi key). unfold occurrences at 1 in Hi. cbn in Hi. lia.
  - split; [done|]. intros H. exfalso. specialize (H (defect_signature e)). specialize (Hi (defect_signature e)).
    rewrite occurrences_cons, decide_True in Hi by done. lia.
Qed.

(** The comparison loses nothing and excuses nothing: every error of a proposal is
    introduced or inherited, and of each signature exactly as many are introduced as the
    proposal has more than there were before it, wherever the lines moved. *)
Theorem defect_delta_exact before after :
  let '(introduced, inherited) := defect_delta before after in
  introduced ++ inherited ≡ₚ after ∧
  (∀ key, occurrences key introduced = occurrences key after - occurrences key before) ∧
  (introduced = [] ↔ ∀ key, occurrences key after ≤ occurrences key before).
Proof.
  pose proof (delta_introduced before after) as Hi. pose proof (nothing_introduced before after) as Hn.
  unfold defect_delta in *. pose proof (spend_spec after (foldl count_signature [] before)) as H.
  destruct (spend _ after) as [intro inh]. by destruct H as [Hp _].
Qed.

(** A defect that moved to another line is the same defect. *)
Example sample_delta :
  defect_delta (strs ["LOG.md:12: not a legal event line"; "BOARD.md:3: bad"])
               (strs ["LOG.md:14: not a legal event line"; "LOG.md:15: not a legal event line"])
  = (strs ["LOG.md:15: not a legal event line"], strs ["LOG.md:14: not a legal event line"]).
Proof. vm_compute. reflexivity. Qed.

(** ** What a checkpoint writes *)

Definition CHECKPOINT_OWNED : list pystr := strs ["last_event"; "updated"; "agent"; "schema_version"; "style_contract"].
Lemma checkpoint_keys_ok : Forall key_ok CHECKPOINT_OWNED.
Proof.
  apply Forall_forall. intros k Hk. apply key_okb_spec.
  assert (forallb key_okb CHECKPOINT_OWNED = true) as H by (vm_compute; reflexivity). rewrite forallb_forall in H. apply H. by apply list_elem_of_In.
Qed.
Lemma valid_checkpoint_scalars m t vs fs k : valid_state m t vs fs → k ∈ CHECKPOINT_OWNED → ∀ items, dget k fs ≠ Some (VList items).
Proof.
  intros V Hk items E. unfold CHECKPOINT_OWNED, strs in Hk. rewrite !fmap_cons, fmap_nil, !elem_of_cons, elem_of_nil in Hk.
  destruct Hk as [->|[->|[->|[->|[->|[]]]]]]; try (eapply (valid_scalars _ _ _ _ _ V); [|exact E]; apply (bool_decide_unpack _); by vm_compute).
  - destruct (vs_integers _ _ _ _ V (py "schema_version") (Some 1%Z) (VList items)) as (? & ? & _); [apply (bool_decide_unpack _); by vm_compute|done..].
  - destruct (vs_known _ _ _ _ V _ _ (dget_Some_elem _ _ _ E)) as [_ H]. destruct H as (? & ? & _); [|done]. apply (bool_decide_unpack _). by vm_compute.
Qed.

Section checkpoint.
Context (parse_runtime_provenance : pystr → res pystr pystr).
Context (root : path) (project_identity project_lineage_identity : option pystr) (home : install).
Local Abbreviation _plan_checkpoint := (_plan_checkpoint parse_runtime_provenance root project_identity project_lineage_identity home).
Local Abbreviation _state_only_plan := (_state_only_plan parse_runtime_provenance root project_identity project_lineage_identity home).
Local Abbreviation gate := (validate_texts parse_runtime_provenance home).

(** The upgrade of the schema owns nothing else, and never writes an older one. *)
Lemma schema_upgrade_spec st :
  let u := _schema_upgrade_owned home st in
  wf_dict u ∧ (∀ k, k ∈ dkeys u → k = py "schema_version" ∨ k = py "style_contract") ∧ (∀ k w, dget k u = Some w → scalar w) ∧
  ∀ new, dget (py "schema_version") u = Some new → is_schema home = as_int (Some new) ∧
    ∀ have, as_int (dget (py "schema_version") st) = Some have → (have < default 0 (is_schema home))%Z.
Proof.
  unfold _schema_upgrade_owned. cbv zeta. destruct (is_schema home) as [cur|]; [|split_and!; [by apply NoDup_nil|by intros ? ?%elem_of_nil|done|done]].
  assert (∀ l : fields, (l = [] ∨ ∃ s, l = [(py "style_contract", str_value s)]) →
    let u := (py "schema_version", int_value cur) :: l in
    wf_dict u ∧ (∀ k, k ∈ dkeys u → k = py "schema_version" ∨ k = py "style_contract") ∧ (∀ k w, dget k u = Some w → scalar w) ∧
    dget (py "schema_version") u = Some (int_value cur)) as Hu.
  { intros l [->|[s ->]]; cbv zeta; (split_and!; [|intros k; unfold dkeys; rewrite ?fmap_cons, fmap_nil, !elem_of_cons, elem_of_nil; naive_solver| |reflexivity]).
    1, 3: unfold wf_dict; apply (bool_decide_unpack _); vm_compute; exact I.
    all: intros k w; simpl; repeat case_bool_decide; by intros [= <-]. }
  destruct (match as_int _ with Some _ => _ | None => _ end) eqn:E; [split_and!; [by apply NoDup_nil|by intros ? ?%elem_of_nil|done|done]|].
  match goal with |- context [?h :: ?l] => set (style := l) end.
  destruct (Hu style) as (H1 & H2 & H3 & H4).
  { unfold style. destruct (is_style home) as [[|? ?]|]; [by left|right; by eexists|by left]. }
  split_and!; [exact H1|exact H2|exact H3|]. intros new Hn. rewrite H4 in Hn. injection Hn as <-. split; [done|]. intros have Hh. rewrite Hh in E. by apply Z.leb_gt.
Qed.

Lemma checkpoint_owned_spec st c agent ev :
  scalar ev →
  let o := checkpoint_owned home c agent st ev in
  within CHECKPOINT_OWNED o ∧ dget (py "last_event") o = Some ev ∧ dget (py "updated") o = Some (str_value (c_utc c)) ∧
  dget (py "agent") o = Some (str_value agent) ∧ dget (py "schema_version") o = dget (py "schema_version") (_schema_upgrade_owned home st).
Proof.
  intros Hev. destruct (schema_upgrade_spec st) as (Hw & Hk & Hs & _). unfold checkpoint_owned. cbv zeta.
  assert (∀ k, k ≠ py "schema_version" → k ≠ py "style_contract" → dget k (_schema_upgrade_owned home st) = None) as Hno.
  { intros k H1 H2. apply dget_None. intros [?|?]%Hk; done. }
  split_and!.
  - apply within_dupdate.
    + split_and!; [apply (bool_decide_unpack _); vm_compute; exact I| |].
      * intros k Hin. assert (Forall (λ k, k ∈ CHECKPOINT_OWNED) (strs ["last_event"; "updated"; "agent"])) as HF by (apply (bool_decide_unpack _); by vm_compute).
        rewrite Forall_forall in HF. by apply HF.
      * intros k w. simpl. repeat case_bool_decide; intros [= <-]; done.
    + apply Forall_forall. intros [k w] Hin. split; cbn [fst snd].
      * assert (k ∈ dkeys (_schema_upgrade_owned home st)) as [->| ->]%Hk by by apply (list_elem_of_fmap_2 fst _ (k, w)).
        all: apply (bool_decide_unpack _); by vm_compute.
      * apply (Hs k). by apply dget_elem.
  - by rewrite dget_dupdate, Hno.
  - by rewrite dget_dupdate, Hno.
  - by rewrite dget_dupdate, Hno.
  - rewrite dget_dupdate by done. by destruct (dget _ (_schema_upgrade_owned home st)).
Qed.

Lemma is_full_nonempty_id t : is_full ticket_id_re t = true → t ≠ [] ∧ t ≠ py "none".
Proof. intros H. split; intros ->; by vm_compute in H. Qed.

(** A checkpoint that names a ticket names the one in progress. *)
Lemma checkpoint_guard_active d st t :
  checkpoint_ticket_guard d st (Some t) = None →
  text_at st "task" = t ∧ ∃ x, dget t (b_tickets (parse_board (d_board d))) = Some x ∧ in_section x DOING = true.
Proof.
  unfold checkpoint_ticket_guard. destruct (is_full ticket_id_re t) eqn:Ei; [|done]. cbn [negb].
  destruct (dmem t _) eqn:Em; [|done]. cbn [negb]. unfold _stale_work_context_refusal. cbv zeta.
  destruct (negb (nonempty (text_at st "task")) || (text_at st "task" =s "none")); [done|].
  destruct (text_at st "task" =s t) eqn:E; [|done]. cbn [negb]. unfold eqs in E. rewrite bool_decide_eq_true in E.
  unfold dmem in Em. rewrite bool_decide_eq_true in Em. destruct Em as [x Hx]. rewrite Hx.
  destruct (in_section x DOING) eqn:Es; [|done]. intros _. split; [done|]. by exists x.
Qed.

(** C17: A checkpoint moves nothing but its own fields. The seat holds the claim of the
    active ticket, and a ticket it names is that one; the log grows by one legal line whose
    id the state records; phase, task, route, blocker and counters stay as they were; the
    schema is never written back to an older one; and the three texts pass the write gate. *)
Theorem checkpoint_writes d c agent op_id v taxonomy ticket_id description p :
  lf_only (d_state d) → startswith "---" (d_state d) = true →
  _plan_checkpoint d c agent op_id v taxonomy ticket_id description = Ok p →
  ∃ st st' line, read_state home d = Ok st ∧ parse_frontmatter (pl_state p) = Ok st' ∧
    (∀ t, head (doing (parse_board (d_board d))) = Some t → t_id t = text_at st "task" → claim_status t (Some agent) (c_seat c) = SELF) ∧
    (∀ t, ticket_id = Some t → text_at st "task" = t ∧ ∃ x, dget t (b_tickets (parse_board (d_board d))) = Some x ∧ in_section x DOING = true) ∧
    pl_log p = append_line (d_log d) line ∧ is_Some (parse_log_line line) ∧
    dget (py "last_event") st' = Some (int_value (Z.of_N (default 0%N (s_tail (d_history d)) + 1)%N)) ∧
    text_is st' "agent" agent ∧ text_is st' "updated" (c_utc c) ∧
    (∀ k, k ∉ CHECKPOINT_OWNED → dget k st' = dget k st) ∧
    (∀ have new, as_int (dget (py "schema_version") st) = Some have → as_int (dget (py "schema_version") st') = Some new → (have ≤ new)%Z) ∧
    gate (Some agent) (Some (d_history d)) [] (c_check c) (pl_state p) (board_after (d_board d) p) (pl_log p) = [].
Proof.
  intros Hlf Hs. unfold Checkpoint._plan_checkpoint. intros (st & Hst & H)%bind_is_Ok. rewrite !bind_guard in H. destruct H as (Hseat & Hg & H).
  apply bind_is_Ok in H as (log & (line & [G1 G2 G3])%event_grown & H). apply bind_is_Ok in H as (ns & Hp%lift_Ok & H).
  apply bind_is_Ok in H as (refreshed & _ & H). unfold validated in H. destruct (validate_texts _ _ _ _ _ _ _ _ _) eqn:Eg in H; [|done].
  injection H as <-. cbn [pl_state pl_log dr_log dr_tail foldl length] in *. destruct (read_state_Ok _ _ _ Hst) as (Hf & _ & style & V).
  destruct (checkpoint_owned_spec st c agent (event_id log) I) as (W & O1 & O2 & O3 & O4).
  set (owned := checkpoint_owned home c agent st (event_id log)) in *.
  assert (∀ k, k ∉ CHECKPOINT_OWNED → dget k owned = None) as Hno.
  { intros k Hk. apply dget_None. intros Hin. apply Hk. by apply W. }
  destruct (patch_scalars (d_state d) owned st ns) as (st' & (_ & _ & Hf') & Hd); [done| | |by destruct W|done|].
  { intros k [w Hk] items. eapply (valid_checkpoint_scalars _ _ _ _ _ V). destruct (decide (k ∈ CHECKPOINT_OWNED)) as [?|Hn]; [done|]. by rewrite Hno in Hk. }
  { eapply owned_within; [exact W|apply checkpoint_keys_ok]. }
  exists st, st', line. inversion_clear G3 as [|? ? [Hleg _] _]. unfold text_is.
  split_and!; [done..| | |done|done| | | | | |exact Eg].
  - by apply (seat_guard_exact st (parse_board (d_board d)) agent (c_seat c) (parse_board_ok _)).
  - intros t ->. by eapply checkpoint_guard_active.
  - rewrite Hd, O1. unfold event_id. by rewrite G2.
  - by rewrite Hd, O3.
  - by rewrite Hd, O2.
  - intros k Hk. by rewrite Hd, Hno.
  - intros have new Hh Hn. rewrite Hd, O4 in Hn. destruct (dget _ (_schema_upgrade_owned home st)) as [w|] eqn:Ew; [|rewrite Hh in Hn; injection Hn; lia].
    destruct (schema_upgrade_spec st) as (_ & _ & _ & Hup). destruct (Hup _ Ew) as [Hi Hlt]. specialize (Hlt _ Hh). rewrite Hi, Hn in Hlt. cbn in Hlt. lia.
Qed.

(** C16: An operation that writes the state alone keeps the seat. Under one decision line
    it writes what its caller made of the state; a seat in dispute before it stops it; the
    seat of another actor stays recorded, whatever the caller wrote; and its texts pass
    the write gate, or, for a repair, hold no signature of a defect oftener than before. *)
Theorem state_only_keeps_the_seat d c agent op_id render mutate message ticket_id log_text repair p :
  _state_only_plan d c agent op_id render mutate message ticket_id log_text repair = Ok p →
  ∃ st line mutated, read_state home d = Ok st ∧
    mutate (d_state d) (int_value (Z.of_N (default 0%N (s_tail (d_history d)) + 1)%N)) = Ok mutated ∧
    pl_log p = append_line (default (d_log d) log_text) line ∧ is_Some (parse_log_line line) ∧ pl_board p = None ∧
    let b := parse_board (d_board d) in
    let seated := text_at st "agent" in
    preexisting_split_error (seat_of st b agent (c_seat c)) (Some seated) = None ∧
    (seated = [] ∨ seated = agent → pl_state p = mutated) ∧
    (seated ≠ [] → seated ≠ agent → ∀ fs, holds mutated fs → (∀ items, dget (py "agent") fs ≠ Some (VList items)) →
       ∃ st', parse_frontmatter (pl_state p) = Ok st' ∧ text_is st' "agent" seated ∧ ∀ k, k ≠ py "agent" → dget k st' = dget k fs) ∧
    let after := gate (Some agent) (Some (d_history d)) [] (c_check c) (pl_state p) (d_board d) (pl_log p) in
    let before := gate (Some agent) (Some (d_history d)) [] (c_check c) (d_state d) (d_board d) (d_log d) in
    (repair = false → after = []) ∧
    (repair = true → ∀ key, occurrences key (render <$> after) ≤ occurrences key (render <$> before)).
Proof.
  unfold Checkpoint._state_only_plan. intros (st & Hst & H)%bind_is_Ok. apply bind_is_Ok in H as (log & (line & [G1 G2 G3])%event_grown & H).
  apply bind_is_Ok in H as (mutated & Hm%lift_Ok & H). cbn [dr_log dr_tail foldl length] in *. unfold event_id in Hm. rewrite G2 in Hm.
  unfold _seat_agent in H. destruct (preexisting_split_error _ _) eqn:Es in H; [done|]. cbv zeta in H.
  apply bind_is_Ok in H as (ns & Hns & H). inversion_clear G3 as [|? ? [Hleg _] _].
  match type of H with match ?r with _ => _ end = _ => destruct r eqn:Er in H; [|done] end. injection H as <-. cbn [pl_state pl_log pl_board].
  exists st, line, mutated. cbv zeta. split_and!; try done.
  - intros Hsame. destruct (_ =s agent) eqn:E in Hns; [by injection Hns|]. unfold eqs in E. rewrite bool_decide_eq_false in E.
    destruct Hsame as [Hn|Hn]; rewrite Hn in E; cbn in E; [done|]. by destruct agent.
  - intros Hne Hna fs Hh Hl. assert (nonempty (text_at st "agent") = true) as Hn by by apply nonempty_true. rewrite Hn in Hns.
    destruct (_ =s agent) eqn:E in Hns; unfold eqs in E; [by rewrite bool_decide_eq_true in E|]. apply lift_Ok in Hns.
    destruct (patch_scalars mutated [(py "agent", str_value (text_at st "agent"))] fs ns Hh) as (st' & (_ & _ & Hf) & Hd).
    + intros k [w Hk]. simpl in Hk. case_bool_decide; [by subst k|done].
    + apply Forall_forall. intros k ->%list_elem_of_singleton. by apply key_okb_spec.
    + unfold wf_dict. apply (bool_decide_unpack _). by vm_compute.
    + done.
    + exists st'. split; [done|]. unfold text_is. rewrite Hd. split; [done|]. intros k Hk. rewrite Hd. simpl. by rewrite bool_decide_eq_false_2.
  - intros ->. destruct (validate_texts _ _ _ _ _ _ _ _ _); [done|by rewrite fmap_cons in Er].
  - intros ->. by apply nothing_introduced.
Qed.
End checkpoint.

(** ** The stop of the loop *)

(** Removed fields that are no lists in the document leave no items behind. *)
Lemma tidy_items_scalar keys body cur d st fresh :
  parse_body (cur, d) body = Some st → (∀ k, k ∈ keys → ∀ items, dget k st.2 ≠ Some (VList items)) →
  match cur with Some k => k ∉ keys | None => True end → tidy_items keys cur fresh body.
Proof.
  intros Hp Hn. revert cur d fresh Hp. induction body as [|line body IH]; intros cur d fresh Hp Hc; [done|]. cbn [parse_body] in Hp.
  destruct (parse_line (cur, d) line) as [[cur1 d1]|] eqn:E; [|done]. cbn [mbind option_bind] in Hp. cbn [tidy_items].
  destruct (item_head line) eqn:Hi.
  - assert (cur1 = cur) as ->.
    { unfold parse_line in E. destruct (negb _); [by injection E|].
      destruct (item_line line); [by destruct cur; [injection E|]|]. destruct (key_line line) as [[key raw]|] eqn:Ek; [|done].
      apply key_line_no_item in Ek. congruence. }
    destruct cur as [k|]; [split; [done|]|]; by eapply IH.
  - destruct (key_line line) as [[key raw]|] eqn:Ek.
    + destruct (parse_key _ _ _ _ _ _ E Ek) as (_ & w & Ew & Hw). injection Ew as -> ->. eapply IH; [exact Hp|].
      destruct (nonempty raw) eqn:Er; [done|]. intros Hin.
      unfold parse_line in E. cbn [fst snd] in E. rewrite (key_line_nonblank _ _ _ Ek), (key_line_item _ _ _ Ek), Ek in E. cbn [negb] in E.
      destruct (dmem key d); [done|]. rewrite Er in E. injection E as E. rewrite <-E in Hp.
      destruct (parse_body_keeps_list _ _ _ _ key [] Hp) as [items H]; [by rewrite dget_dset_eq|]. exact (Hn key Hin items H).
    + assert (cur1 = cur) as ->; [|by eapply IH]. unfold parse_line in E.
      destruct (negb _); [by injection E|]. destruct (item_line line); [by destruct cur; [injection E|]|by rewrite Ek in E].
Qed.

Lemma remove_scalars text keys d :
  holds text d → (∀ k, k ∈ keys → ∀ items, dget k d ≠ Some (VList items)) →
  ∃ text', remove_state_fields text keys = Ok text' ∧ holds text' (kept keys d).
Proof.
  intros (Hlf & Hs & Hd) Hn. destruct (parse_removed keys text d Hlf Hs Hd) as (text' & ? & ? & ? & ?); [|by exists text'].
  unfold tidy_items_text. destruct (split_fence _) as [[body suffix]|] eqn:Ef; [|done].
  destruct (rewritten text (λ b, Ok b) (py "---" ++ [10%N] ++ join [10%N] body ++ [10%N] ++ join [10%N] suffix) d Hlf Hd)
    as (body' & suffix' & c & out & Ef' & Hb & _).
  { unfold rewrite_body. rewrite Hs, Hd. cbn [negb mbind res_bind]. by rewrite Ef. }
  rewrite Ef in Ef'. injection Ef' as <- <-. by eapply tidy_items_scalar.
Qed.

Lemma set_scalar text d key s :
  holds text d → key_okb key = true → renderable (SStr s) → (∀ items, dget key d ≠ Some (VList items)) →
  ∃ text' d', patch_state text [(key, str_value s)] = Ok text' ∧ holds text' d' ∧
    dget key d' = Some (str_value s) ∧ ∀ k, k ≠ key → dget k d' = dget k d.
Proof.
  intros Hh Hk Hr Hn. destruct Hh as (Hlf & Hs & Hd).
  assert (∀ k, is_Some (dget k [(key, str_value s)]) → ∀ items, dget k d ≠ Some (VList items)) as Hn'.
  { intros k [w Hw] items. simpl in Hw. case_bool_decide; [by subst k|done]. }
  assert (Forall key_ok (dkeys [(key, str_value s)])) as Hks by (repeat constructor; by apply key_okb_spec).
  assert (wf_dict [(key, str_value s)]) as Hwf by (unfold wf_dict; simpl; apply NoDup_singleton).
  destruct (patched text [(key, str_value s)] d) as (text' & Hp & _); try done.
  { by eapply tidy_text_scalar. }
  { repeat constructor; done. }
  destruct (patch_scalars text _ d text' (conj Hlf (conj Hs Hd)) Hn' Hks Hwf Hp) as (d' & Hh' & Hd').
  exists text', d'. split_and!; [done|done|rewrite Hd'; simpl; by rewrite bool_decide_eq_true_2|].
  intros k Hne. rewrite Hd'. simpl. by rewrite bool_decide_eq_false_2.
Qed.

(** C27: The persisted stop of the loop is true: settling a state the contract accepts
    writes GOAL_BLOCKED exactly when nothing is in progress, nothing is workable and some
    ticket is blocked on its goal; it withdraws only its own stop; and no other field moves. *)
Theorem stop_reason_is_true home text fs b agent now :
  lf_only text → startswith "---" text = true → parse_state (is_major home) text = Ok (Read fs) →
  ∃ text' fs', _settle_stop_reason home text b agent now = Ok text' ∧ parse_frontmatter text' = Ok fs' ∧
    (dget (py "stop_reason") fs' = Some GOAL_BLOCKED ↔
     (∀ t, t ∈ dvalues (b_tickets b) → in_section t DOING = false) ∧ workable_tickets (b_tickets b) agent now = [] ∧
     goal_blocked_tickets (b_tickets b) ≠ []) ∧
    (dget (py "stop_reason") fs' ≠ Some GOAL_BLOCKED → dget (py "stop_reason") fs ≠ Some GOAL_BLOCKED →
     dget (py "stop_reason") fs' = dget (py "stop_reason") fs) ∧
    ∀ k, k ≠ py "stop_reason" → dget k fs' = dget k fs.
Proof.
  intros Hlf Hs Hp. assert (parse_frontmatter text = Ok fs ∧ valid_state (is_major home) None None fs) as [Hf V].
  { unfold parse_state in Hp. destruct (negb _); [done|]. destruct (parse_frontmatter text) as [d|]; [|done].
    destruct (state_contract_errors _ _ _ d) as [[|? ?]|] eqn:E; [|done..]. injection Hp as ->. split; [done|]. by apply contract_valid in E. }
  assert (∀ items, dget (py "stop_reason") fs ≠ Some (VList items)) as Hn.
  { intros items E. destruct (vs_known _ _ _ _ V _ _ (dget_Some_elem _ _ _ E)) as [_ H]. destruct H as (? & ? & _); [|done].
    apply (bool_decide_unpack _). by vm_compute. }
  assert (goal_blocked_now b agent now ≠ [] ↔ (∀ t, t ∈ dvalues (b_tickets b) → in_section t DOING = false) ∧
            workable_tickets (b_tickets b) agent now = [] ∧ goal_blocked_tickets (b_tickets b) ≠ []) as Hstop.
  { unfold goal_blocked_now. destruct (existsb _ _) eqn:Ee.
    - split; [done|]. intros [H _]. apply existsb_exists in Ee as (t & Ht%list_elem_of_In & E). rewrite (H t Ht) in E. done.
    - assert (∀ t, t ∈ dvalues (b_tickets b) → in_section t DOING = false) as Hd.
      { intros t Ht%list_elem_of_In. destruct (in_section t DOING) eqn:E; [|done].
        assert (existsb (λ t, in_section t DOING) (dvalues (b_tickets b)) = true) as H by (apply existsb_exists; eauto). congruence. }
      destruct (workable_tickets _ _ _); naive_solver. }
  setoid_rewrite <-Hstop. unfold _settle_stop_reason. destruct (goal_blocked_now b agent now) as [|x l].
  - unfold parsed_field. rewrite Hp. case_bool_decide as E; [|by exists text, fs].
    destruct (remove_scalars text [py "stop_reason"] fs) as (text' & Hr & _ & _ & Hf'); [done|by intros k ->%list_elem_of_singleton|].
    exists text', (kept [py "stop_reason"] fs). split_and!; [done|done| | |]; intros.
    + rewrite dget_kept, decide_False by (intros H; apply H; by left). by split.
    + done.
    + by rewrite dget_kept, decide_True by (by intros ->%list_elem_of_singleton).
  - destruct (set_scalar text fs (py "stop_reason") "GOAL_BLOCKED") as (text' & fs' & Hr & (_ & _ & Hf') & H1 & H2); [done|done|reflexivity|done|].
    by exists text', fs'.
Qed.

(** ** Concrete checkpoints *)

Definition checkpointed : res stop plan :=
  _plan_checkpoint no_runtime [py "r"] None None sample_install (sample_docs building_state building_board) sample_clock "alpha"
    "checkpoint-0123" pass_all "run" (Some (py "T-1")) "note".
Lemma checkpoint_writes_witness :
  ∃ p st', checkpointed = Ok p ∧ parse_frontmatter (pl_state p) = Ok st' ∧ dget (py "last_event") st' = Some (int_value 3) ∧
    dget (py "next_action") st' = Some (str_value "PHASE BUILD T-1").
Proof.
  destruct checkpointed as [p|] eqn:E; [|by vm_compute in E]. exists p.
  destruct (checkpoint_writes no_runtime [py "r"] None None sample_install (sample_docs building_state building_board) sample_clock (py "alpha")
              (py "checkpoint-0123") pass_all (py "run") (Some (py "T-1")) (py "note") p
              (is_lf_only building_state ltac:(vm_compute; reflexivity)) ltac:(vm_compute; reflexivity) E)
    as (st & st' & line & Hst & Hf & _ & _ & _ & _ & Hev & _ & _ & Hk & _).
  exists st'. split_and!; [reflexivity|exact Hf|exact Hev|]. rewrite Hk; [|apply (bool_decide_unpack _); vm_compute; exact I].
  assert (st = parsed building_state) as ->.
  { assert (read_state sample_install (sample_docs building_state building_board) = Ok (parsed building_state)) as Hr by (vm_compute; reflexivity).
    congruence. }
  vm_compute. reflexivity.
Defined.

(** ** The preconditions of extra targets *)

(** A path bound by earlier evidence stays bound to it, but for the token of a missing
    file that is missing still. *)
Definition bound_as (before : pystr → pystr) (earlier : option pystr) (key : pystr) : pystr :=
  match earlier with
  | Some h => if (h =s MISSING_FILE_DEPENDENCY) && negb (nonempty (before key)) then [] else h
  | None => before key
  end.

Lemma bind_extra_spec before pc t key :
  dget key (bind_extra before pc t) = if decide (key = tp_path t) then Some (bound_as before (dget key pc) key) else dget key pc.
Proof.
  unfold bind_extra, bound_as. cbv zeta. destruct (decide (key = tp_path t)) as [->|Hne].
  - destruct (dget (tp_path t) pc) as [h|] eqn:E; [|apply dget_dset_eq].
    destruct (_ && _); [apply dget_dset_eq|exact E].
  - destruct (dget (tp_path t) pc) as [h|]; [|by rewrite dget_dset_ne]. destruct (_ && _); [|done]. by rewrite dget_dset_ne.
Qed.

Lemma bound_as_twice before o key : bound_as before (Some (bound_as before o key)) key = bound_as before o key.
Proof.
  unfold bound_as. destruct o as [h|].
  - destruct ((h =s MISSING_FILE_DEPENDENCY) && negb (nonempty (before key))) eqn:E; [done|by rewrite E].
  - destruct (_ && _) eqn:E; [|done]. apply andb_true_iff in E as [_ E]. by destruct (before key).
Qed.

(** Every extra target is bound, to its earlier evidence where there is any and to its
    live hash where there is none; no other path is touched. *)
Theorem extra_targets_bound before pc extra key :
  dget key (extra_preconditions before pc extra) =
  if decide (key ∈ tp_path <$> extra) then Some (bound_as before (dget key pc) key) else dget key pc.
Proof.
  unfold extra_preconditions. revert pc. induction extra as [|t extra IH]; intros pc; [done|]. cbn [foldl]. rewrite IH, fmap_cons, bind_extra_spec.
  destruct (decide (key = tp_path t)) as [->|Hne].
  - rewrite (decide_True (P := tp_path t ∈ tp_path t :: _)) by left. destruct (decide _); [by rewrite bound_as_twice|done].
  - destruct (decide (key ∈ tp_path <$> extra)) as [H|H].
    + by rewrite decide_True by by right.
    + rewrite decide_False; [done|]. by intros [?|?]%elem_of_cons.
Qed.

(** A second agent holds the work of the first, and writes itself into the state. *)
Definition hold (text : pystr) (event : value) : res state_error pystr :=
  patch_state text [(py "last_event", event); (py "updated", str_value "2024-05-01T10:01:00Z"); (py "agent", str_value "beta");
                    (py "next_action", str_value "WAIT: user brake -- hold")].
Definition held_by_beta : res stop plan :=
  _state_only_plan no_runtime [py "r"] None None sample_install (sample_docs building_state building_board) sample_clock "beta"
    "hold-0123" (λ _, []) hold "hold" None None false.
Lemma state_only_keeps_the_seat_witness :
  ∃ p st', held_by_beta = Ok p ∧ parse_frontmatter (pl_state p) = Ok st' ∧ text_is st' "agent" "alpha" ∧
    text_at st' "next_action" = py "WAIT: user brake -- hold".
Proof.
  destruct held_by_beta as [p|] eqn:E; [|by vm_compute in E]. exists p.
  destruct (state_only_keeps_the_seat no_runtime [py "r"] None None sample_install (sample_docs building_state building_board) sample_clock (py "beta")
              (py "hold-0123") (λ _, []) hold (py "hold") None None false p E) as (st & line & mutated & Hst & Hm & _ & _ & _ & _ & _ & Hseat & _).
  assert (st = parsed building_state) as ->.
  { assert (read_state sample_install (sample_docs building_state building_board) = Ok (parsed building_state)) as Hr by (vm_compute; reflexivity).
    congruence. }
  assert (match parse_frontmatter mutated with
          | Ok fs => is_lf mutated && startswith "---" mutated && bool_decide (dget (py "agent") fs = Some (str_value "beta"))
                     && (text_at fs "next_action" =s "WAIT: user brake -- hold")
          | Err _ => false end = true) as Hw.
  { match type of Hm with ?l = _ => assert (mutated = match l with Ok m => m | Err _ => [] end) as -> by (by rewrite Hm) end. vm_compute. reflexivity. }
  destruct (parse_frontmatter mutated) as [fs|] eqn:Ef; [|done]. rewrite !andb_true_iff, bool_decide_eq_true in Hw. destruct Hw as [[[H1 H2] H3] H4].
  destruct (Hseat ltac:(vm_compute; discriminate) ltac:(vm_compute; discriminate) fs (conj (is_lf_only _ H1) (conj H2 Ef)))
    as (st' & Hf & Ha & Hk); [intros items; by rewrite H3|].
  exists st'. split_and!; [reflexivity|exact Hf|exact Ha|]. unfold text_at, text_field. rewrite Hk by done.
  unfold eqs in H4. by rewrite bool_decide_eq_true in H4.
Defined.

Definition goal_stuck : board := parse_board (board_lines [] [] [] ["- [ ] T-9 b | blocker: HELD | blocker_scope: goal"]).
Lemma stop_reason_is_true_witness :
  ∃ text' fs', _settle_stop_reason sample_install building_state goal_stuck (Some (py "alpha")) noon = Ok text' ∧
    parse_frontmatter text' = Ok fs' ∧ text_is fs' "stop_reason" "GOAL_BLOCKED".
Proof.
  destruct (stop_reason_is_true sample_install building_state (parsed building_state) goal_stuck (Some (py "alpha")) noon
              (is_lf_only building_state ltac:(vm_compute; reflexivity)) ltac:(vm_compute; reflexivity) ltac:(vm_compute; reflexivity))
    as (text' & fs' & Ht & Hf & Hs & _).
  exists text', fs'. split_and!; [exact Ht|exact Hf|]. apply Hs. split_and!; [|vm_compute; reflexivity|vm_compute; discriminate].
  intros t Hin%list_elem_of_In. assert (existsb (λ t, in_section t DOING) (dvalues (b_tickets goal_stuck)) = false) as H by (vm_compute; reflexivity).
  destruct (in_section t DOING) eqn:E; [|reflexivity]. rewrite <-H. symmetry. apply existsb_exists. exists t. split; [exact Hin|exact E].
Defined.
