(* ===== verification/Claim.v ===== *)
(** * The planner of a claim

    [_plan_claim] of [tools/saipen_engine/operations.py]: how an agent takes the seat
    of a ticket. A ticket in progress is adopted, taken over or has its lease refreshed
    in place; a queued ticket moves under the heading of the work in progress. *)

From S2P Require Import Prelude PyStr PyStrFacts PyUnicode PyRegex PyDict Phases BoardClock BoardRecord BoardParse BoardClaims BoardEdit BoardCompact.
From S2P Require Import JournalFs LogLine LogHistory LogVerdict LogEvidence LogLedger Ownership StateDoc StateWait AuditInbox Router FastCheck Watchdog Transition Checkpoint.

(** ** The claimant *)

(** The instants of a claim: the stamps of the event and of the claim, the frozen
    instant of the operation, and the readings of the clock by the checks that do not
    use it. *)
Record claim_clock : Type := ClaimClock { cc_now : pystr; cc_utc : pystr; cc_instant : Z; cc_continue : Z; cc_todo : Z; cc_check : Z }.

(** What the process presents: whether it carries a lease, what [current_carrier]
    proves of it at each of its three readings, the session it is bound to, the state
    document [can_continue_claim] reads, and the inbox ([None] where its projection
    raised). *)
Record claimant : Type := Claimant {
  cl_carrier : bool;
  cl_guard : option lease;
  cl_witness : option lease;
  cl_continue : option lease;
  cl_session : option pystr;
  cl_state : option fields;
  cl_inbox : option inbox;
}.

(** [claim_witnesses] *)
Definition claim_witnesses (current : option lease) : dict pystr pystr :=
  match current with
  | Some l => [(py "claim_run", default [] (bd_run (l_binding l))); (py "claim_generation", str_of_int (l_generation l))]
  | None => []
  end.

(** ** The record that is claimed *)

Definition QUEUED_MARK : pystr := "- [ ] ".
Definition claim_mark (agent utc : pystr) (session_binding : option pystr) (enforce_cap : bool) (run_witnesses : option (dict pystr pystr))
    (line : pystr) : res record_error pystr :=
  marked ← set_ticket_field (rstrip (replace_one QUEUED_MARK "- [/] " line)) "owner" agent enforce_cap;
  marked ← set_ticket_field marked "claim_time" utc enforce_cap;
  marked ← with_session session_binding enforce_cap marked;
  marked ← remove_fields CLAIM_WITNESSES marked;
  set_fields enforce_cap (default [] run_witnesses) marked.

(** One pass over the lines: what is kept, the last queued record of the ticket, and
    where the heading of the work in progress was seen last. *)
Record claim_sift : Type := ClaimSift { cs_out : list pystr; cs_record : option pystr; cs_doing : option nat }.
Definition claim_step (ticket_id : pystr) (s : claim_sift) (line : pystr) : claim_sift :=
  if opens [QUEUED_MARK] ticket_id line then ClaimSift (cs_out s) (Some (rstrip_lf line)) (cs_doing s)
  else ClaimSift (cs_out s ++ [line]) (cs_record s) (if startswith DOING (rstrip_lf line) then Some (length (cs_out s)) else cs_doing s).

Definition _claim_move (board_text ticket_id agent utc : pystr) (session_binding : option pystr) (enforce_cap : bool)
    (run_witnesses : option (dict pystr pystr)) : res edit_error pystr :=
  let s := foldl (claim_step ticket_id) (ClaimSift [] None None) (keeplines board_text) in
  match cs_record s, cs_doing s with
  | Some ticket_line, Some doing_idx =>
      marked ← on_record (claim_mark agent utc session_binding enforce_cap run_witnesses ticket_line);
      Ok (List.concat (list_insert_at (S doing_idx) (marked ++ LF) (cs_out s)))
  | _, _ => Err (NoRecord ticket_id)
  end.

(** ** What a claim writes *)

Inductive taking : Type := Refreshed | Adopted (continued resumed : bool) | Claimed.

(** The texts a claim writes, in the order of its targets: the detail files of its
    event line and the log, the details of a compacted record, the board, the state.
    A refreshed lease writes the board alone. *)
Record claim_plan : Type := ClaimPlan {
  cm_taking : taking;
  cm_event : option N;
  cm_details : list target_plan;
  cm_log : option pystr;
  cm_compacted : list target_plan;
  cm_board : pystr;
  cm_state : option pystr;
}.

Section planner.
Context (parse_runtime_provenance : pystr → res pystr pystr).
Context (root : path) (project_identity project_lineage_identity : option pystr) (home : install) (store : detail_store).
Local Abbreviation _event_line := (_event_line root project_identity project_lineage_identity).
Local Abbreviation prepare_existing := (prepare_existing root project_identity project_lineage_identity store).
Local Abbreviation _project_board_mutation := (_project_board_mutation root project_identity project_lineage_identity store).

Section claim.
Context (d : documents) (st : fields) (b : board) (c : claim_clock) (k : claimant) (agent ticket_id op_id : pystr) (explicit : bool).

Definition refused (c : code) : refusal := plain c (Some ticket_id).
Definition texts_pass (state_text board_text log_text : pystr) : res stop () :=
  match validate_texts parse_runtime_provenance home (Some agent) (Some (d_history d)) [] (cc_check c) state_text board_text log_text with
  | [] => Ok tt
  | errors => Err (Refused (Refusal VALIDATION_FAILED None None None errors))
  end.

Definition claim_event (message : pystr) : res stop draft :=
  _event_line (Draft (d_log d) (s_tail (d_history d)) []) "DEC" (Some ticket_id) agent message (cc_now c) op_id.

Definition scout : pystr := "PHASE SCOUT " +s ticket_id.
(** The fields of a state that enters the work anew. *)
Definition scout_fields : fields :=
  [(py "phase", str_value "SCOUT"); (py "next_action", str_value scout); (py "transition_from", str_value (or_else (text_field st "phase") "DONE"))].

(** ** A ticket in progress *)

Section active.
Context (t : ticket) (continued : bool) (compacted : compaction).
Local Abbreviation witnesses := (claim_witnesses (cl_witness k)).

(** The claim on the active ticket; the fenced predecessor of this run counts as stale. *)
Definition standing : seat_status :=
  if continued then Seat FOREIGN_STALE
  else ow_status (classify_active_ownership (SeatState (text_field st "task") (text_field st "agent")) (b_tickets b) (Some agent)
                    (cc_instant c) (Some (cl_session k))).

Definition handoff_command : pystr := "saipen handoff " +s ticket_id +s " --to " +s agent +s " --authority <SRC-###>".
Definition active_guard : option refusal :=
  if cl_carrier k && negb continued && session_locked_out t (cl_session k) (cc_instant c) then Some (refused TICKET_NOT_WORKABLE)
  else match standing with
       | Seat FOREIGN_LIVE => Some (Refusal TICKET_NOT_WORKABLE (Some ticket_id) None (Some handoff_command) [])
       | Seat INVALID => Some (refused VALIDATION_FAILED)
       | Seat SELF => None
       | _ => refuse_if (nonempty (text_at st "attempt")) (refused VALIDATION_FAILED)
       end.

Definition in_place (changed : dict pystr pystr) : res stop pystr :=
  lift BoardRaises (_claim_fields_in_place (cp_text compacted) ticket_id changed true (cl_session k) (Some witnesses)).

Definition refresh : res stop claim_plan :=
  new_board ← in_place [(py "claim_time", cc_utc c)];
  _ ← texts_pass (d_state d) new_board (d_log d);
  Ok (ClaimPlan Refreshed None [] None (cp_targets compacted) new_board None).

Definition adoption_message : res stop pystr :=
  if continued then
    match dget (py "claim_generation") witnesses, dget (py "claim_run") witnesses with
    | Some generation, Some run =>
        Ok ("claimed via SAIOPS -- continued fenced generation " +s fget "claim_generation" (t_fields t) +s " -> " +s generation
            +s " in run " +s run +s "; owner " +s agent)
    | _, _ => Err (KeyRaises "claim_generation")
    end
  else if bool_decide (standing = Seat FOREIGN_STALE) then
    Ok ("claimed via SAIOPS -- took over STALE claim from " +s fval "owner" (t_fields t)
        +s " (prior claim_time " +s fval "claim_time" (t_fields t) +s "); owner " +s agent)
  else Ok ("claimed via SAIOPS -- owner " +s agent).

(** The state already works on the ticket. *)
Definition resume_in_place : bool := bool_decide (text_field st "task" = Some ticket_id) && ticket_bearing st.
Definition adopted_fields (event : value) : fields :=
  [(py "task", str_value ticket_id); (py "last_event", event); (py "updated", str_value (cc_utc c)); (py "agent", str_value agent)]
  ++ (if resume_in_place then [] else scout_fields).

Definition adopt : res stop claim_plan :=
  message ← adoption_message;
  log ← claim_event (_actor_provenance st agent message);
  new_board ← in_place [(py "owner", agent); (py "claim_time", cc_utc c)];
  new_state ← lift StateRaises (patch_state (d_state d) (adopted_fields (event_id log)));
  _ ← texts_pass new_state new_board (dr_log log);
  Ok (ClaimPlan (Adopted continued resume_in_place) (dr_tail log) (dr_details log) (Some (dr_log log)) (cp_targets compacted) new_board (Some new_state)).

Definition claim_active : res stop claim_plan :=
  _ ← guard active_guard;
  if bool_decide (standing = Seat SELF) then refresh else adopt.
End active.

(** ** A queued ticket *)

Definition eligible_guard (t : ticket) : option refusal :=
  if negb (in_section t TODO) then Some (refused TICKET_NOT_WORKABLE)
  else if negb (open_checkbox t) then Some (refused TICKET_NOT_WORKABLE)
  else if bool_decide (claim_status t (Some agent) (cc_todo c) = INVALID) then Some (refused VALIDATION_FAILED)
  else if nonempty (text_at st "attempt") then Some (refused VALIDATION_FAILED)
  else if negb (forallb (is_done (b_tickets b)) (t_needs t)) then Some (refused TICKET_NOT_WORKABLE)
  else if negb (bool_decide (doing b = [])) then Some (refused ALREADY_CLAIMED)
  else match reserved_continuation_child (b_tickets b) (Some agent) (cc_instant c) with
       | Some child => refuse_if (negb (t_id child =s ticket_id)) (refused (CONTINUATION_RESERVED (t_id child)))
       | None => None
       end.

Definition AUDIT_ROUTE : pystr := "audit route (SOURCE-AUDIT-INBOX-01)".
Definition _audit_route_basis : option pystr :=
  if audit_route_owns (cl_inbox k) (Some (b_tickets b)) (Some agent) (cc_instant c) && bool_decide (cl_inbox k ≫= ib_work = Some ticket_id)
  then Some AUDIT_ROUTE else None.

Definition top_workable : option pystr := (pick_next_work (b_tickets b) (Some agent) (cc_instant c)).1.
Definition is_top : bool := bool_decide (top_workable = Some ticket_id).
Definition basis_of (basis : option pystr) : option pystr :=
  match basis with Some _ => basis | None => if is_top then None else _audit_route_basis end.
Definition pick_guard (basis : option pystr) : option refusal :=
  refuse_if (negb explicit && bool_decide (basis = None) && negb is_top) (refused (NOT_TOP_WORKABLE top_workable)).
(** The ticket the claim stepped over. *)
Definition stepped_over (basis : option pystr) : option pystr :=
  if (explicit || bool_decide (is_Some (truthy basis))) && negb is_top then top_workable else None.
Definition claim_message (basis : option pystr) : pystr :=
  ("claimed via SAIOPS -- owner " +s agent)
  +s match stepped_over basis, basis with
     | Some top, Some why => " -- " +s why +s ", ahead of PICK-01 topmost workable " +s top
     | Some top, None => " -- EXPLICIT claim over PICK-01: topmost workable was " +s top
     | None, _ => []
     end.

Definition UPDATE_REASON : pystr := "existing/proposed oversized BOARD record requires canonical claim update".
Definition claimed_fields (event : value) : fields :=
  [(py "phase", str_value "SCOUT"); (py "task", str_value ticket_id); (py "next_action", str_value scout);
   (py "transition_from", str_value (or_else (text_field st "phase") "DONE")); (py "last_event", event); (py "updated", str_value (cc_utc c));
   (py "agent", str_value agent)].
Definition claim_queued_texts (basis : option pystr) : res stop claim_plan :=
  log ← claim_event (claim_message basis);
  projected ← _project_board_mutation op_id (OneEvent ("E-" +s str_of (default 0%N (dr_tail log)))) UPDATE_REASON
                (λ _, Refused (refused VALIDATION_FAILED)) (d_board d)
                (λ text, lift (λ _, Refused (refused VALIDATION_FAILED))
                           (_claim_move text ticket_id agent (cc_utc c) (cl_session k) false (Some (claim_witnesses (cl_witness k)))))
                [ticket_id];
  new_state ← lift StateRaises (patch_state (d_state d) (claimed_fields (event_id log)));
  _ ← texts_pass new_state (cp_text projected) (dr_log log);
  Ok (ClaimPlan Claimed (dr_tail log) (dr_details log) (Some (dr_log log)) (cp_targets projected) (cp_text projected) (Some new_state)).
Definition claim_queued (t : ticket) (basis : option pystr) : res stop claim_plan :=
  _ ← guard (eligible_guard t);
  _ ← guard (pick_guard (basis_of basis));
  claim_queued_texts (basis_of basis).

(** ** The plan *)

(** The ticket that may be claimed at all. *)
Definition claim_subject : res stop ticket :=
  match dget ticket_id (b_tickets b) with
  | None => Err (Refused (refused TICKET_NOT_FOUND))
  | Some t =>
      _ ← guard (refuse_if (bool_decide (is_Some (non_work_event ticket_id (history_events d)))) (refused TICKET_NOT_WORKABLE));
      _ ← guard (refuse_if (cl_carrier k && bool_decide (cl_guard k = None)) (plain FENCED_LEASE_GENERATION None));
      Ok t
  end.
Definition EXISTING_REASON : pystr := "existing oversized BOARD record requires canonical claim update".
Definition claim_ticket (basis : option pystr) : res stop claim_plan :=
  t ← claim_subject;
  let continued := can_continue_claim (cl_continue k) (cl_session k) (cl_state k) t (cc_continue c) in
  compacted ← lift (λ _, Refused (refused VALIDATION_FAILED)) (prepare_existing op_id NoEventId EXISTING_REASON (d_board d) [ticket_id] None []);
  _ ← guard (refuse_if (ticket_has_blocker t) (refused TICKET_NOT_WORKABLE));
  if in_section t DOING then claim_active t continued compacted else claim_queued t basis.
End claim.

Definition _plan_claim (d : documents) (c : claim_clock) (k : claimant) (ticket_id agent op_id : pystr) (explicit : bool) (basis : option pystr)
    : res stop claim_plan :=
  st ← read_state home d;
  let b := parse_board (d_board d) in
  _ ← guard (refuse_if (negb (bool_decide (b_errors b = []))) (plain VALIDATION_FAILED (Some ticket_id)));
  claim_ticket d st b c k agent ticket_id op_id explicit basis.
End planner.
