(* ===== verification/ClaimFacts.v ===== *)
(** * What a claim proves

    The conditions of [Claim._plan_claim] in a declarative form, and what holds of
    the texts it writes. *)

From S2P Require Import Prelude PyStr PyStrFacts PyUnicode PyRegex PyDict Phases BoardClock BoardRecord BoardParse BoardClaims BoardEdit BoardCompact.
From S2P Require Import JournalFs LogLine LogHistory LogVerdict LogEvidence LogLedger Ownership StateDoc StateDocFacts StatePatch StateWait StateContract.
From S2P Require Import AuditInbox Router RouterFacts FastCheck FastCheckFacts Watchdog Transition TransitionFacts Checkpoint CheckpointFacts Claim.

Ltac decided := apply (bool_decide_unpack _); vm_compute; exact I.

Section claim.
Context (parse_runtime_provenance : pystr → res pystr pystr).
Context (root : path) (project_identity project_lineage_identity : option pystr) (home : install) (store : detail_store).
Local Abbreviation _plan_claim := (_plan_claim parse_runtime_provenance root project_identity project_lineage_identity home store).
Local Abbreviation refresh := (refresh parse_runtime_provenance home).
Local Abbreviation adopt := (adopt parse_runtime_provenance root project_identity project_lineage_identity home).
Local Abbreviation claim_queued_texts := (claim_queued_texts parse_runtime_provenance root project_identity project_lineage_identity home store).
Local Abbreviation gate := (validate_texts parse_runtime_provenance home).

(** ** When a ticket may be claimed *)

Section conditions.
Context (d : documents) (st : fields) (b : board) (c : claim_clock) (k : claimant) (agent ticket_id : pystr) (explicit : bool).
Local Abbreviation standing := (standing st b c k agent).

(** The active ticket is the agent's to take: another session does not hold it while
    this process carries a lease, no one else holds a live claim and the claim can be
    read; a ticket that changes hands has no open attempt. *)
Record adoptable (t : ticket) (continued : bool) : Prop := {
  ad_session : cl_carrier k = true → continued = false → session_locked_out t (cl_session k) (cc_instant c) = false;
  ad_live : standing continued ≠ Seat FOREIGN_LIVE;
  ad_valid : standing continued ≠ Seat INVALID;
  ad_attempt : standing continued = Seat SELF ∨ text_at st "attempt" = [];
}.

Lemma active_guard_exact t continued : active_guard st b c k agent ticket_id t continued = None ↔ adoptable t continued.
Proof.
  unfold active_guard. destruct (cl_carrier k && negb continued && session_locked_out t (cl_session k) (cc_instant c)) eqn:El.
  { rewrite !andb_true_iff, negb_true_iff in El. destruct El as [[H1 H2] H3]. split; [done|]. intros [H _ _ _]. by rewrite H in H3. }
  assert (cl_carrier k = true → continued = false → session_locked_out t (cl_session k) (cc_instant c) = false) as Hs
    by (intros H1 ->; by rewrite H1 in El).
  destruct (standing continued) as [|[]] eqn:Es; rewrite ?refuse_if_None, ?nonempty_false;
    (split; [intros H; split; rewrite ?Es; first [done|by left|by right]|intros [_ H1 H2 [H3|H3]]; rewrite ?Es in *; done]).
Qed.

(** A queued ticket may be taken: it is open, its claim can be read, no attempt is open,
    its needs are done, the seat is free and reserved for no other ticket, and it is the
    pick, or the operator or the router names it. *)
Record claimable (t : ticket) (basis : option pystr) : Prop := {
  ca_queued : t_section t = TODO;
  ca_open : open_checkbox t = true;
  ca_valid : claim_status t (Some agent) (cc_todo c) ≠ INVALID;
  ca_attempt : text_at st "attempt" = [];
  ca_needs : ∀ need, need ∈ t_needs t → ∃ n, dget need (b_tickets b) = Some n ∧ t_section n = DONE;
  ca_free : ∀ x, x ∈ dvalues (b_tickets b) → t_section x ≠ DOING;
  ca_reserved : ∀ child, reserved_continuation_child (b_tickets b) (Some agent) (cc_instant c) = Some child → t_id child = ticket_id;
  ca_pick : explicit = true ∨ is_Some (basis_of b c k agent ticket_id basis) ∨ top_workable b c agent = Some ticket_id;
}.

Lemma in_section_true t s : in_section t s = true ↔ t_section t = s.
Proof. unfold in_section, eqs. apply bool_decide_eq_true. Qed.
Lemma doing_nil : doing b = [] ↔ ∀ x, x ∈ dvalues (b_tickets b) → t_section x ≠ DOING.
Proof.
  unfold doing. split.
  - intros H x Hx Hs%in_section_true. apply (not_elem_of_nil x). rewrite <-H. by apply list_elem_of_filter.
  - intros H. destruct (base.filter _ _) as [|x l] eqn:E; [done|]. assert (x ∈ base.filter (λ t, in_section t DOING = true) (dvalues (b_tickets b))) as Hx
      by (rewrite E; left). apply list_elem_of_filter in Hx as [Hs Hx]. by apply in_section_true, (H x) in Hs.
Qed.
Lemma needs_done needs : forallb (is_done (b_tickets b)) needs = true ↔ ∀ need, need ∈ needs → ∃ n, dget need (b_tickets b) = Some n ∧ t_section n = DONE.
Proof.
  rewrite forallb_forall. apply forall_proper. intros need. rewrite <-list_elem_of_In. unfold is_done.
  destruct (dget need (b_tickets b)) as [n|]; [rewrite in_section_true|]; naive_solver.
Qed.

Lemma refuse_chain (x : bool) (r : refusal) o : (if x then Some r else o) = None ↔ x = false ∧ o = None.
Proof. destruct x; naive_solver. Qed.

Lemma queued_guards_exact t basis :
  eligible_guard st b c agent ticket_id t = None ∧ pick_guard b c agent ticket_id explicit (basis_of b c k agent ticket_id basis) = None ↔ claimable t basis.
Proof.
  unfold eligible_guard, pick_guard, is_top. rewrite refuse_if_None, !refuse_chain, !andb_false_iff, !negb_false_iff, !bool_decide_eq_false, !bool_decide_eq_true,
    nonempty_false, in_section_true, needs_done, doing_nil.
  assert (∀ o : option ticket, match o with Some child => refuse_if (negb (t_id child =s ticket_id)) (refused ticket_id (CONTINUATION_RESERVED (t_id child))) | None => None end = None
          ↔ ∀ child, o = Some child → t_id child = ticket_id) as Hr.
  { intros [child|]; [|naive_solver]. rewrite refuse_if_None, negb_false_iff. unfold eqs. rewrite bool_decide_eq_true. naive_solver. }
  rewrite Hr, not_eq_None_Some. split; [intros; destruct_and!; split; tauto|intros []; tauto].
Qed.
End conditions.

(** What every claim asks of the ticket and of the process. *)
Record admitted (d : documents) (b : board) (k : claimant) (ticket_id : pystr) (t : ticket) : Prop := {
  am_board : b_errors b = [];
  am_ticket : dget ticket_id (b_tickets b) = Some t;
  am_work : non_work_event ticket_id (history_events d) = None;
  am_lease : cl_carrier k = true → is_Some (cl_guard k);
  am_unblocked : ticket_has_blocker t = false;
}.

Lemma subject_exact d b k ticket_id t :
  claim_subject d b k ticket_id = Ok t ↔
  dget ticket_id (b_tickets b) = Some t ∧ non_work_event ticket_id (history_events d) = None ∧ (cl_carrier k = true → is_Some (cl_guard k)).
Proof.
  unfold claim_subject. destruct (dget ticket_id (b_tickets b)) as [x|]; [|split; [done|by intros (? & _)]].
  rewrite !bind_guard, !refuse_if_None, andb_false_iff, !bool_decide_eq_false. rewrite <-eq_None_not_Some, not_eq_None_Some.
  split; [intros (? & Hl & [= ->]); split_and!; [done..|]; intros Hc; destruct Hl as [Hl|Hl]; [congruence|done]|].
  intros ([= ->] & ? & Hl). split_and!; [done| |done]. destruct (cl_carrier k); [right; auto|by left].
Qed.

(** A claim is planned exactly when the state and the board read, the ticket is
    unblocked work of this process's lease, and either the ticket is in progress and the
    agent's to take, or it is queued and may be taken; and the texts it drafts pass the
    write gate. No other path takes a seat: an explicit claim is asked everything but
    whether it is the pick. *)
Theorem claim_exact d c k ticket_id agent op_id explicit basis p :
  _plan_claim d c k ticket_id agent op_id explicit basis = Ok p ↔
  ∃ st t compacted, let b := parse_board (d_board d) in
    let continued := can_continue_claim (cl_continue k) (cl_session k) (cl_state k) t (cc_continue c) in
    let mine := bool_decide (standing st b c k agent continued = Seat SELF) in
    read_state home d = Ok st ∧ admitted d b k ticket_id t ∧
    prepare_existing root project_identity project_lineage_identity store op_id NoEventId EXISTING_REASON (d_board d) [ticket_id] None [] = Ok compacted ∧
    (t_section t = DOING ∧ adoptable st b c k agent t continued ∧
       (if mine then refresh d c k agent ticket_id compacted else adopt d st b c k agent ticket_id op_id t continued compacted) = Ok p ∨
     claimable st b c k agent ticket_id explicit t basis ∧
       claim_queued_texts d st b c k agent ticket_id op_id explicit (basis_of b c k agent ticket_id basis) = Ok p).
Proof.
  unfold Claim._plan_claim, claim_ticket. rewrite bind_is_Ok. cbv zeta. apply exist_proper. intros st. rewrite bind_guard, refuse_if_None, negb_false_iff, bool_decide_eq_true, bind_is_Ok.
  split.
  - intros (Hst & He & t & (Ht & Hn & Hl)%subject_exact & (cp & Hcp%lift_Ok & H)%bind_is_Ok). apply bind_guard in H as [Hb%refuse_if_None H].
    exists t, cp. split_and!; [done|by split|done|]. destruct (in_section t DOING) eqn:Es.
    + left. apply bind_guard in H as [Hg%active_guard_exact H]. apply in_section_true in Es. split_and!; [done..|]. by destruct (bool_decide _).
    + right. apply bind_guard in H as [Hg H]. apply bind_guard in H as [Hp H]. split; [|done]. by apply queued_guards_exact.
  - intros (t & cp & Hst & [He Ht Hn Hl Hb] & Hcp & H). split_and!; [done..|]. exists t. split; [by apply subject_exact|].
    apply bind_is_Ok. exists cp. split; [by apply lift_Ok|]. apply bind_guard. split; [by apply refuse_if_None|].
    destruct H as [(Hs & Hg & Hx)|(Hc & Hx)].
    + rewrite (proj2 (in_section_true _ _) Hs). apply bind_guard. split; [by apply active_guard_exact|]. by destruct (bool_decide _).
    + assert (in_section t DOING = false) as ->.
      { destruct (in_section t DOING) eqn:E; [|done]. apply in_section_true in E. destruct Hc as [Hc _ _ _ _ _ _ _]. rewrite Hc in E. done. }
      apply queued_guards_exact in Hc as [H1 H2]. unfold claim_queued. by rewrite !bind_guard.
Qed.

(** ** Whose seat is taken *)

(** No live claim is taken. Whatever is asked, explicitly or by a route, the one
    ticket in progress is the one that is claimed, and when another agent or another
    session holds a live claim on it, the claim belongs to a generation of this run that
    was fenced: no later state of the lease lets it mutate again. *)
Theorem live_claim_is_kept d c k ticket_id agent op_id explicit basis p f expected presented at_ :
  cl_continue k = current_carrier f expected presented at_ →
  length (doing (parse_board (d_board d))) ≤ 1 →
  _plan_claim d c k ticket_id agent op_id explicit basis = Ok p →
  ∀ t, t ∈ doing (parse_board (d_board d)) →
    t_id t = ticket_id ∧
    let status := claim_status t (Some agent) (cc_instant c) in
    (status = FOREIGN_LIVE ∨ status = SELF ∧ session_locked_out t (cl_session k) (cc_instant c) = true →
     ∃ g, decimal (fget "claim_generation" (t_fields t)) = Some g ∧
       ∀ later worker instant, rtc step f later → mutation_allowed later worker g instant = false).
Proof.
  intros Hk Hone (st & t & cp & _ & [He Ht _ _ _] & _ & H)%claim_exact x Hx. cbv zeta in H.
  pose proof (parse_board_ok (d_board d)) as [[_ Hid] _].
  destruct H as [(Hs & Ha & _)|[[_ _ _ _ _ Hfree _ _] _]].
  2: { apply list_elem_of_filter in Hx as [Hs Hx]. apply in_section_true in Hs. by destruct (Hfree x Hx). }
  assert (t ∈ doing (parse_board (d_board d))) as Htd.
  { apply list_elem_of_filter. split; [by apply in_section_true|]. apply dget_Some_elem in Ht. by apply (list_elem_of_fmap_2 snd _ (ticket_id, t)). }
  destruct (doing (parse_board (d_board d))) as [|y [|z l]] eqn:Ed; [by apply elem_of_nil in Hx| |cbn in Hone; lia].
  apply list_elem_of_singleton in Hx as ->, Htd as ->. split; [by apply (Hid ticket_id y), dget_Some_elem|]. cbv zeta. intros Hlive.
  destruct (can_continue_claim _ _ _ y _) eqn:Ec.
  { rewrite Hk in Ec. by eapply continued_claim_is_dead. }
  destruct Ha as [_ Hnl _ _]. destruct Hnl. unfold standing, classify_active_ownership. unfold doing in Ed. rewrite Ed. cbn [ow_status].
  destruct Hlive as [->|[-> ->]]; done.
Qed.

(** ** What a claim writes *)

Definition SEAT_FIELDS : list pystr := strs ["task"; "last_event"; "updated"; "agent"].
Definition ROUTE_FIELDS : list pystr := strs ["phase"; "next_action"; "transition_from"].
(** The claim enters the work anew, and does not resume it where it stands. *)
Definition enters (how : taking) : bool := match how with Adopted _ true => false | _ => true end.

(** The fields a claim owns, in either order it writes them in. *)
Record seated (st : fields) (c : claim_clock) (agent ticket_id : pystr) (ev : value) (fresh : bool) (o : fields) : Prop := {
  se_within : within OWNED o;
  se_task : dget (py "task") o = Some (str_value ticket_id);
  se_event : dget (py "last_event") o = Some ev;
  se_updated : dget (py "updated") o = Some (str_value (cc_utc c));
  se_agent : dget (py "agent") o = Some (str_value agent);
  se_phase : dget (py "phase") o = if fresh then Some (str_value "SCOUT") else None;
  se_action : dget (py "next_action") o = if fresh then Some (str_value (scout ticket_id)) else None;
  se_from : dget (py "transition_from") o = if fresh then Some (str_value (or_else (text_field st "phase") "DONE")) else None;
  se_rest : ∀ k, k ∉ SEAT_FIELDS → (fresh = true → k ∉ ROUTE_FIELDS) → dget k o = None;
}.

Lemma seated_intro st c agent ticket_id ev (fresh : bool) (o : fields) :
  wf_dict o → Forall (λ k, k ∈ SEAT_FIELDS ∨ fresh = true ∧ k ∈ ROUTE_FIELDS) (dkeys o) → Forall (λ x, scalar x.2) o →
  dget (py "task") o = Some (str_value ticket_id) → dget (py "last_event") o = Some ev → dget (py "updated") o = Some (str_value (cc_utc c)) →
  dget (py "agent") o = Some (str_value agent) → dget (py "phase") o = (if fresh then Some (str_value "SCOUT") else None) →
  dget (py "next_action") o = (if fresh then Some (str_value (scout ticket_id)) else None) →
  dget (py "transition_from") o = (if fresh then Some (str_value (or_else (text_field st "phase") "DONE")) else None) →
  seated st c agent ticket_id ev fresh o.
Proof.
  intros Hw Hk Hs **. rewrite Forall_forall in Hk. rewrite Forall_forall in Hs. split; try done.
  - split_and!; [done| |].
    + intros k [Hin|[_ Hin]]%Hk; revert k Hin; apply Forall_forall; decided.
    + intros k w Hin%dget_Some_elem. exact (Hs _ Hin).
  - intros k Hn Hr. apply dget_None. intros [?|[? ?]]%Hk; [done|]. by apply Hr.
Qed.

Lemma adopted_seated st c agent ticket_id ev : scalar ev → seated st c agent ticket_id ev (negb (resume_in_place st ticket_id)) (adopted_fields st c agent ticket_id ev).
Proof.
  intros Hev. unfold adopted_fields. destruct (resume_in_place st ticket_id); cbn [negb app];
    (apply seated_intro; [decided|decided|repeat constructor; exact Hev|reflexivity..]).
Qed.
Lemma claimed_seated st c agent ticket_id ev : scalar ev → seated st c agent ticket_id ev true (claimed_fields st c agent ticket_id ev).
Proof. intros Hev. apply seated_intro; [decided|decided|repeat constructor; exact Hev|reflexivity..]. Qed.

(** What a plan that writes the three documents comes from. *)
Record claim_written (d : documents) (st : fields) (c : claim_clock) (agent ticket_id : pystr) (p : claim_plan) (line state_text : pystr) (o : fields) : Prop := {
  df_state : cm_state p = Some state_text;
  df_patch : patch_state (d_state d) o = Ok state_text;
  df_log : cm_log p = Some (append_line (d_log d) line);
  df_line : is_Some (parse_log_line line);
  df_owned : ∃ ev, ev = int_value (Z.of_N (default 0%N (s_tail (d_history d)) + 1)%N) ∧ seated st c agent ticket_id ev (enters (cm_taking p)) o;
  df_gate : gate (Some agent) (Some (d_history d)) [] (cc_check c) state_text (cm_board p) (append_line (d_log d) line) = [];
  df_resumed : enters (cm_taking p) = false → text_field st "task" = Some ticket_id ∧ ticket_bearing st = true;
}.

Lemma claim_event_line d c agent ticket_id op_id message log :
  claim_event root project_identity project_lineage_identity d c agent ticket_id op_id message = Ok log →
  ∃ line, dr_log log = append_line (d_log d) line ∧ is_Some (parse_log_line line) ∧
    event_id log = int_value (Z.of_N (default 0%N (s_tail (d_history d)) + 1)%N).
Proof.
  intros (line & [G1 G2 G3])%event_grown. exists line. cbn [dr_log dr_tail foldl length] in *. inversion_clear G3 as [|? ? [H _] _].
  split_and!; [done|done|]. unfold event_id. by rewrite G2.
Qed.
Lemma texts_pass_Ok d c agent state_text board_text log_text x :
  texts_pass parse_runtime_provenance home d c agent state_text board_text log_text = Ok x →
  gate (Some agent) (Some (d_history d)) [] (cc_check c) state_text board_text log_text = [].
Proof. unfold texts_pass. by destruct (validate_texts _ _ _ _ _ _ _ _ _). Qed.

Lemma claim_drafted d c k ticket_id agent op_id explicit basis p :
  _plan_claim d c k ticket_id agent op_id explicit basis = Ok p → cm_taking p ≠ Refreshed →
  ∃ st t line state_text o, read_state home d = Ok st ∧ admitted d (parse_board (d_board d)) k ticket_id t ∧
    claim_written d st c agent ticket_id p line state_text o.
Proof.
  intros (st & t & cp & Hst & Ha & _ & H)%claim_exact Hne. cbv zeta in H. exists st, t. destruct H as [(_ & _ & H)|[_ H]].
  - destruct (bool_decide _) in H.
    { unfold Claim.refresh in H. apply bind_is_Ok in H as (? & _ & H). apply bind_is_Ok in H as (? & _ & [= <-]). by destruct Hne. }
    unfold Claim.adopt in H. apply bind_is_Ok in H as (message & _ & H). apply bind_is_Ok in H as (log & (line & Hl & Hp & He)%claim_event_line & H).
    apply bind_is_Ok in H as (nb & _ & H). apply bind_is_Ok in H as (ns & Hs%lift_Ok & H). apply bind_is_Ok in H as (? & Hg%texts_pass_Ok & [= <-]).
    rewrite Hl in Hg. exists line, ns, (adopted_fields st c agent ticket_id (event_id log)). split_and!; [done|done|]. split; cbn [cm_state cm_log cm_board cm_taking enters]; [done|done|by rewrite Hl|done| |done|].
    + exists (event_id log). split; [done|]. assert (∀ x : bool, (if x then false else true) = negb x) as Hx by by intros [].
      rewrite Hx. apply adopted_seated. by rewrite He.
    + unfold resume_in_place. destruct (bool_decide (text_field st "task" = Some ticket_id) && ticket_bearing st) eqn:E; [|done].
      apply andb_true_iff in E as [E%bool_decide_eq_true ?]. done.
  - unfold Claim.claim_queued_texts in H. apply bind_is_Ok in H as (log & (line & Hl & Hp & He)%claim_event_line & H).
    apply bind_is_Ok in H as (pr & _ & H). apply bind_is_Ok in H as (ns & Hs%lift_Ok & H). apply bind_is_Ok in H as (? & Hg%texts_pass_Ok & [= <-]).
    rewrite Hl in Hg. exists line, ns, (claimed_fields st c agent ticket_id (event_id log)). split_and!; [done|done|]. split; cbn [cm_state cm_log cm_board cm_taking enters]; [done|done|by rewrite Hl|done| |done|done].
    exists (event_id log). split; [done|]. apply claimed_seated. by rewrite He.
Qed.

Lemma bearing_scout st : dget (py "phase") st = Some (str_value "SCOUT") → ticket_bearing st = true.
Proof. unfold ticket_bearing. intros ->. vm_compute. reflexivity. Qed.
Lemma dashed_text text : startswith "---" text = true → nonempty (strip text) = true.
Proof.
  intros [r ->]%startswith_spec. apply nonempty_true. unfold strip, rstrip. intros H. apply (f_equal reverse) in H. rewrite reverse_involutive in H.
  destruct (drop_while_spec is_space (reverse (lstrip (py "---" ++ r)))) as (p & Hp & Hs & _). rewrite H, app_nil_r in Hp.
  assert (45%N ∈ p) as Hin by (rewrite <-Hp, elem_of_reverse; left). rewrite Forall_forall in Hs. by apply Hs in Hin.
Qed.
Lemma parse_state_or_error_Ok text st : startswith "---" text = true → parse_state_or_error home text = Ok st → parse_frontmatter text = Ok st.
Proof.
  intros H%dashed_text. unfold parse_state_or_error. rewrite H. cbn [negb]. destruct (parse_frontmatter text) as [fs|]; [|done]. cbv zeta.
  destruct (state_contract_errors _ _ _ fs) as [[|? ?]|]; [|done|done]. by intros [= ->].
Qed.

(** The one active ticket of documents the gate accepts. *)
Lemma gate_seat actor sealed now state_text board_text log_text st ticket_id agent :
  gate actor sealed [] now state_text board_text log_text = [] → holds state_text st → ticket_bearing st = true →
  text_is st "task" ticket_id → text_is st "agent" agent → is_full ticket_id_re ticket_id = true →
  let b := parse_board board_text in
  clean_board b ∧ ∃ t, doing b = [t] ∧ t_id t = ticket_id ∧ claim_status t None now ≠ INVALID ∧
    (strip agent ≠ [] → fval "owner" (t_fields t) ≠ [] → fval "owner" (t_fields t) = strip agent).
Proof.
  intros (_ & st' & evs & Hp & _ & C)%gate_coherent (_ & Hd & Hf) Hb Ht Ha Hid. apply parse_state_or_error_Ok in Hp; [|done]. clear Hd. rewrite Hf in Hp. injection Hp as <-. cbv zeta.
  destruct C as [_ Hc _ _ _ _ Hseat Hbound _ _ _]. split; [done|]. unfold bound in Hbound. rewrite Hb in Hbound.
  destruct Hbound as (t & Hd & Htask & _). destruct Hc as [_ _ Hone _ _]. exists t.
  assert (text_field st "task" = Some ticket_id) as Htf by (unfold text_field; by rewrite Ht).
  unfold task_text in Htask. rewrite Htf in Htask. cbn in Htask.
  destruct (doing (parse_board board_text)) as [|x [|y l]] eqn:Ed; [done| |cbn in Hone; lia]. injection Hd as ->.
  split_and!; [done|done|..].
  all: destruct (Hseat t [] eq_refl) as [H1 H2]; [unfold bound_task; cbn [seat_of FastCheckFacts.seat_of ss_task]|].
  all: try (rewrite Htf; destruct (mem ticket_id _) eqn:Em; [|by rewrite Htask]; apply mem_true in Em; destruct (is_full_nonempty_id ticket_id Hid) as [Hn1 Hn2];
    unfold strs in Em; rewrite !fmap_cons, fmap_nil, !elem_of_cons, elem_of_nil in Em; destruct Em as [?|[?|[]]]; done).
  - done.
  - intros Hs. apply H2. cbn [FastCheckFacts.seat_of ss_agent]. unfold text_field. rewrite Ha. cbn. by apply some_text_Some.
Qed.

(** A claim takes the whole seat. Unless it only refreshes the agent's own lease, the
    log grows by one legal line; the state names the ticket, the agent, the line and the
    stamp, enters SCOUT or resumes the phase it is in on this very ticket, and keeps every
    other field; on the board that is written with it the claimed ticket is the one ticket
    in progress, its claim can be read, and an owner it names is the agent. *)
Theorem claim_takes_the_seat d c k ticket_id agent op_id explicit basis p :
  lf_only (d_state d) → startswith "---" (d_state d) = true →
  _plan_claim d c k ticket_id agent op_id explicit basis = Ok p → cm_taking p ≠ Refreshed →
  ∃ st st' state_text line, read_state home d = Ok st ∧ cm_state p = Some state_text ∧ parse_frontmatter state_text = Ok st' ∧
    cm_log p = Some (append_line (d_log d) line) ∧ is_Some (parse_log_line line) ∧
    dget (py "last_event") st' = Some (int_value (Z.of_N (default 0%N (s_tail (d_history d)) + 1)%N)) ∧
    text_is st' "task" ticket_id ∧ text_is st' "agent" agent ∧ text_is st' "updated" (cc_utc c) ∧
    (if enters (cm_taking p)
     then text_is st' "phase" "SCOUT" ∧ text_is st' "next_action" ("PHASE SCOUT " +s ticket_id)
     else text_field st "task" = Some ticket_id ∧ ticket_bearing st = true) ∧
    (∀ key, key ∉ SEAT_FIELDS → (enters (cm_taking p) = true → key ∉ ROUTE_FIELDS) → dget key st' = dget key st) ∧
    let b := parse_board (cm_board p) in
    clean_board b ∧ ∃ t, doing b = [t] ∧ t_id t = ticket_id ∧ claim_status t None (cc_check c) ≠ INVALID ∧
      (strip agent ≠ [] → fval "owner" (t_fields t) ≠ [] → fval "owner" (t_fields t) = strip agent).
Proof.
  intros Hlf Hs Hp Hne. destruct (claim_drafted _ _ _ _ _ _ _ _ _ Hp Hne) as (st & t & line & state_text & o & Hst & Ha & [D1 D2 D3 D4 (ev & -> & Ho) D6 D7]).
  destruct (read_state_Ok _ _ _ Hst) as (Hf & _ & style & V). destruct Ho as [W O1 O2 O3 O4 O5 O6 O7 O8].
  destruct (patch_within _ _ _ _ (conj Hlf (conj Hs Hf)) (λ k, valid_scalars _ _ _ _ k V) W D2) as (st' & Hh & Hd).
  exists st, st', state_text, line. assert (text_is st' "task" ticket_id) as Ht by (unfold text_is; by rewrite Hd, O1).
  assert (text_is st' "agent" agent) as Hag by (unfold text_is; by rewrite Hd, O4).
  assert (ticket_bearing st' = true) as Hb.
  { destruct (enters (cm_taking p)); [apply bearing_scout; by rewrite Hd, O5|]. destruct (D7 eq_refl) as [_ H]. unfold ticket_bearing in *. by rewrite Hd, O5. }
  assert (is_full ticket_id_re ticket_id = true) as Hid.
  { pose proof (parse_board_well_formed (d_board d)) as [_ Hw]. destruct (Hw _ _ (am_ticket _ _ _ _ _ Ha)) as [<- Hok]. apply (ok_id _ Hok). }
  split_and!; [done|done|by destruct Hh as (_ & _ & ?)|done|done|by rewrite Hd, O2|done|done|unfold text_is; by rewrite Hd, O3| | |].
  - destruct (enters (cm_taking p)); [unfold text_is; by rewrite !Hd, O5, O6|by apply D7].
  - intros key Hk Hr. by rewrite Hd, O8.
  - by eapply gate_seat.
Qed.
End claim.

(** ** Concrete claims *)

Definition sample_claim_clock : claim_clock := ClaimClock "01.05.24 10:01" "2024-05-01T10:01:00Z" noon noon noon noon.
(** A process without a lease. *)
Definition unleased : claimant := Claimant false None None None None None None.
Definition idle_state : pystr := state_lines "DONE" "none" "saipen continue" ["blocker: none"].
Definition two_queued : pystr := board_lines [] ["- [ ] T-1 first | verify: tests"; "- [ ] T-2 second | verify: tests"] [] [].
Definition claim_of (state board : pystr) (k : claimant) (tid agent : pystr) (explicit : bool) : res stop claim_plan :=
  _plan_claim no_runtime [py "r"] None None sample_install no_details (sample_docs state board) sample_claim_clock k tid agent "claim-0123" explicit None.
Definition claim_verdict (r : res stop claim_plan) : option taking + option code :=
  match r with Ok p => inl (Some (cm_taking p)) | Err (Refused x) => inr (Some (rf_code x)) | Err _ => inr None end.

(** The worker of generation one has died with its claim live; its successor in the same
    run carries generation two. *)
Definition run_binding : binding := Binding (Some (py "run-1")) (Some (py "/r")) (Some (py "lineage")).
Definition dead_lease : lease := Lease "w-1" 1 0 "HEALTHY" run_binding None [].
Definition successor : store :=
  match replace_worker (Some dead_lease) "w-2" noon SUSPECT_AFTER EXPIRE_AFTER run_binding with Replaced l => Some l | _ => None end.
Definition successor_carrier : carrier := Carrier "run-1" "w-2" "2" None None.
Definition proven_lease : option lease := current_carrier successor run_binding successor_carrier noon.
Definition next_worker : claimant := Claimant true proven_lease proven_lease proven_lease (Some (py "session-2")) (Some (parsed building_state)) None.
Definition live_board : pystr :=
  board_lines ["- [/] T-1 build it | owner: alpha | claim_time: 2024-05-01T11:59:00Z | claim_session: session-1 | claim_run: run-1 | claim_generation: 1"] [] [] [].

(** The pick is claimed, another ticket only explicitly; a live claim stops a stranger,
    and not the successor of the worker that was fenced. *)
Lemma sample_claims :
  (claim_verdict (claim_of idle_state two_queued unleased "T-1" "alpha" false),
   claim_verdict (claim_of idle_state two_queued unleased "T-2" "alpha" false),
   claim_verdict (claim_of idle_state two_queued unleased "T-2" "alpha" true),
   claim_verdict (claim_of building_state live_board unleased "T-1" "beta" true),
   claim_verdict (claim_of building_state live_board next_worker "T-1" "beta" false))
  = (inl (Some Claimed), inr (Some (NOT_TOP_WORKABLE (Some (py "T-1")))), inl (Some Claimed), inr (Some TICKET_NOT_WORKABLE),
     inl (Some (Adopted true true))).
Proof. vm_compute. reflexivity. Qed.

Lemma live_claim_is_kept_witness :
  ∃ g, ∀ later worker instant, rtc step successor later → mutation_allowed later worker g instant = false.
Proof.
  destruct (claim_of building_state live_board next_worker "T-1" "beta" false) as [p|] eqn:E; [|by vm_compute in E].
  destruct (dget (py "T-1") (b_tickets (parse_board live_board))) as [t|] eqn:Et; [|by vm_compute in Et].
  assert (t ∈ doing (parse_board live_board)) as Hin.
  { apply list_elem_of_filter. split; [|apply dget_Some_elem in Et; by apply (list_elem_of_fmap_2 snd _ (py "T-1", t))].
    assert (match dget (py "T-1") (b_tickets (parse_board live_board)) with Some t => in_section t DOING | None => false end = true) as H
      by (vm_compute; reflexivity). by rewrite Et in H. }
  destruct (live_claim_is_kept no_runtime [py "r"] None None sample_install no_details (sample_docs building_state live_board) sample_claim_clock
    next_worker "T-1" "beta" "claim-0123" false None p successor run_binding successor_carrier noon eq_refl ltac:(vm_compute; lia) E t Hin) as (_ & H).
  destruct H as (g & _ & H).
  - left. assert (match dget (py "T-1") (b_tickets (parse_board live_board)) with
                  | Some t => bool_decide (claim_status t (Some (py "beta")) noon = FOREIGN_LIVE) | None => false end = true) as Hs
      by (vm_compute; reflexivity). rewrite Et in Hs. by apply bool_decide_eq_true in Hs.
  - exists g. exact H.
Defined.
